(* ===== verification/_CoqProject ===== *)
-Q . S2P
Prelude.v
Strs.v
JsonValue.v
Trees.v
BTree.v
Event.v
Startup.v
Inference.v
Template.v
Envelope.v
Crypto.v
Actuator.v
Policy.v
Commands.v
KeyFile.v
Registry.v
AuditStore.v
Knowledge.v
Orchestrator.v
AgentPull.v
KnowledgeFormat.v
EndToEnd.v
Taps.v
Kube.v
KubeLogs.v
ApiAuth.v
Floats.v
FloatFacts.v
RateLimit.v
ServerConfig.v
AgentConfig.v
Buffer.v
Fleet.v
Queries.v
KubeMain.v
Enrollment.v
AgentMain.v
TapLoops.v
ServerBoot.v
Settings.v
Api.v
ControlPlane.v
Reads.v
Lifecycle.v
Nats.v
Metrics.v
SystemRun.v
EvalRubric.v
EvalReport.v
EvalRun.v
McpClient.v
Mcp.v
