(* ===== verification/Prelude.v ===== *)
(** * Verification of Ravn: the control plane, the agents and the executors

  Ravn watches a fleet of hosts and a Kubernetes cluster, explains what it sees,
  and remediates known faults with signed, audited commands.  This development
  models the Rust crates of the repository (paths below are under
  [src/crates/]) and proves what makes the remediation path trustworthy.

  ** The system and its parts

  An agent ([ravn-agent]) turns journal records, failed units, configuration
  drift and updates into events and sends them, through an offline buffer, to the
  control plane ([ravn-server]); in a cluster [ravn-k8s] does the same from
  Kubernetes events, node conditions and pod logs.  The control plane stores the
  event, matches it against a catalog of templates, asks the policy engine, and
  builds a command whose parameters come from the event.  The command is signed
  ([ravn-crypto]), audited and queued; the agent pulls it, checks it against its
  pinned keyring and its ledger, and hands it to the privileged actuator
  ([ravn-actuator]), which verifies it again, checks the preconditions, runs the
  typed steps, polls the post-condition and rolls back.  [ravn-k8s] runs the same
  handler over the Kubernetes API.  The result closes the audit record and feeds
  the knowledge base.

  ** The files

  - [Prelude], [Strs], [JsonValue], [Trees], [BTree], [Startup]: results with [?],
    tactics and list lemmas; Rust's string functions on byte strings;
    [serde_json]'s values; interaction trees and what holds of everything they may
    do; [BTreeMap<String, V>] in key order; environment variables and error chains.
  - [Event] (ravn-core/src/event.rs, payload.rs, message.rs, heartbeat.rs,
    enrollment.rs); [Template] and [Envelope] (ravn-core/src/remediation.rs): the
    data model, template validation, Kubernetes labels, placeholder resolution,
    the signed envelope and the fields its signature covers.
  - [Crypto] (ravn-crypto/src/lib.rs): signing, verification, keyring.
  - [Inference] (ravn-agent/src/inference.rs, ravn-server/src/inference.rs):
    prompts, the exchange with the model, the reading of its reply.
  - [Actuator] (ravn-actuator/src/lib.rs, main.rs): [handle_command] with its
    preconditions, steps, verify loop and rollback, in a monad over the state of
    the world with a log of what was run; connections; the [systemctl] executor.
  - [Policy] (ravn-server/src/policy.rs): rules, kill switch, circuit breaker,
    glob matching.
  - [Commands] (ravn-server/src/command.rs): the signer and the per-agent queue;
    [KeyFile]: the file of the signing key over restarts.
  - [Registry] (ravn-server/src/remediation.rs, lines 1-470): event fields,
    template loading and matching, parameters, proposals, commands.
  - [AuditStore] (ravn-server/src/remediation.rs, [RemediationStore], and
    ravn-server/src/db.rs, remediation statements): the audit table and the
    de-duplicating store in front of it.
  - [Knowledge], [KnowledgeFormat] (ravn-server/src/knowledge.rs): entries, their
    file format, recall and recording; the round trip of the format.
  - [Orchestrator] (ravn-server/src/remediation.rs, [prepare_inner] onwards;
    ravn-server/src/api.rs, remediation endpoints): the handlers composed, and
    runs of the control plane as lists of operations.
  - [AgentPull] (ravn-agent/src/remediation.rs): pinned keyring, ledger, command
    processing with crashes and restarts as steps, poll loop with backoff.
  - [EndToEnd]: the queue, the agent, the actuator's connection and the result
    endpoint composed into one pull.  [SystemRun]: the server with any number of agents
    and hosts as one machine of interleaved steps.
  - [Taps], [TapLoops] (ravn-agent/src/detection, main.rs): the classifiers and
    state machines of journald, auth, failed units, drift and updates; the run loops
    around them and the taps a configuration starts.
  - [Kube], [KubeLogs] (ravn-k8s/src): executor, command loop, event mapping and
    watcher, node conditions, log scraper with its bounded cache.  [KubeMain]
    (ravn-k8s/src/config.rs, http.rs, nats.rs, bin/): the configuration, both
    transports, the watches and the three programs, composed with the ingest
    endpoint of the control plane.
  - [ApiAuth] (ravn-server/src/auth.rs, api.rs): tokens, roles, the middleware.
  - [Buffer] (ravn-agent/src/buffer.rs, main.rs): the offline buffer and how it
    drains.
  - [Fleet] (ravn-server/src/db.rs, ingest.rs, ca.rs, api.rs): agent registry,
    topology, ingest, enrollment.  [Queries]: the registry's [SELECT]s as what they may
    return from the tables, with an evaluator, and the abstract roster the tables
    implement.  [Reads]: what runs of the server do to the registry, and what the
    reading endpoints show of it.
  - [Floats], [FloatFacts]: binary64 arithmetic, parsing and printing over the
    Standard Library's [SpecFloat], and what rounding can add.  [RateLimit]
    (ravn-server/src/state.rs): the token bucket of the ingest.
  - [AgentConfig] (ravn-agent/src/config.rs), [Enrollment]
    (ravn-agent/src/enrollment.rs), [AgentMain] (ravn-agent/src/main.rs,
    transport.rs): the agent from its configuration over enrollment to its main
    loop, the digest, the heartbeat and the choice of transport.
  - [ServerConfig], [ServerBoot] (ravn-server/src/config.rs, main.rs, state.rs): the
    environment, the JWKS documents, and start-up to the state that is served.
  - [Settings], [Api], [ControlPlane] (ravn-server/src/api.rs, ingest.rs): the
    settings document, the routes with every handler on the state of the server,
    and runs of the server with its message loops and spawned tasks.  [Metrics]
    (ravn-server/src/metrics.rs): registration, and what a scrape gathers.
  - [Nats] (ravn-agent/src/transport.rs, ravn-server/src/ingest.rs): the agents'
    NATS transport, the server's subscriptions and the subjects in between.
  - [Lifecycle]: the abstract machine of a remediation's life, which runs of the
    control plane refine.
  - [EvalRubric], [EvalReport], [EvalRun] (ravn-eval/src): the rubric and the means
    in machine arithmetic, the tables and the page, the backends, the runner and the
    command line.
  - [McpClient], [Mcp] (ravn-mcp/src): the MCP server as an interaction tree.

  Definitions keep the names of the sources; a prefix ([keyring_], [store_],
  [ledger_], ...) stands for the type of a method.  State is passed explicitly;
  a handler that reads the clock, draws an identifier or calls the database takes
  what it gets as an argument, so that every theorem holds for all of them.

  ** Interfaces

  Code that is not in the repository is a class, with what the code relies on as
  the laws of a second class, and an executable instance used by the examples:
  [Ed25519], [Base64] with [CryptoLaws]; [SerdeJson] with [SerdeJsonLaws];
  [SerdeValue], [MessageJson], [WireFormat], [RpcSerde], [Extractors], [JwksJson];
  [Rfc3339], [UuidText] with their laws; [Lru] with [LruLaws]; [Jwt]; [Http] with
  [HttpLaws]; [Rcgen]; [Prometheus] with [PrometheusLaws]; [Collation] (the database's
  order of texts) with [CollationLaws];
  [Broker] with [BrokerLaws].  [Host] is the actuator's own trait [CapabilityExecutor] with
  the clocks, [HostLaws] what its theorems need of the clocks; [systemctl_host] and
  [kube_host] are its two implementations, so that the theorems on [handle_command]
  hold for both.  [Cluster] is the Kubernetes API.

  ** What the theorems show

  - Authority: nothing is executed unless the envelope verifies and every target
    is well formed ([handle_command_authorised], [verify_with_accepts],
    [command_loop_at_most_once], [executor_acts_under_its_key]); what a handled command does is one of the traces
    of a declarative specification ([handle_command_conforms]) and the reported
    status means what it says ([handle_command_status_sound]).
  - Automation: an automatically issued command was allowed by an automatic rule
    with the kill switch off and is never dangerous ([auto_commands_guarded],
    [evaluate_decides]); the breaker bounds them in every window
    ([breaker_bounds_autos]).
  - Audit: a queued command has its record ([commands_audited]); the table and the
    store in front of it keep their invariant, rows are never lost, and an
    approval happens once ([store_invariant], [audit_append_only],
    [approve_once]).
  - The whole server: what a request changes and reads follows from its
    credentials ([api_access_control]), and every command in the queue goes back to
    an administrator or to the policy, over requests, subscriptions and tasks in any
    order ([commands_need_authority]).  Over such runs the audit table refines an
    abstract machine, with steps only by those entitled to them
    ([control_refines_lifecycle]), so that every remediation in it has a history of
    opening, authorisation and result in this order ([remediation_history]).
  - The whole system: whatever runs on a host, over interleaved steps of the server,
    the agents and the actuators with crashes and losses, is authorised by an envelope
    that goes back to an administrator or to the policy, dispatched once
    ([executed_under_authority]).
  - The registry: over runs of the server the tables refine a roster whose every change
    comes from a step that may make it ([control_keeps_roster]); the stored events are
    the received ones and none is lost ([events_received]); the listing, the single
    agent, the categories and the gauge agree ([registry_views_agree]), and so do the
    topology's severities and the feed with the stored events ([dashboard_faithful]).
  - The whole loop: every issued command is closed by one pull in which nothing is
    down ([issued_commands_complete]); an alarm reaches the control plane or stays
    in the buffer whatever the model and the network do ([no_alarm_lost],
    [outbox_drains], [digest_faithful]); enrollment leaves the agent with the
    identity and the command keys of the control plane ([enrollment_establishes_trust]).
  - At most once: over crashes, restarts and re-deliveries the agent dispatches a
    command at most once ([at_most_once]), the queue hands each command out
    exactly once ([queue_exactly_once]).
  - Keys: rotation with overlap, retirement, the keyring document, and keyrings
    that are never replaced by an empty one ([rotation_overlap_verifies],
    [retired_key_rejected], [keyring_json_roundtrip], [reload_keyring_fail_safe],
    [agent_keyring_never_empty]); the signing key survives restarts, torn writes
    included ([restarts_keep_key]).
  - Templates: validation, resolution against its declarative relation, and
    building a command from a fault ([validate_accepts], [resolve_str_renders],
    [validated_template_resolves], [kube_resolution_closed],
    [match_event_first], [resolve_params_spec], [build_command_sound]).
  - Start-up: a partial or unreadable configuration ends it, and what the
    environment says about automation binds every later run ([startup_fail_closed],
    [boot_establishes_invariants], [config_all_or_nothing],
    [agent_config_bounded], [agent_start]).
  - Access: the middleware, the ingest and the enrollment ([auth_mw_sound],
    [ingest_sound], [enroll_binds_identity]); the MCP server's gate and its
    protocol ([mcp_read_only], [mcp_one_response]).
  - Documents: the knowledge base and the settings are read back as written
    ([kb_remembers], [settings_read_back]); a model's reply survives its wrapping
    ([reply_recovered]).
  - Detection and delivery: signals on edges, once, within bounds
    ([failed_unit_alarm], [drift_reported_once], [node_signals_on_edges],
    [dedup_window]); the reports on a file, on the system's generation and from the
    journal have no gap ([drift_reports_chain], [update_reports_chain],
    [journal_reports]); what ravn-k8s reports as published is stored
    ([kube_signals_stored]); the broker is transparent ([broker_transparent]); the offline buffer refines a bounded queue
    ([buffer_refines_queue]); the topology partitions the fleet
    ([topology_partitions]).
  - Algorithms: [glob_match_correct] (against the declarative relation),
    [slug_safe], [handle_command_terminates], [backoff_bounds].
  - Machine arithmetic: the token bucket lets through what its capacity and rate
    allow, up to the rounding ([rate_limit_bound]); the scores of the rubric stay on
    their scale ([score_bounded]).
  - Metrics: registration succeeds and no counter goes down ([metrics_new_ok],
    [counters_never_decrease]).
  - Evaluation: the corpus does not depend on the order of the directory, and the
    replay of the recordings ends in a ranked report ([load_corpus_deterministic],
    [replay_is_ranked]).

  Some theorems record where the code falls short of what it says and are named
  after the behaviour ([approval_without_record],
  [forged_envelope_suppresses_genuine], [reject_overwrites_approved],
  [insert_race_duplicates], [breaker_race], [torn_append_forgets],
  [viewer_drains_queue], [viewer_reads_secrets], [half_enrolled_stays_unpinned],
  [drift_panics_the_loop], [huge_timeout_panics], [slug_collides],
  [comma_param_lost], [glob_star_in_text_missed], [diff_truncation_panics],
  [huge_cap_drops_everything], [count_may_decrease], [nan_capacity_refuses],
  [lost_signal_not_retried], [accepted_but_lost], [best_overall_below_one],
  [keywords_inside_words], [debug_access_not_streamed], [timeouts_never_counted],
  [executor_results_unheard],
  ...).

  ** Fuel

  Few functions take fuel.  The placeholder scanners consume at least four bytes a
  turn and the trimming of white space one, so the length of the input is enough
  ([resolve_loop_fuel], [placeholders_loop_fuel]).  The
  glob matcher makes at most [glob_fuel] turns, and [glob_match_correct] has no
  fuel in its statement.  The verify loop of [handle_command] polls until the
  deadline; [handle_command_terminates] shows that [poll_budget] polls are always
  enough and that more fuel changes nothing.  The MCP server, which never ends by
  itself, is an interaction tree.

  ** What is not modelled

  Transport and I/O (NATS, HTTP, WebSockets, sockets, journalctl and D-Bus) are
  inputs: what they answer is an argument, and every theorem holds for all answers.
  The database's statements on agents, labels, events and the audit table are
  functions on tables, and its queries what they may return; that a query answers from
  one state of the tables is a hypothesis where a theorem needs it ([answered]).  Left
  out are the text formats of others (the metrics' exposition, certificates, OpenAPI),
  CORS preflights (answered by the framework), the opening of connections, the
  migrations and the ping of the database, signals and the set-up of logging, the
  portal and the deployment.  Logging is left out everywhere.  Concurrency is modelled
  where the sources interleave on shared state: the breaker's two locks, the store's
  check and insertion, the approval's enqueueing and update, the server's tasks, the
  agents' command loops with their crashes; elsewhere a step is a whole handler.

  ** Possible extensions

  The suspension points inside the server's handlers as steps of [SystemRun]; the
  detection loop of [AgentMain] as further steps of it. *)

From Stdlib Require Export Ascii.
From stdpp Require Export base gmap strings list pretty option relations.

(** ** Fallible computations

  [result E A] is Rust's [Result<A, E>]; the monad instances give the [?]
  operator as stdpp's bind notation. *)

Inductive result (E A : Type) : Type :=
  | Ok (a : A)
  | Err (e : E).
Arguments Ok {E A} a.
Arguments Err {E A} e.

#[export] Instance result_ret {E} : MRet (result E) := fun A a => Ok a.
#[export] Instance result_bind {E} : MBind (result E) :=
  fun A B f r => match r with Ok a => f a | Err e => Err e end.
#[export] Instance result_fmap {E} : FMap (result E) :=
  fun A B f r => match r with Ok a => Ok (f a) | Err e => Err e end.

#[export] Instance result_eq_dec {E A} `{EqDecision E, EqDecision A} :
  EqDecision (result E A).
Proof. solve_decision. Defined.

(** [Result::is_ok]. *)
Definition is_ok {E A} (r : result E A) : bool :=
  match r with Ok _ => true | Err _ => false end.

(** [Result::map_err]. *)
Definition map_err {E F A} (f : E -> F) (r : result E A) : result F A :=
  match r with Ok a => Ok a | Err e => Err (f e) end.

(** [Option::ok_or]. *)
Definition ok_or {E A} (e : E) (o : option A) : result E A :=
  match o with Some a => Ok a | None => Err e end.

(** [Result::ok]. *)
Definition result_ok {E A} (r : result E A) : option A :=
  match r with Ok a => Some a | Err _ => None end.

(** [iter().map(f).collect::<Result<Vec<_>, _>>()]: the first error wins. *)
Fixpoint collect_result {E A B} (f : A -> result E B) (l : list A) : result E (list B) :=
  match l with
  | [] => Ok []
  | x :: l' =>
      match f x with
      | Err e => Err e
      | Ok y => match collect_result f l' with Ok ys => Ok (y :: ys) | Err e => Err e end
      end
  end.

Section Results.
Context {E A B : Type}.
Implicit Types (f : A -> result E B) (l : list A).

Lemma bind_Ok_inv f (r : result E A) (b : B) :
  (r ≫= f) = Ok b -> exists a, r = Ok a /\ f a = Ok b.
Proof. destruct r as [a|e]; cbn; [eauto|discriminate]. Qed.

Lemma collect_result_Ok f l k :
  collect_result f l = Ok k <-> Forall2 (fun x y => f x = Ok y) l k.
Proof.
  revert k; induction l as [|x l IH]; intros k; cbn.
  - split; [intros [= <-]; constructor | by inversion_clear 1].
  - split.
    + destruct (f x) as [y|] eqn:Hx; [|discriminate].
      destruct (collect_result f l) as [ys|] eqn:Hl; [|discriminate].
      intros [= <-]. constructor; [done|]. by apply IH.
    + inversion_clear 1 as [|? y ? ys Hx Hl]. apply IH in Hl. by rewrite Hx, Hl.
Qed.

Lemma collect_result_Err f l e :
  collect_result f l = Err e -> exists x, x ∈ l /\ f x = Err e.
Proof.
  induction l as [|x l IH]; cbn; [discriminate|].
  destruct (f x) as [y|] eqn:Hx.
  - destruct (collect_result f l) eqn:Hl; [discriminate|]. intros [= ->].
    destruct IH as (z & Hz & Hfz); [done|]. exists z. split; [by right|done].
  - intros [= ->]. exists x. split; [by left|done].
Qed.

Lemma collect_result_all_Ok f l :
  (forall x, x ∈ l -> exists y, f x = Ok y) -> exists k, collect_result f l = Ok k.
Proof.
  induction l as [|x l IH]; intros H; cbn; [eauto|].
  destruct (H x) as [y ->]; [by left|].
  destruct IH as [k ->]; [intros z Hz; apply H; by right|]. eauto.
Qed.
End Results.

(** ** Tactics

  [split_bool] turns conjunctions and disjunctions of tests into
  propositions. *)

Ltac split_bool :=
  repeat match goal with
    | H : (_ && _)%bool = true |- _ => apply andb_true_iff in H as [? ?]
    | H : (_ || _)%bool = false |- _ => apply orb_false_iff in H as [? ?]
    | H : negb _ = true |- _ => apply negb_true_iff in H
    | H : negb _ = false |- _ => apply negb_false_iff in H
    | H : String.eqb _ _ = true |- _ => apply String.eqb_eq in H
    | H : String.eqb _ _ = false |- _ => apply String.eqb_neq in H
    | H : N.eqb _ _ = true |- _ => apply N.eqb_eq in H
    | H : N.eqb _ _ = false |- _ => apply N.eqb_neq in H
    | H : Z.leb _ _ = true |- _ => apply Z.leb_le in H
    | H : Z.leb _ _ = false |- _ => apply Z.leb_gt in H
    | H : Z.ltb _ _ = true |- _ => apply Z.ltb_lt in H
    | H : Z.ltb _ _ = false |- _ => apply Z.ltb_ge in H
    end.

Ltac destruct_match_in H :=
  match type of H with
  | context [match ?x with _ => _ end] =>
      lazymatch x with context [match _ with _ => _ end] => fail | _ => destruct x eqn:? end
  end.

Ltac destruct_match_goal :=
  match goal with
  | |- context [match ?x with _ => _ end] =>
      lazymatch x with context [match _ with _ => _ end] => fail | _ => destruct x eqn:? end
  end.

(** [break H] case-analyses every test in [H] until none is left. *)
Ltac break H := repeat (destruct_match_in H; simplify_eq/=).
Ltac break_goal := repeat (destruct_match_goal; simplify_eq/=).

(** ** Hint database of the development *)
Create HintDb ravn.
Create Rewrite HintDb ravn.

(** ** List lemmas the components share *)

Section Lists.
Context {A : Type}.
Implicit Types (l k : list A) (P : A -> bool).

(** [Iterator::find]. *)
Definition find_first (P : A -> bool) (l : list A) : option A := List.find P l.

Lemma find_first_Some P l x :
  find_first P l = Some x <->
  exists l1 l2, l = l1 ++ x :: l2 /\ P x = true /\ Forall (fun y => P y = false) l1.
Proof.
  unfold find_first. revert x; induction l as [|y l IH]; intros x; cbn.
  - split; [discriminate|]. intros ([|] & ? & ? & _); simplify_list_eq.
  - destruct (P y) eqn:Hy.
    + split.
      * intros [= ->]. exists [], l. auto.
      * intros ([|z l1] & l2 & Heq & Hx & Hl1); simplify_list_eq; [done|].
        apply Forall_cons in Hl1 as [Hz _]. congruence.
    + rewrite IH. split.
      * intros (l1 & l2 & -> & Hx & Hl1). exists (y :: l1), l2. auto.
      * intros ([|z l1] & l2 & Heq & Hx & Hl1); simplify_list_eq; [congruence|].
        apply Forall_cons in Hl1 as [_ Hl1]. eauto.
Qed.

Lemma find_first_None P l :
  find_first P l = None <-> Forall (fun y => P y = false) l.
Proof.
  unfold find_first. induction l as [|y l IH]; cbn; [done|].
  rewrite Forall_cons. destruct (P y) eqn:Hy; [|by rewrite IH; intuition].
  split; [discriminate|]. intros [? _]; congruence.
Qed.

Lemma forallb_elem_of P l :
  forallb P l = true <-> (forall x, x ∈ l -> P x = true).
Proof. rewrite forallb_forall. by setoid_rewrite list_elem_of_In. Qed.

Lemma existsb_elem_of P l :
  existsb P l = true <-> (exists x, x ∈ l /\ P x = true).
Proof. rewrite existsb_exists. by setoid_rewrite list_elem_of_In. Qed.
End Lists.

(** A test of every number below a bound. *)
Lemma N_below (k : nat) (f : N -> bool) :
  forallb f (map N.of_nat (seq 0 k)) = true -> forall n, (n < N.of_nat k)%N -> f n = true.
Proof.
  intros Hf n Hn. rewrite forallb_elem_of in Hf. apply Hf. apply list_elem_of_fmap.
  exists (N.to_nat n). split; [lia|]. apply elem_of_seq. lia.
Qed.

(** Induction on the length of a list. *)
Lemma list_length_ind {A} (P : list A -> Prop) :
  (forall l, (forall k, length k < length l -> P k) -> P l) -> forall l, P l.
Proof. intros HP l. induction l using (induction_ltof1 _ (@length A)). apply HP. auto. Qed.
