(* ===== verification/Strs.v ===== *)
(** * Rust strings

    A Rust [String] is valid UTF-8; it is modelled by Rocq's [string], the list
    of its bytes.  This file defines the standard-library functions the sources
    call on strings ([starts_with], [find] with the two slices around the
    match, [trim], [lines], [parse], the [Debug] escape, ...) and the lemmas
    about them that the components share.  Functions that Rust states over
    [char]s count the bytes that start a character; white space is Unicode
    [White_Space], recognised on the UTF-8 encoding. *)

From S2P Require Export Prelude.

#[global] Arguments String.append !_ _ / : simpl nomatch.

(** The code of a byte and the byte classes of [u8]/[char]. *)
Definition code (c : ascii) : N := N_of_ascii c.
Definition in_range (lo hi : N) (c : ascii) : bool := (lo <=? code c)%N && (code c <=? hi)%N.
Definition is_byte (n : N) (c : ascii) : bool := (code c =? n)%N.
Definition is_ascii_lowercase : ascii -> bool := in_range 97 122.
Definition is_ascii_uppercase : ascii -> bool := in_range 65 90.
Definition is_ascii_digit : ascii -> bool := in_range 48 57.
Definition is_ascii_alphanumeric (c : ascii) : bool :=
  is_ascii_lowercase c || is_ascii_uppercase c || is_ascii_digit c.

Definition dquote : string := String (ascii_of_N 34) EmptyString.
Definition newline : string := String (ascii_of_N 10) EmptyString.

(** [s.chars().all(p)] and [s.chars().any(p)] for a [p] false on non-ASCII. *)
Fixpoint str_forallb (p : ascii -> bool) (s : string) : bool :=
  match s with
  | EmptyString => true
  | String c s' => p c && str_forallb p s'
  end.

Definition is_empty (s : string) : bool :=
  match s with EmptyString => true | _ => false end.

(** [s.chars().next()] and [s.chars().last()] as bytes. *)
Definition first_byte (s : string) : option ascii :=
  match s with EmptyString => None | String c _ => Some c end.
Fixpoint last_byte (s : string) : option ascii :=
  match s with
  | EmptyString => None
  | String c s' => match s' with EmptyString => Some c | _ => last_byte s' end
  end.

(** [str::strip_prefix], [str::starts_with]. *)
Fixpoint strip_prefix (p s : string) : option string :=
  match p, s with
  | EmptyString, _ => Some s
  | String a p', String b s' => if Ascii.eqb a b then strip_prefix p' s' else None
  | String _ _, EmptyString => None
  end.
Definition starts_with (p s : string) : bool := bool_decide (is_Some (strip_prefix p s)).

(** [cut p s] is the pair of slices around the first match of [p]:
    [let i = s.find(p)?; (&s[..i], &s[i + p.len()..])], also [split_once]. *)
Fixpoint cut (p s : string) : option (string * string) :=
  match strip_prefix p s with
  | Some r => Some (EmptyString, r)
  | None =>
      match s with
      | EmptyString => None
      | String c s' =>
          match cut p s' with
          | Some (a, b) => Some (String c a, b)
          | None => None
          end
      end
  end.

(** [str::contains]. *)
Definition contains (p s : string) : bool := bool_decide (is_Some (cut p s)).

(** Bytes of a [White_Space] character, by the length of its encoding. *)
Definition is_ws1 (c : ascii) : bool := in_range 9 13 c || is_byte 32 c.
Definition is_ws2 (c d : ascii) : bool := is_byte 194 c && (is_byte 133 d || is_byte 160 d).
Definition is_ws3 (c d e : ascii) : bool :=
  (is_byte 225 c && is_byte 154 d && is_byte 128 e)
  || (is_byte 226 c && is_byte 128 d
      && (in_range 128 138 e || is_byte 168 e || is_byte 169 e || is_byte 175 e))
  || (is_byte 226 c && is_byte 129 d && is_byte 159 e)
  || (is_byte 227 c && is_byte 128 d && is_byte 128 e).

(** One leading white-space character removed; [ws] tells which byte triples
    are one, so that the same code runs on a reversed string. *)
Definition ws_strip (w2 : ascii -> ascii -> bool) (w3 : ascii -> ascii -> ascii -> bool)
    (s : string) : option string :=
  match s with
  | EmptyString => None
  | String c s1 =>
      if is_ws1 c then Some s1
      else match s1 with
           | EmptyString => None
           | String d s2 =>
               if w2 c d then Some s2
               else match s2 with
                    | EmptyString => None
                    | String e s3 => if w3 c d e then Some s3 else None
                    end
           end
  end.

Fixpoint ws_strip_all w2 w3 (fuel : nat) (s : string) : string :=
  match fuel with
  | O => s
  | S n => match ws_strip w2 w3 s with Some s' => ws_strip_all w2 w3 n s' | None => s end
  end.

Fixpoint str_rev_app (s acc : string) : string :=
  match s with EmptyString => acc | String c s' => str_rev_app s' (String c acc) end.
Definition str_rev (s : string) : string := str_rev_app s EmptyString.
(** [Path::join] with a relative name. *)
Definition path_join (dir name : string) : string :=
  if is_empty dir then name
  else match last_byte dir with
       | Some c => if is_byte 47 c then dir +:+ name else dir +:+ "/" +:+ name
       | None => name
       end.
(** [str::strip_suffix]. *)
Definition strip_suffix (suffix s : string) : option string :=
  str_rev <$> strip_prefix (str_rev suffix) (str_rev s).

(** [str::trim_start], [str::trim_end], [str::trim]. *)
Definition trim_start (s : string) : string :=
  ws_strip_all is_ws2 is_ws3 (String.length s) s.
Definition trim_end (s : string) : string :=
  str_rev (ws_strip_all (fun c d => is_ws2 d c) (fun c d e => is_ws3 e d c)
             (String.length s) (str_rev s)).
Definition trim (s : string) : string := trim_end (trim_start s).

(** [str::trim_start_matches(p)], [trim_end_matches(p)], [trim_matches(p)] for
    a byte class. *)
Fixpoint trim_start_matches (p : ascii -> bool) (s : string) : string :=
  match s with
  | EmptyString => EmptyString
  | String c s' => if p c then trim_start_matches p s' else s
  end.
Definition trim_end_matches (p : ascii -> bool) (s : string) : string :=
  str_rev (trim_start_matches p (str_rev s)).
Definition trim_matches (p : ascii -> bool) (s : string) : string :=
  trim_end_matches p (trim_start_matches p s).

(** [str::split(c)] for a byte class: never empty. *)
Fixpoint split_on (p : ascii -> bool) (s : string) : list string :=
  match s with
  | EmptyString => [EmptyString]
  | String c s' =>
      if p c then EmptyString :: split_on p s'
      else match split_on p s' with
           | [] => [String c EmptyString]
           | w :: ws => String c w :: ws
           end
  end.

(** [str::lines]: pieces ended by a newline, each without its newline and one
    carriage return before it; a last piece is kept as it is when not empty. *)
Definition strip_cr (s : string) : string :=
  match last_byte s with
  | Some c => if is_byte 13 c then String.substring 0 (String.length s - 1) s else s
  | None => s
  end.
Fixpoint lines_of (pieces : list string) : list string :=
  match pieces with
  | [] => []
  | [l] => if is_empty l then [] else [l]
  | l :: rest => strip_cr l :: lines_of rest
  end.
Definition lines (s : string) : list string := lines_of (split_on (is_byte 10) s).

(** The first item of [str::split_whitespace]. *)
Fixpoint take_word (s : string) : string :=
  match s with
  | EmptyString => EmptyString
  | String c s' =>
      match ws_strip is_ws2 is_ws3 s with Some _ => EmptyString | None => String c (take_word s') end
  end.
Definition first_word (s : string) : option string :=
  let s := trim_start s in
  if is_empty s then None else Some (take_word s).

(** [to_ascii_lowercase]. *)
Definition to_lower (c : ascii) : ascii :=
  if is_ascii_uppercase c then ascii_of_N (code c + 32) else c.
Fixpoint to_ascii_lowercase (s : string) : string :=
  match s with EmptyString => EmptyString | String c s' => String (to_lower c) (to_ascii_lowercase s') end.

(** [chars().count()] and [chars().take(n)]: a byte outside [0x80..0xBF] starts
    a character. *)
Definition is_cont (c : ascii) : bool := in_range 128 191 c.
Fixpoint char_count (s : string) : nat :=
  match s with
  | EmptyString => 0
  | String c s' => if is_cont c then char_count s' else S (char_count s')
  end.
Fixpoint take_chars (n : nat) (s : string) : string :=
  match s with
  | EmptyString => EmptyString
  | String c s' =>
      if is_cont c then String c (take_chars n s')
      else match n with O => EmptyString | S n' => String c (take_chars n' s') end
  end.

(** [str::len], [&s[..n]] (a panic inside a character) and the [truncate] that
    several files have: [None] is a panic. *)
Definition str_len (s : string) : N := N.of_nat (String.length s).
Definition slice_to (n : N) (s : string) : option string :=
  match String.get (N.to_nat n) s with
  | Some c => if is_cont c then None else Some (String.substring 0 (N.to_nat n) s)
  | None => if (str_len s =? n)%N then Some s else None
  end.
Definition truncate_bytes (s : string) (max : N) : option string :=
  if (str_len s <=? max)%N then Some s else (fun d => d +:+ "…") <$> slice_to max s.

(** [slice::join]. *)
Fixpoint join (sep : string) (l : list string) : string :=
  match l with
  | [] => EmptyString
  | [x] => x
  | x :: l' => x +:+ sep +:+ join sep l'
  end.

(** [Display] of an unsigned and of a signed integer. *)
Definition show_N (n : N) : string := pretty n.
Definition show_Z (z : Z) : string := pretty z.

(** [str::parse] for an unsigned type of maximum [max]: an optional plus sign,
    then one or more digits, within bounds. *)
Fixpoint parse_digits (acc : N) (s : string) : option N :=
  match s with
  | EmptyString => Some acc
  | String c s' =>
      if is_ascii_digit c then parse_digits (10 * acc + (code c - 48))%N s' else None
  end.
Definition parse_uint (max : N) (s : string) : option N :=
  let s := match s with String c s' => if is_byte 43 c then s' else s | _ => s end in
  if is_empty s then None
  else match parse_digits 0 s with
       | Some n => if (n <=? max)%N then Some n else None
       | None => None
       end.
(** [str::parse::<i64>]. *)
Definition parse_i64 (s : string) : option Z :=
  match s with
  | String c s' =>
      if is_byte 45 c then
        if is_empty s' then None
        else match parse_digits 0 s' with
             | Some n => if (n <=? 2 ^ 63)%N then Some (- Z.of_N n)%Z else None
             | None => None
             end
      else option_map Z.of_N (parse_uint (2 ^ 63 - 1) s)
  | EmptyString => None
  end.

(** The [Debug] form of a [str], [{:?}]: the ASCII escapes of Rust; a
    multi-byte character is kept as it is (true of every printable one). *)
Definition hex_digit (n : N) : string :=
  String (ascii_of_N (if (n <? 10)%N then 48 + n else 87 + n)) EmptyString.
Definition hex_code (n : N) : string :=
  if (n <? 16)%N then hex_digit n else hex_digit (n / 16) +:+ hex_digit (n mod 16).
Definition backslash : string := String (ascii_of_N 92) EmptyString.
Definition escape_byte (c : ascii) : string :=
  match code c with
  | 0%N => backslash +:+ "0"
  | 9%N => backslash +:+ "t"
  | 10%N => backslash +:+ "n"
  | 13%N => backslash +:+ "r"
  | 34%N => backslash +:+ dquote
  | 92%N => backslash +:+ backslash
  | n =>
      if (n <? 32)%N || (n =? 127)%N then backslash +:+ "u{" +:+ hex_code n +:+ "}"
      else String c EmptyString
  end.
Fixpoint escape_debug (s : string) : string :=
  match s with EmptyString => EmptyString | String c s' => escape_byte c +:+ escape_debug s' end.
Definition debug_str (s : string) : string := dquote +:+ escape_debug s +:+ dquote.

(** Byte-lexicographic order, Rust's [Ord for str]. *)
Fixpoint str_ltb (a b : string) : bool :=
  match a, b with
  | _, EmptyString => false
  | EmptyString, String _ _ => true
  | String x a', String y b' => if Ascii.eqb x y then str_ltb a' b' else (code x <? code y)%N
  end.

(** ** Appending and prefixes *)

Lemma str_app_assoc (a b c : string) : (a +:+ b) +:+ c = a +:+ (b +:+ c).
Proof. induction a as [|x a IH]; cbn; [done|]. by rewrite IH. Qed.

Lemma str_app_nil_r (a : string) : a +:+ EmptyString = a.
Proof. induction a as [|x a IH]; cbn; [done|]. by rewrite IH. Qed.

Lemma str_length_app (a b : string) :
  String.length (a +:+ b) = String.length a + String.length b.
Proof. induction a as [|x a IH]; cbn; [done|]. by rewrite IH. Qed.

Lemma str_app_inv_head (a b c : string) : a +:+ b = a +:+ c -> b = c.
Proof. induction a as [|x a IH]; cbn; [done|]. intros [= H]. auto. Qed.

Lemma str_app_inj_length (a b c d : string) :
  a +:+ b = c +:+ d -> String.length a = String.length c -> a = c /\ b = d.
Proof.
  revert c; induction a as [|x a IH]; intros [|y c] Heq Hlen; cbn in *; try done.
  injection Heq as -> Heq. destruct (IH c Heq) as [-> ->]; [lia|done].
Qed.

Lemma strip_prefix_Some (p s r : string) : strip_prefix p s = Some r <-> s = p +:+ r.
Proof.
  revert s r; induction p as [|a p IH]; intros s r; cbn.
  - split; congruence.
  - destruct s as [|b s]; [split; discriminate|].
    destruct (Ascii.eqb_spec a b) as [->|Hne].
    + rewrite IH. split; [by intros -> | by intros [= ->]].
    + split; [discriminate | by intros [= ? ?]].
Qed.

Lemma strip_prefix_app (p r : string) : strip_prefix p (p +:+ r) = Some r.
Proof. by apply strip_prefix_Some. Qed.

Lemma starts_with_spec (p s : string) : starts_with p s = true <-> exists r, s = p +:+ r.
Proof.
  unfold starts_with. rewrite bool_decide_eq_true. unfold is_Some.
  by setoid_rewrite strip_prefix_Some.
Qed.

(** ** The first match *)

Lemma cut_Some_app (p s a b : string) : cut p s = Some (a, b) -> s = a +:+ p +:+ b.
Proof.
  revert a b; induction s as [|c s IH]; intros a b; cbn.
  - destruct (strip_prefix p EmptyString) eqn:H; [|discriminate].
    intros [= <- <-]. by apply strip_prefix_Some in H.
  - destruct (strip_prefix p (String c s)) eqn:H.
    + intros [= <- <-]. by apply strip_prefix_Some in H.
    + destruct (cut p s) as [[a' b']|] eqn:Hc; [|discriminate].
      intros [= <- <-]. cbn. by rewrite (IH a' b').
Qed.

Lemma cut_first (p s a b a' b' : string) :
  cut p s = Some (a, b) -> s = a' +:+ p +:+ b' -> String.length a <= String.length a'.
Proof.
  revert a b a' b'; induction s as [|c s IH]; intros a b a' b'; cbn.
  - destruct (strip_prefix p EmptyString); [|discriminate].
    intros [= <- <-] _. cbn. lia.
  - destruct (strip_prefix p (String c s)) eqn:H; [intros [= <- <-] _; cbn; lia|].
    destruct (cut p s) as [[a0 b0]|] eqn:Hc; [|discriminate]. intros [= <- <-] Heq.
    destruct a' as [|x a']; cbn in *.
    + rewrite Heq, strip_prefix_app in H. discriminate.
    + injection Heq as -> Heq. specialize (IH a0 b0 a' b' eq_refl Heq). lia.
Qed.

Lemma cut_None (p s : string) : cut p s = None <-> forall a b, s <> a +:+ p +:+ b.
Proof.
  split.
  - intros H a b ->. revert H. induction a as [|c a IH]; cbn.
    + destruct (p +:+ b) eqn:E; cbn; rewrite <-E, strip_prefix_app; discriminate.
    + destruct (strip_prefix p (String c (a +:+ p +:+ b))); [discriminate|].
      destruct (cut p (a +:+ p +:+ b)) as [[? ?]|]; [discriminate|auto].
  - intros H. destruct (cut p s) as [[a b]|] eqn:E; [|done].
    apply cut_Some_app in E. by destruct (H a b).
Qed.

(** Rebuilding the match: [a +:+ p +:+ b] is cut at [a] unless [p] occurs
    strictly earlier. *)
Lemma cut_app (p a b : string) :
  (forall a' b', a +:+ p +:+ b = a' +:+ p +:+ b' -> String.length a <= String.length a') ->
  cut p (a +:+ p +:+ b) = Some (a, b).
Proof.
  intros Hfirst. destruct (cut p (a +:+ p +:+ b)) as [[x y]|] eqn:E.
  - pose proof (cut_first _ _ _ _ a b E eq_refl) as Hle.
    apply cut_Some_app in E. specialize (Hfirst x y E).
    apply str_app_inj_length in E as [<- E]; [|lia].
    apply str_app_inv_head in E. by subst.
  - rewrite cut_None in E. by destruct (E a b).
Qed.

Lemma cut_length (p s a b : string) :
  cut p s = Some (a, b) -> String.length s = String.length a + String.length p + String.length b.
Proof. intros ->%cut_Some_app. rewrite !str_length_app. lia. Qed.

(** ** Reversal and byte classes *)

Lemma str_forallb_rev_app (p : ascii -> bool) (s acc : string) :
  str_forallb p (str_rev_app s acc) = str_forallb p s && str_forallb p acc.
Proof.
  revert acc; induction s as [|c s IH]; intros acc; cbn; [done|]. rewrite IH. cbn.
  by destruct (p c), (str_forallb p s), (str_forallb p acc).
Qed.

Lemma str_rev_app_involutive (s acc acc' : string) :
  str_rev_app (str_rev_app s acc) acc' = str_rev_app acc (s +:+ acc').
Proof. revert acc; induction s as [|c s IH]; intros acc; cbn; [done|]. by rewrite IH. Qed.

Lemma str_rev_involutive (s : string) : str_rev (str_rev s) = s.
Proof. unfold str_rev. rewrite str_rev_app_involutive. cbn. apply str_app_nil_r. Qed.

Lemma str_forallb_rev (p : ascii -> bool) (s : string) : str_forallb p (str_rev s) = str_forallb p s.
Proof. unfold str_rev. rewrite str_forallb_rev_app. apply andb_true_r. Qed.

Lemma str_forallb_app (p : ascii -> bool) (a b : string) :
  str_forallb p (a +:+ b) = str_forallb p a && str_forallb p b.
Proof. induction a as [|c a IH]; cbn; [done|]. by rewrite IH, andb_assoc. Qed.

Lemma str_forallb_impl (p q : ascii -> bool) (s : string) :
  (forall c, p c = true -> q c = true) -> str_forallb p s = true -> str_forallb q s = true.
Proof. intros Hpq. induction s as [|c s IH]; cbn; [done|]. rewrite !andb_true_iff. naive_solver. Qed.

Lemma str_rev_app_app (s acc : string) : str_rev_app s acc = str_rev s +:+ acc.
Proof.
  unfold str_rev. revert acc; induction s as [|c s IH]; intros acc; cbn; [done|].
  rewrite (IH (String c acc)), (IH (String c EmptyString)), str_app_assoc. done.
Qed.

Lemma str_rev_cons (c : ascii) (s : string) : str_rev (String c s) = str_rev s +:+ String c EmptyString.
Proof. unfold str_rev at 1. cbn. by rewrite str_rev_app_app. Qed.

Lemma last_byte_rev (s : string) : last_byte (str_rev s) = first_byte s.
Proof.
  destruct s as [|c s]; [done|]. rewrite str_rev_cons. cbn. generalize (str_rev s) as t.
  induction t as [|d t IH]; cbn; [done|]. rewrite IH. by destruct (t +:+ _) eqn:E; [destruct t|].
Qed.

Lemma trim_start_matches_suffix (p : ascii -> bool) (s : string) :
  exists a, s = a +:+ trim_start_matches p s.
Proof.
  induction s as [|c s [a IH]]; cbn; [by exists EmptyString|].
  destruct (p c); [|by exists EmptyString]. exists (String c a). cbn. by rewrite <-IH.
Qed.

Lemma trim_start_matches_first (p : ascii -> bool) (s : string) (c : ascii) :
  first_byte (trim_start_matches p s) = Some c -> p c = false.
Proof.
  induction s as [|d s IH]; cbn; [done|]. destruct (p d) eqn:Hd; [done|]. cbn. by intros [= <-].
Qed.

Lemma str_rev_app_distr (a b : string) : str_rev (a +:+ b) = str_rev b +:+ str_rev a.
Proof.
  induction a as [|c a IH]; cbn [String.append]; [by rewrite str_app_nil_r|].
  rewrite !str_rev_cons, IH. apply str_app_assoc.
Qed.

Lemma trim_end_matches_prefix (p : ascii -> bool) (s : string) :
  exists a, s = trim_end_matches p s +:+ a.
Proof.
  unfold trim_end_matches. destruct (trim_start_matches_suffix p (str_rev s)) as [a Ha].
  exists (str_rev a). rewrite <-str_rev_app_distr, <-Ha. by rewrite str_rev_involutive.
Qed.

Lemma path_join_inj (dir n1 n2 : string) : path_join dir n1 = path_join dir n2 -> n1 = n2.
Proof.
  unfold path_join. destruct (is_empty dir); [done|]. destruct (last_byte dir) as [c|]; [|done].
  destruct (is_byte 47 c); [apply str_app_inv_head|]. intros He%str_app_inv_head. by injection He.
Qed.

Lemma path_join_ne (dir n1 n2 : string) : n1 <> n2 -> path_join dir n1 <> path_join dir n2.
Proof. intros Hne He. by apply Hne, (path_join_inj dir). Qed.

(** A stripped suffix was there. *)
Lemma strip_suffix_Some (suffix s r : string) : strip_suffix suffix s = Some r <-> s = r +:+ suffix.
Proof.
  unfold strip_suffix. split.
  - destruct (strip_prefix _ _) as [t|] eqn:Ht; [|done]. intros [= <-]. apply strip_prefix_Some in Ht.
    rewrite <-(str_rev_involutive s), Ht, str_rev_app_distr. by rewrite str_rev_involutive.
  - intros ->. rewrite str_rev_app_distr, strip_prefix_app. cbn. by rewrite str_rev_involutive.
Qed.
