(* ===== verification/JsonValue.v ===== *)
(** * JSON values ([serde_json::Value])

    The values and the accessors the sources use.  An object is the list of its
    distinct fields; a number is kept as its text.  Parsing and printing belong to
    [serde_json] and are parameters where they are used. *)

From S2P Require Export Strs.

Inductive Json :=
  | JNull
  | JBool (b : bool)
  | JNumber (text : string)
  | JString (s : string)
  | JArray (l : list Json)
  | JObject (l : list (string * Json)).

(** [Value::get] with a field name. *)
Definition json_get (k : string) (v : Json) : option Json :=
  match v with
  | JObject l => snd <$> find_first (fun p => String.eqb p.1 k) l
  | _ => None
  end.
Definition as_str (v : Json) : option string :=
  match v with JString s => Some s | _ => None end.
Definition as_bool (v : Json) : option bool :=
  match v with JBool b => Some b | _ => None end.
Definition as_array (v : Json) : option (list Json) :=
  match v with JArray l => Some l | _ => None end.
(** [Value::as_u64]: an integer literal within [u64] (the text of a number has no
    leading plus sign). *)
Definition as_u64 (v : Json) : option N :=
  match v with JNumber text => parse_uint (2 ^ 64 - 1) text | _ => None end.

Definition json_N (n : N) : Json := JNumber (show_N n).
Definition json_opt {A} (f : A -> Json) (o : option A) : Json :=
  match o with Some a => f a | None => JNull end.

Lemma json_get_cons k k' v l :
  json_get k (JObject ((k', v) :: l)) = if String.eqb k' k then Some v else json_get k (JObject l).
Proof. cbn. by destruct (String.eqb k' k). Qed.
