(* ===== verification/Trees.v ===== *)
(** * Interaction trees: what a program may ever do

    A program that talks to its environment is an interaction tree.  [always P t]
    says that every event [t] can perform, on any answers of the environment and
    however long it runs, satisfies [P]; the lemmas follow the structure of the
    program: results, events, sequencing and loops. *)

From ITree Require Import ITree ITreeFacts.
From Paco Require Import paco.
From S2P Require Import Prelude.

(** The bind notation of the development for trees. *)
#[export] Instance itree_ret {E} : MRet (itree E) := fun A a => Ret a.
#[export] Instance itree_bind {E} : MBind (itree E) := fun A B f t => ITree.bind t f.

Section Always.
Context {E : Type -> Type} (P : forall X, E X -> Prop).

Definition always_genF {R} (r : itree E R -> Prop) (ot : itree' E R) : Prop :=
  match ot with
  | RetF _ => True
  | TauF t => r t
  | @VisF _ _ _ X e k => P X e /\ forall x, r (k x)
  end.
Definition always_gen {R} (r : itree E R -> Prop) (t : itree E R) : Prop := always_genF r (observe t).

Lemma always_gen_mon {R} : monotone1 (@always_gen R).
Proof.
  intros t r r' Ht Hr. unfold always_gen in *. destruct (observe t); cbn in *; [exact I|auto|].
  destruct Ht. auto.
Qed.
Hint Resolve always_gen_mon : paco.

Definition always {R} (t : itree E R) : Prop := paco1 always_gen bot1 t.

Lemma always_inv {R} (t : itree E R) : always t -> always_genF always (observe t).
Proof.
  intros Ht. punfold Ht. unfold always_gen in Ht. destruct (observe t); cbn in *; [exact I| |].
  - now pclearbot.
  - destruct Ht as [He Hk]. split; [exact He|]. intros x. specialize (Hk x). now pclearbot.
Qed.

Lemma always_ret {R} (x : R) : always (Ret x).
Proof. pfold. exact I. Qed.

Lemma always_trigger {X} (e : E X) : P X e -> always (ITree.trigger e).
Proof. intros He. pfold. split; [exact He|]. intros x. left. apply always_ret. Qed.

Lemma always_observe {R} (r : itree E R -> Prop) (t u : itree E R) :
  observe t = observe u -> paco1 always_gen r t -> paco1 always_gen r u.
Proof.
  intros Heq Ht. punfold Ht. pfold. unfold always_gen in *. now rewrite <-Heq.
Qed.

Lemma always_weaken {R} (r : itree E R -> Prop) (t : itree E R) : always t -> paco1 always_gen r t.
Proof. intros Ht. eapply paco1_mon; [exact Ht|]. intros ? []. Qed.

Lemma always_bind {A B} (t : itree E A) (k : A -> itree E B) :
  always t -> (forall a, always (k a)) -> always (ITree.bind t k).
Proof.
  intros Ht Hk. revert t Ht. pcofix CIH. intros t Ht. apply always_inv in Ht.
  destruct (observe t) as [a|t'|X e h] eqn:Ho; cbn in Ht.
  - eapply (always_observe _ (k a)); [|now apply always_weaken].
    rewrite observe_bind, Ho. reflexivity.
  - pfold. unfold always_gen. rewrite observe_bind, Ho. cbn. right. now apply CIH.
  - destruct Ht as [He Hh]. pfold. unfold always_gen. rewrite observe_bind, Ho. cbn.
    split; [exact He|]. intros x. right. now apply CIH.
Qed.

(** A loop is its body followed by the loop, [u] being any unfolding of that. *)
Lemma always_iter {A R} (body : A -> itree E (A + R)) (i : A) :
  (forall i, always (body i)) -> always (ITree.iter body i).
Proof.
  intros Hb.
  cut (forall u t, always t ->
         observe u = observe (ITree.bind t (fun lr => match lr with
                                                      | inl l => Tau (ITree.iter body l)
                                                      | inr r => Ret r
                                                      end)) -> always u).
  { intros Hc. apply (Hc _ (body i)); [apply Hb|reflexivity]. }
  pcofix CIH. intros u t Ht Hu. apply always_inv in Ht. rewrite observe_bind in Hu.
  pfold. unfold always_gen. rewrite Hu. destruct (observe t) as [[l|x]|t'|X e h]; cbn in *.
  - right. apply (CIH _ (body l)); [apply Hb|reflexivity].
  - exact I.
  - right. apply (CIH _ t'); [exact Ht|reflexivity].
  - destruct Ht as [He Hh]. split; [exact He|]. intros x. right. now apply (CIH _ (h x)).
Qed.
End Always.

Lemma always_impl {E R} (P Q : forall X, E X -> Prop) (t : itree E R) :
  (forall X e, P X e -> Q X e) -> always P t -> always Q t.
Proof.
  intros HPQ. revert t. pcofix CIH. intros t Ht. apply always_inv in Ht.
  pfold. unfold always_gen. destruct (observe t); cbn in *; [done|by right; apply CIH|].
  destruct Ht as [He Hk]. split; [by apply HPQ|]. intros x. right. by apply CIH.
Qed.

(** The same for the notations of the development. *)
Section Notations.
Context {E : Type -> Type} (P : forall X, E X -> Prop).

Lemma always_mret {R} (x : R) : always P (mret x : itree E R).
Proof. apply always_ret. Qed.

Lemma always_mbind {A B} (t : itree E A) (k : A -> itree E B) :
  always P t -> (forall a, always P (k a)) -> always P (t ≫= k).
Proof. apply always_bind. Qed.
End Notations.

Create HintDb trees.
#[export] Hint Resolve always_ret always_mret always_mbind always_trigger always_iter : trees.
