(* ===== verification/BTree.v ===== *)
(** * Ordered string maps: [BTreeMap<String, V>]

  The iteration order of a [BTreeMap] is observable in the sources (the first
  error of a validation, the rationale of a proposal, the keyring document),
  so the map is the list of its entries in increasing key order. *)

From S2P Require Export Strs.

(** ** Operations *)

Abbreviation btree V := (list (string * V)).

Fixpoint bt_get {V} (k : string) (m : btree V) : option V :=
  match m with
  | [] => None
  | (k', v) :: m' => if String.eqb k k' then Some v else bt_get k m'
  end.

Fixpoint bt_insert {V} (k : string) (v : V) (m : btree V) : btree V :=
  match m with
  | [] => [(k, v)]
  | (k', v') :: m' =>
      if String.eqb k k' then (k, v) :: m'
      else if str_ltb k k' then (k, v) :: (k', v') :: m'
      else (k', v') :: bt_insert k v m'
  end.

Definition bt_keys {V} (m : btree V) : list string := m.*1.
Definition bt_values {V} (m : btree V) : list V := m.*2.
Definition bt_contains_key {V} (k : string) (m : btree V) : bool :=
  bool_decide (is_Some (bt_get k m)).

(** The order invariant of the data structure. *)
Fixpoint bt_ordered {V} (m : btree V) : Prop :=
  match m with
  | [] => True
  | (k, _) :: m' => Forall (fun e => str_ltb k e.1 = true) m' /\ bt_ordered m'
  end.

(** ** The order of keys *)

Lemma code_inj (a b : ascii) : code a = code b -> a = b.
Proof.
  intros H. rewrite <-(ascii_N_embedding a), <-(ascii_N_embedding b). by f_equal.
Qed.

Lemma str_ltb_irrefl (a : string) : str_ltb a a = false.
Proof. induction a as [|x a IH]; cbn; [done|]. by rewrite Ascii.eqb_refl. Qed.

Lemma str_ltb_trans (a b c : string) :
  str_ltb a b = true -> str_ltb b c = true -> str_ltb a c = true.
Proof.
  revert b c; induction a as [|x a IH]; intros [|y b] [|z c]; cbn; try done.
  destruct (Ascii.eqb_spec x y) as [->|Hxy], (Ascii.eqb_spec y z) as [->|Hyz].
  - apply IH.
  - done.
  - rewrite (proj2 (Ascii.eqb_neq x z)) by done. done.
  - rewrite !N.ltb_lt. intros H1 H2.
    destruct (Ascii.eqb_spec x z) as [->|_]; [lia|]. apply N.ltb_lt. lia.
Qed.

Lemma str_ltb_total (a b : string) :
  str_ltb a b = false -> str_ltb b a = false -> a = b.
Proof.
  revert b; induction a as [|x a IH]; intros [|y b]; cbn; try done.
  rewrite (Ascii.eqb_sym y x). destruct (Ascii.eqb_spec x y) as [->|Hxy].
  - intros H1 H2. f_equal. auto.
  - rewrite !N.ltb_ge. intros H1 H2. destruct Hxy. apply code_inj. lia.
Qed.

Lemma str_ltb_neq (a b : string) : str_ltb a b = true -> a <> b.
Proof. intros H ->. by rewrite str_ltb_irrefl in H. Qed.

(** ** Lookup after insertion *)

Section Maps.
Context {V : Type}.
Implicit Types (m : btree V) (k : string) (v : V).

Lemma bt_get_insert k k' v m :
  bt_get k' (bt_insert k v m) = if String.eqb k' k then Some v else bt_get k' m.
Proof.
  induction m as [|[k0 v0] m IH]; cbn; [done|].
  destruct (String.eqb_spec k k0) as [->|Hne]; cbn.
  - by destruct (String.eqb k' k0).
  - destruct (str_ltb k k0); cbn; [done|].
    rewrite IH. destruct (String.eqb_spec k' k0) as [->|]; [|done].
    by rewrite (proj2 (String.eqb_neq k0 k)).
Qed.

Lemma bt_get_insert_eq k v m : bt_get k (bt_insert k v m) = Some v.
Proof. by rewrite bt_get_insert, String.eqb_refl. Qed.

Lemma bt_get_elem k v m : bt_get k m = Some v -> (k, v) ∈ m.
Proof.
  induction m as [|[k0 v0] m IH]; cbn; [done|].
  destruct (String.eqb_spec k k0) as [->|]; [intros [= ->]; by left|].
  intros H. right. auto.
Qed.

Lemma bt_get_is_Some k m : is_Some (bt_get k m) <-> k ∈ bt_keys m.
Proof.
  unfold bt_keys. induction m as [|[k0 v0] m IH]; cbn.
  - rewrite is_Some_alt. set_solver.
  - rewrite elem_of_cons, <-IH. destruct (String.eqb_spec k k0) as [->|Hne].
    + split; eauto.
    + split; [by right | by intros [?|?]].
Qed.

Lemma bt_contains_key_spec k m : bt_contains_key k m = true <-> k ∈ bt_keys m.
Proof. unfold bt_contains_key. by rewrite bool_decide_eq_true, bt_get_is_Some. Qed.

Lemma bt_keys_insert k k' v m : k' ∈ bt_keys (bt_insert k v m) <-> k' = k \/ k' ∈ bt_keys m.
Proof.
  rewrite <-!bt_get_is_Some, bt_get_insert.
  destruct (String.eqb_spec k' k) as [->|Hne]; split; eauto. by intros [?|?].
Qed.

Lemma bt_insert_not_nil k v m : bt_insert k v m <> [].
Proof.
  destruct m as [|[k0 v0] m]; cbn; [done|].
  by destruct (String.eqb k k0), (str_ltb k k0).
Qed.

(** ** The order invariant *)

Lemma bt_ordered_insert k v m : bt_ordered m -> bt_ordered (bt_insert k v m).
Proof.
  induction m as [|[k0 v0] m IH]; cbn; [done|]. intros [H0 Hm].
  destruct (String.eqb_spec k k0) as [->|Hne]; cbn; [done|].
  destruct (str_ltb k k0) eqn:Hlt; cbn.
  - split; [|done]. constructor; [done|]. eapply Forall_impl; [apply H0|].
    intros [k1 v1] H1; cbn in *. by eapply str_ltb_trans.
  - split; [|auto]. rewrite Forall_forall in H0 |- *. intros [k1 v1] Hin; cbn.
    assert (k1 ∈ bt_keys (bt_insert k v m)) as Hk.
    { apply list_elem_of_fmap. by exists (k1, v1). }
    apply bt_keys_insert in Hk as [->|Hk].
    + destruct (str_ltb k0 k) eqn:E; [done|]. destruct Hne. by apply str_ltb_total.
    + apply list_elem_of_fmap in Hk as ([k2 v2] & -> & Hin2). by apply (H0 _ Hin2).
Qed.

Lemma bt_ordered_get k v m : bt_ordered m -> (k, v) ∈ m -> bt_get k m = Some v.
Proof.
  induction m as [|[k0 v0] m IH]; cbn; [set_solver|]. intros [H0 Hm].
  rewrite elem_of_cons. intros [[= -> ->]|Hin].
  - by rewrite String.eqb_refl.
  - rewrite Forall_forall in H0. specialize (H0 _ Hin). cbn in H0.
    destruct (String.eqb_spec k k0) as [->|]; [|auto]. by rewrite str_ltb_irrefl in H0.
Qed.

Lemma bt_get_below k m :
  Forall (fun e => str_ltb k e.1 = true) m -> bt_get k m = None.
Proof.
  intros H. destruct (bt_get k m) as [v|] eqn:E; [|done].
  apply bt_get_elem in E. rewrite Forall_forall in H. specialize (H _ E).
  cbn in H. by rewrite str_ltb_irrefl in H.
Qed.

(** Two ordered maps with the same lookups are equal. *)
Lemma bt_ext m1 m2 :
  bt_ordered m1 -> bt_ordered m2 -> (forall k, bt_get k m1 = bt_get k m2) -> m1 = m2.
Proof.
  revert m2; induction m1 as [|[k1 v1] m1 IH]; intros [|[k2 v2] m2]; cbn; try done.
  - intros _ _ H. specialize (H k2). by rewrite String.eqb_refl in H.
  - intros _ _ H. specialize (H k1). by rewrite String.eqb_refl in H.
  - intros [B1 O1] [B2 O2] H.
    assert (k1 = k2) as <-.
    { pose proof (H k1) as H1. pose proof (H k2) as H2. rewrite String.eqb_refl in H1, H2.
      destruct (String.eqb_spec k1 k2) as [|Hne]; [done|].
      rewrite (proj2 (String.eqb_neq k2 k1)) in H2 by done.
      symmetry in H1. apply bt_get_elem in H1, H2.
      rewrite Forall_forall in B1, B2. specialize (B1 _ H2). specialize (B2 _ H1). cbn in *.
      destruct Hne. exfalso. pose proof (str_ltb_trans _ _ _ B1 B2) as E.
      by rewrite str_ltb_irrefl in E. }
    pose proof (H k1) as H1. rewrite String.eqb_refl in H1. injection H1 as <-.
    f_equal. apply IH; [done..|]. intros k. specialize (H k).
    destruct (String.eqb k k1) eqn:E; [|done].
    apply String.eqb_eq in E. subst k. by rewrite !bt_get_below.
Qed.
End Maps.

#[export] Hint Resolve bt_ordered_insert : ravn.
#[export] Hint Rewrite @bt_get_insert_eq : ravn.
