(* ===== verification/Event.v ===== *)
(** * Detection events: [ravn-core] ([event.rs], [payload.rs], [message.rs],
    [heartbeat.rs], [enrollment.rs])

    The normalized event an agent tap produces, its source-specific payload,
    the transport envelope with the optional explanation, the heartbeat and the
    enrollment exchange.  The source of an event is derived from its payload. *)

From S2P Require Export BTree.

(** A [Uuid] is its 128-bit value, a [DateTime<Utc>] the nanoseconds since the
    Unix epoch. *)
Abbreviation Uuid := N.
Abbreviation DateTime := Z.

(** [serde_json]'s value type and the two conversions the sources use on it. *)
Class SerdeValue : Type := {
  Value : Type;
  value_from_str : string -> Value;
  value_as_str : Value -> option string;
}.

(** [pub type Extra = BTreeMap<String, Value>]. *)
Definition Extra `{SerdeValue} : Type := btree Value.

Record AgentId := mkAgentId { agent_uuid : Uuid }.

Inductive Severity := Info | Notice | Warning | Error | Critical.

Inductive Source :=
  | SourceJournald
  | SourceFailedUnit
  | SourceConfigDrift
  | SourceAuth
  | SourceUpdate
  | SourceKubeWorkload
  | SourceKubeNode
  | SourceRavnInternal.

#[export] Instance AgentId_eq_dec : EqDecision AgentId.
Proof. solve_decision. Defined.
#[export] Instance Severity_eq_dec : EqDecision Severity.
Proof. solve_decision. Defined.
#[export] Instance Source_eq_dec : EqDecision Source.
Proof. solve_decision. Defined.

(** The derived [Ord] of [Severity]: declaration order. *)
Definition severity_rank (s : Severity) : nat :=
  match s with Info => 0 | Notice => 1 | Warning => 2 | Error => 3 | Critical => 4 end.
Definition severity_ltb (a b : Severity) : bool := severity_rank a <? severity_rank b.
Definition severity_leb (a b : Severity) : bool := severity_rank a <=? severity_rank b.

Section Payloads.
Context `{SerdeValue}.

Record JournaldPayload := mkJournald {
  jd_unit : option string;
  jd_priority : option N;
  jd_message : string;
  jd_extra : Extra;
}.

Record FailedUnitPayload := mkFailedUnit {
  fu_unit : string;
  fu_result : string;
  fu_recent_log : list string;
  fu_extra : Extra;
}.

Record ConfigDriftPayload := mkConfigDrift {
  cd_path : string;
  cd_old_hash : option string;
  cd_new_hash : string;
  cd_diff : option string;
  cd_extra : Extra;
}.

Record AuthPayload := mkAuth {
  au_action : string;
  au_user : option string;
  au_remote_addr : option string;
  au_succeeded : bool;
  au_extra : Extra;
}.

Record UpdatePayload := mkUpdate {
  up_mechanism : string;
  up_from : option string;
  up_to : option string;
  up_changes : list string;
  up_extra : Extra;
}.

Record KubeWorkloadPayload := mkKubeWorkload {
  kw_namespace : string;
  kw_object_kind : string;
  kw_name : string;
  kw_reason : string;
  kw_message : option string;
  kw_count : option N;
  kw_container : option string;
  kw_extra : Extra;
}.

Record KubeNodePayload := mkKubeNode {
  kn_node : string;
  kn_condition : string;
  kn_message : option string;
  kn_extra : Extra;
}.

Record CircuitBreakerTripPayload := mkBreakerTrip {
  cb_host : string;
  cb_template_id : string;
}.

Inductive Payload :=
  | Journald (p : JournaldPayload)
  | FailedUnit (p : FailedUnitPayload)
  | ConfigDrift (p : ConfigDriftPayload)
  | Auth (p : AuthPayload)
  | Update (p : UpdatePayload)
  | KubeWorkload (p : KubeWorkloadPayload)
  | KubeNode (p : KubeNodePayload)
  | CircuitBreakerTrip (p : CircuitBreakerTripPayload).

(** [Payload::source]. *)
Definition payload_source (p : Payload) : Source :=
  match p with
  | Journald _ => SourceJournald
  | FailedUnit _ => SourceFailedUnit
  | ConfigDrift _ => SourceConfigDrift
  | Auth _ => SourceAuth
  | Update _ => SourceUpdate
  | KubeWorkload _ => SourceKubeWorkload
  | KubeNode _ => SourceKubeNode
  | CircuitBreakerTrip _ => SourceRavnInternal
  end.

Record Event := mkEvent {
  ev_id : Uuid;
  ev_occurred_at : DateTime;
  ev_observed_at : DateTime;
  ev_agent_id : AgentId;
  ev_host : string;
  ev_severity : Severity;
  ev_title : string;
  ev_category_hints : list string;
  ev_payload : Payload;
}.

(** [Debug for Source], derived. *)
Definition source_debug (s : Source) : string :=
  match s with
  | SourceJournald => "Journald" | SourceFailedUnit => "FailedUnit" | SourceConfigDrift => "ConfigDrift"
  | SourceAuth => "Auth" | SourceUpdate => "Update" | SourceKubeWorkload => "KubeWorkload"
  | SourceKubeNode => "KubeNode" | SourceRavnInternal => "RavnInternal"
  end.

(** [Event::source]. *)
Definition event_source (e : Event) : Source := payload_source (ev_payload e).

Record Explanation := mkExplanation {
  ex_text : string;
  ex_suggested_check : option string;
  ex_model : string;
  ex_generated_at : DateTime;
}.

Record Message := mkMessage {
  msg_event : Event;
  msg_explanation : option Explanation;
}.

(** [Message::new]. *)
Definition message_new (e : Event) : Message :=
  {| msg_event := e; msg_explanation := None |}.

Record Heartbeat := mkHeartbeat {
  hb_agent_id : AgentId;
  hb_host : string;
  hb_sent_at : DateTime;
  hb_uptime_secs : N;
  hb_last_detection : option DateTime;
  hb_inference_enabled : bool;
  hb_events_published : N;
}.

Record EnrollRequest := mkEnrollRequest {
  er_bootstrap_token : string;
  er_agent_id : AgentId;
  er_host : string;
  er_csr_pem : string;
}.

Record EnrollResponse := mkEnrollResponse {
  es_agent_id : AgentId;
  es_certificate_pem : string;
  es_ca_certificate_pem : string;
  es_command_signing_pubkey : string;
  es_command_keyring : string;
  es_not_after : DateTime;
}.
End Payloads.

(** [kube_severity_for_reason]: the deterministic severity of a Kubernetes
    reason. *)
Definition one_of (s : string) (l : list string) : bool := existsb (String.eqb s) l.

Definition kube_severity_for_reason (reason : string) : Severity :=
  if one_of reason ["OOMKilled"; "Evicted"; "NodeNotReady"; "SystemOOM"] then Critical
  else if one_of reason
    ["CrashLoopBackOff"; "BackOff"; "FailedMount"; "FailedCreatePodSandBox"] then Error
  else if one_of reason
    ["Unhealthy"; "MemoryPressure"; "DiskPressure"; "PIDPressure"] then Error
  else if one_of reason
    ["FailedScheduling"; "ImagePullBackOff"; "ErrImagePull"; "ProbeWarning"] then Warning
  else if one_of reason
    ["Created"; "Started"; "Pulled"; "Scheduled"; "SuccessfulCreate"] then Info
  else Warning.

(** ** Lemmas *)

Lemma one_of_elem (s : string) (l : list string) : one_of s l = true <-> s ∈ l.
Proof.
  unfold one_of. rewrite existsb_elem_of. split.
  - by intros (x & Hx & ->%String.eqb_eq).
  - intros Hs. exists s. by rewrite String.eqb_refl.
Qed.

Lemma severity_leb_spec (a b : Severity) :
  severity_leb a b = negb (severity_ltb b a).
Proof. by destruct a, b. Qed.

(** The value model the witnesses of the development use: a JSON string. *)
Definition string_value : SerdeValue :=
  {| Value := string; value_from_str := id; value_as_str := Some |}.
