(* ===== verification/Startup.v ===== *)
(** * Reading the environment and reporting errors

    What the configuration of every program shares: environment variables, parsing
    with a default, boolean-like values, and [anyhow]'s error chains. *)

From S2P Require Export Event.

(** [.unwrap_or] over [.or] of options, outermost first. *)
Definition or_else {A} (o1 o2 : option A) : option A := match o1 with Some a => Some a | None => o2 end.

(** The chain of an [anyhow] error, outermost first; [{error:#}] joins it. *)
Definition Chain : Type := list string.
Definition display_alt (e : Chain) : string := join ": " e.
Definition with_context {A} (msg : string) (r : result Chain A) : result Chain A :=
  map_err (fun e => msg :: e) r.

(** [CARGO_PKG_VERSION] of the workspace. *)
Definition VERSION : string := "0.0.0".

(** One file written: all of it, nothing because it could not be opened, or its
    first bytes. *)
Inductive WriteOutcome := Written | NotOpened (e : string) | WriteTorn (kept : nat) (e : string).

(** A set and non-empty variable; [var] is [std::env::var(..).ok()]. *)
Definition env_var (var : string -> option string) (k : string) : option string :=
  match var k with Some v => if is_empty v then None else Some v | None => None end.

(** [var(k).ok().and_then(|v| v.parse().ok())]. *)
Definition parsed {A} (parse : string -> option A) (o : option string) : option A :=
  match o with Some v => parse v | None => None end.

(** The spellings of [true]. *)
Definition truthy (v : string) : bool := one_of v ["1"; "true"; "yes"; "on"]%string.
Definition falsy (v : string) : bool := one_of v ["0"; "false"; "no"; "off"]%string.
(** [matches!(var(k).ok().as_deref(), Some("1" | "true" | "yes" | "on"))]. *)
Definition flag_set (o : option string) : bool := match o with Some v => truthy v | None => false end.

Definition parse_u8 : string -> option N := parse_uint (2 ^ 8 - 1).
Definition parse_u32 : string -> option N := parse_uint (2 ^ 32 - 1).
Definition parse_u64 : string -> option N := parse_uint (2 ^ 64 - 1).

(** Bounds the parsers give. *)
Lemma parse_uint_bound (max n : N) (s : string) : parse_uint max s = Some n -> (n <= max)%N.
Proof.
  unfold parse_uint. destruct (is_empty _); [done|]. destruct (parse_digits 0 _) as [m|]; [|done].
  destruct (N.leb_spec m max); [|done]. by intros [= <-].
Qed.

Lemma parse_i64_bound (z : Z) (s : string) : parse_i64 s = Some z -> (- 2 ^ 63 <= z < 2 ^ 63)%Z.
Proof.
  unfold parse_i64. destruct s as [|c s]; [done|]. destruct (is_byte 45 c).
  - destruct (is_empty s); [done|]. destruct (parse_digits 0 s) as [n|]; [|done].
    destruct (N.leb_spec n (2 ^ 63)); [|done]. intros [= <-]. lia.
  - destruct (parse_uint _ (String c s)) as [n|] eqn:Hp; [|done]. cbn. intros [= <-].
    apply parse_uint_bound in Hp. lia.
Qed.
#[export] Hint Resolve parse_uint_bound parse_i64_bound : ravn.

Lemma env_var_Some (var : string -> option string) (k v : string) :
  env_var var k = Some v <-> var k = Some v /\ v <> EmptyString.
Proof.
  unfold env_var. destruct (var k) as [w|]; [|naive_solver]. destruct w; cbn; naive_solver.
Qed.

Lemma default_bounded {A} (P : A -> Prop) (a : A) (o : option A) :
  P a -> (forall x, o = Some x -> P x) -> P (default a o).
Proof. destruct o; cbn; auto. Qed.

Lemma or_else_Some {A} (o1 o2 : option A) (a : A) : or_else o1 o2 = Some a -> o1 = Some a \/ o2 = Some a.
Proof. destruct o1; cbn; auto. Qed.
