(* ===== verification/Inference.v ===== *)
(** * Explanations ([ravn-server/src/inference.rs], [ravn-agent/src/inference.rs])

  The prompts that describe an event to a model, the exchange with an
  OpenAI-compatible endpoint and the reading of its reply; that a reply is never
  lost to its wrapping (bare JSON, JSON in prose, JSON cut short), and that one
  failure only ever costs the explanation.

  The HTTP exchange and [serde_json] are parameters. A prompt is [None] where the
  code slices text inside a character, which panics. *)

From S2P Require Export Startup JsonValue.

(** The derived [Debug]. *)
Definition severity_debug (s : Severity) : string :=
  match s with
  | Info => "Info" | Notice => "Notice" | Warning => "Warning" | Error => "Error" | Critical => "Critical"
  end.
Definition option_debug (o : option string) : string :=
  match o with Some s => "Some(" +:+ debug_str s +:+ ")" | None => "None" end.

(** ** Reading a reply *)

(** [rfind] of a byte, with the slices around it. *)
Fixpoint rcut (p : ascii -> bool) (s : string) : option (string * string) :=
  match s with
  | EmptyString => None
  | String c s' =>
      match rcut p s' with
      | Some (a, b) => Some (String c a, b)
      | None => if p c then Some (EmptyString, s') else None
      end
  end.
(** [&content[start..=end]] from the first opening to the last closing brace. *)
Definition brace_block (content : string) : option string :=
  match cut "{" content with
  | Some (_, rest) => (fun p => "{" +:+ p.1 +:+ "}") <$> rcut (is_byte 125) rest
  | None => None
  end.

(** The two fields of a reply. *)
Definition extract (v : Json) : option (string * option string) :=
  text ← json_get "explanation" v; text ← as_str text;
  Some (trim text,
        c ← json_get "suggested_check" v; c ← as_str c;
        if is_empty (trim c) then None else Some (trim c)).

(** The characters of a JSON string up to its closing quote, which may be missing. *)
Definition unescape (c : ascii) : ascii :=
  match code c with 110%N => ascii_of_N 10 | 116%N => ascii_of_N 9 | 114%N => ascii_of_N 13 | _ => c end.
Fixpoint read_string (escaped : bool) (s : string) : string * bool :=
  match s with
  | EmptyString => (EmptyString, false)
  | String c s' =>
      if escaped then let (out, closed) := read_string false s' in (String (unescape c) out, closed)
      else if is_byte 92 c then read_string true s'
      else if is_byte 34 c then (EmptyString, true)
      else let (out, closed) := read_string false s' in (String c out, closed)
  end.
Definition extract_string_field (content key : string) : option string :=
  rest ← snd <$> cut (dquote +:+ key +:+ dquote) content;
  after_colon ← snd <$> cut ":" rest;
  chars ← strip_prefix dquote (trim_start after_colon);
  let (out, closed) := read_string false chars in
  if closed || negb (is_empty out) then Some out else None.

Section Replies.
(** [serde_json::from_str::<Value>]. *)
Variable json_from_str : string -> option Json.

Definition parse_json_reply (content : string) : option (string * option string) :=
  match json_from_str content ≫= extract with
  | Some r => Some r
  | None => (brace_block content ≫= json_from_str) ≫= extract
  end.
(** The agent's [parse_explanation]. *)
Definition parse_explanation (content : string) : string * option string :=
  default (trim content, None) (parse_json_reply content).
(** The control plane's, which also recovers the fields of an object cut short. *)
Definition server_parse_explanation (content : string) : string * option string :=
  match parse_json_reply content with
  | Some r => r
  | None =>
      match extract_string_field content "explanation" with
      | Some text =>
          (trim text,
           c ← extract_string_field content "suggested_check"; if is_empty c then None else Some c)
      | None => (trim content, None)
      end
  end.
End Replies.

(** ** Prompts *)

(** A string literal between quotes. *)
Definition reply_shape (a b : string) : string :=
  "{" +:+ dquote +:+ "explanation" +:+ dquote +:+ ": " +:+ a +:+ ", "
  +:+ dquote +:+ "suggested_check" +:+ dquote +:+ ": " +:+ b +:+ "}.".
Definition server_SYSTEM_PROMPT : string :=
  "You are Ravn, a Kubernetes operations assistant. Given a single already-detected cluster event, explain in 2-3 plain sentences what it most likely means and why it matters. Then suggest one concrete kubectl command or check an operator could run. You never decide whether something is wrong — the event is already flagged; you only explain it. Reply ONLY with a JSON object: "
  +:+ reply_shape (dquote +:+ "..." +:+ dquote) (dquote +:+ "..." +:+ dquote).
Definition SYSTEM_PROMPT : string :=
  "You are Ravn, a Linux operations assistant. Given a flagged system event, explain in 2-3 plain sentences what most likely happened and why it matters, then suggest ONE concrete command or check an operator can run. Be factual and concise; do not invent details not supported by the event. Respond ONLY as a JSON object: "
  +:+ reply_shape "string" "string".
Definition DIGEST_SYSTEM_PROMPT : string :=
  "You are Ravn, a Linux operations assistant. You are given a batch of system events observed over a time window. In 3-5 plain sentences, summarize what changed and what looks off, calling out the most important items; group similar events rather than listing each. Then suggest ONE concrete command or check. Be factual; do not invent details not in the events. Respond ONLY as a JSON object: "
  +:+ reply_shape "string" "string".

Section Prompts.
Context `{SerdeValue}.

Definition server_build_user_prompt (event : Event) : string :=
  let head := "Event: " +:+ ev_title event +:+ " (severity: " +:+ severity_debug (ev_severity event) +:+ ")." in
  let detail :=
    match ev_payload event with
    | KubeWorkload p =>
        "Kubernetes workload signal: " +:+ (if is_empty (kw_object_kind p) then "object" else kw_object_kind p)
        +:+ " " +:+ kw_namespace p +:+ "/" +:+ kw_name p
        +:+ default EmptyString ((fun c => ", container " +:+ c) <$> kw_container p)
        +:+ " — reason " +:+ kw_reason p +:+ ". " +:+ default EmptyString (kw_message p)
    | KubeNode p =>
        "Kubernetes node signal: node " +:+ kn_node p +:+ " condition " +:+ kn_condition p +:+ ". "
        +:+ default EmptyString (kn_message p)
    | _ => ev_title event
    end in
  head +:+ newline +:+ detail.

Definition line (s : string) : string := s +:+ newline.
Definition line_of (label : string) (o : option string) : string :=
  match o with Some s => line (label +:+ s) | None => EmptyString end.
Definition listing (title : string) (n : nat) (l : list string) : string :=
  match l with
  | [] => EmptyString
  | _ => line title +:+ join EmptyString (map (fun s => line ("  " +:+ s)) (take n l))
  end.
Definition bool_display (b : bool) : string := if b then "true" else "false".

(** The lines that describe the payload. *)
Definition payload_lines (p : Payload) : option string :=
  match p with
  | Journald p => Some (line_of "Unit: " (jd_unit p) +:+ line ("Message: " +:+ jd_message p))
  | FailedUnit p =>
      Some (line ("Failed unit: " +:+ fu_unit p +:+ " (result: " +:+ fu_result p +:+ ")")
            +:+ listing "Recent log:" 10 (fu_recent_log p))
  | ConfigDrift p =>
      let changed := line ("Changed file: " +:+ cd_path p) in
      match cd_diff p with
      | Some diff => (fun d => changed +:+ line "Diff:" +:+ line d) <$> truncate_bytes diff 1500
      | None => Some changed
      end
  | Auth p =>
      Some (line ("Action: " +:+ au_action p +:+ " (succeeded: " +:+ bool_display (au_succeeded p) +:+ ")")
            +:+ line_of "User: " (au_user p) +:+ line_of "Remote: " (au_remote_addr p))
  | Update p =>
      Some (line ("Update via " +:+ up_mechanism p +:+ ": " +:+ option_debug (up_from p) +:+ " -> " +:+ option_debug (up_to p))
            +:+ listing "Changes:" 20 (up_changes p))
  | KubeWorkload p =>
      let obj := if is_empty (kw_object_kind p) then EmptyString else kw_object_kind p +:+ "/" in
      Some (line ("K8s workload: " +:+ kw_namespace p +:+ "/" +:+ obj +:+ kw_name p +:+ " reason=" +:+ kw_reason p)
            +:+ line_of "Container: " (kw_container p) +:+ line_of "Count: " (show_N <$> kw_count p)
            +:+ line_of "Message: " (kw_message p))
  | KubeNode p =>
      Some (line ("K8s node: " +:+ kn_node p +:+ " condition=" +:+ kn_condition p) +:+ line_of "Message: " (kn_message p))
  | CircuitBreakerTrip p =>
      Some (line ("Ravn circuit breaker tripped for template " +:+ cb_template_id p +:+ " on " +:+ cb_host p))
  end.
Definition build_user_prompt (event : Event) : option string :=
  lines ← payload_lines (ev_payload event);
  Some (line ("Severity: " +:+ severity_debug (ev_severity event))
        +:+ line ("Source: " +:+ source_debug (event_source event))
        +:+ line ("Host: " +:+ ev_host event) +:+ line ("Title: " +:+ ev_title event) +:+ lines).
Definition digest_line (e : Event) : string :=
  "- [" +:+ severity_debug (ev_severity e) +:+ "] " +:+ source_debug (event_source e) +:+ " " +:+ ev_host e
  +:+ ": " +:+ ev_title e.
Definition build_digest_prompt (events : list Event) : string :=
  line (show_N (N.of_nat (length events)) +:+ " events in this window:")
  +:+ join EmptyString (map (fun e => line (digest_line e)) events).

(** ** The exchange *)

Record ChatRequest := mkChatRequest {
  ch_url : string;
  ch_bearer : option string;
  ch_body : Json;
}.
(** No answer, or a status with the decoded contents of the choices. *)
Inductive ChatReply := NoAnswer (e : Chain) | Answered (status : N) (choices : result Chain (list string)).

Definition role_message (role content : string) : Json :=
  JObject [("role", JString role); ("content", JString content)]%string.

Variable json_from_str : string -> option Json.
Variable status_display : N -> string.

Record InferenceClient := mkInferenceClient {
  il_endpoint : string;
  il_model : string;
  il_api_key : option string;
}.
(** [InferenceClient::new] of both crates; the agent has no key. *)
Definition inference_new (endpoint model : string) (api_key : option string) : InferenceClient :=
  {| il_endpoint := trim_end_matches (is_byte 47) endpoint; il_model := model; il_api_key := api_key |}.
Definition reply_success (status : N) : bool := (200 <=? status)%N && (status <? 300)%N.

(** The control plane's [explain]. *)
Definition server_request (cl : InferenceClient) (event : Event) : ChatRequest :=
  {| ch_url := il_endpoint cl +:+ "/chat/completions"; ch_bearer := il_api_key cl;
     ch_body := JObject [("model", JString (il_model cl));
                         ("messages", JArray [role_message "system" server_SYSTEM_PROMPT;
                                              role_message "user" (server_build_user_prompt event)]);
                         ("max_tokens", json_N 512); ("temperature", JNumber "0.2")]%string |}.
Definition server_explain (cl : InferenceClient) (send : ChatRequest -> ChatReply) (now : DateTime) (event : Event)
    : result Chain Explanation :=
  match send (server_request cl event) with
  | NoAnswer e => with_context "calling inference endpoint" (Err e)
  | Answered status choices =>
      if reply_success status then
        choices ← with_context "parsing inference response" choices;
        content ← ok_or ["inference response had no choices"%string] (head choices);
        let (text, suggested_check) := server_parse_explanation json_from_str content in
        Ok {| ex_text := text; ex_suggested_check := suggested_check; ex_model := il_model cl;
              ex_generated_at := now |}
      else Err ["inference endpoint returned " +:+ status_display status]
  end.

(** The agent's [chat]. *)
Definition chat_request (cl : InferenceClient) (system user : string) (max_tokens : N) : ChatRequest :=
  {| ch_url := il_endpoint cl +:+ "/v1/chat/completions"; ch_bearer := None;
     ch_body := JObject [("model", JString (il_model cl));
                         ("messages", JArray [role_message "system" system; role_message "user" user]);
                         ("temperature", JNumber "0.2"); ("max_tokens", json_N max_tokens);
                         ("response_format", JObject [("type", JString "json_object")])]%string |}.
Definition chat (cl : InferenceClient) (send : ChatRequest -> ChatReply) (now : DateTime)
    (system user : string) (max_tokens : N) : option Explanation :=
  match send (chat_request cl system user max_tokens) with
  | Answered status (Ok choices) =>
      if reply_success status then
        content ← head choices;
        let (text, suggested_check) := parse_explanation json_from_str content in
        if is_empty (trim text) then None
        else Some {| ex_text := text; ex_suggested_check := suggested_check; ex_model := il_model cl;
                     ex_generated_at := now |}
      else None
  | _ => None
  end.
(** [explain]: [None] is the panic of the prompt. *)
Definition explain (cl : InferenceClient) (send : ChatRequest -> ChatReply) (now : DateTime) (event : Event)
    : option (option Explanation) :=
  user ← build_user_prompt event;
  Some (chat cl send now SYSTEM_PROMPT user 320).
Definition digest (cl : InferenceClient) (send : ChatRequest -> ChatReply) (now : DateTime) (events : list Event)
    : option Explanation :=
  match events with
  | [] => None
  | _ => chat cl send now DIGEST_SYSTEM_PROMPT (build_digest_prompt events) 512
  end.
End Prompts.

(** ** Facts *)

(** The reference writer of a JSON string, and the start of a reply. *)
Definition json_escape_byte (c : ascii) : string :=
  match code c with
  | 10%N => backslash +:+ "n" | 9%N => backslash +:+ "t" | 13%N => backslash +:+ "r"
  | 34%N => backslash +:+ dquote | 92%N => backslash +:+ backslash
  | _ => String c EmptyString
  end.
Fixpoint json_escape (s : string) : string :=
  match s with EmptyString => EmptyString | String c s' => json_escape_byte c +:+ json_escape s' end.
Definition reply_open : string := "{" +:+ dquote +:+ "explanation" +:+ dquote +:+ ": " +:+ dquote.

Lemma json_escape_byte_cases (c : ascii) :
  (json_escape_byte c = String c EmptyString /\ is_byte 92 c = false /\ is_byte 34 c = false)
  \/ exists d, json_escape_byte c = String (ascii_of_N 92) (String d EmptyString) /\ unescape d = c.
Proof.
  destruct c as [[] [] [] [] [] [] [] []];
    solve [left; split_and!; reflexivity | right; eexists; split; reflexivity].
Qed.

Lemma read_escape_byte (c : ascii) (s : string) :
  read_string false (json_escape_byte c +:+ s) = (String c (read_string false s).1, (read_string false s).2).
Proof.
  destruct (json_escape_byte_cases c) as [(-> & Hb & Hq)|(d & -> & Hd)]; cbn.
  - rewrite Hb, Hq. by destruct (read_string false s).
  - rewrite Hd. by destruct (read_string false s).
Qed.

Lemma read_string_escape (text rest : string) :
  read_string false (json_escape text +:+ dquote +:+ rest) = (text, true).
Proof.
  induction text as [|c text IH]; [done|]. cbn [json_escape]. by rewrite str_app_assoc, read_escape_byte, IH.
Qed.

(** A cut of an escaped byte is the whole of it, nothing, or its backslash. *)
Lemma escape_byte_prefix (c : ascii) (p r : string) :
  json_escape_byte c = p +:+ r -> p <> json_escape_byte c -> read_string false p = (EmptyString, false).
Proof.
  destruct (json_escape_byte_cases c) as [(-> & _)|(d & -> & _)]; intros He Hne;
    destruct p as [|x [|y [|z p]]]; cbn in He; simplify_eq; done.
Qed.

Lemma app_split (a b p r : string) :
  a +:+ b = p +:+ r -> (exists q, p = a +:+ q /\ b = q +:+ r) \/ (exists q, a = p +:+ q /\ p <> a).
Proof.
  revert p. induction a as [|x a IH]; intros p; cbn; [by intros ->; left; exists p|].
  destruct p as [|y p]; cbn; [intros _; right; by exists (String x a)|].
  intros [= <- Hs]. destruct (IH p Hs) as [(q & -> & ->)|(q & -> & Hne)]; [left; by exists q|right].
  exists q. split; [done|congruence].
Qed.

Lemma read_string_cut (text p r : string) :
  json_escape text = p +:+ r -> exists t u, text = t +:+ u /\ read_string false p = (t, false).
Proof.
  revert p. induction text as [|c text IH]; intros p; cbn [json_escape].
  - destruct p; [|done]. intros _. by exists EmptyString, EmptyString.
  - intros [(q & -> & Hq)|(q & Hq & Hne)]%app_split.
    + destruct (IH q Hq) as (t & u & -> & Hr). exists (String c t), u. split; [done|].
      by rewrite read_escape_byte, Hr.
    + exists EmptyString, (String c text). split; [done|]. by eapply escape_byte_prefix.
Qed.

Lemma extract_string_field_open (s : string) :
  extract_string_field (reply_open +:+ s) "explanation"
  = let (out, closed) := read_string false s in if closed || negb (is_empty out) then Some out else None.
Proof.
  unfold extract_string_field. set (key := dquote +:+ "explanation" +:+ dquote).
  assert (cut key (reply_open +:+ s) = Some ("{"%string, ": " +:+ dquote +:+ s)) as ->.
  { subst key. unfold reply_open. cbn [cut strip_prefix String.append]. reflexivity. }
  cbn [fmap option_fmap option_map snd mbind option_bind].
  assert (cut ":" (": " +:+ dquote +:+ s) = Some (EmptyString, " " +:+ dquote +:+ s)) as -> by reflexivity.
  cbn [fmap option_fmap option_map snd mbind option_bind].
  assert (trim_start (" " +:+ dquote +:+ s) = dquote +:+ s) as ->.
  { unfold trim_start. cbn. by destruct s as [|? []]. }
  by rewrite strip_prefix_app.
Qed.

Lemma rcut_last (p : ascii -> bool) (a b : string) (c : ascii) :
  p c = true -> str_forallb (fun x => negb (p x)) b = true -> rcut p (a +:+ String c b) = Some (a, b).
Proof.
  intros Hc Hb. assert (rcut p b = None) as Hn.
  { clear Hc. induction b as [|x b IH]; [done|]. cbn in *. apply andb_true_iff in Hb as [Hx Hb].
    rewrite IH by done. by destruct (p x). }
  induction a as [|x a IH]; cbn; [by rewrite Hn, Hc|by rewrite IH].
Qed.

Lemma cut_byte_first (n : N) (a b : string) (c : ascii) :
  is_byte n c = true -> str_forallb (fun x => negb (is_byte n x)) a = true ->
  cut (String c EmptyString) (a +:+ String c b) = Some (a, b).
Proof.
  unfold is_byte. intros Hc%N.eqb_eq. induction a as [|x a IH]; cbn.
  - rewrite Ascii.eqb_refl. by destruct b.
  - rewrite andb_true_iff. intros [Hx Ha]. destruct (Ascii.eqb c x) eqn:He.
    + apply Ascii.eqb_eq in He as <-. rewrite Hc, N.eqb_refl in Hx. done.
    + by rewrite IH.
Qed.

Section RepliesFacts.
Variable json_from_str : string -> option Json.

(** An object in prose: its text is the brace block. *)
Lemma brace_block_prose (pre m post : string) :
  str_forallb (fun x => negb (is_byte 123 x)) pre = true ->
  str_forallb (fun x => negb (is_byte 125 x)) post = true ->
  brace_block (pre +:+ "{" +:+ m +:+ "}" +:+ post) = Some ("{" +:+ m +:+ "}").
Proof.
  intros Hpre Hpost. unfold brace_block.
  assert (cut "{" (pre +:+ "{" +:+ m +:+ "}" +:+ post) = Some (pre, m +:+ "}" +:+ post)) as ->
    by by apply (cut_byte_first 123).
  assert (rcut (is_byte 125) (m +:+ "}" +:+ post) = Some (m, post)) as -> by by apply (rcut_last (is_byte 125)).
  done.
Qed.

(** A model's reply is not lost to its wrapping: an object alone or within prose
    (no brace before it or after it) is read as it is, by the control plane and by
    the agent alike; and when a reply that starts like one does not parse as JSON,
    because the token limit cut it, the control plane still recovers the
    explanation: all of it, unescaped and trimmed, when its closing quote was
    written, whatever follows, and else a prefix of it, unless nothing of it was
    written. *)
Theorem reply_recovered :
  (forall pre m post v r,
     str_forallb (fun x => negb (is_byte 123 x)) pre = true ->
     str_forallb (fun x => negb (is_byte 125 x)) post = true ->
     (json_from_str (pre +:+ "{" +:+ m +:+ "}" +:+ post) ≫= extract = None
      \/ (pre = EmptyString /\ post = EmptyString)) ->
     json_from_str ("{" +:+ m +:+ "}") = Some v -> extract v = Some r ->
     parse_explanation json_from_str (pre +:+ "{" +:+ m +:+ "}" +:+ post) = r
     /\ server_parse_explanation json_from_str (pre +:+ "{" +:+ m +:+ "}" +:+ post) = r)
  /\ (forall text rest,
        let content := reply_open +:+ json_escape text +:+ dquote +:+ rest in
        parse_json_reply json_from_str content = None ->
        (server_parse_explanation json_from_str content).1 = trim text)
  /\ (forall text p r, json_escape text = p +:+ r ->
        parse_json_reply json_from_str (reply_open +:+ p) = None ->
        exists t u, text = t +:+ u /\ (t <> EmptyString ->
          (server_parse_explanation json_from_str (reply_open +:+ p)).1 = trim t)).
Proof.
  split_and!.
  - intros pre m post v r Hpre Hpost Hfail Hj Hx.
    assert (parse_json_reply json_from_str (pre +:+ "{" +:+ m +:+ "}" +:+ post) = Some r) as Hr.
    { unfold parse_json_reply. destruct Hfail as [->|[-> ->]].
      - rewrite brace_block_prose by done. cbn [mbind option_bind]. by rewrite Hj.
      - cbn [String.append]. change (String "{" (m +:+ "}")) with ("{" +:+ m +:+ "}").
        rewrite Hj. cbn [mbind option_bind]. by rewrite Hx. }
    unfold parse_explanation, server_parse_explanation. by rewrite Hr.
  - cbv zeta. intros text rest Hn. unfold server_parse_explanation.
    by rewrite Hn, extract_string_field_open, read_string_escape.
  - intros text p r He Hn. destruct (read_string_cut text p r He) as (t & u & -> & Hr). exists t, u.
    split; [done|]. intros Hne. unfold server_parse_explanation. rewrite Hn, extract_string_field_open, Hr.
    by destruct t.
Qed.
End RepliesFacts.

(** ** What an explanation holds *)

Section ExplanationFacts.
Context `{SerdeValue}.
Variable json_from_str : string -> option Json.

Lemma extract_check_nonempty (v : Json) (t c : string) : extract v = Some (t, Some c) -> c <> EmptyString.
Proof.
  unfold extract. destruct (json_get "explanation" v) as [e|]; [|done]. cbn. destruct (as_str e); [|done]. cbn.
  intros [= _ Hc]. destruct (json_get "suggested_check" v) as [k|]; [|done]. cbn in Hc.
  destruct (as_str k) as [w|]; [|done]. cbn in Hc. destruct (is_empty (trim w)) eqn:He; [done|].
  injection Hc as <-. by destruct (trim w).
Qed.

Lemma parse_json_reply_check (content t c : string) :
  parse_json_reply json_from_str content = Some (t, Some c) -> c <> EmptyString.
Proof.
  unfold parse_json_reply. intros Hp. destruct (json_from_str content ≫= extract) as [r|] eqn:Hj.
  - injection Hp as ->. destruct (json_from_str content); [|done]. by eapply extract_check_nonempty.
  - destruct (brace_block content ≫= json_from_str); [|done]. by eapply extract_check_nonempty.
Qed.

(** The agent attaches only explanations that say something, under its own model's
    name, and asks for none when there is nothing to summarize. *)
Lemma chat_sound cl send now system user n e :
  chat json_from_str cl send now system user n = Some e ->
  trim (ex_text e) <> EmptyString /\ ex_suggested_check e <> Some EmptyString
  /\ ex_model e = il_model cl /\ ex_generated_at e = now.
Proof.
  unfold chat. destruct (send _) as [|status [[|content choices]|]]; [done| | |done];
    (destruct (reply_success status); [|done]); [done|]. cbn.
  destruct (parse_explanation json_from_str content) as [text check] eqn:Hp.
  destruct (trim text) as [|a t] eqn:Ht; [done|]. cbn. intros [= <-].
  split_and!; [cbn [ex_text]; congruence| |done..]; cbn [ex_suggested_check].
  intros ->. unfold parse_explanation in Hp. destruct (parse_json_reply _ content) as [[t' c']|] eqn:Hj; [|done].
  cbn in Hp. injection Hp as -> ->. by apply parse_json_reply_check in Hj.
Qed.

(** A configuration drift whose diff has a multi-byte character across byte 1500
    panics where its prompt is built. *)
Theorem prompt_panics (e : Event) (p : ConfigDriftPayload) (diff : string) (c : ascii) :
  ev_payload e = ConfigDrift p -> cd_diff p = Some diff -> (1500 < str_len diff)%N ->
  String.get 1500 diff = Some c -> is_cont c = true -> build_user_prompt e = None.
Proof.
  intros Hp Hd Hl Hg Hc. unfold build_user_prompt, payload_lines, truncate_bytes, slice_to. rewrite Hp, Hd.
  rewrite (proj2 (N.leb_gt _ _) Hl). change (N.to_nat 1500) with 1500. by rewrite Hg, Hc.
Qed.
End ExplanationFacts.

Lemma reply_recovered_witness :
  let j s := if String.eqb s (reply_open +:+ "OOM." +:+ dquote +:+ "}")
             then Some (JObject [("explanation", JString " OOM. ")]%string) else None in
  parse_explanation j ("Sure! " +:+ reply_open +:+ "OOM." +:+ dquote +:+ "}" +:+ " Hope that helps") = ("OOM."%string, None)
  /\ (server_parse_explanation j (reply_open +:+ "cut " +:+ backslash +:+ dquote +:+ "sh" +:+ dquote +:+ ", ")).1
     = "cut " +:+ dquote +:+ "sh".
Proof.
  cbv zeta. split.
  - apply (proj1 (reply_recovered (fun s => if String.eqb s (reply_open +:+ "OOM." +:+ dquote +:+ "}")
      then Some (JObject [("explanation", JString " OOM. ")]%string) else None))
      "Sure! "%string (dquote +:+ "explanation" +:+ dquote +:+ ": " +:+ dquote +:+ "OOM." +:+ dquote) " Hope that helps"%string
      (JObject [("explanation", JString " OOM. ")]%string)); [reflexivity..|left; vm_compute; reflexivity|reflexivity|reflexivity].
  - apply (proj1 (proj2 (reply_recovered (fun s => if String.eqb s (reply_open +:+ "OOM." +:+ dquote +:+ "}")
      then Some (JObject [("explanation", JString " OOM. ")]%string) else None)))
      ("cut " +:+ dquote +:+ "sh") ", "%string). vm_compute. reflexivity.
Defined.
