(* ===== verification/Template.v ===== *)
(** * Remediation templates: the action side of [ravn-core/remediation.rs]

    Typed capabilities, pre-authored templates with their structural
    validation, Kubernetes identifier validation, and the [{{param}}]
    placeholder language: its parser, its resolver and the declarative rendering
    relation the resolver implements. *)

From S2P Require Export Event.

(** ** Data *)

Inductive RiskTier := Safe | Guarded | Dangerous.

Inductive Capability :=
  | ResetFailed (unit : string)
  | RestartUnit (unit : string)
  | UnitState (unit : string)
  | NixRollback
  | DeletePod (namespace pod : string)
  | RestartDeployment (namespace deployment : string)
  | PodState (namespace pod_prefix : string).

(** [Capability::is_read_only]. *)
Definition is_read_only (c : Capability) : bool :=
  match c with UnitState _ | PodState _ _ => true | _ => false end.

Record Condition := mkCondition {
  co_check : Capability;
  co_equals : string;
}.

Record Verify := mkVerify {
  ve_check : Capability;
  ve_equals : string;
  ve_timeout_s : N;
}.

(** The serde default of [Verify::timeout_s]. *)
Definition default_verify_timeout : N := 30.

Inductive Rollback := RollbackNone | NixGeneration.

Inductive ParamType := ParamString.

Record ParameterSpec := mkParameterSpec {
  ps_ty : ParamType;
  ps_from : string;
}.

Record TemplateMatch := mkTemplateMatch {
  tm_source : Source;
  tm_conditions : btree string;
}.

Record Template := mkTemplate {
  tpl_id : string;
  tpl_version : N;
  tpl_title : string;
  tpl_risk_tier : RiskTier;
  tpl_match : TemplateMatch;
  tpl_parameters : btree ParameterSpec;
  tpl_preconditions : list Condition;
  tpl_steps : list Capability;
  tpl_verify : option Verify;
  tpl_rollback : Rollback;
}.

Inductive TemplateError :=
  | UndeclaredParameter (p : string)
  | NonReadOnlyCheck
  | NoSteps.

Inductive RenderError :=
  | MissingValue (p : string)
  | InvalidKubeIdentifier (field value : string).

#[export] Instance RiskTier_eq_dec : EqDecision RiskTier.
Proof. solve_decision. Defined.
#[export] Instance Capability_eq_dec : EqDecision Capability.
Proof. solve_decision. Defined.
#[export] Instance Condition_eq_dec : EqDecision Condition.
Proof. solve_decision. Defined.
#[export] Instance Verify_eq_dec : EqDecision Verify.
Proof. solve_decision. Defined.
#[export] Instance Rollback_eq_dec : EqDecision Rollback.
Proof. solve_decision. Defined.

(** [Display for TemplateError]. *)
Definition template_error_display (e : TemplateError) : string :=
  match e with
  | UndeclaredParameter p => "template uses undeclared parameter {{" +:+ p +:+ "}}"
  | NonReadOnlyCheck => "preconditions and verify must use read-only check capabilities"
  | NoSteps => "template declares no steps"
  end.

(** ** Kubernetes identifiers *)

Definition is_label_end (c : ascii) : bool := is_ascii_lowercase c || is_ascii_digit c.
Definition is_label_char (c : ascii) : bool :=
  is_ascii_lowercase c || is_ascii_digit c || is_byte 45 c.
Definition opt_test {A} (p : A -> bool) (o : option A) : bool :=
  match o with Some a => p a | None => false end.

(** [is_valid_k8s_label]: an RFC 1123 DNS label. *)
Definition is_valid_k8s_label (s : string) : bool :=
  if is_empty s || (63 <? String.length s) then false
  else if negb (opt_test is_label_end (first_byte s)) then false
  else if negb (opt_test is_label_end (last_byte s)) then false
  else str_forallb is_label_char s.

(** [is_valid_k8s_subdomain]: labels joined by dots. *)
Definition is_valid_k8s_subdomain (s : string) : bool :=
  if is_empty s || (253 <? String.length s) then false
  else forallb is_valid_k8s_label (split_on (is_byte 46) s).

(** ** Placeholders *)

(** [resolve_str]: the [while let Some(start) = rest.find("{{")] loop, with the
    accumulated output and the rest of the input.  Every turn consumes at least
    four bytes, so the length of the input is enough fuel. *)
Fixpoint resolve_loop (fuel : nat) (out rest : string) (values : btree string)
    : result RenderError string :=
  match fuel with
  | O => Ok (out +:+ rest)
  | S n =>
      match cut "{{" rest with
      | None => Ok (out +:+ rest)
      | Some (before, after) =>
          let out := out +:+ before in
          match cut "}}" after with
          | None => Ok (out +:+ "{{" +:+ after)
          | Some (inside, rest') =>
              let name := trim inside in
              match bt_get name values with
              | None => Err (MissingValue name)
              | Some value => resolve_loop n (out +:+ value) rest' values
              end
          end
      end
  end.
Definition resolve_str (raw : string) (values : btree string) : result RenderError string :=
  resolve_loop (String.length raw) EmptyString raw values.

(** [placeholders_in_str]: the same scan, collecting the names. *)
Fixpoint placeholders_loop (fuel : nat) (rest : string) : list string :=
  match fuel with
  | O => []
  | S n =>
      match cut "{{" rest with
      | None => []
      | Some (_, after) =>
          match cut "}}" after with
          | None => []
          | Some (inside, rest') => trim inside :: placeholders_loop n rest'
          end
      end
  end.
Definition placeholders_in_str (raw : string) : list string :=
  placeholders_loop (String.length raw) raw.

(** [placeholders_in_capability]. *)
Definition placeholders_in_capability (c : Capability) : list string :=
  match c with
  | ResetFailed u | RestartUnit u | UnitState u => placeholders_in_str u
  | NixRollback => []
  | DeletePod ns x | RestartDeployment ns x | PodState ns x =>
      placeholders_in_str ns ++ placeholders_in_str x
  end.

(** The two identifiers of a Kubernetes capability, resolved and validated. *)
Definition resolve_kube (field ns x : string) (values : btree string)
    : result RenderError (string * string) :=
  n ← resolve_str ns values;
  y ← resolve_str x values;
  if negb (is_valid_k8s_label n) then Err (InvalidKubeIdentifier "namespace" n)
  else if negb (is_valid_k8s_label y) then Err (InvalidKubeIdentifier field y)
  else Ok (n, y).

(** [Capability::resolve]. *)
Definition capability_resolve (c : Capability) (values : btree string)
    : result RenderError Capability :=
  match c with
  | ResetFailed u => ResetFailed <$> resolve_str u values
  | RestartUnit u => RestartUnit <$> resolve_str u values
  | UnitState u => UnitState <$> resolve_str u values
  | NixRollback => Ok NixRollback
  | DeletePod ns x => (fun p => DeletePod p.1 p.2) <$> resolve_kube "pod" ns x values
  | RestartDeployment ns x =>
      (fun p => RestartDeployment p.1 p.2) <$> resolve_kube "deployment" ns x values
  | PodState ns x => (fun p => PodState p.1 p.2) <$> resolve_kube "pod_prefix" ns x values
  end.

(** ** Validation *)

(** The first placeholder that is not declared. *)
Fixpoint check_tokens (declared tokens : list string) : result TemplateError unit :=
  match tokens with
  | [] => Ok tt
  | t :: ts => if one_of t declared then check_tokens declared ts else Err (UndeclaredParameter t)
  end.
Definition check_placeholders (declared : list string) (c : Capability)
    : result TemplateError unit :=
  check_tokens declared (placeholders_in_capability c).
Definition check_check (declared : list string) (c : Capability) : result TemplateError unit :=
  if negb (is_read_only c) then Err NonReadOnlyCheck else check_placeholders declared c.

(** [for x in l { f(x)?; }]. *)
Fixpoint try_each {E A} (f : A -> result E unit) (l : list A) : result E unit :=
  match l with
  | [] => Ok tt
  | x :: l' => match f x with Ok _ => try_each f l' | Err e => Err e end
  end.

(** [Template::validate]. *)
Definition template_validate (t : Template) : result TemplateError unit :=
  let declared := bt_keys (tpl_parameters t) in
  _ ← try_each (fun c => check_check declared (co_check c)) (tpl_preconditions t);
  _ ← try_each (check_placeholders declared) (tpl_steps t);
  _ ← match tpl_verify t with Some v => check_check declared (ve_check v) | None => Ok tt end;
  match tpl_steps t with [] => Err NoSteps | _ => Ok tt end.

(** Every capability a template mentions: checks and steps. *)
Definition template_capabilities (t : Template) : list Capability :=
  map co_check (tpl_preconditions t) ++ tpl_steps t
    ++ match tpl_verify t with Some v => [ve_check v] | None => [] end.

(** ** The rendering relation

    [Renders values raw out]: [out] is [raw] with its placeholders replaced, a
    placeholder being the first [{{], the first [}}] after it, and the trimmed
    text between them. *)
Inductive Renders (values : btree string) : string -> string -> Prop :=
  | Renders_literal raw :
      cut "{{" raw = None -> Renders values raw raw
  | Renders_unclosed before after :
      cut "{{" (before +:+ "{{" +:+ after) = Some (before, after) ->
      cut "}}" after = None ->
      Renders values (before +:+ "{{" +:+ after) (before +:+ "{{" +:+ after)
  | Renders_hole before inside rest value out :
      cut "{{" (before +:+ "{{" +:+ inside +:+ "}}" +:+ rest)
        = Some (before, inside +:+ "}}" +:+ rest) ->
      cut "}}" (inside +:+ "}}" +:+ rest) = Some (inside, rest) ->
      bt_get (trim inside) values = Some value ->
      Renders values rest out ->
      Renders values (before +:+ "{{" +:+ inside +:+ "}}" +:+ rest) (before +:+ value +:+ out).

#[global] Arguments resolve_str : simpl never.
#[global] Arguments placeholders_in_str : simpl never.
#[global] Arguments resolve_kube : simpl never.
#[global] Arguments is_valid_k8s_label : simpl never.

(** ** The resolver unfolds to the scan of its input *)

Lemma resolve_loop_app (n : nat) (a b rest : string) (values : btree string) :
  resolve_loop n (a +:+ b) rest values = (String.append a) <$> resolve_loop n b rest values.
Proof.
  revert b rest; induction n as [|n IH]; intros b rest; cbn.
  - by rewrite str_app_assoc.
  - destruct (cut "{{" rest) as [[before after]|]; cbn; [|by rewrite str_app_assoc].
    destruct (cut "}}" after) as [[inside rest']|]; cbn; [|by rewrite !str_app_assoc].
    destruct (bt_get (trim inside) values); cbn; [|done].
    by rewrite <-IH, !str_app_assoc.
Qed.

Lemma resolve_loop_fuel (n m : nat) (out rest : string) (values : btree string) :
  String.length rest <= n -> String.length rest <= m ->
  resolve_loop n out rest values = resolve_loop m out rest values.
Proof.
  revert m out rest; induction n as [|n IH]; intros [|m] out rest Hn Hm;
    try (destruct rest; [by cbn|cbn in *; lia]).
  cbn [resolve_loop].
  destruct (cut "{{" rest) as [[before after]|] eqn:E1; [|done].
  destruct (cut "}}" after) as [[inside rest']|] eqn:E2; [|done].
  apply cut_length in E1, E2. cbn in E1, E2.
  destruct (bt_get (trim inside) values); [|done]. apply IH; lia.
Qed.

Lemma resolve_str_unfold (raw : string) (values : btree string) :
  resolve_str raw values =
    match cut "{{" raw with
    | None => Ok raw
    | Some (before, after) =>
        match cut "}}" after with
        | None => Ok raw
        | Some (inside, rest) =>
            match bt_get (trim inside) values with
            | None => Err (MissingValue (trim inside))
            | Some value =>
                (fun out => before +:+ value +:+ out) <$> resolve_str rest values
            end
        end
    end.
Proof.
  unfold resolve_str. destruct raw as [|c s]; [done|].
  set (raw := String c s). change (String.length raw) with (S (String.length s)) at 1.
  cbn [resolve_loop]. destruct (cut "{{" raw) as [[before after]|] eqn:E1; [|done].
  destruct (cut "}}" after) as [[inside rest]|] eqn:E2; cbn.
  - destruct (bt_get (trim inside) values) as [value|]; [|done].
    apply cut_length in E1, E2. cbn in E1, E2.
    rewrite (resolve_loop_fuel _ (String.length rest)) by lia.
    rewrite <-(str_app_nil_r (before +:+ value)), resolve_loop_app.
    destruct (resolve_loop _ _ rest values); cbn; [|done]. by rewrite str_app_assoc.
  - apply cut_Some_app in E1. by rewrite E1.
Qed.

Lemma placeholders_loop_fuel (n m : nat) (rest : string) :
  String.length rest <= n -> String.length rest <= m ->
  placeholders_loop n rest = placeholders_loop m rest.
Proof.
  revert m rest; induction n as [|n IH]; intros [|m] rest Hn Hm;
    try (destruct rest; [by cbn|cbn in *; lia]).
  cbn [placeholders_loop]. destruct (cut "{{" rest) as [[before after]|] eqn:E1; [|done].
  destruct (cut "}}" after) as [[inside rest']|] eqn:E2; [|done].
  apply cut_length in E1, E2. cbn in E1, E2. f_equal. apply IH; lia.
Qed.

Lemma placeholders_in_str_unfold (raw : string) :
  placeholders_in_str raw =
    match cut "{{" raw with
    | None => []
    | Some (_, after) =>
        match cut "}}" after with
        | None => []
        | Some (inside, rest) => trim inside :: placeholders_in_str rest
        end
    end.
Proof.
  unfold placeholders_in_str. destruct raw as [|c s]; [done|].
  set (raw := String c s). change (String.length raw) with (S (String.length s)) at 1.
  cbn [placeholders_loop]. destruct (cut "{{" raw) as [[before after]|] eqn:E1; [|done].
  destruct (cut "}}" after) as [[inside rest]|] eqn:E2; [|done].
  apply cut_length in E1, E2. cbn in E1, E2. f_equal. apply placeholders_loop_fuel; lia.
Qed.

(** Induction on the scan: a claim about a template string holds if it holds
    when there is no complete placeholder, and follows from the text after the
    first one otherwise. *)
Lemma scan_ind (P : string -> Prop) :
  (forall raw, placeholders_in_str raw = [] ->
     (forall values, resolve_str raw values = Ok raw) -> P raw) ->
  (forall raw before inside rest,
     raw = before +:+ "{{" +:+ inside +:+ "}}" +:+ rest ->
     cut "{{" raw = Some (before, inside +:+ "}}" +:+ rest) ->
     cut "}}" (inside +:+ "}}" +:+ rest) = Some (inside, rest) ->
     P rest -> P raw) ->
  forall raw, P raw.
Proof.
  intros Hbase Hstep raw.
  remember (String.length raw) as n eqn:Hn. revert raw Hn.
  induction n as [n IH] using lt_wf_ind. intros raw ->.
  destruct (cut "{{" raw) as [[before after]|] eqn:E1.
  - destruct (cut "}}" after) as [[inside rest]|] eqn:E2.
    + pose proof (cut_length _ _ _ _ E1) as L1. pose proof (cut_length _ _ _ _ E2) as L2.
      cbn in L1, L2. pose proof (cut_Some_app _ _ _ _ E2) as ->.
      eapply Hstep; [by apply cut_Some_app|done..|]. eapply IH; [|done]. lia.
    + apply Hbase; [|intros values];
        [rewrite placeholders_in_str_unfold|rewrite resolve_str_unfold]; by rewrite E1, E2.
  - apply Hbase; [|intros values];
      [rewrite placeholders_in_str_unfold|rewrite resolve_str_unfold]; by rewrite E1.
Qed.

(** Resolution succeeds exactly when every placeholder has a value. *)
Lemma resolve_str_Ok_placeholders (raw : string) (values : btree string) :
  (exists out, resolve_str raw values = Ok out) <->
  (forall p, p ∈ placeholders_in_str raw -> is_Some (bt_get p values)).
Proof.
  revert raw; apply scan_ind.
  - intros raw -> Hres. split; [set_solver|eauto].
  - intros raw before inside rest _ E1 E2 IH.
    rewrite placeholders_in_str_unfold, resolve_str_unfold, E1, E2.
    setoid_rewrite elem_of_cons.
    destruct (bt_get (trim inside) values) as [value|] eqn:Ev.
    + split.
      * intros [out Hout] p [->|Hp]; [by rewrite Ev|]. revert p Hp. apply IH.
        destruct (resolve_str rest values); cbn in Hout; [eauto|discriminate].
      * intros Hall. destruct IH as [_ [out Hout]]; [by auto|]. rewrite Hout. cbn. eauto.
    + split; [by intros [? ?]|]. intros Hall.
      destruct (Hall (trim inside)) as [? ?]; [by left|congruence].
Qed.

Lemma resolve_str_Err (raw : string) (values : btree string) (e : RenderError) :
  resolve_str raw values = Err e ->
  exists p, e = MissingValue p /\ p ∈ placeholders_in_str raw /\ bt_get p values = None.
Proof.
  revert raw; apply (scan_ind (fun raw => resolve_str raw values = Err e -> _)).
  - intros raw _ ->. discriminate.
  - intros raw before inside rest _ E1 E2 IH.
    rewrite placeholders_in_str_unfold, resolve_str_unfold, E1, E2.
    destruct (bt_get (trim inside) values) as [value|] eqn:Ev.
    + destruct (resolve_str rest values); cbn; [discriminate|]. intros [= ->].
      destruct IH as (p & -> & Hp & Hn); [done|]. exists p. split_and!; [done|by right|done].
    + intros [= <-]. exists (trim inside). split_and!; [done|by left|done].
Qed.

(** ** Identifiers *)

Lemma str_forallb_spec (p : ascii -> bool) (s : string) :
  str_forallb p s = true <-> forall a c b, s = a +:+ String c b -> p c = true.
Proof.
  induction s as [|x s IH]; cbn.
  - split; [|done]. intros _ [|? a] c b; cbn; discriminate.
  - rewrite andb_true_iff, IH. split.
    + intros [Hx Hs] [|y a] c b; cbn; intros [= -> ->]; [done|]. by eapply Hs.
    + intros H. split; [by apply (H EmptyString x s)|].
      intros a c b ->. by apply (H (String x a) c b).
Qed.

Lemma label_spec (s : string) :
  is_valid_k8s_label s = true <->
  1 <= String.length s <= 63
  /\ (exists c s', s = String c s' /\ is_label_end c = true)
  /\ opt_test is_label_end (last_byte s) = true
  /\ str_forallb is_label_char s = true.
Proof.
  unfold is_valid_k8s_label. destruct s as [|c s']; [cbn; split; [done|lia]|].
  cbn [is_empty first_byte opt_test orb].
  destruct (Nat.ltb_spec 63 (String.length (String c s'))) as [Hlt|Hle].
  - split; [done|]. lia.
  - destruct (is_label_end c) eqn:Hc; cbn [negb].
    + destruct (opt_test is_label_end (last_byte (String c s'))) eqn:Hl; cbn [negb].
      * split; [|by intros (_ & _ & _ & ?)]. intros H. split_and!; [cbn; lia|lia|eauto|done|done].
      * split; [done|]. by intros (_ & _ & ? & _).
    + split; [done|]. intros (_ & (? & ? & [= <- <-] & ?) & _). congruence.
Qed.

Lemma label_char_not_brace (c : ascii) : is_byte 123 c = true -> is_label_char c = false.
Proof.
  unfold is_label_char, is_ascii_lowercase, is_ascii_digit, in_range, is_byte.
  intros ->%N.eqb_eq. done.
Qed.

Lemma label_no_placeholder (s : string) :
  is_valid_k8s_label s = true -> cut "{{" s = None.
Proof.
  intros (_ & _ & _ & Hall)%label_spec. apply cut_None. intros a b ->.
  rewrite str_forallb_spec in Hall. specialize (Hall a "{"%char (String "{" b) eq_refl).
  by rewrite label_char_not_brace in Hall.
Qed.

Lemma label_closed (s : string) (values : btree string) :
  is_valid_k8s_label s = true ->
  placeholders_in_str s = [] /\ resolve_str s values = Ok s.
Proof.
  intros H%label_no_placeholder.
  by rewrite placeholders_in_str_unfold, resolve_str_unfold, H.
Qed.

Lemma resolve_kube_Ok (field ns x : string) (values : btree string) (p : string * string) :
  resolve_kube field ns x values = Ok p <->
  resolve_str ns values = Ok p.1 /\ resolve_str x values = Ok p.2
  /\ is_valid_k8s_label p.1 = true /\ is_valid_k8s_label p.2 = true.
Proof.
  unfold resolve_kube. destruct p as [n y]; cbn.
  destruct (resolve_str ns values) as [n'|]; cbn; [|by split; [|intros [? _]]].
  destruct (resolve_str x values) as [y'|]; cbn; [|by split; [|intros (_ & ? & _)]].
  destruct (is_valid_k8s_label n') eqn:Hn; cbn;
    [|split; [done|intros ([= ->] & _ & ? & _); congruence]].
  destruct (is_valid_k8s_label y') eqn:Hy; cbn;
    [|split; [done|intros (_ & [= ->] & _ & ?); congruence]].
  split; [by intros [= <- <-]|]. by intros ([= ->] & [= ->] & _).
Qed.

(** The capabilities the in-cluster executor runs. *)
Definition is_kube (c : Capability) : bool :=
  match c with DeletePod _ _ | RestartDeployment _ _ | PodState _ _ => true | _ => false end.

(** ** Validation, declaratively *)

Lemma try_each_Ok {E A} (f : A -> result E unit) (l : list A) :
  try_each f l = Ok tt <-> forall x, x ∈ l -> f x = Ok tt.
Proof.
  induction l as [|x l IH]; cbn; [set_solver|]. setoid_rewrite elem_of_cons.
  destruct (f x) as [[]|e] eqn:Hx.
  - rewrite IH. naive_solver.
  - split; [done|]. intros H. rewrite <-Hx. auto.
Qed.

Lemma check_tokens_Ok (declared tokens : list string) :
  check_tokens declared tokens = Ok tt <-> forall t, t ∈ tokens -> t ∈ declared.
Proof.
  induction tokens as [|t ts IH]; cbn; [set_solver|]. setoid_rewrite elem_of_cons.
  destruct (one_of t declared) eqn:Ht.
  - rewrite IH. apply one_of_elem in Ht. naive_solver.
  - split; [done|]. intros H. exfalso.
    assert (one_of t declared = true) by (apply one_of_elem; auto). congruence.
Qed.

Lemma check_check_Ok (declared : list string) (c : Capability) :
  check_check declared c = Ok tt <->
  is_read_only c = true /\ forall t, t ∈ placeholders_in_capability c -> t ∈ declared.
Proof.
  unfold check_check, check_placeholders. destruct (is_read_only c); cbn.
  - rewrite check_tokens_Ok. naive_solver.
  - naive_solver.
Qed.

Lemma validate_inv (t : Template) :
  template_validate t = Ok tt <->
  (forall c, c ∈ tpl_preconditions t -> check_check (bt_keys (tpl_parameters t)) (co_check c) = Ok tt)
  /\ (forall c, c ∈ tpl_steps t -> check_placeholders (bt_keys (tpl_parameters t)) c = Ok tt)
  /\ (forall v, tpl_verify t = Some v -> check_check (bt_keys (tpl_parameters t)) (ve_check v) = Ok tt)
  /\ tpl_steps t <> [].
Proof.
  unfold template_validate.
  pose proof (try_each_Ok (fun c => check_check (bt_keys (tpl_parameters t)) (co_check c))
    (tpl_preconditions t)) as <-.
  pose proof (try_each_Ok (check_placeholders (bt_keys (tpl_parameters t))) (tpl_steps t)) as <-.
  destruct (try_each _ (tpl_preconditions t)) as [[]|]; cbn; [|split; [done|by intros (? & _)]].
  destruct (try_each _ (tpl_steps t)) as [[]|]; cbn; [|split; [done|by intros (_ & ? & _)]].
  destruct (match tpl_verify t with Some v => _ | None => _ end) as [[]|] eqn:Hv; cbn.
  - assert (forall v, tpl_verify t = Some v -> check_check (bt_keys (tpl_parameters t)) (ve_check v) = Ok tt)
      by (by intros v Hs; rewrite Hs in Hv).
    destruct (tpl_steps t); cbn; split; [done|by intros (_ & _ & _ & ?)|done|done].
  - split; [done|]. intros (_ & _ & Hall & _). destruct (tpl_verify t) as [v|]; [|done].
    rewrite (Hall v eq_refl) in Hv. done.
Qed.

(** Resolution of a capability fails only on a placeholder without a value or
    on an identifier that is not a label. *)
Lemma capability_resolve_Err (c : Capability) (values : btree string) (e : RenderError) :
  capability_resolve c values = Err e ->
  (exists p, e = MissingValue p /\ p ∈ placeholders_in_capability c /\ bt_get p values = None)
  \/ (exists field s, e = InvalidKubeIdentifier field s /\ is_kube c = true
        /\ is_valid_k8s_label s = false).
Proof.
  assert (forall f x y, resolve_kube f x y values = Err e ->
    (exists p, e = MissingValue p /\ p ∈ placeholders_in_str x ++ placeholders_in_str y
       /\ bt_get p values = None)
    \/ (exists field s, e = InvalidKubeIdentifier field s /\ is_valid_k8s_label s = false)) as Hk.
  { intros f x y. unfold resolve_kube. setoid_rewrite elem_of_app.
    destruct (resolve_str x values) as [n|] eqn:Hx; cbn.
    - destruct (resolve_str y values) as [m|] eqn:Hy; cbn.
      + destruct (is_valid_k8s_label n) eqn:Hn; cbn; [|intros [= <-]; eauto].
        destruct (is_valid_k8s_label m) eqn:Hm; cbn; [done|intros [= <-]; eauto].
      + intros [= ->]. apply resolve_str_Err in Hy. left. naive_solver.
    - intros [= ->]. apply resolve_str_Err in Hx. left. naive_solver. }
  assert (forall x k, (k <$> resolve_str x values : result RenderError Capability) = Err e ->
    exists p, e = MissingValue p /\ p ∈ placeholders_in_str x /\ bt_get p values = None) as Hs.
  { intros x k. destruct (resolve_str x values) eqn:Hx; cbn; [done|].
    intros [= ->]. by apply resolve_str_Err. }
  destruct c; cbn; try (intros H; left; by eapply Hs); [done|..].
  all: match goal with |- (_ <$> resolve_kube ?f ?x ?y _) = _ -> _ =>
         specialize (Hk f x y); destruct (resolve_kube f x y values) end; cbn; [done|].
  all: intros [= ->]; destruct Hk as [?|(? & ? & ? & ?)]; eauto 10.
Qed.

(** A validated template resolves once its parameters have values. *)
Lemma validated_resolves (t : Template) (values : btree string) (c : Capability) :
  template_validate t = Ok tt ->
  (forall p, p ∈ bt_keys (tpl_parameters t) -> is_Some (bt_get p values)) ->
  c ∈ template_capabilities t ->
  (exists c', capability_resolve c values = Ok c')
  \/ (is_kube c = true /\ exists field s,
        capability_resolve c values = Err (InvalidKubeIdentifier field s)
        /\ is_valid_k8s_label s = false).
Proof.
  intros Hval Hall Hc.
  assert (forall p, p ∈ placeholders_in_capability c -> is_Some (bt_get p values)) as Hp.
  { intros p Hp. apply Hall. revert p Hp.
    apply validate_inv in Hval as (Hpre & Hst & Hv & _).
    unfold template_capabilities in Hc. rewrite !elem_of_app in Hc.
    destruct Hc as [(co & -> & Hco)%list_elem_of_fmap|[Hc|Hc]].
    - by apply (check_check_Ok _ _), Hpre.
    - by apply check_tokens_Ok, Hst.
    - destruct (tpl_verify t) as [v|]; [|set_solver].
      apply list_elem_of_singleton in Hc as ->. by apply (check_check_Ok _ _), Hv. }
  destruct (capability_resolve c values) as [c'|e] eqn:He; [eauto|right].
  apply capability_resolve_Err in He as [(p & -> & Hin & Hn)|(f & s & -> & Hk & Hs)]; [|eauto].
  destruct (Hp p Hin) as [? ?]. congruence.
Qed.

(** ** Properties *)

(** C25. The placeholder resolver computes exactly the rendering relation: it
    returns a string if and only if that string is the template text with each
    placeholder (first [{{] to the first [}}] after it, name trimmed) replaced
    by its value; in particular its loop always finishes. *)
Theorem resolve_str_renders (raw out : string) (values : btree string) :
  resolve_str raw values = Ok out <-> Renders values raw out.
Proof.
  split.
  - revert raw out; apply (scan_ind (fun raw => forall out, _ -> _)).
    + intros raw Hp Hres out. rewrite Hres. intros [= <-].
      rewrite placeholders_in_str_unfold in Hp.
      destruct (cut "{{" raw) as [[before after]|] eqn:E1; [|by constructor].
      destruct (cut "}}" after) as [[inside rest]|] eqn:E2; [done|].
      pose proof (cut_Some_app _ _ _ _ E1) as ->. by constructor.
    + intros raw before inside rest -> E1 E2 IH out. rewrite resolve_str_unfold, E1, E2.
      destruct (bt_get (trim inside) values) as [value|] eqn:Ev; [|done].
      destruct (resolve_str rest values) as [o|] eqn:Hr; [|done].
      intros [= <-]. constructor; auto.
  - induction 1 as [raw E|before after E1 E2|before inside rest value out E1 E2 Ev _ IH];
      rewrite resolve_str_unfold; [by rewrite E|by rewrite E1, E2|].
    by rewrite E1, E2, Ev, IH.
Qed.

(** [Template::validate] accepts a template if and only if it has a step,
    its precondition and verify checks are read-only, and every placeholder of
    its checks and steps is a declared parameter. *)
Theorem validate_accepts (t : Template) :
  template_validate t = Ok tt <->
  tpl_steps t <> []
  /\ (forall c, c ∈ tpl_preconditions t -> is_read_only (co_check c) = true)
  /\ (forall v, tpl_verify t = Some v -> is_read_only (ve_check v) = true)
  /\ (forall c p, c ∈ template_capabilities t -> p ∈ placeholders_in_capability c ->
        p ∈ bt_keys (tpl_parameters t)).
Proof.
  rewrite validate_inv. setoid_rewrite check_check_Ok. unfold check_placeholders.
  setoid_rewrite check_tokens_Ok. unfold template_capabilities.
  setoid_rewrite elem_of_app. setoid_rewrite elem_of_app. split.
  - intros (Hpre & Hst & Hv & Hne). split_and!; [done|by apply Hpre|by apply Hv|].
    intros c p [(co & -> & Hco)%list_elem_of_fmap|[Hc|Hc]] Hp.
    + by apply (Hpre co).
    + by apply (Hst c).
    + destruct (tpl_verify t) as [v|]; [|set_solver].
      apply list_elem_of_singleton in Hc as ->. by apply (Hv v).
  - intros (Hne & Hpre & Hv & Hall). split_and!; [|by eauto| |done].
    + intros co Hco. split; [auto|]. intros p. apply Hall. left.
      apply list_elem_of_fmap. eauto.
    + intros v Hs. split; [auto|]. intros p. apply Hall. right; right. rewrite Hs. set_solver.
Qed.

(** C24. Once a template validates and each declared parameter has a value, no
    capability it mentions can fail to resolve for a missing value: the only
    failure left is a Kubernetes identifier that is not a DNS label. *)
Theorem validated_template_resolves (t : Template) (values : btree string) (c : Capability) :
  template_validate t = Ok tt ->
  (forall p, p ∈ bt_keys (tpl_parameters t) -> is_Some (bt_get p values)) ->
  c ∈ template_capabilities t ->
  (exists c', capability_resolve c values = Ok c')
  \/ (is_kube c = true /\ exists field s,
        capability_resolve c values = Err (InvalidKubeIdentifier field s)
        /\ is_valid_k8s_label s = false).
Proof. apply validated_resolves. Qed.

(** C26. Kubernetes capabilities are closed by resolution: a resolved one has two
    valid DNS labels, no placeholder left, and resolves to itself whatever the
    parameter values. *)
Theorem kube_resolution_closed (c c' : Capability) (values : btree string) :
  is_kube c = true ->
  capability_resolve c values = Ok c' ->
  placeholders_in_capability c' = []
  /\ (forall values', capability_resolve c' values' = Ok c')
  /\ exists ns x,
       (c' = DeletePod ns x \/ c' = RestartDeployment ns x \/ c' = PodState ns x)
       /\ is_valid_k8s_label ns = true /\ is_valid_k8s_label x = true.
Proof.
  intros Hk Hr.
  assert (forall f x y p, resolve_kube f x y values = Ok p ->
    is_valid_k8s_label p.1 = true /\ is_valid_k8s_label p.2 = true
    /\ placeholders_in_str p.1 ++ placeholders_in_str p.2 = []
    /\ forall f' v', resolve_kube f' p.1 p.2 v' = Ok p) as Hclosed.
  { intros f x y p (_ & _ & H1 & H2)%resolve_kube_Ok. split_and!; [done..| |].
    - by rewrite (proj1 (label_closed p.1 [] H1)), (proj1 (label_closed p.2 [] H2)).
    - intros f' v'. apply resolve_kube_Ok. split_and!; [|..]; by try apply label_closed. }
  destruct c; cbn in Hk, Hr; try discriminate.
  all: match type of Hr with context [resolve_kube ?f ?x ?y ?v] =>
         destruct (resolve_kube f x y v) as [[ns z]|] eqn:E end; cbn in Hr; [|done].
  all: injection Hr as <-; apply Hclosed in E as (H1 & H2 & H3 & H4); cbn in *.
  all: split_and!; [done|intros v'; by rewrite H4|eauto 10].
Qed.

(** A parameter value is inserted as it is, so a value of a host capability that
    itself looks like a placeholder stays in the resolved capability. *)
Theorem host_resolution_not_closed :
  exists values c c',
    capability_resolve c values = Ok c' /\ placeholders_in_capability c' <> [].
Proof.
  exists [("unit", "{{evil}}.service")]%string, (RestartUnit "{{unit}}"),
    (RestartUnit "{{evil}}.service").
  by vm_compute.
Qed.

Definition example_template : Template :=
  {| tpl_id := "k8s-pod-restart"; tpl_version := 1; tpl_title := "Restart a CrashLooping pod";
     tpl_risk_tier := Safe;
     tpl_match := {| tm_source := SourceKubeWorkload; tm_conditions := [] |};
     tpl_parameters :=
       [("namespace"%string, {| ps_ty := ParamString; ps_from := "payload.namespace" |});
        ("pod"%string, {| ps_ty := ParamString; ps_from := "payload.name" |})];
     tpl_preconditions := [];
     tpl_steps := [DeletePod "{{namespace}}" "{{ pod }}"];
     tpl_verify := Some {| ve_check := PodState "{{namespace}}" "{{pod}}";
                           ve_equals := "Running"; ve_timeout_s := 60 |};
     tpl_rollback := RollbackNone |}.
Definition example_params : btree string := [("namespace", "payments"); ("pod", "api-7d9")]%string.

Lemma validated_template_resolves_witness :
  (exists c', capability_resolve (DeletePod "{{namespace}}" "{{ pod }}") example_params = Ok c')
  \/ (is_kube (DeletePod "{{namespace}}" "{{ pod }}") = true /\ exists field s,
        capability_resolve (DeletePod "{{namespace}}" "{{ pod }}") example_params
          = Err (InvalidKubeIdentifier field s)
        /\ is_valid_k8s_label s = false).
Proof.
  apply (validated_template_resolves example_template).
  - vm_compute. reflexivity.
  - intros p Hp. apply bt_get_is_Some.
    assert (bt_keys (tpl_parameters example_template) = bt_keys example_params) as <- by reflexivity.
    exact Hp.
  - unfold template_capabilities. cbn. left.
Defined.

Lemma kube_resolution_closed_witness :
  placeholders_in_capability (DeletePod "payments" "api-7d9") = []
  /\ (forall values', capability_resolve (DeletePod "payments" "api-7d9") values'
        = Ok (DeletePod "payments" "api-7d9"))
  /\ exists ns x,
       (DeletePod "payments" "api-7d9" = DeletePod ns x
        \/ DeletePod "payments" "api-7d9" = RestartDeployment ns x
        \/ DeletePod "payments" "api-7d9" = PodState ns x)
       /\ is_valid_k8s_label ns = true /\ is_valid_k8s_label x = true.
Proof.
  apply (kube_resolution_closed (DeletePod "{{namespace}}" "{{ pod }}") _ example_params).
  - reflexivity.
  - vm_compute. reflexivity.
Defined.
