(* ===== verification/Envelope.v ===== *)
(** * Commands, results, proposals and audit records
    ([ravn-core/remediation.rs], second half)

    The signed command envelope and the exact fields its signature covers, the
    result an agent reports, the proposal, the decision on it, and the audit
    record of the whole lifecycle. *)

From S2P Require Export Template.

Inductive ApprovalRef :=
  | PolicyAuto
  | Human (user : string) (approved_at : DateTime).

Record CommandEnvelope := mkEnvelope {
  ce_command_id : Uuid;
  ce_agent_id : AgentId;
  ce_template_id : string;
  ce_template_version : N;
  ce_risk_tier : RiskTier;
  ce_preconditions : list Condition;
  ce_steps : list Capability;
  ce_verify : option Verify;
  ce_rollback : Rollback;
  ce_approval_ref : ApprovalRef;
  ce_nonce : string;
  ce_issued_at : DateTime;
  ce_expires_at : DateTime;
  ce_kid : option string;
  ce_sig : option string;
}.

(** The local struct [Signable] of [signing_payload]: every field but [sig]. *)
Record Signable := mkSignable {
  sg_command_id : Uuid;
  sg_agent_id : AgentId;
  sg_template_id : string;
  sg_template_version : N;
  sg_risk_tier : RiskTier;
  sg_preconditions : list Condition;
  sg_steps : list Capability;
  sg_verify : option Verify;
  sg_rollback : Rollback;
  sg_approval_ref : ApprovalRef;
  sg_nonce : string;
  sg_issued_at : DateTime;
  sg_expires_at : DateTime;
  sg_kid : option string;
}.

Definition signable (e : CommandEnvelope) : Signable :=
  {| sg_command_id := ce_command_id e;
     sg_agent_id := ce_agent_id e;
     sg_template_id := ce_template_id e;
     sg_template_version := ce_template_version e;
     sg_risk_tier := ce_risk_tier e;
     sg_preconditions := ce_preconditions e;
     sg_steps := ce_steps e;
     sg_verify := ce_verify e;
     sg_rollback := ce_rollback e;
     sg_approval_ref := ce_approval_ref e;
     sg_nonce := ce_nonce e;
     sg_issued_at := ce_issued_at e;
     sg_expires_at := ce_expires_at e;
     sg_kid := ce_kid e |}.

(** Field updates [env.kid = ..] and [env.sig = ..]. *)
Definition set_kid (k : option string) (e : CommandEnvelope) : CommandEnvelope :=
  {| ce_command_id := ce_command_id e; ce_agent_id := ce_agent_id e;
     ce_template_id := ce_template_id e; ce_template_version := ce_template_version e;
     ce_risk_tier := ce_risk_tier e; ce_preconditions := ce_preconditions e;
     ce_steps := ce_steps e; ce_verify := ce_verify e; ce_rollback := ce_rollback e;
     ce_approval_ref := ce_approval_ref e; ce_nonce := ce_nonce e;
     ce_issued_at := ce_issued_at e; ce_expires_at := ce_expires_at e;
     ce_kid := k; ce_sig := ce_sig e |}.
Definition set_sig (s : option string) (e : CommandEnvelope) : CommandEnvelope :=
  {| ce_command_id := ce_command_id e; ce_agent_id := ce_agent_id e;
     ce_template_id := ce_template_id e; ce_template_version := ce_template_version e;
     ce_risk_tier := ce_risk_tier e; ce_preconditions := ce_preconditions e;
     ce_steps := ce_steps e; ce_verify := ce_verify e; ce_rollback := ce_rollback e;
     ce_approval_ref := ce_approval_ref e; ce_nonce := ce_nonce e;
     ce_issued_at := ce_issued_at e; ce_expires_at := ce_expires_at e;
     ce_kid := ce_kid e; ce_sig := s |}.

(** Every capability a command mentions: precondition checks, steps, verify check. *)
Definition envelope_targets (env : CommandEnvelope) : list Capability :=
  map co_check (ce_preconditions env) ++ ce_steps env
  ++ match ce_verify env with Some v => [ve_check v] | None => [] end.

Inductive ActionStatus := Succeeded | PreconditionFailed | Failed | StatusRejected | Frozen.

Record ActionResult := mkResult {
  ar_command_id : Uuid;
  ar_status : ActionStatus;
  ar_detail : option string;
  ar_observed_state : option string;
  ar_finished_at : DateTime;
}.

Record RemediationProposal := mkProposal {
  rp_id : Uuid;
  rp_event_id : Uuid;
  rp_agent_id : AgentId;
  rp_host : string;
  rp_template_id : string;
  rp_template_version : N;
  rp_risk_tier : RiskTier;
  rp_params : btree string;
  rp_rationale : string;
  rp_created_at : DateTime;
}.

Inductive Decision :=
  | Pending
  | Approved (by_ : ApprovalRef)
  | Rejected (by_ : string) (at_ : DateTime) (reason : option string).

Record RemediationRecord := mkRecord {
  rr_proposal : RemediationProposal;
  rr_decision : Decision;
  rr_command_id : option Uuid;
  rr_signature : option string;
  rr_result : option ActionResult;
  rr_updated_at : DateTime;
}.

#[export] Instance ApprovalRef_eq_dec : EqDecision ApprovalRef.
Proof. solve_decision. Defined.
#[export] Instance CommandEnvelope_eq_dec : EqDecision CommandEnvelope.
Proof. solve_decision. Defined.
#[export] Instance ActionStatus_eq_dec : EqDecision ActionStatus.
Proof. solve_decision. Defined.
#[export] Instance ActionResult_eq_dec : EqDecision ActionResult.
Proof. solve_decision. Defined.
#[export] Instance RemediationProposal_eq_dec : EqDecision RemediationProposal.
Proof. solve_decision. Defined.
#[export] Instance Decision_eq_dec : EqDecision Decision.
Proof. solve_decision. Defined.
#[export] Instance RemediationRecord_eq_dec : EqDecision RemediationRecord.
Proof. solve_decision. Defined.

(** ** What the wire format provides

    [serde_json] as the sources use it on these types: the bytes of the signed
    fields, the keyring document and its parser, and the text of a parameter
    map.  The law is the documented round trip of a serialized document. *)

Record KeyringDoc := mkKeyringDoc {
  kd_active_kid : option string;
  kd_keys : btree string;
}.

Class SerdeJson : Type := {
  json_signable : Signable -> string;
  json_keyring : KeyringDoc -> string;
  json_parse_keyring : string -> option KeyringDoc;
  json_params : btree string -> string;
}.

Class SerdeJsonLaws `{SerdeJson} : Prop := {
  json_keyring_roundtrip d :
    bt_ordered (kd_keys d) -> json_parse_keyring (json_keyring d) = Some d;
  json_params_inj p q :
    bt_ordered p -> bt_ordered q -> json_params p = json_params q -> p = q;
}.

(** [CommandEnvelope::signing_payload]. *)
Definition signing_payload `{SerdeJson} (e : CommandEnvelope) : string :=
  json_signable (signable e).

(** ** A concrete wire format for the witnesses

    Countable encodings written as bit strings. *)

Fixpoint bits_of_pos (p : positive) : string :=
  match p with
  | xH => EmptyString
  | xO p => String "0" (bits_of_pos p)
  | xI p => String "1" (bits_of_pos p)
  end.
Fixpoint pos_of_bits (s : string) : positive :=
  match s with
  | EmptyString => xH
  | String c s' => if Ascii.eqb c "1" then xI (pos_of_bits s') else xO (pos_of_bits s')
  end.

Lemma pos_of_bits_of_pos (p : positive) : pos_of_bits (bits_of_pos p) = p.
Proof. induction p as [p IH|p IH|]; cbn; [..|done]; by rewrite IH. Qed.

Definition bits_encode {A} `{Countable A} (a : A) : string := bits_of_pos (encode a).
Definition bits_decode {A} `{Countable A} (s : string) : option A := decode (pos_of_bits s).

Lemma bits_decode_encode {A} `{Countable A} (a : A) : bits_decode (bits_encode a) = Some a.
Proof. unfold bits_decode, bits_encode. by rewrite pos_of_bits_of_pos, decode_encode. Qed.

Definition bits_json : SerdeJson :=
  {| json_signable s :=
       bits_encode (sg_command_id s, sg_template_id s, length (sg_steps s), sg_kid s);
     json_keyring d := bits_encode (kd_active_kid d, kd_keys d);
     json_parse_keyring s :=
       match (bits_decode s : option (option string * list (string * string))) with
       | Some (k, m) => Some {| kd_active_kid := k; kd_keys := m |}
       | None => None
       end;
     json_params p := bits_encode p |}.

Lemma bits_json_laws : @SerdeJsonLaws bits_json.
Proof.
  constructor; cbn.
  - intros [k m] _. by rewrite bits_decode_encode.
  - intros p q _ _ Heq.
    assert (bits_decode (A := list (string * string)) (bits_encode p) = bits_decode (bits_encode q))
      as E by congruence.
    rewrite !bits_decode_encode in E. congruence.
Qed.
