(* ===== verification/Crypto.v ===== *)
(** * Command signing and the trusted keyring ([ravn-crypto/src/lib.rs])

  Envelope signing, verification against one key or a keyring, and the
  keyring with its JSON document.  Ed25519 and base64 are third-party crates:
  they are the classes [Ed25519] and [Base64], with their documented round
  trips as the laws [CryptoLaws]. *)

From S2P Require Export Envelope.

(** ** The crates below *)

(** Byte strings are Rocq strings: a [Vec<u8>] is its list of bytes. *)
Class Base64 : Type := {
  b64_encode : string -> string;
  b64_decode : string -> option string;
}.

Class Ed25519 : Type := {
  SigningKey : Type;
  VerifyingKey : Type;
  vk_eq_dec :: EqDecision VerifyingKey;
  verifying_key : SigningKey -> VerifyingKey;
  vk_to_bytes : VerifyingKey -> string;
  vk_from_bytes : string -> option VerifyingKey;
  sk_to_bytes : SigningKey -> string;
  sk_from_bytes : string -> SigningKey;
  ed_sign : SigningKey -> string -> string;
  ed_verify : VerifyingKey -> string -> string -> bool;
}.

Class CryptoLaws `{Base64, Ed25519} : Prop := {
  b64_roundtrip s : b64_decode (b64_encode s) = Some s;
  b64_no_space s : trim (b64_encode s) = b64_encode s;
  vk_length k : String.length (vk_to_bytes k) = 32;
  vk_roundtrip k : vk_from_bytes (vk_to_bytes k) = Some k;
  sk_length k : String.length (sk_to_bytes k) = 32;
  sk_roundtrip k : sk_from_bytes (sk_to_bytes k) = k;
  sig_length k m : String.length (ed_sign k m) = 64;
  ed_complete k m : ed_verify (verifying_key k) m (ed_sign k m) = true;
}.

Inductive KeyError := KeyBadEncoding | BadLength | BadKey.
Inductive VerifyError := MissingSignature | BadEncoding | BadSignature | Expired | UnknownKey.

#[export] Instance KeyError_eq_dec : EqDecision KeyError.
Proof. solve_decision. Defined.
#[export] Instance VerifyError_eq_dec : EqDecision VerifyError.
Proof. solve_decision. Defined.

(** [Display for KeyError], [Display for VerifyError]. *)
Definition key_error_display (e : KeyError) : string :=
  match e with
  | KeyBadEncoding => "key is not valid base64"
  | BadLength => "key has the wrong length"
  | BadKey => "key bytes are not a valid Ed25519 key"
  end.
Definition verify_error_display (e : VerifyError) : string :=
  match e with
  | MissingSignature => "command envelope has no signature"
  | BadEncoding => "command signature is malformed"
  | BadSignature => "command signature does not verify"
  | Expired => "command envelope has expired"
  | UnknownKey => "command signed by an untrusted or retired key"
  end.

Section Crypto.
Context `{Base64} `{Ed25519} `{SerdeJson}.

(** ** Keys *)

(** [key_id]: the first 16 base64 characters of the public key. *)
Definition key_id (key : VerifyingKey) : string :=
  String.substring 0 16 (b64_encode (vk_to_bytes key)).

Definition verifying_key_to_b64 (key : VerifyingKey) : string := b64_encode (vk_to_bytes key).

Definition verifying_key_from_b64 (s : string) : result KeyError VerifyingKey :=
  bytes ← ok_or KeyBadEncoding (b64_decode (trim s));
  if String.length bytes =? 32 then ok_or BadKey (vk_from_bytes bytes) else Err BadLength.

Definition signing_key_to_b64 (key : SigningKey) : string := b64_encode (sk_to_bytes key).

Definition signing_key_from_b64 (s : string) : result KeyError SigningKey :=
  bytes ← ok_or KeyBadEncoding (b64_decode (trim s));
  if String.length bytes =? 32 then Ok (sk_from_bytes bytes) else Err BadLength.

(** ** Signing and verifying *)

(** [sign_envelope]: the kid is stamped before signing. *)
Definition sign_envelope (key : SigningKey) (env : CommandEnvelope) : CommandEnvelope :=
  let env := set_kid (Some (key_id (verifying_key key))) env in
  set_sig (Some (b64_encode (ed_sign key (signing_payload env)))) env.

Definition verify_signature (key : VerifyingKey) (env : CommandEnvelope)
    : result VerifyError unit :=
  sig_b64 ← ok_or MissingSignature (ce_sig env);
  sig_bytes ← ok_or BadEncoding (b64_decode (trim sig_b64));
  if String.length sig_bytes =? 64 then
    if ed_verify key (signing_payload env) sig_bytes then Ok tt else Err BadSignature
  else Err BadEncoding.

Definition verify_envelope (key : VerifyingKey) (env : CommandEnvelope) (now : DateTime)
    : result VerifyError unit :=
  _ ← verify_signature key env;
  if (ce_expires_at env <? now)%Z then Err Expired else Ok tt.

(** ** The keyring *)

Record Keyring := mkKeyring {
  kr_keys : btree VerifyingKey;
  kr_default_kid : option string;
}.

Definition keyring_new : Keyring := {| kr_keys := []; kr_default_kid := None |}.

Definition keyring_single (key : VerifyingKey) : Keyring :=
  {| kr_keys := bt_insert (key_id key) key []; kr_default_kid := Some (key_id key) |}.

Definition keyring_insert (key : VerifyingKey) (r : Keyring) : Keyring * string :=
  ({| kr_keys := bt_insert (key_id key) key (kr_keys r); kr_default_kid := kr_default_kid r |},
   key_id key).

Definition keyring_set_default (kid : string) (r : Keyring) : Keyring * bool :=
  if bt_contains_key kid (kr_keys r)
  then ({| kr_keys := kr_keys r; kr_default_kid := Some kid |}, true)
  else (r, false).

Definition keyring_get (kid : string) (r : Keyring) : option VerifyingKey :=
  bt_get kid (kr_keys r).

Definition keyring_default_key (r : Keyring) : option VerifyingKey :=
  k ← kr_default_kid r; bt_get k (kr_keys r).

Definition keyring_is_empty (r : Keyring) : bool := bool_decide (kr_keys r = []).
Definition keyring_kids (r : Keyring) : list string := bt_keys (kr_keys r).

(** [Keyring::to_json]. *)
Definition keyring_to_json (r : Keyring) : string :=
  json_keyring
    {| kd_active_kid := kr_default_kid r;
       kd_keys := map (fun e => (e.1, verifying_key_to_b64 e.2)) (kr_keys r) |}.

(** [Keyring::from_json]. *)
Fixpoint decode_keys (doc : btree string) (keys : btree VerifyingKey)
    : result KeyError (btree VerifyingKey) :=
  match doc with
  | [] => Ok keys
  | (kid, b64) :: doc' =>
      key ← verifying_key_from_b64 b64;
      decode_keys doc' (bt_insert kid key keys)
  end.
Definition keyring_from_json (s : string) : result KeyError Keyring :=
  doc ← ok_or KeyBadEncoding (json_parse_keyring s);
  keys ← decode_keys (kd_keys doc) [];
  match kd_active_kid doc with
  | Some k =>
      if bt_contains_key k keys then Ok {| kr_keys := keys; kr_default_kid := Some k |}
      else Err BadKey
  | None => Ok {| kr_keys := keys; kr_default_kid := None |}
  end.

(** [verify_envelope_with]: the key is chosen by the envelope's [kid], or is the
    default key when there is none. *)
Definition select_key (r : Keyring) (env : CommandEnvelope) : option VerifyingKey :=
  match ce_kid env with
  | Some kid => keyring_get kid r
  | None => keyring_default_key r
  end.
Definition verify_envelope_with (r : Keyring) (env : CommandEnvelope) (now : DateTime)
    : result VerifyError unit :=
  key ← ok_or UnknownKey (select_key r env);
  _ ← verify_signature key env;
  if (ce_expires_at env <? now)%Z then Err Expired else Ok tt.

(** The well-formedness invariant of a keyring: ordered keys and, when there is
    a default kid, a key for it. *)
Definition keyring_wf (r : Keyring) : Prop :=
  bt_ordered (kr_keys r)
  /\ (forall k, kr_default_kid r = Some k -> is_Some (bt_get k (kr_keys r))).

(** ** Lemmas *)

Lemma verify_signature_Ok (key : VerifyingKey) (env : CommandEnvelope) :
  verify_signature key env = Ok tt <->
  exists s bytes, ce_sig env = Some s /\ b64_decode (trim s) = Some bytes
    /\ String.length bytes = 64 /\ ed_verify key (signing_payload env) bytes = true.
Proof.
  unfold verify_signature. destruct (ce_sig env) as [s|]; cbn; [|by split; [|intros (? & ? & ? & _)]].
  destruct (b64_decode (trim s)) as [bytes|] eqn:Hb; cbn.
  - destruct (Nat.eqb_spec (String.length bytes) 64) as [Hl|Hl].
    + destruct (ed_verify key _ bytes) eqn:Hv.
      * split; [|done]. intros _. exists s, bytes. auto.
      * split; [done|]. intros (s' & b' & [= <-] & Hb' & _ & Hv'). congruence.
    + split; [done|]. intros (s' & b' & [= <-] & Hb' & Hl' & _). congruence.
  - split; [done|]. intros (s' & b' & [= <-] & Hb' & _). congruence.
Qed.

Lemma verify_with_Ok (r : Keyring) (env : CommandEnvelope) (now : DateTime) :
  verify_envelope_with r env now = Ok tt <->
  exists key, select_key r env = Some key /\ verify_signature key env = Ok tt
    /\ (now <= ce_expires_at env)%Z.
Proof.
  unfold verify_envelope_with. destruct (select_key r env) as [key|]; cbn;
    [|by split; [|intros (? & ? & _)]].
  destruct (verify_signature key env) as [[]|] eqn:Hv; cbn.
  - destruct (Z.ltb_spec (ce_expires_at env) now) as [Hlt|Hle].
    + split; [done|]. intros (k & _ & _ & Hle). lia.
    + split; [|done]. intros _. eauto.
  - split; [done|]. intros (k & [= <-] & Hv' & _). congruence.
Qed.

(** Empty rings trust nothing: verification fails closed. *)
Lemma verify_with_nonempty (r : Keyring) (env : CommandEnvelope) (now : DateTime) :
  verify_envelope_with r env now = Ok tt -> keyring_is_empty r = false.
Proof.
  intros (key & Hs & _)%verify_with_Ok. unfold keyring_is_empty.
  apply bool_decide_eq_false. intros E. revert Hs.
  unfold select_key, keyring_get, keyring_default_key. rewrite E.
  destruct (ce_kid env); [done|]. by destruct (kr_default_kid r).
Qed.

Lemma single_wf (key : VerifyingKey) : keyring_wf (keyring_single key).
Proof.
  split; [by repeat constructor|]. cbn. intros k [= <-]. rewrite String.eqb_refl. eauto.
Qed.

Lemma insert_wf (key : VerifyingKey) (r : Keyring) :
  keyring_wf r -> keyring_wf (keyring_insert key r).1.
Proof.
  intros [Ho Hd]. split; cbn; [eauto with ravn|].
  intros k Hk. apply bt_get_is_Some, bt_keys_insert. right. apply bt_get_is_Some. auto.
Qed.

Lemma set_default_wf (kid : string) (r : Keyring) :
  keyring_wf r -> keyring_wf (keyring_set_default kid r).1.
Proof.
  intros [Ho Hd]. unfold keyring_set_default.
  destruct (bt_contains_key kid (kr_keys r)) eqn:E; [|done]. split; cbn; [done|].
  intros k [= <-]. by apply bt_get_is_Some, bt_contains_key_spec.
Qed.

Lemma decode_keys_ordered (doc : btree string) (keys res : btree VerifyingKey) :
  bt_ordered keys -> decode_keys doc keys = Ok res -> bt_ordered res.
Proof.
  revert keys; induction doc as [|[kid b] doc IH]; intros keys Ho; cbn; [by intros [= <-]|].
  destruct (verifying_key_from_b64 b); cbn; [|done]. apply IH. eauto with ravn.
Qed.

Lemma from_json_wf (s : string) (r : Keyring) : keyring_from_json s = Ok r -> keyring_wf r.
Proof.
  unfold keyring_from_json. destruct (json_parse_keyring s) as [doc|]; cbn; [|done].
  destruct (decode_keys (kd_keys doc) []) as [keys|] eqn:Hd; cbn; [|done].
  apply decode_keys_ordered in Hd; [|done].
  destruct (kd_active_kid doc) as [k|].
  - destruct (bt_contains_key k keys) eqn:Hk; [|done]. intros [= <-]. split; [done|].
    cbn. intros k' [= <-]. by apply bt_get_is_Some, bt_contains_key_spec.
  - by intros [= <-].
Qed.

End Crypto.

#[export] Hint Resolve single_wf insert_wf set_default_wf from_json_wf : ravn.
#[global] Arguments verify_envelope_with : simpl never.
#[global] Arguments verify_signature : simpl never.

(** ** Signing against verification *)

Section CryptoLawsFacts.
Context `{CL : CryptoLaws} `{SJ : SerdeJson}.

Lemma verifying_key_b64_roundtrip (key : VerifyingKey) :
  verifying_key_from_b64 (verifying_key_to_b64 key) = Ok key.
Proof.
  unfold verifying_key_from_b64, verifying_key_to_b64.
  rewrite b64_no_space, b64_roundtrip. cbn. rewrite vk_length. cbn. by rewrite vk_roundtrip.
Qed.

Lemma verify_signature_signed (key : SigningKey) (env : CommandEnvelope) :
  verify_signature (verifying_key key) (sign_envelope key env) = Ok tt.
Proof.
  apply verify_signature_Ok. eexists _, _. split_and!; [done| | |].
  - by rewrite b64_no_space, b64_roundtrip.
  - apply sig_length.
  - apply ed_complete.
Qed.

Lemma verify_with_signed (key : SigningKey) (r : Keyring) (env : CommandEnvelope) (now : DateTime) :
  bt_get (key_id (verifying_key key)) (kr_keys r) = Some (verifying_key key) ->
  (now <= ce_expires_at env)%Z ->
  verify_envelope_with r (sign_envelope key env) now = Ok tt.
Proof.
  intros Hk Hnow. apply verify_with_Ok. exists (verifying_key key).
  split_and!; [exact Hk|apply verify_signature_signed|exact Hnow].
Qed.

(** A ring built by inserting keys of pairwise distinct ids holds them all. *)
Definition insert_all (keys : list VerifyingKey) (r : Keyring) : Keyring :=
  foldl (fun r key => (keyring_insert key r).1) r keys.

Lemma insert_all_keeps (keys : list VerifyingKey) (r : Keyring) (kid : string) (v : VerifyingKey) :
  bt_get kid (kr_keys r) = Some v -> kid ∉ map key_id keys ->
  bt_get kid (kr_keys (insert_all keys r)) = Some v.
Proof.
  revert r; induction keys as [|k keys IH]; intros r Hv; cbn; [done|].
  rewrite not_elem_of_cons. intros [Hne Hin]. apply IH; [|done]. cbn.
  rewrite bt_get_insert. by rewrite (proj2 (String.eqb_neq kid (key_id k))).
Qed.

Lemma insert_all_get (keys : list VerifyingKey) (r : Keyring) (key : VerifyingKey) :
  NoDup (map key_id keys) -> key ∈ keys ->
  bt_get (key_id key) (kr_keys (insert_all keys r)) = Some key.
Proof.
  revert r; induction keys as [|k keys IH]; intros r; cbn; [set_solver|].
  intros [Hk Hnd]%NoDup_cons [->|Hin]%elem_of_cons; [|by apply IH].
  apply insert_all_keeps; [|done]. cbn. apply bt_get_insert_eq.
Qed.

Lemma decode_keys_encoded (m acc : btree VerifyingKey) :
  bt_ordered m ->
  exists res, decode_keys (map (fun e => (e.1, verifying_key_to_b64 e.2)) m) acc = Ok res
    /\ forall k, bt_get k res = match bt_get k m with Some v => Some v | None => bt_get k acc end.
Proof.
  revert acc; induction m as [|[k0 v0] m IH]; intros acc Ho; cbn; [eauto|].
  rewrite verifying_key_b64_roundtrip. cbn. destruct Ho as [Hb Ho].
  destruct (IH (bt_insert k0 v0 acc) Ho) as (res & -> & Hres). exists res. split; [done|].
  intros k. rewrite Hres, bt_get_insert.
  destruct (String.eqb k k0) eqn:E; [|done].
  apply String.eqb_eq in E as ->. by rewrite (bt_get_below _ _ Hb).
Qed.

Lemma from_json_to_json `{!SerdeJsonLaws} (r : Keyring) :
  keyring_wf r -> keyring_from_json (keyring_to_json r) = Ok r.
Proof.
  intros [Ho Hd]. unfold keyring_from_json, keyring_to_json.
  rewrite json_keyring_roundtrip; cbn.
  - destruct (decode_keys_encoded (kr_keys r) [] Ho) as (res & Hres & Hget).
    rewrite Hres. cbn. assert (res = kr_keys r) as ->.
    { apply bt_ext; [exact (decode_keys_ordered _ [] _ I Hres)|done|].
      intros k. rewrite Hget. by destruct (bt_get k (kr_keys r)). }
    destruct r as [keys [kid|]]; cbn in *; [|done].
    assert (bt_contains_key kid keys = true) as -> by (apply bool_decide_eq_true; auto). done.
  - clear Hd. induction (kr_keys r) as [|[k v] m IH]; cbn in *; [done|].
    destruct Ho as [Hb Ho]. split; [|auto]. rewrite Forall_map. exact Hb.
Qed.
End CryptoLawsFacts.

(** ** Properties *)

Section CryptoProperties.
Context `{CL : CryptoLaws} `{SJ : SerdeJson}.


(** Zero-downtime rotation: on a ring that starts as the single old key and
    receives any further keys with distinct ids, an envelope signed by the old
    key or by any of the new ones verifies until it expires. *)
Theorem rotation_overlap_verifies (old : SigningKey) (news : list SigningKey) (key : SigningKey)
    (env : CommandEnvelope) (now : DateTime) :
  NoDup (map (fun k => key_id (verifying_key k)) (old :: news)) ->
  key ∈ old :: news ->
  (now <= ce_expires_at env)%Z ->
  verify_envelope_with
    (insert_all (map verifying_key news) (keyring_single (verifying_key old)))
    (sign_envelope key env) now = Ok tt.
Proof.
  intros Hnd Hkey Hnow. apply verify_with_signed; [|done].
  cbn in Hnd. apply NoDup_cons in Hnd as [Hold Hnd].
  rewrite <-(map_map verifying_key key_id) in Hold, Hnd.
  apply elem_of_cons in Hkey as [->|Hkey].
  - apply insert_all_keeps; [|done]. cbn. by rewrite String.eqb_refl.
  - apply insert_all_get; [done|]. apply list_elem_of_fmap. eauto.
Qed.

(** A retired key is refused: once no key of that id is in the ring, an
    envelope it signed is rejected as coming from an unknown key, expired or
    not. *)
Theorem retired_key_rejected (key : SigningKey) (r : Keyring) (env : CommandEnvelope)
    (now : DateTime) :
  key_id (verifying_key key) ∉ keyring_kids r ->
  verify_envelope_with r (sign_envelope key env) now = Err UnknownKey.
Proof.
  intros Hn. unfold verify_envelope_with, select_key, keyring_get. cbn.
  destruct (bt_get (key_id (verifying_key key)) (kr_keys r)) as [v|] eqn:E; [|done].
  destruct Hn. apply bt_get_is_Some. rewrite E. eauto.
Qed.

(** C27. The keyring document round-trips: parsing what a well-formed ring
    prints gives back that ring, keys, ids and default included. *)
Theorem keyring_json_roundtrip `{!SerdeJsonLaws} (r : Keyring) :
  keyring_wf r -> keyring_from_json (keyring_to_json r) = Ok r.
Proof. apply from_json_to_json. Qed.
End CryptoProperties.

(** ** A concrete instance for the witnesses

  Base64 replaced by two letters per byte, and a checksum for a signature. *)

Definition nibble (n : N) : ascii := ascii_of_N (97 + n).
Fixpoint toy_encode (s : string) : string :=
  match s with
  | EmptyString => EmptyString
  | String c s' => String (nibble (code c / 16)) (String (nibble (code c mod 16)) (toy_encode s'))
  end.
Fixpoint toy_decode (s : string) : option string :=
  match s with
  | EmptyString => Some EmptyString
  | String _ EmptyString => None
  | String a (String b s') =>
      match toy_decode s' with
      | Some r => Some (String (ascii_of_N ((code a - 97) * 16 + (code b - 97))) r)
      | None => None
      end
  end.
#[export] Instance toy_base64 : Base64 := {| b64_encode := toy_encode; b64_decode := toy_decode |}.

Fixpoint zeros (n : nat) : string :=
  match n with O => EmptyString | S n => String "0" (zeros n) end.
Fixpoint checksum (acc : N) (s : string) : N :=
  match s with EmptyString => acc | String c s' => checksum ((31 * acc + code c) mod 251) s' end.
Definition toy_sign (k : ascii) (m : string) : string :=
  String k (String (ascii_of_N (checksum 7 m)) (zeros 62)).
#[export] Instance toy_ed25519 : Ed25519 :=
  {| SigningKey := ascii; VerifyingKey := ascii; verifying_key := id;
     vk_to_bytes k := String k (zeros 31);
     vk_from_bytes s := match s with String k _ => Some k | EmptyString => None end;
     sk_to_bytes k := String k (zeros 31);
     sk_from_bytes s := match s with String k _ => k | EmptyString => "0"%char end;
     ed_sign := toy_sign;
     ed_verify k m s := String.eqb s (toy_sign k m) |}.
#[export] Existing Instance bits_json.
#[export] Existing Instance bits_json_laws.

Lemma code_bound (c : ascii) : (code c < 256)%N.
Proof. unfold code. apply N_ascii_bounded. Qed.

Lemma code_ascii (n : N) : (n < 256)%N -> code (ascii_of_N n) = n.
Proof. apply N_ascii_embedding. Qed.

Lemma toy_roundtrip (s : string) : toy_decode (toy_encode s) = Some s.
Proof.
  induction s as [|c s IH]; cbn [toy_encode toy_decode]; [done|]. rewrite IH.
  unfold nibble. pose proof (code_bound c) as Hb.
  pose proof (N.mod_lt (code c) 16 ltac:(done)) as Hm.
  pose proof (N.Div0.div_lt_upper_bound (code c) 16 16 ltac:(lia)) as Hd.
  rewrite !code_ascii by lia.
  assert ((97 + code c / 16 - 97) * 16 + (97 + code c mod 16 - 97) = code c)%N as ->.
  { pose proof (N.Div0.div_mod (code c) 16). generalize dependent (code c / 16)%N. generalize dependent (code c mod 16)%N. lia. }
  unfold code. by rewrite ascii_N_embedding.
Qed.

Lemma ws_strip_all_id (w2 : ascii -> ascii -> bool) w3 (n : nat) (s : string) :
  ws_strip w2 w3 s = None -> ws_strip_all w2 w3 n s = s.
Proof. intros H. destruct n; cbn; [done|]. by rewrite H. Qed.

(** [trim] leaves a string alone whose bytes are all printable ASCII. *)
Definition graphic (c : ascii) : bool := in_range 33 126 c.

Lemma graphic_no_ws (c : ascii) : graphic c = true ->
  is_ws1 c = false /\ (forall d, is_ws2 c d = false) /\ (forall d, is_ws2 d c = false)
  /\ (forall d e, is_ws3 c d e = false) /\ (forall d e, is_ws3 d e c = false).
Proof.
  unfold graphic, is_ws1, is_ws2, is_ws3, in_range, is_byte. intros Hc.
  apply andb_true_iff in Hc as [H1%N.leb_le H2%N.leb_le].
  repeat split; intros; apply not_true_iff_false;
    rewrite ?orb_true_iff, ?andb_true_iff, ?orb_true_iff, ?N.leb_le, ?N.eqb_eq;
    rewrite ?andb_true_iff, ?N.leb_le; lia.
Qed.

Lemma ws_strip_None (w2 : ascii -> ascii -> bool) (w3 : ascii -> ascii -> ascii -> bool)
    (c : ascii) (s : string) :
  is_ws1 c = false -> (forall d, w2 c d = false) -> (forall d e, w3 c d e = false) ->
  ws_strip w2 w3 (String c s) = None.
Proof.
  intros H1 H2 H3. cbn [ws_strip]. rewrite H1. destruct s as [|d [|e s]]; rewrite ?H2, ?H3; done.
Qed.

Lemma trim_graphic (s : string) : str_forallb graphic s = true -> trim s = s.
Proof.
  intros Hs. unfold trim. assert (trim_start s = s) as ->.
  { destruct s as [|c s]; [done|]. apply andb_true_iff in Hs as [Hc _].
    apply graphic_no_ws in Hc as (? & ? & _ & ? & _). by apply ws_strip_all_id, ws_strip_None. }
  unfold trim_end. rewrite ws_strip_all_id; [apply str_rev_involutive|].
  assert (str_forallb graphic (str_rev s) = true) as Hr.
  { unfold str_rev. by rewrite str_forallb_rev_app, Hs. }
  destruct (str_rev s) as [|c r]; [done|]. apply andb_true_iff in Hr as [Hc _].
  apply graphic_no_ws in Hc as (? & _ & ? & _ & ?). by apply ws_strip_None.
Qed.

Lemma toy_encode_graphic (s : string) : str_forallb graphic (toy_encode s) = true.
Proof.
  induction s as [|c s IH]; cbn; [done|]. rewrite IH. unfold graphic, in_range, nibble.
  pose proof (code_bound c) as Hb. pose proof (N.mod_lt (code c) 16 ltac:(done)) as Hm.
  pose proof (N.Div0.div_lt_upper_bound (code c) 16 16 ltac:(lia)) as Hd.
  generalize dependent (code c / 16)%N. generalize dependent (code c mod 16)%N. intros m Hm q Hq.
  rewrite !code_ascii by lia. rewrite !andb_true_iff, !N.leb_le. lia.
Qed.

#[export] Instance toy_laws : CryptoLaws.
Proof.
  constructor; cbn; intros; try done.
  - apply toy_roundtrip.
  - apply trim_graphic, toy_encode_graphic.
  - exact (String.eqb_refl (toy_sign k m)).
Qed.

(** ** Witnesses *)

Definition example_envelope : CommandEnvelope :=
  {| ce_command_id := 7; ce_agent_id := {| agent_uuid := 1%N |}; ce_template_id := "restart_failed_unit";
     ce_template_version := 1; ce_risk_tier := Safe;
     ce_preconditions := [{| co_check := UnitState "nginx.service"; co_equals := "failed" |}];
     ce_steps := [RestartUnit "nginx.service"];
     ce_verify := Some {| ve_check := UnitState "nginx.service"; ve_equals := "active";
                          ve_timeout_s := 2 |};
     ce_rollback := RollbackNone; ce_approval_ref := PolicyAuto; ce_nonce := "n";
     ce_issued_at := 0; ce_expires_at := 300; ce_kid := None; ce_sig := None |}.

Definition key_a : SigningKey (Ed25519 := toy_ed25519) := "a"%char.
Definition key_b : SigningKey (Ed25519 := toy_ed25519) := "b"%char.
Definition key_c : SigningKey (Ed25519 := toy_ed25519) := "c"%char.

Lemma rotation_overlap_verifies_witness :
  verify_envelope_with
    (insert_all (map verifying_key [key_b; key_c]) (keyring_single (verifying_key key_a)))
    (sign_envelope key_c example_envelope) 10 = Ok tt.
Proof.
  apply (rotation_overlap_verifies key_a [key_b; key_c] key_c).
  - apply (bool_decide_unpack _). vm_compute. exact I.
  - apply (bool_decide_unpack _). vm_compute. exact I.
  - done.
Defined.

Lemma retired_key_rejected_witness :
  verify_envelope_with (keyring_single (verifying_key key_b))
    (sign_envelope key_a example_envelope) 10 = Err UnknownKey.
Proof.
  apply (retired_key_rejected key_a). apply (bool_decide_unpack _). vm_compute. exact I.
Defined.

Lemma keyring_json_roundtrip_witness :
  let r := insert_all (map verifying_key [key_b; key_c]) (keyring_single (verifying_key key_a)) in
  keyring_from_json (keyring_to_json r) = Ok r.
Proof.
  cbv zeta. apply keyring_json_roundtrip. unfold insert_all. cbn [foldl map].
  apply insert_wf, insert_wf, single_wf.
Defined.
