(* ===== verification/Actuator.v ===== *)
(** * The privileged actuator ([ravn-actuator/src/lib.rs])

  Re-verification of a signed command, validation of every targeted
  identifier, preconditions, steps, the polled post-condition, and the
  rollback; the connection handler that refuses Kubernetes capabilities on a
  host; the fail-safe reload of the trusted keyring; the [systemctl]
  executor.

  The capability executor, the clocks and the processes it spawns are
  interfaces ([Host], [Processes]) over a type [W] of states of the world; a
  ghost log records every capability that is run with its answer.  The poll
  loop takes fuel; [handle_command_terminates] gives the amount that is always
  enough under the laws of the clock. *)

From S2P Require Export Crypto.

Definition MAX_CONCURRENT_COMMANDS : N := 64.
(** [VERIFY_POLL_INTERVAL], in nanoseconds. *)
Definition VERIFY_POLL_INTERVAL : Z := 500 * 1000000.

Record ExecError := mkExecError { exec_error : string }.
Abbreviation Answer := (result ExecError (option string)).
#[export] Instance ExecError_eq_dec : EqDecision ExecError.
Proof. solve_decision. Defined.

(** ** Identifiers *)

Definition is_unit_char (c : ascii) : bool :=
  is_ascii_alphanumeric c || is_byte 46 c || is_byte 95 c || is_byte 45 c || is_byte 64 c
  || is_byte 58 c || is_byte 92 c.
Definition is_valid_unit (unit : string) : bool :=
  negb (is_empty unit) && (String.length unit <=? 256) && str_forallb is_unit_char unit.

Definition capability_unit (c : Capability) : option string :=
  match c with
  | ResetFailed u | RestartUnit u | UnitState u => Some u
  | NixRollback | DeletePod _ _ | RestartDeployment _ _ | PodState _ _ => None
  end.

Definition capability_kube_ids (c : Capability) : list (string * string) :=
  match c with
  | DeletePod n p => [("namespace", n); ("pod", p)]
  | RestartDeployment n d => [("namespace", n); ("deployment", d)]
  | PodState n p => [("namespace", n); ("pod_prefix", p)]
  | _ => []
  end.

Definition envelope_contains_kube_capability (env : CommandEnvelope) : bool :=
  existsb (fun c => is_kube (co_check c)) (ce_preconditions env)
  || existsb is_kube (ce_steps env)
  || match ce_verify env with Some v => is_kube (ve_check v) | None => false end.

(** Step 2 of [handle_command]: the first invalid identifier, as its message. *)
Definition invalid_ids (ids : list (string * string)) : option string :=
  match find_first (fun p => negb (is_valid_k8s_label p.2)) ids with
  | Some (field, value) =>
      Some ("invalid Kubernetes identifier for " +:+ field +:+ ": " +:+ debug_str value)
  | None => None
  end.
Definition invalid_target (c : Capability) : option string :=
  match capability_unit c with
  | Some u =>
      if is_valid_unit u then invalid_ids (capability_kube_ids c)
      else Some ("invalid unit name: " +:+ debug_str u)
  | None => invalid_ids (capability_kube_ids c)
  end.
Fixpoint first_invalid (caps : list Capability) : option string :=
  match caps with
  | [] => None
  | c :: caps' => match invalid_target c with Some d => Some d | None => first_invalid caps' end
  end.

(** ** The world the handler runs in *)

(** [CapabilityExecutor::run] and the clocks. *)
Class Host (W : Type) : Type := {
  exec_run : Capability -> W -> Answer * W;
  utc_now : W -> DateTime;
  instant_now : W -> Z;
  sleep : Z -> W -> W;
}.
(** The monotonic clock never goes back, and a sleep lasts at least as long as
    asked. *)
Class HostLaws (W : Type) `{Host W} : Prop := {
  run_monotonic c w : (instant_now w <= instant_now (exec_run c w).2)%Z;
  sleep_advances d w : (instant_now w + d <= instant_now (sleep d w))%Z;
}.

(** What the handler ends with: a value, a panic, or no fuel left. *)
Inductive outcome (A : Type) := Done (a : A) | Panicked | OutOfFuel.
Arguments Done {A} a. Arguments Panicked {A}. Arguments OutOfFuel {A}.

(** Executed capabilities with their answers, oldest first. *)
Abbreviation Log := (list (Capability * Answer)).

Definition M (W A : Type) : Type := W * Log -> outcome A * (W * Log).
#[export] Instance M_ret {W} : MRet (M W) := fun A a s => (Done a, s).
#[export] Instance M_bind {W} : MBind (M W) := fun A B f m s =>
  match m s with
  | (Done a, s') => f a s'
  | (Panicked, s') => (Panicked, s')
  | (OutOfFuel, s') => (OutOfFuel, s')
  end.
#[export] Instance M_fmap {W} : FMap (M W) := fun A B f m s =>
  match m s with
  | (Done a, s') => (Done (f a), s')
  | (Panicked, s') => (Panicked, s')
  | (OutOfFuel, s') => (OutOfFuel, s')
  end.

Section Handler.
Context {W : Type} `{Host W}.

Definition run (c : Capability) : M W Answer := fun s =>
  let (r, w) := exec_run c s.1 in (Done r, (w, s.2 ++ [(c, r)])).
Definition get_utc : M W DateTime := fun s => (Done (utc_now s.1), s).
Definition get_instant : M W Z := fun s => (Done (instant_now s.1), s).
Definition do_sleep (d : Z) : M W unit := fun s => (Done tt, (sleep d s.1, s.2)).
Definition panic {A} : M W A := fun s => (Panicked, s).
Definition no_fuel {A} : M W A := fun s => (OutOfFuel, s).

(** The closures [make_result], [reject] and [fail] of [handle_command]. *)
Definition make_result (env : CommandEnvelope) (st : ActionStatus) (detail observed : option string)
    : M W ActionResult :=
  now ← get_utc;
  mret {| ar_command_id := ce_command_id env; ar_status := st; ar_detail := detail;
          ar_observed_state := observed; ar_finished_at := now |}.
Definition reject (env : CommandEnvelope) (detail : string) : M W ActionResult :=
  make_result env StatusRejected (Some detail) None.
Definition fail (env : CommandEnvelope) (detail : string) (observed : option string)
    : M W ActionResult :=
  make_result env Failed (Some detail) observed.

Definition unwrap_or_default (o : option string) : string := default EmptyString o.

(** Step 3: [Some r] is the early return. *)
Fixpoint check_preconditions (env : CommandEnvelope) (conds : list Condition)
    : M W (option ActionResult) :=
  match conds with
  | [] => mret None
  | cond :: conds' =>
      a ← run (co_check cond);
      match a with
      | Ok observed =>
          let observed := unwrap_or_default observed in
          if String.eqb observed (co_equals cond) then check_preconditions env conds'
          else Some <$>
            make_result env PreconditionFailed
              (Some ("precondition failed: expected " +:+ debug_str (co_equals cond)
                     +:+ ", observed " +:+ debug_str observed))
              (Some observed)
      | Err e => Some <$> fail env ("precondition check errored: " +:+ exec_error e) None
      end
  end.

(** Step 4. *)
Fixpoint run_steps (env : CommandEnvelope) (steps : list Capability) : M W (option ActionResult) :=
  match steps with
  | [] => mret None
  | step :: steps' =>
      a ← run step;
      match a with
      | Ok _ => run_steps env steps'
      | Err e => Some <$> fail env ("step failed: " +:+ exec_error e) None
      end
  end.

(** [perform_rollback]. *)
Definition perform_rollback (env : CommandEnvelope) (verify_detail observed : string)
    : M W ActionResult :=
  let observed := if is_empty observed then None else Some observed in
  match ce_rollback env with
  | RollbackNone => make_result env Failed (Some verify_detail) observed
  | NixGeneration =>
      a ← run NixRollback;
      match a with
      | Ok _ =>
          make_result env Failed
            (Some (verify_detail +:+ "; rolled back to the previous NixOS generation")) observed
      | Err e =>
          make_result env Frozen
            (Some (verify_detail +:+ "; rollback FAILED (" +:+ exec_error e
                   +:+ ") — target frozen, escalate to a human")) observed
      end
  end.

(** [Instant::now() + Duration::from_secs(timeout_s)]: panics when the seconds
    leave [i64]. *)
Definition deadline (now : Z) (timeout_s : N) : option Z :=
  if (now / 1000000000 + Z.of_N timeout_s <=? 2 ^ 63 - 1)%Z
  then Some (now + Z.of_N timeout_s * 1000000000)%Z else None.

(** Step 5, the loop. *)
Fixpoint poll_verify (fuel : nat) (env : CommandEnvelope) (v : Verify) (dl : Z) : M W ActionResult :=
  match fuel with
  | O => no_fuel
  | S fuel' =>
      a ← run (ve_check v);
      match a with
      | Ok observed =>
          let observed := unwrap_or_default observed in
          if String.eqb observed (ve_equals v)
          then make_result env Succeeded None (Some observed)
          else
            now ← get_instant;
            if (dl <=? now)%Z
            then perform_rollback env
                   ("verify failed: expected " +:+ debug_str (ve_equals v)
                    +:+ ", observed " +:+ debug_str observed) observed
            else _ ← do_sleep VERIFY_POLL_INTERVAL; poll_verify fuel' env v dl
      | Err e => perform_rollback env ("verify check errored: " +:+ exec_error e) EmptyString
      end
  end.

Definition run_verify (fuel : nat) (env : CommandEnvelope) : M W ActionResult :=
  match ce_verify env with
  | Some v =>
      now ← get_instant;
      match deadline now (ve_timeout_s v) with
      | Some dl => poll_verify fuel env v dl
      | None => panic
      end
  | None => make_result env Succeeded None None
  end.

Context `{Base64} `{Ed25519} `{SerdeJson}.

Definition handle_command (fuel : nat) (ring : Keyring) (env : CommandEnvelope) : M W ActionResult :=
  now ← get_utc;
  match verify_envelope_with ring env now with
  | Err e => reject env (verify_error_display e)
  | Ok _ =>
      match first_invalid (envelope_targets env) with
      | Some detail => reject env detail
      | None =>
          early ← check_preconditions env (ce_preconditions env);
          match early with
          | Some r => mret r
          | None =>
              early ← run_steps env (ce_steps env);
              match early with
              | Some r => mret r
              | None => run_verify fuel env
              end
          end
      end
  end.

(** [handle_connection]: the line read from the socket (an I/O error, or the
    text, empty at the end of the stream); [parse_envelope] is [serde_json]'s. *)
Variable parse_envelope : string -> option CommandEnvelope.
Inductive Reply := NoReply | ConnectionError | Replied (r : ActionResult).
Definition kube_rejection : string :=
  "command contains Kubernetes capabilities; route to the in-cluster K8s executor (#146)".
Definition handle_connection (fuel : nat) (ring : Keyring) (line : result unit string) : M W Reply :=
  match line with
  | Err _ => mret ConnectionError
  | Ok EmptyString => mret NoReply
  | Ok line =>
      match parse_envelope (trim line) with
      | None => mret ConnectionError
      | Some env =>
          r ← (if envelope_contains_kube_capability env then reject env kube_rejection
               else handle_command fuel ring env);
          mret (Replied r)
      end
  end.

(** [reload_keyring]: [file] is what reading the keyring file gives. *)
Definition reload_keyring (file : option string) (ring : Keyring) : Keyring :=
  match file with
  | None => ring
  | Some json =>
      match keyring_from_json json with
      | Ok fresh =>
          if keyring_is_empty fresh then ring
          else if negb (bool_decide (keyring_kids ring = keyring_kids fresh))
                  || negb (bool_decide (kr_default_kid ring = kr_default_kid fresh))
               then fresh else ring
      | Err _ => ring
      end
  end.

(** One turn of the accept loop of [serve]: the keyring after it, and the
    snapshot the spawned task is given when the peer is allowed in. [reload]
    is [None] without a keyring path, else what reading it gives. *)
Definition serve_accept (allowed_uid : option N) (peer_uid : result unit N)
    (reload : option (option string)) (ring : Keyring) : Keyring * option Keyring :=
  match peer_uid with
  | Ok uid =>
      if match allowed_uid with None => true | Some a => (a =? uid)%N end then
        let ring := match reload with Some file => reload_keyring file ring | None => ring end in
        (ring, Some ring)
      else (ring, None)
  | Err _ => (ring, None)
  end.

(** The initial keyring of [main]: the pinned file when it can be read, else
    the single advertised key. *)
Definition initial_keyring (keyring_file : option string) (pubkey : option string)
    : result string Keyring :=
  match keyring_file with
  | Some json =>
      map_err (fun e => "invalid RAVN_COMMAND_KEYRING: " +:+ key_error_display e)
        (keyring_from_json json)
  | None =>
      key_b64 ← ok_or "set RAVN_COMMAND_KEYRING (preferred) or RAVN_COMMAND_PUBKEY (base64 Ed25519 public key)"%string pubkey;
      key ← map_err (fun e => "invalid RAVN_COMMAND_PUBKEY: " +:+ key_error_display e)
              (verifying_key_from_b64 key_b64);
      mret (keyring_single key)
  end.
End Handler.

(** ** The host executor *)

(** [std::process::Command::output] on an argument vector (an I/O error as its
    message), and [String::from_utf8_lossy]. *)
Record ProcOutput := mkProcOutput {
  po_success : bool;
  po_status : string;
  po_stdout : string;
  po_stderr : string;
}.
Class Processes (W : Type) : Type := {
  cmd_output : list string -> W -> result string ProcOutput * W;
  utf8_lossy : string -> string;
}.

Section Systemctl.
Context {W : Type} `{Processes W}.

(** [Debug for Command]: the arguments quoted, separated by spaces. *)
Definition cmd_debug (argv : list string) : string := join " " (map debug_str argv).

Definition run_ok (argv : list string) (w : W) : result ExecError unit * W :=
  match cmd_output argv w with
  | (Err e, w) => (Err (mkExecError ("spawning " +:+ cmd_debug argv +:+ ": " +:+ e)), w)
  | (Ok out, w) =>
      if po_success out then (Ok tt, w)
      else (Err (mkExecError (cmd_debug argv +:+ " exited " +:+ po_status out +:+ ": "
                              +:+ trim (utf8_lossy (po_stderr out)))), w)
  end.

Definition kube_unsupported (what : string) : ExecError :=
  mkExecError (what +:+ " reached systemctl executor — K8s capabilities require an in-cluster executor").

(** [run_systemctl_sync]. *)
Definition run_systemctl_sync (c : Capability) (w : W) : Answer * W :=
  match c with
  | ResetFailed u =>
      match run_ok ["systemctl"; "reset-failed"; u] w with
      | (Ok _, w) => (Ok None, w) | (Err e, w) => (Err e, w) end
  | RestartUnit u =>
      match run_ok ["systemctl"; "restart"; u] w with
      | (Ok _, w) => (Ok None, w) | (Err e, w) => (Err e, w) end
  | UnitState u =>
      match cmd_output ["systemctl"; "is-active"; u] w with
      | (Ok out, w) => (Ok (Some (trim (utf8_lossy (po_stdout out)))), w)
      | (Err e, w) => (Err (mkExecError ("spawning systemctl: " +:+ e)), w)
      end
  | NixRollback =>
      match run_ok ["nix-env"; "--rollback"; "-p"; "/nix/var/nix/profiles/system"] w with
      | (Ok _, w) =>
          match run_ok ["/nix/var/nix/profiles/system/bin/switch-to-configuration"; "switch"] w with
          | (Ok _, w) => (Ok None, w) | (Err e, w) => (Err e, w) end
      | (Err e, w) => (Err e, w)
      end
  | DeletePod n p => (Err (kube_unsupported ("DeletePod (" +:+ n +:+ "/" +:+ p +:+ ")")), w)
  | RestartDeployment n d =>
      (Err (kube_unsupported ("RestartDeployment (" +:+ n +:+ "/" +:+ d +:+ ")")), w)
  | PodState n p => (Err (kube_unsupported ("PodState (" +:+ n +:+ "/" +:+ p +:+ ")")), w)
  end.

(** [SystemctlExecutor] as the executor of a host with the given clocks. *)
Definition systemctl_host (utc : W -> DateTime) (instant : W -> Z) (slp : Z -> W -> W) : Host W :=
  {| exec_run := run_systemctl_sync; utc_now := utc; instant_now := instant; sleep := slp |}.
End Systemctl.

(** ** Specification: the traces a command may leave *)

(** The answer to a precondition check, to a step, and to a poll that does not
    observe the wanted state. *)
Definition held (cond : Condition) (e : Capability * Answer) : Prop :=
  e.1 = co_check cond /\ exists o, e.2 = Ok o /\ unwrap_or_default o = co_equals cond.
Definition stepped (c : Capability) (e : Capability * Answer) : Prop :=
  e.1 = c /\ is_ok e.2 = true.
Definition missed (v : Verify) (e : Capability * Answer) : Prop :=
  e.1 = ve_check v /\ exists o, e.2 = Ok o /\ unwrap_or_default o <> ve_equals v.
Definition poll_error (v : Verify) (e : Capability * Answer) : Prop :=
  e.1 = ve_check v /\ is_ok e.2 = false.

Inductive rollback_trace (env : CommandEnvelope) : Log -> ActionStatus -> Prop :=
  | rb_none : ce_rollback env = RollbackNone -> rollback_trace env [] Failed
  | rb_done o : ce_rollback env = NixGeneration -> rollback_trace env [(NixRollback, Ok o)] Failed
  | rb_frozen e : ce_rollback env = NixGeneration -> rollback_trace env [(NixRollback, Err e)] Frozen.

Inductive verify_trace (env : CommandEnvelope) : Log -> outcome ActionStatus -> Prop :=
  | vt_none : ce_verify env = None -> verify_trace env [] (Done Succeeded)
  | vt_panic v : ce_verify env = Some v -> verify_trace env [] Panicked
  | vt_fuel v polls : ce_verify env = Some v -> Forall (missed v) polls ->
      verify_trace env polls OutOfFuel
  | vt_ok v polls o : ce_verify env = Some v -> Forall (missed v) polls ->
      unwrap_or_default o = ve_equals v ->
      verify_trace env (polls ++ [(ve_check v, Ok o)]) (Done Succeeded)
  | vt_bad v polls e rb st : ce_verify env = Some v -> Forall (missed v) polls ->
      missed v e \/ poll_error v e -> rollback_trace env rb st ->
      verify_trace env (polls ++ e :: rb) (Done st).

Inductive command_trace (env : CommandEnvelope) : Log -> outcome ActionStatus -> Prop :=
  | ct_pre_failed c1 c c2 k o :
      ce_preconditions env = c1 ++ c :: c2 -> Forall2 held c1 k ->
      unwrap_or_default o <> co_equals c ->
      command_trace env (k ++ [(co_check c, Ok o)]) (Done PreconditionFailed)
  | ct_pre_error c1 c c2 k e :
      ce_preconditions env = c1 ++ c :: c2 -> Forall2 held c1 k ->
      command_trace env (k ++ [(co_check c, Err e)]) (Done Failed)
  | ct_step_error k s1 s s2 k' e :
      Forall2 held (ce_preconditions env) k ->
      ce_steps env = s1 ++ s :: s2 -> Forall2 stepped s1 k' ->
      command_trace env (k ++ k' ++ [(s, Err e)]) (Done Failed)
  | ct_verify k k' k'' o :
      Forall2 held (ce_preconditions env) k -> Forall2 stepped (ce_steps env) k' ->
      verify_trace env k'' o -> command_trace env (k ++ k' ++ k'') o.

(** The status of an outcome. *)
Definition status_of (o : outcome ActionResult) : outcome ActionStatus :=
  match o with Done r => Done (ar_status r) | Panicked => Panicked | OutOfFuel => OutOfFuel end.
Definition reports (env : CommandEnvelope) (o : outcome ActionResult) : Prop :=
  match o with Done r => ar_command_id r = ce_command_id env | _ => True end.

Ltac run_monad :=
  unfold fail, reject, make_result, run, get_utc, get_instant, do_sleep, panic, no_fuel,
    mbind, M_bind, fmap, M_fmap, mret, M_ret in *; cbn [fst snd] in *.

Section HandlerFacts.
Context {W : Type} `{Host W}.
Implicit Types (w : W) (l : Log).

Lemma check_preconditions_spec env conds w l :
  exists o w' k, check_preconditions env conds (w, l) = (Done o, (w', l ++ k)) /\
    match o with
    | None => Forall2 held conds k
    | Some r => ar_command_id r = ce_command_id env /\
        exists c1 c c2 k0 a, conds = c1 ++ c :: c2 /\ k = k0 ++ [(co_check c, a)]
          /\ Forall2 held c1 k0 /\
          match a with
          | Ok o => unwrap_or_default o <> co_equals c /\ ar_status r = PreconditionFailed
          | Err _ => ar_status r = Failed
          end
    end.
Proof.
  revert w l; induction conds as [|cond conds IH]; intros w l; cbn.
  { exists None, w, []. rewrite app_nil_r. by split; [|constructor]. }
  run_monad. destruct (exec_run (co_check cond) w) as [[o|e] w1] eqn:Hr.
  - destruct (String.eqb_spec (unwrap_or_default o) (co_equals cond)) as [He|He].
    + destruct (IH w1 (l ++ [(co_check cond, Ok o)])) as (o' & w' & k & -> & Hk).
      exists o', w', ((co_check cond, Ok o) :: k). rewrite <-app_assoc. split; [done|].
      assert (held cond (co_check cond, Ok o)) by (split; [done|exists o; done]).
      destruct o' as [r|]; [|by constructor].
      destruct Hk as (Hid & c1 & c & c2 & k0 & a & -> & -> & Hc1 & Ha). split; [done|].
      exists (cond :: c1), c, c2, ((co_check cond, Ok o) :: k0), a. split_and!; [done|done|by constructor|done].
    + eexists (Some _), w1, [_]. split; [done|]. split; [done|].
      exists [], cond, conds, [], (Ok o). split_and!; [done..|by constructor|done|done].
  - eexists (Some _), w1, [_]. split; [done|]. split; [done|].
    exists [], cond, conds, [], (Err e). split_and!; [done..|by constructor|done].
Qed.

Lemma run_steps_spec env steps w l :
  exists o w' k, run_steps env steps (w, l) = (Done o, (w', l ++ k)) /\
    match o with
    | None => Forall2 stepped steps k
    | Some r => ar_command_id r = ce_command_id env /\ ar_status r = Failed /\
        exists s1 s s2 k0 e, steps = s1 ++ s :: s2 /\ k = k0 ++ [(s, Err e)]
          /\ Forall2 stepped s1 k0
    end.
Proof.
  revert w l; induction steps as [|step steps IH]; intros w l; cbn.
  { exists None, w, []. rewrite app_nil_r. by split; [|constructor]. }
  run_monad. destruct (exec_run step w) as [[o|e] w1] eqn:Hr.
  - destruct (IH w1 (l ++ [(step, Ok o)])) as (o' & w' & k & -> & Hk).
    exists o', w', ((step, Ok o) :: k). rewrite <-app_assoc. split; [done|].
    assert (stepped step (step, Ok o)) by done.
    destruct o' as [r|]; [|by constructor].
    destruct Hk as (Hid & Hst & s1 & s & s2 & k0 & e & -> & -> & Hs1). split_and!; [done..|].
    exists (step :: s1), s, s2, ((step, Ok o) :: k0), e. split_and!; [done|done|by constructor].
  - eexists (Some _), w1, [_]. split; [done|]. split_and!; [done..|].
    exists [], step, steps, [], e. split_and!; [done|done|by constructor].
Qed.

Lemma perform_rollback_spec env d obs w l :
  exists r w' k, perform_rollback env d obs (w, l) = (Done r, (w', l ++ k))
    /\ ar_command_id r = ce_command_id env /\ rollback_trace env k (ar_status r).
Proof.
  unfold perform_rollback. run_monad. destruct (ce_rollback env) eqn:Hrb.
  - eexists _, w, []. rewrite app_nil_r. split_and!; [done..|]. by constructor.
  - cbn [fst snd]. destruct (exec_run NixRollback w) as [[o|e] w1];
      (eexists _, w1, [_]; split_and!; [done..|]; by constructor).
Qed.

Lemma poll_verify_spec fuel env v dl w l :
  ce_verify env = Some v ->
  exists o w' k, poll_verify fuel env v dl (w, l) = (o, (w', l ++ k))
    /\ reports env o /\ o <> Panicked /\
    forall polls, Forall (missed v) polls -> verify_trace env (polls ++ k) (status_of o).
Proof.
  intros Hv. revert w l; induction fuel as [|fuel IH]; intros w l; cbn [poll_verify].
  { eexists _, w, []. rewrite app_nil_r. split_and!; [done..|]. intros polls Hp.
    rewrite app_nil_r. by apply vt_fuel with v. }
  run_monad. destruct (exec_run (ve_check v) w) as [[o|e] w1] eqn:Hr.
  - cbv zeta. destruct (String.eqb_spec (unwrap_or_default o) (ve_equals v)) as [He|He].
    { eexists _, w1, [_]. split_and!; [done..|]. intros polls Hp. by apply vt_ok. }
    assert (missed v (ve_check v, Ok o)) as Hm by (split; [done|exists o; done]).
    cbn [fst snd]. destruct (Z.leb_spec dl (instant_now w1)).
    + match goal with |- context [perform_rollback env ?d ?ob] =>
        destruct (perform_rollback_spec env d ob w1 (l ++ [(ve_check v, Ok o)]))
          as (r & w' & k & Heq & Hid & Hrb) end.
      eexists _, w', (_ :: k). rewrite <-app_assoc in Heq. cbv beta iota. cbn [fst snd]. rewrite Heq. split_and!; [done..|].
      intros polls Hp. apply vt_bad with v; auto.
    + cbv beta iota. cbn [fst snd]. destruct (IH (sleep VERIFY_POLL_INTERVAL w1) (l ++ [(ve_check v, Ok o)]))
        as (o' & w' & k & -> & Hid & Hnp & Ht).
      exists o', w', ((ve_check v, Ok o) :: k). rewrite <-app_assoc. split_and!; [done..|].
      intros polls Hp. rewrite cons_middle, app_assoc. apply Ht.
      apply Forall_app_2; [done|by constructor].
  - match goal with |- context [perform_rollback env ?d ?ob] =>
      destruct (perform_rollback_spec env d ob w1 (l ++ [(ve_check v, Err e)]))
          as (r & w' & k & Heq & Hid & Hrb) end.
    eexists _, w', (_ :: k). rewrite <-app_assoc in Heq. cbv beta iota. cbn [fst snd]. rewrite Heq. split_and!; [done..|].
    intros polls Hp. apply vt_bad with v; auto. by right.
Qed.

Lemma run_verify_spec fuel env w l :
  exists o w' k, run_verify fuel env (w, l) = (o, (w', l ++ k))
    /\ reports env o /\ verify_trace env k (status_of o).
Proof.
  unfold run_verify. destruct (ce_verify env) as [v|] eqn:Hv; run_monad.
  - destruct (deadline (instant_now w) (ve_timeout_s v)) as [dl|].
    + destruct (poll_verify_spec fuel env v dl w l Hv) as (o & w' & k & -> & Hid & _ & Ht).
      exists o, w', k. split_and!; [done..|]. by apply (Ht []).
    + eexists _, w, []. rewrite app_nil_r. split_and!; [done..|]. by apply vt_panic with v.
  - eexists _, w, []. rewrite app_nil_r. split_and!; [done..|]. by constructor.
Qed.

Context `{Base64} `{Ed25519} `{SerdeJson}.

Lemma handle_command_spec fuel ring env w l :
  exists o w' k, handle_command fuel ring env (w, l) = (o, (w', l ++ k)) /\ reports env o /\
    ((status_of o = Done StatusRejected /\ k = [] /\ w' = w
      /\ (verify_envelope_with ring env (utc_now w) <> Ok tt
          \/ first_invalid (envelope_targets env) <> None))
     \/ (verify_envelope_with ring env (utc_now w) = Ok tt
         /\ first_invalid (envelope_targets env) = None
         /\ command_trace env k (status_of o))).
Proof.
  unfold handle_command. run_monad.
  destruct (verify_envelope_with ring env (utc_now w)) as [[]|e] eqn:Hv.
  2:{ eexists _, w, []. rewrite app_nil_r. split_and!; [done..|]. left. auto. }
  destruct (first_invalid (envelope_targets env)) as [d|] eqn:Hi.
  { eexists _, w, []. rewrite app_nil_r. split_and!; [done..|]. left. auto. }
  destruct (check_preconditions_spec env (ce_preconditions env) w l) as ([r|] & w1 & k & -> & Hk).
  { exists (Done r), w1, k. destruct Hk as (Hid & c1 & c & c2 & k0 & a & Hc & -> & Hk0 & Ha).
    split_and!; [done..|]. right. split_and!; [done..|]. cbn.
    destruct a as [o|e]; [destruct Ha as [Ho ->]|rewrite Ha].
    - by apply ct_pre_failed with c1 c2. - by apply ct_pre_error with c1 c2. }
  destruct (run_steps_spec env (ce_steps env) w1 (l ++ k)) as ([r|] & w2 & k' & -> & Hk').
  { exists (Done r), w2, (k ++ k'). rewrite app_assoc.
    destruct Hk' as (Hid & Hst & s1 & s & s2 & k0 & e & Hs & -> & Hk0).
    split_and!; [done..|]. right. split_and!; [done..|]. cbn. rewrite Hst.
    by apply ct_step_error with s1 s2. }
  destruct (run_verify_spec fuel env w2 ((l ++ k) ++ k')) as (o & w3 & k'' & -> & Hid & Ht).
  exists o, w3, (k ++ k' ++ k''). rewrite !app_assoc. split_and!; [done..|]. right.
  split_and!; [done..|]. rewrite <-app_assoc. by constructor.
Qed.
End HandlerFacts.

(** ** Targets *)

(** Every identifier of the capability is well formed. *)
Definition valid_target (c : Capability) : Prop :=
  (forall u, capability_unit c = Some u -> is_valid_unit u = true)
  /\ Forall (fun p => is_valid_k8s_label p.2 = true) (capability_kube_ids c).

Lemma invalid_ids_None ids :
  invalid_ids ids = None <-> Forall (fun p => is_valid_k8s_label p.2 = true) ids.
Proof.
  unfold invalid_ids. destruct (find_first _ ids) as [[f x]|] eqn:E.
  - split; [done|]. apply find_first_Some in E as (l1 & l2 & -> & Hx & _).
    intros [_ [Hv _]%Forall_cons]%Forall_app. cbn in *. by rewrite Hv in Hx.
  - split; [|done]. intros _. apply find_first_None in E.
    eapply Forall_impl; [exact E|]. intros p. by rewrite negb_false_iff.
Qed.

Lemma invalid_target_None c : invalid_target c = None <-> valid_target c.
Proof.
  unfold invalid_target, valid_target. destruct (capability_unit c) as [u|] eqn:Hu.
  - destruct (is_valid_unit u) eqn:Hv.
    + rewrite invalid_ids_None. naive_solver.
    + split; [done|]. intros [H _]. rewrite (H u) in Hv; done.
  - rewrite invalid_ids_None. naive_solver.
Qed.

Lemma first_invalid_None caps : first_invalid caps = None <-> Forall valid_target caps.
Proof.
  induction caps as [|c caps IH]; cbn; [by split; [constructor|]|].
  rewrite Forall_cons, <-invalid_target_None, <-IH.
  destruct (invalid_target c); naive_solver.
Qed.

Lemma contains_kube_existsb env :
  envelope_contains_kube_capability env = existsb is_kube (envelope_targets env).
Proof.
  unfold envelope_contains_kube_capability, envelope_targets. rewrite !existsb_app.
  rewrite orb_assoc. f_equal.
  - f_equal. induction (ce_preconditions env) as [|c l IH]; cbn; [done|]. by rewrite IH.
  - destruct (ce_verify env); cbn; [|done]. by rewrite orb_false_r.
Qed.

Lemma contains_kube_spec env c :
  envelope_contains_kube_capability env = false -> c ∈ envelope_targets env -> is_kube c = false.
Proof.
  rewrite contains_kube_existsb. intros He Hc. apply not_true_iff_false. intros Hk.
  assert (existsb is_kube (envelope_targets env) = true) by (apply existsb_elem_of; eauto).
  congruence.
Qed.

(** ** What a trace executes *)

Definition authorised (env : CommandEnvelope) (c : Capability) : Prop :=
  c ∈ envelope_targets env
  \/ (c = NixRollback /\ ce_rollback env = NixGeneration /\ is_Some (ce_verify env)).

Section Traces.
Variable env : CommandEnvelope.
Abbreviation auth k := (Forall (fun e : Capability * Answer => authorised env e.1) k).

Lemma auth_pre conds k :
  conds ⊆ ce_preconditions env -> Forall2 held conds k -> auth k.
Proof.
  intros Hs. induction 1 as [|c e conds k [He _] _ IH]; constructor; [|set_solver].
  left. rewrite He. apply elem_of_app. left. apply list_elem_of_fmap. set_solver.
Qed.

Lemma auth_steps steps k : steps ⊆ ce_steps env -> Forall2 stepped steps k -> auth k.
Proof.
  intros Hs. induction 1 as [|c e steps k [He _] _ IH]; constructor; [|set_solver].
  left. rewrite He. apply elem_of_app. right. apply elem_of_app. left. set_solver.
Qed.

Lemma auth_verify v : ce_verify env = Some v -> authorised env (ve_check v).
Proof. intros Hv. left. unfold envelope_targets. rewrite Hv. set_solver. Qed.

Lemma auth_missed v k : ce_verify env = Some v -> Forall (missed v) k -> auth k.
Proof.
  intros Hv Hk. eapply Forall_impl; [exact Hk|]. intros e [-> _]. by apply auth_verify.
Qed.

Lemma verify_trace_auth k o : verify_trace env k o -> auth k.
Proof.
  destruct 1 as [| |v polls Hv Hp|v polls o Hv Hp Ho|v polls e rb st Hv Hp He Hrb];
    [constructor..| | |]; eauto using auth_missed.
  - apply Forall_app_2; [eauto using auth_missed|]. apply Forall_singleton. by apply auth_verify.
  - apply Forall_app_2; [eauto using auth_missed|]. constructor.
    + assert (e.1 = ve_check v) as -> by (destruct He as [[]|[]]; done). by apply auth_verify.
    + destruct Hrb; [constructor|apply Forall_singleton; right; eauto..].
Qed.

Lemma command_trace_auth k o : command_trace env k o -> auth k.
Proof.
  destruct 1 as [c1 c c2 k o Hc Hk _|c1 c c2 k e Hc Hk|k s1 s s2 k' e Hk Hs Hk'|k k' k'' o Hk Hk' Hv].
  - apply Forall_app_2; [apply (auth_pre c1); [rewrite Hc; set_solver|done]|].
    apply Forall_singleton. left. unfold envelope_targets. rewrite Hc. set_solver.
  - apply Forall_app_2; [apply (auth_pre c1); [rewrite Hc; set_solver|done]|].
    apply Forall_singleton. left. unfold envelope_targets. rewrite Hc. set_solver.
  - apply Forall_app_2; [by eapply auth_pre|].
    apply Forall_app_2; [apply (auth_steps s1); [rewrite Hs; set_solver|done]|].
    apply Forall_singleton. left. unfold envelope_targets. rewrite Hs. set_solver.
  - apply Forall_app_2; [by eapply auth_pre|].
    apply Forall_app_2; [by eapply auth_steps|]. by eapply verify_trace_auth.
Qed.
End Traces.

(** ** Enough fuel *)

(** A poll every half second until the timeout, and one more. *)
Definition poll_budget (env : CommandEnvelope) : nat :=
  match ce_verify env with Some v => S (2 * N.to_nat (ve_timeout_s v)) | None => 0 end.

Section Fuel.
Context {W : Type} `{HL : HostLaws W}.
Implicit Types (w : W) (l : Log).

(** Without fuel exhaustion the amount of fuel is irrelevant. *)
Lemma poll_verify_more n m env v dl (s : W * Log) :
  (poll_verify n env v dl s).1 <> OutOfFuel -> n <= m ->
  poll_verify m env v dl s = poll_verify n env v dl s.
Proof.
  revert m s; induction n as [|n IH]; intros m s; cbn [poll_verify]; [done|].
  destruct m as [|m]; [lia|]. cbn [poll_verify]. run_monad. intros Hf Hle.
  destruct (exec_run (ve_check v) s.1) as [[o|e] w1]; [|done]. cbv zeta in *.
  destruct (String.eqb (unwrap_or_default o) (ve_equals v)); [done|]. cbn [fst snd] in *.
  destruct (dl <=? instant_now w1)%Z; [done|]. apply IH; [done|lia].
Qed.

Lemma poll_verify_enough n env v dl w l :
  (0 < n)%nat -> (dl - instant_now w <= (Z.of_nat n - 1) * VERIFY_POLL_INTERVAL)%Z ->
  (poll_verify n env v dl (w, l)).1 <> OutOfFuel.
Proof.
  revert w l; induction n as [|n IH]; intros w l Hn Hd; [lia|]. cbn [poll_verify]. run_monad.
  pose proof (run_monotonic (ve_check v) w) as Hm.
  assert (forall d ob s, (perform_rollback env d ob s).1 <> OutOfFuel) as Hrb.
  { intros d ob [w' l']. by destruct (perform_rollback_spec env d ob w' l') as (? & ? & ? & -> & _). }
  destruct (exec_run (ve_check v) w) as [[o|e] w1]; cbn [fst snd] in *; cbv zeta; [|apply Hrb].
  destruct (String.eqb (unwrap_or_default o) (ve_equals v)); [done|]. cbn [fst snd].
  destruct (Z.leb_spec dl (instant_now w1)) as [Hle|Hgt]; [apply Hrb|].
  pose proof (sleep_advances VERIFY_POLL_INTERVAL w1).
  unfold VERIFY_POLL_INTERVAL in *. apply IH; cbn [fst]; lia.
Qed.

Lemma run_verify_enough fuel env w l :
  poll_budget env <= fuel ->
  (run_verify fuel env (w, l)).1 <> OutOfFuel
  /\ run_verify fuel env (w, l) = run_verify (poll_budget env) env (w, l)
  /\ ((run_verify fuel env (w, l)).1 = Panicked ->
      exists v now, ce_verify env = Some v /\ deadline now (ve_timeout_s v) = None).
Proof.
  unfold run_verify, poll_budget. destruct (ce_verify env) as [v|] eqn:Hv; [|done].
  run_monad. intros Hf.
  destruct (deadline (instant_now w) (ve_timeout_s v)) as [dl|] eqn:Hd; [|by eauto 10].
  assert ((poll_verify (S (2 * N.to_nat (ve_timeout_s v))) env v dl (w, l)).1 <> OutOfFuel) as Ho.
  { apply poll_verify_enough; [lia|]. unfold deadline, VERIFY_POLL_INTERVAL in *. break Hd. lia. }
  rewrite (poll_verify_more _ _ _ _ _ _ Ho Hf). split_and!; [done..|].
  destruct (poll_verify_spec (S (2 * N.to_nat (ve_timeout_s v))) env v dl w l Hv)
    as (o & w' & k & -> & _ & Hnp & _). done.
Qed.
End Fuel.

(** ** Properties *)

Section Properties.
Context {W : Type} `{Host W} `{Base64} `{Ed25519} `{SerdeJson}.

(** C1. Nothing runs without authority: whatever the outcome (a result, a
    panic, no fuel), if handling a command executed any capability at all, then
    the envelope's signature verified against the keyring and it had not
    expired when handling began, every targeted unit name and Kubernetes
    identifier is well formed, and each executed capability is a precondition
    check, a step or the verify check of that envelope, or the rollback it
    declares after a declared verification. *)
Theorem handle_command_authorised (fuel : nat) (ring : Keyring) (env : CommandEnvelope)
    (w w' : W) (l l' : Log) (o : outcome ActionResult) (c : Capability) (a : Answer) :
  handle_command fuel ring env (w, l) = (o, (w', l ++ l')) -> (c, a) ∈ l' ->
  verify_envelope_with ring env (utc_now w) = Ok tt
  /\ Forall valid_target (envelope_targets env) /\ valid_target c /\ authorised env c.
Proof.
  intros Heq Hin. destruct (handle_command_spec fuel ring env w l)
    as (o1 & w1 & k & Hk & _ & Hspec).
  rewrite Heq in Hk. simplify_eq.
  destruct Hspec as [(_ & -> & _)|(Hv & Hf & Ht)]; [by apply elem_of_nil in Hin|].
  apply first_invalid_None in Hf. apply command_trace_auth in Ht.
  rewrite Forall_forall in Ht. specialize (Ht _ Hin). split_and!; [done..| |done].
  destruct Ht as [Ht|[Hc _]]; cbn in *.
  - rewrite Forall_forall in Hf. by apply Hf.
  - subst c. split; [done|constructor].
Qed.

(** C3. The handler implements its specification: on every input it either
    rejects, leaving the world and the log untouched, exactly when the envelope
    does not verify or an identifier is malformed; or it leaves one of the
    traces of [command_trace] with the status that trace has: preconditions in
    order until one fails, then the steps in order until one errs, then polls
    until the state is observed or given up, then the rollback. *)
Theorem handle_command_conforms (fuel : nat) (ring : Keyring) (env : CommandEnvelope)
    (w : W) (l : Log) :
  exists o w' k, handle_command fuel ring env (w, l) = (o, (w', l ++ k)) /\ reports env o /\
    if bool_decide (verify_envelope_with ring env (utc_now w) = Ok tt)
       && bool_decide (first_invalid (envelope_targets env) = None)
    then command_trace env k (status_of o)
    else status_of o = Done StatusRejected /\ k = [] /\ w' = w.
Proof.
  destruct (handle_command_spec fuel ring env w l) as (o & w' & k & Heq & Hr & Hs).
  exists o, w', k. split_and!; [done..|].
  destruct Hs as [(Ho & Hk & Hw & Hno)|(Hv & Hf & Ht)].
  - destruct Hno as [Hno|Hno]; rewrite (bool_decide_eq_false_2 _ Hno); [done|].
    by rewrite andb_false_r.
  - by rewrite !bool_decide_eq_true_2.
Qed.

(** C8. What the statuses mean: [Succeeded] is reported only when every
    precondition was observed to hold, every step succeeded in order, and the
    declared post-condition was observed last; [Frozen] only when the
    preconditions and the steps went through, a declared verification failed,
    and the declared rollback itself failed as the last thing executed. *)
Theorem handle_command_status_sound (fuel : nat) (ring : Keyring) (env : CommandEnvelope)
    (w w' : W) (l' : Log) (r : ActionResult) :
  handle_command fuel ring env (w, []) = (Done r, (w', l')) ->
  (ar_status r = Succeeded ->
     exists k1 k2 k3, l' = k1 ++ k2 ++ k3
       /\ Forall2 held (ce_preconditions env) k1 /\ Forall2 stepped (ce_steps env) k2
       /\ forall v, ce_verify env = Some v ->
            exists o, last k3 = Some (ve_check v, Ok o) /\ unwrap_or_default o = ve_equals v)
  /\ (ar_status r = Frozen ->
       exists k1 k2 k3 e, l' = k1 ++ k2 ++ k3 ++ [(NixRollback, Err e)]
         /\ Forall2 held (ce_preconditions env) k1 /\ Forall2 stepped (ce_steps env) k2
         /\ is_Some (ce_verify env) /\ k3 <> [] /\ ce_rollback env = NixGeneration).
Proof.
  intros Heq. destruct (handle_command_spec fuel ring env w []) as (o & w1 & k & Hk & _ & Hs).
  rewrite Heq in Hk. simplify_eq/=. destruct Hs as [(Ho & _)|(_ & _ & Ht)].
  { injection Ho as Ho. rewrite Ho. done. }
  inversion Ht as [| | |k1 k2 k3 o Hk1 Hk2 Hv]; subst; [by split; intros; congruence..|].
  split; intros Hst; rewrite Hst in Hv.
  - exists k1, k2, k3. split_and!; [done..|]. intros v Hev.
    inversion Hv as [| | |v' polls o' Hv' Hp Ho'|v' polls e rb st Hv' Hp He Hrb]; subst.
    + congruence.
    + exists o'. assert (v' = v) as -> by congruence. by rewrite last_snoc.
    + inversion Hrb.
  - inversion Hv as [| | | |v' polls e rb st Hv' Hp He Hrb]; subst.
    inversion Hrb as [| |e' Hrb']; subst. exists k1, k2, (polls ++ [e]), e'.
    rewrite <-(app_assoc polls). split_and!; [done..|by eauto| |done]. by destruct polls.
Qed.

(** Reloading the trusted keyring is fail-safe: the ring in force after a
    reload is the old one, or the non-empty ring the file cleanly parses to; a
    missing, garbled or empty file keeps the old one; and the ring stays well
    formed. *)
Theorem reload_keyring_fail_safe (file : option string) (ring : Keyring) :
  (reload_keyring file ring = ring
   \/ exists json, file = Some json /\ keyring_from_json json = Ok (reload_keyring file ring)
        /\ keyring_is_empty (reload_keyring file ring) = false)
  /\ (keyring_wf ring -> keyring_wf (reload_keyring file ring))
  /\ (keyring_is_empty ring = false -> keyring_is_empty (reload_keyring file ring) = false).
Proof.
  unfold reload_keyring. destruct file as [json|]; [|auto].
  destruct (keyring_from_json json) as [fresh|] eqn:Hj; [|auto].
  destruct (keyring_is_empty fresh) eqn:He; [auto|].
  destruct (_ || _); [|auto]. split_and!; [by eauto|by eauto using from_json_wf|done].
Qed.

(** The host actuator never acts on a cluster: whatever line a peer sends,
    no Kubernetes capability reaches the executor; an envelope that contains
    one is answered with a rejection before anything runs, the world and the
    log unchanged. *)
Theorem host_actuator_no_kube (parse : string -> option CommandEnvelope) (fuel : nat)
    (ring : Keyring) (line : result unit string) (w : W) (l : Log) :
  exists o w' k, handle_connection parse fuel ring line (w, l) = (o, (w', l ++ k))
    /\ Forall (fun e => is_kube e.1 = false) k
    /\ forall txt env, line = Ok txt -> txt <> EmptyString -> parse (trim txt) = Some env ->
         envelope_contains_kube_capability env = true ->
         k = [] /\ w' = w /\ exists r, o = Done (Replied r) /\ ar_status r = StatusRejected.
Proof.
  unfold handle_connection. destruct line as [txt|]; run_monad;
    [|exists (Done ConnectionError), w, []; rewrite app_nil_r; done].
  destruct txt as [|ch txt]; [exists (Done NoReply), w, []; rewrite app_nil_r; naive_solver|].
  destruct (parse (trim (String ch txt))) as [env|] eqn:Hp;
    [|exists (Done ConnectionError), w, []; rewrite app_nil_r; naive_solver].
  destruct (envelope_contains_kube_capability env) eqn:Hk.
  { eexists _, w, []. rewrite app_nil_r. split_and!; [done..|]. intros. split_and!; [done..|]. eauto. }
  destruct (handle_command_spec fuel ring env w l) as (o & w' & k & -> & _ & Hs).
  assert (Forall (fun e : Capability * Answer => is_kube e.1 = false) k) as Hkube.
  { destruct Hs as [(_ & -> & _)|(_ & _ & Ht)]; [done|].
    eapply Forall_impl; [by eapply command_trace_auth|].
    intros [c a] [Hc|[Hc _]]; cbn in *; [by eapply contains_kube_spec|by subst]. }
  destruct o; eexists _, w', k; (split_and!; [done..|]); intros ? ? [= <-] _ ?; congruence.
Qed.
End Properties.

Section Termination.
Context {W : Type} `{HL : HostLaws W} `{Base64} `{Ed25519} `{SerdeJson}.

(** C37. Handling a command terminates: with a clock that does not go back and
    sleeps that last, polls bounded by twice the timeout in seconds plus one
    are always enough, and more fuel changes nothing; the only way not to
    return a result is the overflow of the deadline. *)
Theorem handle_command_terminates (fuel : nat) (ring : Keyring) (env : CommandEnvelope) (w : W) (l : Log) :
  poll_budget env <= fuel ->
  (handle_command fuel ring env (w, l)).1 <> OutOfFuel
  /\ handle_command fuel ring env (w, l) = handle_command (poll_budget env) ring env (w, l)
  /\ ((handle_command fuel ring env (w, l)).1 = Panicked ->
      exists v now, ce_verify env = Some v /\ deadline now (ve_timeout_s v) = None).
Proof.
  intros Hf. unfold handle_command. run_monad.
  destruct (verify_envelope_with ring env (utc_now w)); [|done].
  destruct (first_invalid (envelope_targets env)); [done|].
  destruct (check_preconditions_spec env (ce_preconditions env) w l) as ([r|] & w1 & k & -> & _); [done|].
  destruct (run_steps_spec env (ce_steps env) w1 (l ++ k)) as ([r|] & w2 & k' & -> & _); [done|].
  by apply run_verify_enough.
Qed.
End Termination.

(** ** A concrete host for the witnesses

    One unit, which is active after a restart once the clock passed one second. *)
Record ToyWorld := mkToy { toy_active : bool; toy_clock : Z }.
#[export] Instance toy_host : Host ToyWorld :=
  {| exec_run c w :=
       match c with
       | RestartUnit _ => (Ok None, {| toy_active := true; toy_clock := toy_clock w |})
       | UnitState _ =>
           (Ok (Some (if toy_active w && (1000000000 <=? toy_clock w)%Z then "active" else "failed")), w)
       | _ => (Err (mkExecError "unsupported"), w)
       end;
     utc_now w := (toy_clock w / 1000000000)%Z;
     instant_now := toy_clock;
     sleep d w := {| toy_active := toy_active w; toy_clock := (toy_clock w + d)%Z |} |}.
#[export] Instance toy_host_laws : HostLaws ToyWorld.
Proof. constructor; cbn; [|lia]. intros c w. by destruct c. Qed.

Definition toy_start : ToyWorld := {| toy_active := false; toy_clock := 0 |}.
Definition toy_ring : Keyring := keyring_single (verifying_key key_a).
Definition signed_example : CommandEnvelope := sign_envelope key_a example_envelope.
Definition toy_run (fuel : nat) : outcome ActionResult * (ToyWorld * Log) :=
  handle_command fuel toy_ring signed_example (toy_start, []).

Lemma handle_command_authorised_witness :
  (RestartUnit "nginx.service", Ok None) ∈ (toy_run 5).2.2
  /\ valid_target (RestartUnit "nginx.service").
Proof.
  assert ((RestartUnit "nginx.service", Ok None) ∈ (toy_run 5).2.2) as Hin
    by (apply (bool_decide_unpack _); vm_compute; exact I).
  split; [exact Hin|].
  eapply (handle_command_authorised 5 toy_ring signed_example
    toy_start (toy_run 5).2.1 [] (toy_run 5).2.2 (toy_run 5).1 _ (Ok None)); [|exact Hin].
  vm_compute. reflexivity.
Defined.

Lemma handle_command_status_sound_witness :
  exists r k1 k2 k3, (toy_run 5).1 = Done r /\ (toy_run 5).2.2 = k1 ++ k2 ++ k3
    /\ Forall2 held (ce_preconditions signed_example) k1
    /\ Forall2 stepped (ce_steps signed_example) k2.
Proof.
  let x := eval vm_compute in (toy_run 5) in
  assert (handle_command 5 toy_ring signed_example (toy_start, []) = x) as Hrun
    by (vm_compute; reflexivity).
  unfold toy_run. rewrite Hrun.
  pose proof (proj1 (handle_command_status_sound 5 toy_ring signed_example toy_start _ _ _ Hrun))
    as Hs.
  specialize (Hs eq_refl). destruct Hs as (k1 & k2 & k3 & Hk & H1 & H2 & _).
  eexists _, k1, k2, k3. split; [reflexivity|]. split; [exact Hk|]. split; [exact H1|exact H2].
Defined.

Lemma handle_command_terminates_witness : (toy_run 5).1 <> OutOfFuel.
Proof.
  assert (poll_budget signed_example <= 5) as Hb by (vm_compute; lia).
  exact (proj1 (handle_command_terminates 5 toy_ring signed_example toy_start [] Hb)).
Defined.

(** The unit validator accepts a leading dash: an option of [systemctl]. *)
Example valid_unit_may_be_an_option : is_valid_unit "--now" = true /\ is_valid_unit "-Hroot@evil" = true.
Proof. split; reflexivity. Qed.

(** A timeout near the end of [u64] panics after the steps have run. *)
Theorem huge_timeout_panics :
  deadline 0 (2 ^ 64 - 1) = None /\ deadline 0 30 = Some 30000000000%Z.
Proof. split; reflexivity. Qed.
