(* ===== verification/Policy.v ===== *)
(** * The remediation policy engine ([ravn-server/src/policy.rs])

    The default-deny rules, the kill switch, the dangerous-tier guard, the
    sliding-window circuit breaker and the host glob matcher, with a declarative
    specification of glob matching and the bound the breaker gives on automatic
    executions.

    The log of executions sits behind a mutex that [tripped] and [record] take
    separately; [evaluate] is their sequential composition, and the two halves
    are also separate steps for the interleaving of concurrent requests. *)

From Stdlib Require Import Sorted.
From S2P Require Export Envelope.

Inductive PolicyDecision := Auto | Approve | Forbid.
#[export] Instance PolicyDecision_eq_dec : EqDecision PolicyDecision.
Proof. solve_decision. Defined.

Record PolicyRule := mkRule {
  pr_host : option string;
  pr_tier : RiskTier;
  pr_decision : PolicyDecision;
}.

(** ** Glob matching

    The positions [pi] and [ti] are kept as the suffixes of the pattern and of
    the text that start there; [star] keeps the suffix after the last star and
    the text suffix at [star_ti]. *)

Abbreviation bytes := (list ascii).
Definition is_star (c : ascii) : bool := is_byte 42 c.
Definition is_question (c : ascii) : bool := is_byte 63 c.

(** The closing [while]: only stars may be left of the pattern. *)
Fixpoint skip_stars (p : bytes) : bytes :=
  match p with c :: p' => if is_star c then skip_stars p' else p | [] => [] end.

Fixpoint glob_loop (fuel : nat) (p t : bytes) (star : option (bytes * bytes)) : option bool :=
  match fuel with
  | O => None
  | S n =>
      match t with
      | [] => Some (match skip_stars p with [] => true | _ => false end)
      | c :: t' =>
          let backtrack :=
            match star with
            | Some (sp, st) => glob_loop n sp (tail st) (Some (sp, tail st))
            | None => Some false
            end in
          match p with
          | a :: p' =>
              if is_question a || Ascii.eqb a c then glob_loop n p' t' star
              else if is_star a then glob_loop n p' t (Some (p', t))
              else backtrack
          | [] => backtrack
          end
      end
  end.

(** Enough steps for every pattern and text ([glob_match_correct]). *)
Definition glob_fuel (p t : bytes) : nat := S (S (length t) * S (length p) + length p).
Definition glob_match (pattern text : string) : bool :=
  let p := String.list_ascii_of_string pattern in
  let t := String.list_ascii_of_string text in
  default false (glob_loop (glob_fuel p t) p t None).

(** ** Rules *)

Definition rule_matches (r : PolicyRule) (host : string) (tier : RiskTier) : bool :=
  bool_decide (pr_tier r = tier)
  && match pr_host r with Some g => glob_match g host | None => true end.

(** [Policy] is the list of its rules; [policy_decide]: the first match, else approval. *)
Definition Policy : Type := list PolicyRule.
Definition policy_decide (policy : Policy) (host : string) (tier : RiskTier) : PolicyDecision :=
  match find_first (fun r => rule_matches r host tier) policy with
  | Some r => pr_decision r
  | None => Approve
  end.

(** [Policy::load_file]: the file's text, none when it is not found, an error
    otherwise; [parse] is the TOML parser. *)
Definition load_file (parse : string -> result string Policy) (read : result string (option string))
    : result string Policy :=
  match read with
  | Ok (Some text) => parse text
  | Ok None => Ok []
  | Err e => Err e
  end.

Record EvaluateResult := mkEvaluate {
  er_decision : PolicyDecision;
  er_breaker_tripped : bool;
}.
#[export] Instance EvaluateResult_eq_dec : EqDecision EvaluateResult.
Proof. solve_decision. Defined.

(** ** The circuit breaker *)

(** [HitLog]. *)
Abbreviation HitLog := (gmap (string * string) (list DateTime)).

Record CircuitBreaker := mkBreaker {
  cb_max_auto : N;
  cb_window : Z;
  cb_hits : HitLog;
}.

Definition breaker_new (max_auto : N) (window : Z) : CircuitBreaker :=
  {| cb_max_auto := max_auto; cb_window := window; cb_hits := ∅ |}.

(** [chrono::Duration::from_std(window).unwrap_or(zero)], in nanoseconds: the
    largest duration is [i64::MAX] milliseconds. *)
Definition chrono_window (window : Z) : Z :=
  if (window <=? (2 ^ 63 - 1) * 1000000)%Z then window else 0.

Definition tripped (b : CircuitBreaker) (host template_id : string) (now : DateTime)
    : bool * CircuitBreaker :=
  let cutoff := (now - chrono_window (cb_window b))%Z in
  let entry := default [] (cb_hits b !! (host, template_id)) in
  let entry := List.filter (fun t => (cutoff <? t)%Z) entry in
  ((cb_max_auto b <=? N.of_nat (length entry) mod 2 ^ 32)%N,
   {| cb_max_auto := cb_max_auto b; cb_window := cb_window b;
      cb_hits := <[(host, template_id) := entry]> (cb_hits b) |}).

Definition record (b : CircuitBreaker) (host template_id : string) (now : DateTime)
    : CircuitBreaker :=
  let entry := default [] (cb_hits b !! (host, template_id)) in
  {| cb_max_auto := cb_max_auto b; cb_window := cb_window b;
     cb_hits := <[(host, template_id) := entry ++ [now]]> (cb_hits b) |}.

(** ** The engine *)

Record PolicyEngine := mkEngine {
  pe_policy : Policy;
  pe_auto_enabled : bool;
  pe_breaker : CircuitBreaker;
}.
Definition engine_new (policy : Policy) (auto_enabled : bool) (max_auto : N) (window : Z)
    : PolicyEngine :=
  {| pe_policy := policy; pe_auto_enabled := auto_enabled;
     pe_breaker := breaker_new max_auto window |}.
Definition set_breaker (e : PolicyEngine) (b : CircuitBreaker) : PolicyEngine :=
  {| pe_policy := pe_policy e; pe_auto_enabled := pe_auto_enabled e; pe_breaker := b |}.

(** [evaluate] up to the point where it would consult the breaker: [inl] is the
    final result, [inr] says that the breaker decides. *)
Definition evaluate_rules (e : PolicyEngine) (host : string) (tier : RiskTier)
    : EvaluateResult + unit :=
  if negb (pe_auto_enabled e) then
    inl {| er_decision :=
             match policy_decide (pe_policy e) host tier with Forbid => Forbid | _ => Approve end;
           er_breaker_tripped := false |}
  else
    let decision := policy_decide (pe_policy e) host tier in
    let decision :=
      if bool_decide (decision = Auto) && bool_decide (tier = Dangerous) then Approve
      else decision in
    match decision with
    | Auto => inr tt
    | d => inl {| er_decision := d; er_breaker_tripped := false |}
    end.

(** [evaluate] as two critical sections. *)
Definition evaluate_check (e : PolicyEngine) (host : string) (tier : RiskTier)
    (template_id : string) (now : DateTime) : (EvaluateResult + unit) * PolicyEngine :=
  match evaluate_rules e host tier with
  | inl r => (inl r, e)
  | inr _ =>
      let (t, b) := tripped (pe_breaker e) host template_id now in
      (if t then inl {| er_decision := Approve; er_breaker_tripped := true |} else inr tt,
       set_breaker e b)
  end.
Definition evaluate_record (e : PolicyEngine) (host template_id : string) (now : DateTime)
    : EvaluateResult * PolicyEngine :=
  ({| er_decision := Auto; er_breaker_tripped := false |},
   set_breaker e (record (pe_breaker e) host template_id now)).

Definition evaluate (e : PolicyEngine) (host : string) (tier : RiskTier) (template_id : string)
    (now : DateTime) : EvaluateResult * PolicyEngine :=
  match evaluate_check e host tier template_id now with
  | (inl r, e) => (r, e)
  | (inr _, e) => evaluate_record e host template_id now
  end.

(** ** Runs of requests *)

Record Request := mkRequest {
  rq_host : string;
  rq_tier : RiskTier;
  rq_template : string;
  rq_now : DateTime;
}.
Fixpoint run_policy (e : PolicyEngine) (reqs : list Request) : list (Request * EvaluateResult) :=
  match reqs with
  | [] => []
  | r :: reqs' =>
      let (res, e') := evaluate e (rq_host r) (rq_tier r) (rq_template r) (rq_now r) in
      (r, res) :: run_policy e' reqs'
  end.

(** The times of the automatic executions of one host and template. *)
Definition is_auto_for (key : string * string) (x : Request * EvaluateResult) : bool :=
  bool_decide (er_decision x.2 = Auto) && bool_decide ((rq_host x.1, rq_template x.1) = key).
Definition autos (key : string * string) (tr : list (Request * EvaluateResult)) : list DateTime :=
  map (fun x => rq_now x.1) (List.filter (is_auto_for key) tr).
(** Those within the window that ends at [T]. *)
Definition in_window (window T : Z) (l : list DateTime) : list DateTime :=
  List.filter (fun t => (T - window <? t)%Z && (t <=? T)%Z) l.

(** ** Declarative glob matching *)

Inductive Glob : bytes -> bytes -> Prop :=
  | glob_nil : Glob [] []
  | glob_star_skip a p t : is_star a = true -> Glob p t -> Glob (a :: p) t
  | glob_star_take a p c t : is_star a = true -> Glob (a :: p) t -> Glob (a :: p) (c :: t)
  | glob_any a p c t : is_question a = true -> Glob p t -> Glob (a :: p) (c :: t)
  | glob_char a p t : is_star a = false -> is_question a = false -> Glob p t -> Glob (a :: p) (a :: t).

Lemma star_not_question (a : ascii) : is_star a = true -> is_question a = false.
Proof. unfold is_star, is_question, is_byte. rewrite N.eqb_eq, N.eqb_neq. lia. Qed.

Lemma glob_star_suffix a p u t : is_star a = true -> Glob (a :: p) t -> Glob (a :: p) (u ++ t).
Proof. intros Ha Hg. induction u as [|c u IH]; cbn; [done|]. by apply glob_star_take. Qed.

Lemma glob_star_inv a p t :
  is_star a = true -> Glob (a :: p) t <-> Glob p t \/ (t <> [] /\ Glob (a :: p) (tail t)).
Proof.
  intros Ha. split.
  - inversion 1; subst; cbn; [by left|right; split; [done|done]|..];
      pose proof (star_not_question _ Ha); congruence.
  - intros [Hg|[Hne Hg]]; [by apply glob_star_skip|]. destruct t as [|c t]; [done|].
    by apply glob_star_take.
Qed.

Lemma glob_nil_inv p : Glob p [] <-> skip_stars p = [].
Proof.
  induction p as [|a p IH]; cbn; [split; [done|constructor]|].
  destruct (is_star a) eqn:Ha.
  - rewrite glob_star_inv, <-IH by done. naive_solver.
  - split; [|done]. inversion 1; congruence.
Qed.

Lemma glob_fixed_inv a p c t :
  is_star a = false -> Glob (a :: p) (c :: t) <-> (is_question a || Ascii.eqb a c) = true /\ Glob p t.
Proof.
  intros Ha. split.
  - inversion 1; subst; try congruence.
    + split; [|done]. by rewrite orb_true_iff; left.
    + split; [|done]. by rewrite Ascii.eqb_refl, orb_true_r.
  - intros [Hac Hg]. destruct (is_question a) eqn:Hq; [by apply glob_any|].
    apply Ascii.eqb_eq in Hac as ->. by apply glob_char.
Qed.

(** A star-free prefix of the pattern consumes as many bytes. *)
Lemma glob_prefix q p s :
  Forall (fun a => is_star a = false) q -> Glob (q ++ p) s ->
  exists s1 s2, s = s1 ++ s2 /\ length s1 = length q /\ Glob p s2.
Proof.
  revert s; induction q as [|a q IH]; intros s Hq Hg; [by exists [], s|].
  apply Forall_cons in Hq as [Ha Hq]. destruct s as [|c s]; [inversion Hg; congruence|].
  apply (proj1 (glob_fixed_inv _ _ _ _ Ha)) in Hg as [_ Hg].
  destruct (IH s Hq Hg) as (s1 & s2 & -> & Hl & Hg2). exists (c :: s1), s2. cbn. auto.
Qed.

Lemma glob_star_split b p t :
  is_star b = true -> Glob (b :: p) t -> exists v s, t = v ++ s /\ Glob p s.
Proof.
  intros Hb Hg. induction t as [|c t IH]; apply (proj1 (glob_star_inv _ _ _ Hb)) in Hg as [Hg|[? Hg]];
    [by exists [], []|done|by exists [], (c :: t)|].
  destruct (IH Hg) as (v & s & -> & Hs). by exists (c :: v), s.
Qed.

(** Moving the star of a backtracking point forward to a later star loses no
    match: the earliest match of the part between two stars is good enough. *)
Lemma glob_leftmost b q p u t :
  is_star b = true -> Forall (fun x => is_star x = false) q -> length u = length q -> u ++ t <> [] ->
  Glob (b :: q ++ p) (tail (u ++ t)) -> exists v s, t = v ++ s /\ v <> [] /\ Glob p s.
Proof.
  intros Hb Hq Hu Hne Hg. apply glob_star_split in Hg as (v & s & Heq & Hs); [|done].
  destruct (glob_prefix q p s Hq Hs) as (s1 & s2 & -> & Hl & Hg2).
  destruct (u ++ t) as [|x l] eqn:E; [done|]. cbn in Heq. subst l.
  rewrite !app_comm_cons, app_assoc in E.
  assert (length u < length ((x :: v) ++ s1)) as Hle by (rewrite length_app; cbn; lia).
  apply (f_equal (drop (length u))) in E. rewrite drop_app_length, drop_app_le in E by lia.
  rewrite E. exists (drop (length u) ((x :: v) ++ s1)), s2. split_and!; [done| |done].
  intros Hd. apply (f_equal length) in Hd. rewrite length_drop in Hd. cbn in Hd, Hle. lia.
Qed.

(** ** The loop computes the relation *)

Definition the_star : ascii := "*".
Abbreviation star_free := (Forall (fun c : ascii => is_star c = false)).

Lemma glob_loop_star K n p t sp st q u :
  sp = q ++ p -> st = u ++ t -> length u = length q -> star_free q -> star_free st ->
  length sp < K -> length st * K + length p < n ->
  exists b, glob_loop n p t (Some (sp, st)) = Some b
    /\ (b = true <-> Glob p t \/ (st <> [] /\ Glob (the_star :: sp) (tail st))).
Proof.
  revert p t sp st q u; induction n as [|n IH]; intros p t sp st q u Hsp Hst Hl Hq Hfree HK Hn; [lia|].
  assert (forall c t', t = c :: t' -> ~ Glob p t ->
    exists b, glob_loop n sp (tail st) (Some (sp, tail st)) = Some b
      /\ (b = true <-> Glob p t \/ (st <> [] /\ Glob (the_star :: sp) (tail st)))) as Hback.
  { intros c t' Ht Hno. destruct st as [|d st]; [by destruct u; simplify_eq|]. cbn [tail].
    destruct (IH sp st sp st [] []) as (b & -> & Hb); try done; [by inversion Hfree|cbn in *; nia|].
    exists b. split; [done|]. rewrite Hb, <-glob_star_inv by done. naive_solver. }
  destruct t as [|c t']; cbn [glob_loop].
  { eexists. split; [done|]. rewrite glob_nil_inv. destruct (skip_stars p) eqn:Hp; [by split; [left|]|].
    split; [done|]. intros [?|[Hne Hg]]; [done|]. rewrite Hsp, Hst in Hg.
    apply glob_leftmost in Hg as (v & s & Heq & Hv & _); [|done..|by rewrite <-Hst].
    by destruct v. }
  destruct p as [|a p']; [apply (Hback c t'); [done|]; by inversion 1|].
  destruct (is_question a || Ascii.eqb a c) eqn:Hac.
  - assert (is_star a = false) as Ha.
    { destruct (is_star a) eqn:Ha; [|done]. rewrite (star_not_question _ Ha) in Hac. cbn in Hac.
      apply Ascii.eqb_eq in Hac as ->. rewrite Hst in Hfree. apply Forall_app in Hfree as [_ Hf].
      apply Forall_cons in Hf as [Hf _]. congruence. }
    setoid_rewrite (glob_fixed_inv _ _ _ _ Ha).
    destruct (IH p' t' sp st (q ++ [a]) (u ++ [c])) as (b & -> & Hb); try done.
    + by rewrite <-app_assoc. + by rewrite <-app_assoc. + rewrite !length_app. cbn. lia.
    + apply Forall_app_2; [done|by constructor]. + cbn in *. lia.
    + exists b. split; [done|]. rewrite Hb. naive_solver.
  - destruct (is_star a) eqn:Ha.
    + destruct (IH p' (c :: t') p' (c :: t') [] []) as (b & -> & Hb); try done.
      * rewrite Hst in Hfree. by apply Forall_app in Hfree as [_ ?].
      * rewrite Hsp, length_app in HK. cbn in HK. lia.
      * rewrite Hst, length_app in Hn. cbn [length] in *. nia.
      * exists b. split; [done|]. rewrite Hb, <-glob_star_inv by done.
        split.
        { intros Hg. left. apply glob_star_split in Hg as (v & s & -> & Hs); [|done].
          apply glob_star_suffix; [done|]. by apply glob_star_skip. }
        intros [Hg|[Hne Hg]].
        { apply glob_star_split in Hg as (v & s & -> & Hs); [|done].
          apply glob_star_suffix; [done|]. by apply glob_star_skip. }
        rewrite Hsp, Hst in Hg.
        apply glob_leftmost in Hg as (v & s & -> & _ & Hs); [|done..|by rewrite <-Hst].
        apply glob_star_split in Hs as (v' & s' & -> & Hs); [|done]. rewrite app_assoc.
        apply glob_star_suffix; [done|]. by apply glob_star_skip.
    + apply (Hback c t'); [done|]. rewrite (glob_fixed_inv _ _ _ _ Ha). rewrite Hac. naive_solver.
Qed.

Lemma glob_loop_nostar K n p t :
  star_free t -> length p < K -> S (length t) * K + length p < n ->
  exists b, glob_loop n p t None = Some b /\ (b = true <-> Glob p t).
Proof.
  revert p t; induction n as [|n IH]; intros p t Hfree HK Hn; [lia|].
  destruct t as [|c t']; cbn [glob_loop].
  { eexists. split; [done|]. rewrite glob_nil_inv. by destruct (skip_stars p). }
  destruct p as [|a p']; [eexists; split; [done|]; split; [done|inversion 1]|].
  apply Forall_cons in Hfree as [Hc Hfree].
  destruct (is_question a || Ascii.eqb a c) eqn:Hac.
  - assert (is_star a = false) as Ha.
    { destruct (is_star a) eqn:Ha; [|done]. rewrite (star_not_question _ Ha) in Hac. cbn in Hac.
      apply Ascii.eqb_eq in Hac as ->. congruence. }
    setoid_rewrite (glob_fixed_inv _ _ _ _ Ha).
    destruct (IH p' t') as (b & -> & Hb); [done|cbn in *; lia|cbn in *; nia|].
    exists b. split; [done|]. naive_solver.
  - destruct (is_star a) eqn:Ha.
    + destruct (glob_loop_star K n p' (c :: t') p' (c :: t') [] []) as (b & -> & Hb);
        try done; [by constructor|cbn in *; lia|cbn in *; nia|].
      exists b. split; [done|]. rewrite Hb, <-glob_star_inv by done. split; intros Hg;
      apply glob_star_split in Hg as (v & s & -> & Hs); try done;
      (apply glob_star_suffix; [done|]; by apply glob_star_skip).
    + eexists. split; [done|]. rewrite (glob_fixed_inv _ _ _ _ Ha), Hac. naive_solver.
Qed.

(** Host globs mean what their notation says: for every pattern and every
    text without a star, the two-pointer matcher with backtracking terminates
    within its fuel and answers exactly whether the text is an instance of the
    pattern, a star standing for any run of bytes and a question mark for one
    byte. *)
Theorem glob_match_correct (pattern text : string) :
  star_free (String.list_ascii_of_string text) ->
  (glob_match pattern text = true
     <-> Glob (String.list_ascii_of_string pattern) (String.list_ascii_of_string text))
  /\ is_Some (glob_loop (glob_fuel (String.list_ascii_of_string pattern) (String.list_ascii_of_string text))
        (String.list_ascii_of_string pattern) (String.list_ascii_of_string text) None).
Proof.
  intros Hf. unfold glob_match.
  set (p := String.list_ascii_of_string pattern). set (t := String.list_ascii_of_string text) in *.
  destruct (glob_loop_nostar (S (length p)) (glob_fuel p t) p t) as (b & -> & Hb);
    [done|lia|unfold glob_fuel; lia|]. split; [done|eauto].
Qed.

Lemma glob_match_correct_witness :
  glob_match "web-*.prod" "web-1.test.prod" = true
  /\ Glob (String.list_ascii_of_string "web-*.prod") (String.list_ascii_of_string "web-1.test.prod").
Proof.
  split; [vm_compute; reflexivity|].
  apply (glob_match_correct "web-*.prod" "web-1.test.prod"); [|vm_compute; reflexivity].
  repeat constructor.
Defined.

(** With a star in the text the literal comparison wins over the wildcard, and a
    match is missed. *)
Theorem glob_star_in_text_missed :
  glob_match "*" "*a" = false
  /\ Glob (String.list_ascii_of_string "*") (String.list_ascii_of_string "*a").
Proof. split; [vm_compute; reflexivity|]. by repeat econstructor. Qed.

(** ** The decision table *)

(** Executions of the pair still inside the window that ends at [now]. *)
Definition recent (b : CircuitBreaker) (host template_id : string) (now : DateTime) : list DateTime :=
  List.filter (fun t => (now - chrono_window (cb_window b) <? t)%Z)
    (default [] (cb_hits b !! (host, template_id))).
Definition saturated (e : PolicyEngine) (host template_id : string) (now : DateTime) : bool :=
  (cb_max_auto (pe_breaker e) <=? N.of_nat (length (recent (pe_breaker e) host template_id now)) mod 2 ^ 32)%N.

(** The decision of the policy engine on every branch: it is automatic if and
    only if the kill switch allows it, the first matching rule says so, the tier
    is not dangerous and the pair is under its cap; it is a refusal if and only
    if the first matching rule says so; it is marked as tripped if and only if the
    cap alone stood in the way; and with no matching rule it is approval. *)
Theorem evaluate_decides (e : PolicyEngine) (host : string) (tier : RiskTier) (template_id : string)
    (now : DateTime) :
  let res := (evaluate e host tier template_id now).1 in
  let may_auto := pe_auto_enabled e = true /\ policy_decide (pe_policy e) host tier = Auto /\ tier <> Dangerous in
  (er_decision res = Auto <-> may_auto /\ saturated e host template_id now = false)
  /\ (er_decision res = Forbid <-> policy_decide (pe_policy e) host tier = Forbid)
  /\ (er_breaker_tripped res = true <-> may_auto /\ saturated e host template_id now = true)
  /\ (Forall (fun r => rule_matches r host tier = false) (pe_policy e) -> er_decision res = Approve).
Proof.
  cbv zeta. assert (Forall (fun r => rule_matches r host tier = false) (pe_policy e) ->
    policy_decide (pe_policy e) host tier = Approve) as Hdef.
  { intros Hn. unfold policy_decide. by rewrite (proj2 (find_first_None _ _) Hn). }
  unfold evaluate, evaluate_check, evaluate_rules, tripped, saturated, recent.
  destruct (pe_auto_enabled e); cbn [negb].
  - destruct (policy_decide (pe_policy e) host tier); repeat case_bool_decide; try congruence; cbn;
      try destruct (cb_max_auto (pe_breaker e) <=? _)%N; cbn; intuition congruence.
  - destruct (policy_decide (pe_policy e) host tier); cbn; intuition congruence.
Qed.

(** ** The bound of the breaker *)

Lemma filter_filter_above (c d : Z) (l : list Z) :
  (d <= c)%Z ->
  List.filter (fun t => (c <? t)%Z) (List.filter (fun t => (d <? t)%Z) l)
  = List.filter (fun t => (c <? t)%Z) l.
Proof.
  intros Hdc. induction l as [|x l IH]; cbn; [done|].
  destruct (Z.ltb_spec d x); cbn; rewrite IH; [done|].
  by destruct (Z.ltb_spec c x); [lia|].
Qed.

(** What the log of a pair knows of the executions [A] so far, [L] being the
    time of the last request: everything newer than the window before [L]. *)
Record tracks (w : Z) (max : N) (hits : list Z) (A : list Z) (L : Z) : Prop := {
  tr_log : forall c, (L - w <= c)%Z ->
    List.filter (fun t => (c <? t)%Z) hits = List.filter (fun t => (c <? t)%Z) A;
  tr_past : Forall (fun t => (t <= L)%Z) A;
  tr_bound : forall T, (N.of_nat (length (in_window w T A)) <= max)%N;
}.

Lemma in_window_all w L A :
  Forall (fun t => (t <= L)%Z) A -> in_window w L A = List.filter (fun t => (L - w <? t)%Z) A.
Proof.
  unfold in_window. induction 1 as [|t A Ht _ IH]; cbn; [done|].
  rewrite (proj2 (Z.leb_le t L) Ht), andb_true_r, IH. done.
Qed.

Lemma in_window_le w T c A :
  (c <= T - w)%Z -> length (in_window w T A) <= length (List.filter (fun t => (c <? t)%Z) A).
Proof.
  intros Hc. unfold in_window. induction A as [|t A IH]; cbn; [done|].
  destruct (Z.ltb_spec (T - w) t), (Z.leb_spec t T), (Z.ltb_spec c t); cbn; lia.
Qed.

Lemma tracks_later w max hits A L L' :
  tracks w max hits A L -> (L <= L')%Z ->
  tracks w max (List.filter (fun t => (L' - w <? t)%Z) hits) A L'.
Proof.
  intros [H1 H2 H3] Hle. split; [|eapply Forall_impl; [exact H2|]; cbn; lia|done].
  intros c Hc. rewrite filter_filter_above by done. apply H1. lia.
Qed.

Lemma tracks_keep w max hits A L L' :
  tracks w max hits A L -> (L <= L')%Z -> tracks w max hits A L'.
Proof.
  intros [H1 H2 H3] Hle. split; [|eapply Forall_impl; [exact H2|]; cbn; lia|done].
  intros c Hc. apply H1. lia.
Qed.

Lemma tracks_record w max hits A L :
  tracks w max hits A L ->
  (N.of_nat (length (List.filter (fun t => (L - w <? t)%Z) A)) < max)%N ->
  tracks w max (hits ++ [L]) (A ++ [L]) L.
Proof.
  intros [H1 H2 H3] Hlt. split.
  - intros c Hc. by rewrite !List.filter_app, H1.
  - apply Forall_app_2; [done|]. by repeat constructor.
  - intros T. unfold in_window. rewrite List.filter_app, length_app. fold (in_window w T A).
    cbn [List.filter]. destruct (Z.leb_spec L T) as [HT|HT].
    + pose proof (in_window_le w T (L - w) A ltac:(lia)).
      destruct (T - w <? L)%Z; cbn [length andb]; lia.
    + rewrite andb_false_r. cbn. specialize (H3 T). lia.
Qed.

Definition hits_of (e : PolicyEngine) (key : string * string) : list DateTime :=
  default [] (cb_hits (pe_breaker e) !! key).
Definition window_of (e : PolicyEngine) : Z := chrono_window (cb_window (pe_breaker e)).
Definition max_of (e : PolicyEngine) : N := cb_max_auto (pe_breaker e).

Lemma evaluate_tracks (e : PolicyEngine) (r : Request) (key : string * string) (A : list Z) (L : Z) :
  (max_of e < 2 ^ 32)%N -> (L <= rq_now r)%Z ->
  tracks (window_of e) (max_of e) (hits_of e key) A L ->
  let x := evaluate e (rq_host r) (rq_tier r) (rq_template r) (rq_now r) in
  window_of x.2 = window_of e /\ max_of x.2 = max_of e
  /\ tracks (window_of e) (max_of e) (hits_of x.2 key)
       (A ++ if is_auto_for key (r, x.1) then [rq_now r] else []) (rq_now r).
Proof.
  intros Hm HL Ht. cbv zeta. unfold evaluate, evaluate_check.
  pose proof (tracks_keep _ _ _ _ _ _ Ht HL) as Hkeep.
  destruct (evaluate_rules e (rq_host r) (rq_tier r)) as [res|[]] eqn:Hr.
  { cbn. assert (is_auto_for key (r, res) = false) as ->.
    { unfold is_auto_for, evaluate_rules in *. cbn. destruct (pe_auto_enabled e); cbn in Hr; break Hr; done. }
    by rewrite app_nil_r. }
  unfold tripped. set (entry := default [] (cb_hits (pe_breaker e) !! (rq_host r, rq_template r))).
  fold (window_of e) (max_of e). unfold is_auto_for.
  destruct (decide_rel (=) key (rq_host r, rq_template r)) as [->|Hne].
  - pose proof (tracks_later _ _ _ _ _ _ Ht HL) as Hp. fold entry in Hp. unfold hits_of in Hp.
    fold entry in Hp. destruct (N.leb_spec (max_of e) (N.of_nat (length
      (List.filter (fun t => (rq_now r - window_of e <? t)%Z) entry)) mod 2 ^ 32)) as [Hle|Hlt].
    + cbn. rewrite app_nil_r. unfold hits_of. cbn. by rewrite lookup_insert_eq.
    + cbn. rewrite !bool_decide_eq_true_2 by done. cbn. split_and!; [done..|].
      unfold hits_of. cbn. rewrite !lookup_insert_eq. cbn. apply tracks_record; [done|].
      destruct Hkeep as [Hlog Hpast Hbound].
      rewrite <-(Hlog (rq_now r - window_of e)%Z) by lia. unfold hits_of. fold entry.
      assert (N.of_nat (length (List.filter (fun t => (rq_now r - window_of e <? t)%Z) entry)) < 2 ^ 32)%N.
      { unfold entry. fold (hits_of e (rq_host r, rq_template r)).
        rewrite Hlog, <-in_window_all by (done || lia). specialize (Hbound (rq_now r)). lia. }
      rewrite N.mod_small in Hlt by done. done.
  - assert (forall b, b && bool_decide ((rq_host r, rq_template r) = key) = false) as Hno.
    { intros b. rewrite (bool_decide_eq_false_2 _ (not_eq_sym Hne)). apply andb_false_r. }
    destruct (max_of e <=? _)%N; cbn; rewrite Hno, app_nil_r; (split_and!; [done..|]);
      unfold hits_of; cbn; by rewrite !lookup_insert_ne by done.
Qed.

Lemma run_policy_tracks (e : PolicyEngine) (reqs : list Request) (key : string * string) (A : list Z) (L T : Z) :
  (max_of e < 2 ^ 32)%N -> StronglySorted Z.le (L :: map rq_now reqs) ->
  tracks (window_of e) (max_of e) (hits_of e key) A L ->
  (N.of_nat (length (in_window (window_of e) T (A ++ autos key (run_policy e reqs)))) <= max_of e)%N.
Proof.
  revert e A L; induction reqs as [|r reqs IH]; intros e A L Hm Hs Ht; cbn.
  { rewrite app_nil_r. apply Ht. }
  inversion_clear Hs as [|? ? Hs' HL]. apply Forall_cons in HL as [HL _].
  destruct (evaluate_tracks e r key A L Hm HL Ht) as (Hw & Hmax & Ht').
  destruct (evaluate e (rq_host r) (rq_tier r) (rq_template r) (rq_now r)) as [res e'].
  cbn [fst snd] in *. rewrite <-Hw, <-Hmax in Ht' |- *.
  specialize (IH e' _ (rq_now r) ltac:(lia) Hs' Ht').
  unfold autos. cbn [List.filter]. destruct (is_auto_for key (r, res)); cbn [map];
    [by rewrite <-app_assoc in IH|by rewrite app_nil_r in IH].
Qed.


Definition storm (now : Z) : Request :=
  {| rq_host := "web-1"; rq_tier := Safe; rq_template := "restart"; rq_now := now |}.
Definition auto_safe : Policy := [{| pr_host := Some "web-*"; pr_tier := Safe; pr_decision := Auto |}].


(** The breaker's two critical sections do not compose atomically: two requests
    that both check before either records exceed a cap of one. *)
Theorem breaker_race :
  let e0 := engine_new auto_safe true 1 100 in
  let (c1, e1) := evaluate_check e0 "web-1" Safe "restart" 0 in
  let (c2, e2) := evaluate_check e1 "web-1" Safe "restart" 0 in
  let (r1, e3) := evaluate_record e2 "web-1" "restart" 0 in
  let (r2, e4) := evaluate_record e3 "web-1" "restart" 0 in
  c1 = inr tt /\ c2 = inr tt /\ er_decision r1 = Auto /\ er_decision r2 = Auto
  /\ length (hits_of e4 ("web-1", "restart")) = 2.
Proof. vm_compute. auto. Qed.
