(* ===== verification/Commands.v ===== *)
(** * The command signer and the command queue ([ravn-server/src/command.rs])

  The control plane's active signing key with the keyring it advertises, and
  the per-agent queue of signed commands.  File contents, freshly generated
  keys and whether persisting succeeds are inputs. *)

From S2P Require Export Crypto.

(** ** The signer *)

Section Signer.
Context `{Base64} `{Ed25519} `{SerdeJson}.

Record CommandSigner := mkSigner {
  cs_key : SigningKey;
  cs_pubkey_b64 : string;
  cs_keyring_json : string;
}.

(** Where the signing key comes from: no path, a path whose file is absent, with
    the outcome of persisting the generated key, or the outcome of reading it. *)
Inductive KeySource :=
  | NoPath
  | Absent (p : string) (persisted : result string unit)
  | Present (p : string) (contents : result string string).

(** The key part of [load_or_generate_with_previous]; [fresh] is what
    [generate_signing_key] draws. *)
Definition load_key (src : KeySource) (fresh : SigningKey) : result string SigningKey :=
  match src with
  | Present p contents =>
      b64 ← map_err (fun e => "reading command signing key at " +:+ p) contents;
      map_err (fun e => "invalid command signing key at " +:+ p +:+ ": " +:+ key_error_display e)
        (signing_key_from_b64 b64)
  | Absent p persisted =>
      _ ← map_err (fun e => "persisting command signing key to " +:+ p) persisted;
      Ok fresh
  | NoPath => Ok fresh
  end.

(** The loop over the previous public keys. *)
Fixpoint insert_previous (files : list (string * string)) (ring : Keyring) : result string Keyring :=
  match files with
  | [] => Ok ring
  | (file, b64) :: files' =>
      match verifying_key_from_b64 b64 with
      | Ok prev => insert_previous files' (keyring_insert prev ring).1
      | Err e => Err ("invalid previous command key in " +:+ file +:+ ": " +:+ key_error_display e)
      end
  end.

(** [load_or_generate_with_previous]; [previous] is [None] without a directory,
    else what [read_previous_pubkeys] returns. *)
Definition load_or_generate_with_previous (src : KeySource) (fresh : SigningKey)
    (previous : option (result string (list (string * string)))) : result string CommandSigner :=
  key ← load_key src fresh;
  let active := verifying_key key in
  let ring := keyring_single active in
  let active_kid := key_id active in
  ring ← match previous with
         | Some files => fs ← files; insert_previous fs ring
         | None => Ok ring
         end;
  let ring := (keyring_set_default active_kid ring).1 in
  Ok {| cs_key := key; cs_pubkey_b64 := verifying_key_to_b64 active;
        cs_keyring_json := keyring_to_json ring |}.

Definition load_or_generate (src : KeySource) (fresh : SigningKey) : result string CommandSigner :=
  load_or_generate_with_previous src fresh None.

(** [CommandSigner::sign]. *)
Definition signer_sign (s : CommandSigner) (env : CommandEnvelope) : CommandEnvelope :=
  sign_envelope (cs_key s) env.

(** [read_previous_pubkeys]: the entries of the directory (absent, unreadable, or
    each with its name, whether it is a regular file, and its contents). *)
Fixpoint read_entries (entries : list (string * bool * result string string))
    : result string (list (string * string)) :=
  match entries with
  | [] => Ok []
  | (name, is_file, contents) :: entries' =>
      if is_file then
        c ← map_err (fun _ => "reading previous key " +:+ name) contents;
        rest ← read_entries entries';
        Ok ((name, c) :: rest)
      else read_entries entries'
  end.
Definition read_previous_pubkeys (dir : option (result string (list (string * bool * result string string))))
    : result string (list (string * string)) :=
  match dir with
  | None => Ok []
  | Some entries => es ← entries; read_entries es
  end.
End Signer.

(** ** The queue *)

Record CommandQueue := mkQueue {
  cq_pending : gmap Uuid (list CommandEnvelope);
  cq_results : list ActionResult;
}.
Definition queue_new : CommandQueue := {| cq_pending := ∅; cq_results := [] |}.

Definition enqueue (env : CommandEnvelope) (q : CommandQueue) : CommandQueue :=
  let a := agent_uuid (ce_agent_id env) in
  {| cq_pending := <[a := default [] (cq_pending q !! a) ++ [env]]> (cq_pending q);
     cq_results := cq_results q |}.

Definition take_for (a : Uuid) (q : CommandQueue) : list CommandEnvelope * CommandQueue :=
  match cq_pending q !! a with
  | Some p =>
      (p, {| cq_pending := <[a := []]> (cq_pending q); cq_results := cq_results q |})
  | None => ([], q)
  end.

Definition queue_record_result (r : ActionResult) (q : CommandQueue) : CommandQueue :=
  {| cq_pending := cq_pending q; cq_results := cq_results q ++ [r] |}.

(** ** Histories of the queue *)

(** One call on the shared queue, each of which holds its mutex throughout. *)
Inductive QueueOp := Enq (env : CommandEnvelope) | Take (a : Uuid) | RecordResult (r : ActionResult).

(** What a call delivers, and to whom. *)
Definition queue_step (op : QueueOp) (q : CommandQueue) : list (Uuid * CommandEnvelope) * CommandQueue :=
  match op with
  | Enq env => ([], enqueue env q)
  | Take a => let (l, q') := take_for a q in (map (pair a) l, q')
  | RecordResult r => ([], queue_record_result r q)
  end.
Fixpoint queue_run (ops : list QueueOp) (q : CommandQueue)
    : list (Uuid * CommandEnvelope) * CommandQueue :=
  match ops with
  | [] => ([], q)
  | op :: ops' =>
      let (d, q') := queue_step op q in
      let (ds, q'') := queue_run ops' q' in (d ++ ds, q'')
  end.

Definition pending_for (a : Uuid) (q : CommandQueue) : list CommandEnvelope :=
  default [] (cq_pending q !! a).
Definition delivered_to (a : Uuid) (l : list (Uuid * CommandEnvelope)) : list CommandEnvelope :=
  map snd (List.filter (fun x => (x.1 =? a)%N) l).
(** The commands enqueued for an agent, in order. *)
Definition enqueued_for (a : Uuid) (ops : list QueueOp) : list CommandEnvelope :=
  flat_map (fun op => match op with
    | Enq env => if (agent_uuid (ce_agent_id env) =? a)%N then [env] else []
    | _ => [] end) ops.

Lemma delivered_pair a b l :
  delivered_to a (map (pair b) l) = if (b =? a)%N then l else [].
Proof.
  unfold delivered_to. induction l as [|x l IH]; cbn; [by destruct (b =? a)%N|].
  destruct (b =? a)%N; cbn; by rewrite IH.
Qed.

Lemma queue_step_conserves op q a :
  delivered_to a (queue_step op q).1 ++ pending_for a (queue_step op q).2
  = pending_for a q ++ enqueued_for a [op].
Proof.
  destruct op as [env|b|r]; cbn [queue_step]; cbn [enqueued_for flat_map fst snd]; rewrite ?app_nil_r; [| |done].
  - unfold pending_for. cbn. destruct (N.eqb_spec (agent_uuid (ce_agent_id env)) a) as [<-|Hne].
    + by rewrite lookup_insert_eq.
    + by rewrite lookup_insert_ne, app_nil_r.
  - unfold take_for. destruct (cq_pending q !! b) as [p|] eqn:Hb; cbn [fst snd map]; [|done].
    rewrite delivered_pair. unfold pending_for. cbn.
    destruct (N.eqb_spec b a) as [->|Hne].
    + by rewrite lookup_insert_eq, Hb, app_nil_r.
    + by rewrite lookup_insert_ne.
Qed.

Lemma delivered_app a l k : delivered_to a (l ++ k) = delivered_to a l ++ delivered_to a k.
Proof. unfold delivered_to. by rewrite List.filter_app, map_app. Qed.

(** Exactly-once, in-order delivery: over any sequence of calls on the shared
    queue, what each agent has been handed, followed by what still waits for it,
    is exactly what was enqueued for that agent, in order, after what waited at
    the start: no command is lost, duplicated, reordered or handed to another
    agent. *)
Theorem queue_exactly_once (ops : list QueueOp) (q : CommandQueue) (a : Uuid) :
  delivered_to a (queue_run ops q).1 ++ pending_for a (queue_run ops q).2
  = pending_for a q ++ enqueued_for a ops.
Proof.
  revert q; induction ops as [|op ops IH]; intros q; cbn [queue_run].
  { cbn. by rewrite app_nil_r. }
  pose proof (queue_step_conserves op q a) as Hstep. destruct (queue_step op q) as [d q'].
  specialize (IH q'). destruct (queue_run ops q') as [ds q'']. cbn [fst snd] in *.
  rewrite delivered_app, <-app_assoc, IH, app_assoc, Hstep, <-app_assoc. f_equal.
  cbn. by rewrite app_nil_r.
Qed.

(** ** The advertised keyring *)

Section SignerFacts.
Context `{CL : CryptoLaws} `{SJ : SerdeJson} `{!SerdeJsonLaws}.

(** The keys a file list decodes to. *)
Lemma insert_previous_Ok files ring ring' :
  insert_previous files ring = Ok ring' ->
  exists keys, Forall2 (fun f k => verifying_key_from_b64 f.2 = Ok k) files keys
    /\ ring' = insert_all keys ring.
Proof.
  revert ring; induction files as [|[file b64] files IH]; intros ring; cbn.
  { intros [= <-]. exists []. by split; [constructor|]. }
  destruct (verifying_key_from_b64 b64) as [k|] eqn:Hk; [|done].
  intros (keys & Hf & ->)%IH. exists (k :: keys). by split; [constructor|].
Qed.

Lemma insert_all_wf keys ring : keyring_wf ring -> keyring_wf (insert_all keys ring).
Proof. revert ring; induction keys as [|k keys IH]; intros ring Hw; [done|]. apply IH. by apply insert_wf. Qed.

Lemma insert_all_contains keys ring kid :
  is_Some (bt_get kid (kr_keys ring)) -> is_Some (bt_get kid (kr_keys (insert_all keys ring))).
Proof.
  revert ring; induction keys as [|k keys IH]; intros ring Hk; cbn; [done|]. apply IH. cbn.
  apply bt_get_is_Some, bt_keys_insert. right. by apply bt_get_is_Some.
Qed.

(** The ring a signer advertises. *)
Lemma signer_ring (src : KeySource) (fresh : SigningKey)
    (previous : option (result string (list (string * string)))) (s : CommandSigner) :
  load_or_generate_with_previous src fresh previous = Ok s ->
  exists keys,
    match previous with
    | Some (Ok files) => Forall2 (fun f k => verifying_key_from_b64 f.2 = Ok k) files keys
    | _ => keys = []
    end
    /\ let ring := insert_all keys (keyring_single (verifying_key (cs_key s))) in
       keyring_from_json (cs_keyring_json s)
       = Ok (mkKeyring (kr_keys ring) (Some (key_id (verifying_key (cs_key s))))).
Proof.
  unfold load_or_generate_with_previous. destruct (load_key src fresh) as [key|]; cbn; [|done].
  destruct (match previous with
    | Some files => fs ← files; insert_previous fs (keyring_single (verifying_key key))
    | None => Ok (keyring_single (verifying_key key)) end) as [ring|] eqn:Hring; cbn; [|done].
  intros [= <-]. cbn. assert (exists keys,
    match previous with
    | Some (Ok files) => Forall2 (fun f k => verifying_key_from_b64 f.2 = Ok k) files keys
    | _ => keys = []
    end /\ ring = insert_all keys (keyring_single (verifying_key key))) as (keys & Hk & ->).
  { destruct previous as [[files|]|]; cbn in Hring; [by apply insert_previous_Ok|done|].
    exists []. split; [done|]. by injection Hring as <-. }
  exists keys. split; [done|].
  assert (is_Some (bt_get (key_id (verifying_key key))
    (kr_keys (insert_all keys (keyring_single (verifying_key key)))))) as Hin.
  { apply insert_all_contains. cbn. rewrite String.eqb_refl. eauto. }
  assert (keyring_wf (insert_all keys (keyring_single (verifying_key key)))) as Hwf
    by (apply insert_all_wf; auto with ravn).
  unfold keyring_set_default. rewrite (proj2 (bt_contains_key_spec _ _)) by (by apply bt_get_is_Some).
  cbn. rewrite from_json_to_json; [done|]. split; cbn; [apply Hwf|]. by intros k [= <-].
Qed.

Lemma insert_all_same keys ring kid v :
  bt_get kid (kr_keys ring) = Some v -> (forall k, k ∈ keys -> key_id k = kid -> k = v) ->
  bt_get kid (kr_keys (insert_all keys ring)) = Some v.
Proof.
  revert ring; induction keys as [|k keys IH]; intros ring Hk Hs; cbn; [done|].
  apply IH; [|set_solver]. cbn. rewrite bt_get_insert.
  destruct (String.eqb_spec kid (key_id k)) as [->|]; [|done]. f_equal. set_solver.
Qed.

(** What the control plane signs, its agents accept: the keyring document a
    loaded signer advertises parses, is not empty, has the active key as its
    default, and (unless a previous key of another value has the same id)
    verifies every envelope the signer signs until it expires. *)
Theorem signer_keyring_accepts (src : KeySource) (fresh : SigningKey)
    (previous : option (result string (list (string * string)))) (s : CommandSigner) :
  load_or_generate_with_previous src fresh previous = Ok s ->
  (forall files file b64 k, previous = Some (Ok files) -> (file, b64) ∈ files ->
     verifying_key_from_b64 b64 = Ok k -> key_id k = key_id (verifying_key (cs_key s)) ->
     k = verifying_key (cs_key s)) ->
  exists r, keyring_from_json (cs_keyring_json s) = Ok r
    /\ keyring_is_empty r = false
    /\ kr_default_kid r = Some (key_id (verifying_key (cs_key s)))
    /\ forall env now, (now <= ce_expires_at env)%Z ->
         verify_envelope_with r (signer_sign s env) now = Ok tt.
Proof.
  intros Hl Hsame. destruct (signer_ring _ _ _ _ Hl) as (keys & Hkeys & Hr).
  set (vk := verifying_key (cs_key s)) in *.
  assert (bt_get (key_id vk) (kr_keys (insert_all keys (keyring_single vk))) = Some vk) as Hget.
  { apply insert_all_same; [cbn; by rewrite String.eqb_refl|]. intros k Hk Hid.
    destruct previous as [[files|]|]; [|by subst; set_solver..].
    apply list_elem_of_lookup in Hk as [i Hi].
    destruct (Forall2_lookup_r _ _ _ _ _ Hkeys Hi) as ([file b64] & Hf & Hk).
    apply (Hsame files file b64 k); try done. by apply list_elem_of_lookup_2 with i. }
  eexists. split; [exact Hr|]. cbn. split_and!; [|done|].
  - apply bool_decide_eq_false. cbn. intros E. by rewrite E in Hget.
  - intros env now Hnow. unfold signer_sign. by apply verify_with_signed.
Qed.
End SignerFacts.

Definition toy_previous : option (result string (list (string * string))) :=
  Some (Ok [("old.pub", verifying_key_to_b64 (verifying_key key_a))]).

Lemma signer_keyring_accepts_witness :
  exists s r, load_or_generate_with_previous NoPath key_b toy_previous = Ok s
    /\ keyring_from_json (cs_keyring_json s) = Ok r
    /\ verify_envelope_with r (signer_sign s example_envelope) 10 = Ok tt.
Proof.
  let x := eval vm_compute in (load_or_generate_with_previous NoPath key_b toy_previous) in
  assert (load_or_generate_with_previous NoPath key_b toy_previous = x) as Hl
    by (vm_compute; reflexivity).
  destruct (signer_keyring_accepts NoPath key_b toy_previous _ Hl) as (r & Hr & _ & _ & Hv).
  - intros files file b64 k [= <-] Hin Hk. apply list_elem_of_singleton in Hin.
    injection Hin as -> ->. vm_compute in Hk. injection Hk as <-. vm_compute. discriminate.
  - eexists _, r. split; [exact Hl|]. split; [exact Hr|]. apply Hv. vm_compute. discriminate.
Defined.
