(* ===== verification/KeyFile.v ===== *)
(** * The signing key on disk ([ravn-server/src/command.rs])

  [persist_key] and the start of the signer over a file system, with writes that fail
  or tear, so that what one start leaves is what the next one reads.  The theorem:
  restarts do not change the key that the agents have pinned, and the file that holds
  it is the owner's alone.

  Whether a read, the opening and the writing succeed, the drawn keys, the umask and
  the directory of previous keys are inputs of each start. *)

From S2P Require Export Commands.

Record KeyFile := mkKeyFile { kf_text : string; kf_mode : N }.
Abbreviation KeyFiles := (gmap string KeyFile).

(** What comes of opening and writing: the first [n] bytes may be all that is written. *)
Inductive PersistOutcome := CannotOpen (e : string) | WriteFailed (n : nat) (e : string) | Persisted.

Section KeyFile.
Context `{Base64} `{Ed25519} `{SerdeJson}.

(** The mode [0o600] applies to a file that the call creates. *)
Definition open_mode (umask : N) (old : option KeyFile) : N :=
  match old with Some f => kf_mode f | None => N.ldiff 384 umask end.
Definition persist_key (path : string) (key : SigningKey) (umask : N) (out : PersistOutcome) (fs : KeyFiles)
    : result string unit * KeyFiles :=
  let write text := <[path := mkKeyFile text (open_mode umask (fs !! path))]> fs in
  match out with
  | CannotOpen e => (Err e, fs)
  | WriteFailed n e => (Err e, write (String.substring 0 n (signing_key_to_b64 key)))
  | Persisted => (Ok tt, write (signing_key_to_b64 key))
  end.

(** One start of the server with [RAVN_COMMAND_KEY] set. *)
Record Start := mkStart {
  sr_read_error : option string;
  sr_fresh : SigningKey;
  sr_umask : N;
  sr_persist : PersistOutcome;
  sr_previous : option (result string (list (string * string)));
}.
Definition start_signer (path : string) (st : Start) (fs : KeyFiles) : result string CommandSigner * KeyFiles :=
  match fs !! path with
  | Some f =>
      let contents := match sr_read_error st with Some e => Err e | None => Ok (kf_text f) end in
      (load_or_generate_with_previous (Present path contents) (sr_fresh st) (sr_previous st), fs)
  | None =>
      let (persisted, fs) := persist_key path (sr_fresh st) (sr_umask st) (sr_persist st) fs in
      (load_or_generate_with_previous (Absent path persisted) (sr_fresh st) (sr_previous st), fs)
  end.
Fixpoint restarts (path : string) (starts : list Start) (fs : KeyFiles) : list (result string CommandSigner) * KeyFiles :=
  match starts with
  | [] => ([], fs)
  | st :: starts =>
      let (r, fs) := start_signer path st fs in
      let (rs, fs) := restarts path starts fs in (r :: rs, fs)
  end.
End KeyFile.

Section KeyFileFacts.
Context `{CL : CryptoLaws} `{SJ : SerdeJson} `{!SerdeJsonLaws}.
Variable path : string.

(** The text of a key reads back as the key. *)
Lemma signing_key_decodes k : signing_key_from_b64 (signing_key_to_b64 k) = Ok k.
Proof.
  unfold signing_key_from_b64, signing_key_to_b64. rewrite b64_no_space, b64_roundtrip. cbn.
  by rewrite sk_length, sk_roundtrip.
Qed.

(** A start that has a signer took the key that [load_key] gave. *)
Lemma loaded_key src fresh previous s :
  load_or_generate_with_previous src fresh previous = Ok s -> load_key src fresh = Ok (cs_key s).
Proof.
  unfold load_or_generate_with_previous. destruct (load_key src fresh) as [key|e]; cbn; [|done].
  destruct previous as [[files|]|]; cbn; [|done|by intros [= <-]].
  destruct (insert_previous files _); cbn; [by intros [= <-]|done].
Qed.

(** The file holds a key. *)
Definition holds_key (k : SigningKey) (fs : KeyFiles) : Prop :=
  exists f, fs !! path = Some f /\ signing_key_from_b64 (kf_text f) = Ok k.

Lemma start_present st fs f r fs' :
  fs !! path = Some f -> start_signer path st fs = (r, fs') ->
  fs' = fs /\ forall s, r = Ok s -> holds_key (cs_key s) fs.
Proof.
  intros Hf. unfold start_signer. rewrite Hf. intros [= <- <-]. split; [done|]. intros s Hs%loaded_key.
  exists f. split; [done|]. cbn in Hs. destruct (sr_read_error st); cbn in Hs; [done|].
  by destruct (signing_key_from_b64 (kf_text f)); simplify_eq/=.
Qed.
Lemma start_absent st fs r fs' :
  fs !! path = None -> start_signer path st fs = (r, fs') ->
  (forall f, fs' !! path = Some f -> N.land (kf_mode f) 63 = 0%N) /\ forall s, r = Ok s -> holds_key (cs_key s) fs'.
Proof.
  intros Hf. unfold start_signer. rewrite Hf.
  assert (N.land (open_mode (sr_umask st) None) 63 = 0%N) as Hmode.
  { cbn [open_mode]. apply N.bits_inj. intros i. rewrite N.land_spec, N.ldiff_spec, N.bits_0.
    assert (N.testbit 384 i && N.testbit 63 i = false) as Hd.
    { rewrite <-N.land_spec. change (N.land 384 63) with 0%N. apply N.bits_0. }
    destruct (N.testbit 384 i), (N.testbit 63 i), (N.testbit (sr_umask st) i); done. }
  unfold persist_key. rewrite Hf.
  destruct (sr_persist st) as [e|n e|]; intros [= <- <-]; (split; [intros f|intros s Hs%loaded_key]); try done.
  - congruence.
  - rewrite lookup_insert_eq. by intros [= <-].
  - rewrite lookup_insert_eq. by intros [= <-].
  - cbn in Hs. injection Hs as <-. eexists. split; [apply lookup_insert_eq|]. apply signing_key_decodes.
Qed.

Lemma restarts_present starts fs f rs fs' :
  fs !! path = Some f -> restarts path starts fs = (rs, fs') ->
  fs' = fs /\ forall s, Ok s ∈ rs -> holds_key (cs_key s) fs.
Proof.
  intros Hf. revert rs fs'. induction starts as [|st starts IH]; intros rs fs'; cbn [restarts].
  { intros [= <- <-]. split; [done|]. by intros s ?%elem_of_nil. }
  destruct (start_signer path st fs) as [r fs1] eqn:Hst. apply (start_present st fs f) in Hst as [-> Hr]; [|done].
  destruct (restarts path starts fs) as [rs1 fs2]. intros [= <- <-]. destruct (IH rs1 fs2 eq_refl) as [-> Hrs]. split; [done|].
  intros s [Hs|Hs]%elem_of_cons; auto.
Qed.

Lemma restarts_key starts fs rs fs' :
  restarts path starts fs = (rs, fs') -> forall s, Ok s ∈ rs -> holds_key (cs_key s) fs'.
Proof.
  revert fs rs fs'. induction starts as [|st starts IH]; intros fs rs fs' Hrun s Hs; cbn [restarts] in Hrun.
  { injection Hrun as <- <-. by apply elem_of_nil in Hs. }
  destruct (start_signer path st fs) as [r fs1] eqn:Hst. destruct (restarts path starts fs1) as [rs1 fs2] eqn:Hrest.
  injection Hrun as <- <-. apply elem_of_cons in Hs as [<-|Hs]; [|by eapply IH].
  assert (holds_key (cs_key s) fs1) as Hk.
  { destruct (fs !! path) as [f|] eqn:Hf.
    - destruct (start_present st fs f _ _ Hf Hst) as [-> Hr]. by apply Hr.
    - by apply (start_absent st fs _ _ Hf Hst). }
  pose proof Hk as (f & Hf & _). by destruct (restarts_present starts fs1 f _ _ Hf Hrest) as [-> _].
Qed.

Lemma restarts_private starts fs rs fs' f :
  fs !! path = None -> restarts path starts fs = (rs, fs') -> fs' !! path = Some f -> N.land (kf_mode f) 63 = 0%N.
Proof.
  revert fs rs. induction starts as [|st starts IH]; intros fs rs Hnone Hrun Hf; cbn [restarts] in Hrun.
  { injection Hrun as _ <-. congruence. }
  destruct (start_signer path st fs) as [r fs1] eqn:Hst. destruct (restarts path starts fs1) as [rs1 fs2] eqn:Hrest.
  injection Hrun as _ <-. destruct (start_absent st fs _ _ Hnone Hst) as [Hmode _].
  destruct (fs1 !! path) as [f1|] eqn:Hf1; [|by eapply IH].
  destruct (restarts_present starts fs1 f1 _ _ Hf1 Hrest) as [-> _]. rewrite Hf in Hf1. injection Hf1 as <-. by apply Hmode.
Qed.

(** What each start loaded. *)
Lemma restarts_loaded starts fs rs fs' :
  restarts path starts fs = (rs, fs') ->
  forall i st s, starts !! i = Some st -> rs !! i = Some (Ok s) ->
  exists src, load_or_generate_with_previous src (sr_fresh st) (sr_previous st) = Ok s.
Proof.
  revert fs rs fs'. induction starts as [|st0 starts IH]; intros fs rs fs' Hrun i st s Hst Hs; [done|]. cbn [restarts] in Hrun.
  destruct (start_signer path st0 fs) as [r fs1] eqn:Hr. destruct (restarts path starts fs1) as [rs1 fs2] eqn:Hrest.
  injection Hrun as <- <-. destruct i as [|i]; cbn in Hst, Hs; [|by eapply IH]. simplify_eq.
  unfold start_signer in Hr. destruct (fs !! path); [|destruct (persist_key _ _ _ _ _) as [o fs3]]; injection Hr as <- _; eauto.
Qed.

(** C34. Restarts keep the key. Over any sequence of starts on one path, whatever keys are
    drawn, whatever cannot be opened, written or read, and with writes that tear, all
    starts that come up have the same signing key, which is what the file holds at the
    end; the keyring that any of them advertised verifies what any of them signs, until
    it expires, unless a previous key of another value has the same id; and a file that
    these starts created is readable by its owner only. *)
Theorem restarts_keep_key (starts : list Start) (fs fs' : KeyFiles) (rs : list (result string CommandSigner)) :
  restarts path starts fs = (rs, fs') ->
  (forall s, Ok s ∈ rs -> exists f, fs' !! path = Some f /\ signing_key_from_b64 (kf_text f) = Ok (cs_key s))
  /\ (forall s s', Ok s ∈ rs -> Ok s' ∈ rs -> cs_key s = cs_key s')
  /\ (forall i st s s', starts !! i = Some st -> rs !! i = Some (Ok s) -> Ok s' ∈ rs ->
        (forall files file b64 k, sr_previous st = Some (Ok files) -> (file, b64) ∈ files ->
           verifying_key_from_b64 b64 = Ok k -> key_id k = key_id (verifying_key (cs_key s)) ->
           k = verifying_key (cs_key s)) ->
        exists ring, keyring_from_json (cs_keyring_json s) = Ok ring
          /\ forall env now, (now <= ce_expires_at env)%Z -> verify_envelope_with ring (signer_sign s' env) now = Ok tt)
  /\ (fs !! path = None -> forall f, fs' !! path = Some f -> N.land (kf_mode f) 63 = 0%N).
Proof.
  intros Hrun. pose proof (restarts_key _ _ _ _ Hrun) as Hkeys.
  assert (forall s s', Ok s ∈ rs -> Ok s' ∈ rs -> cs_key s = cs_key s') as Hsame.
  { intros s s' (f & Hf & Hk)%Hkeys (f' & Hf' & Hk')%Hkeys. congruence. }
  split_and!; [exact Hkeys|exact Hsame| |by intros; eapply restarts_private].
  intros i st s s' Hst Hs Hs' Hprev. destruct (restarts_loaded _ _ _ _ Hrun i st s Hst Hs) as (src & Hl).
  destruct (signer_keyring_accepts _ _ _ _ Hl Hprev) as (ring & Hring & _ & _ & Hv). exists ring. split; [done|].
  intros env now Hnow. specialize (Hv env now Hnow). unfold signer_sign in *.
  by rewrite <-(Hsame s s'); [|eapply list_elem_of_lookup_2|].
Qed.
End KeyFileFacts.

(** ** Examples *)

(** A start that draws [k], with the usual umask. *)
Definition key_start (k : SigningKey) (out : PersistOutcome) : Start := mkStart None k 18 out None.
Lemma restarts_keep_key_witness :
  let '(rs, fs) := restarts "/key" [key_start key_a Persisted; key_start key_b Persisted] ∅ in
  exists s s', rs = [Ok s; Ok s'] /\ cs_key s = cs_key s'
    /\ forall f, fs !! "/key"%string = Some f -> N.land (kf_mode f) 63 = 0%N.
Proof.
  pose proof (restarts_keep_key "/key" [key_start key_a Persisted; key_start key_b Persisted] ∅) as Ht.
  destruct (restarts _ _ _) as [rs fs] eqn:Hrun. destruct (Ht fs rs eq_refl) as (_ & Hsame & _ & Hmode).
  assert (match rs with [Ok _; Ok _] => true | _ => false end = true) as Hrs.
  { change rs with (rs, fs).1. rewrite <-Hrun. vm_compute. reflexivity. }
  destruct rs as [|[s|] [|[s'|] [|]]]; try discriminate.
  exists s, s'. split; [reflexivity|]. split; [apply Hsame; [by left|by right; left]|]. apply Hmode. reflexivity.
Defined.
Example torn_key_refused :
  map (fun r => is_ok r) (restarts "/key" [key_start key_a (WriteFailed 3 "no space left"); key_start key_b Persisted] ∅).1
  = [false; false].
Proof. vm_compute. reflexivity. Qed.
