(* ===== verification/Registry.v ===== *)
(** * Templates against events ([ravn-server/src/remediation.rs], first half)

  The typed accessor of event fields, the registry of validated templates and
  its matching, parameter resolution, proposals, and the signed command an
  approved proposal becomes.  Directory contents, the TOML parser, the clock
  and fresh identifiers are inputs. *)

From S2P Require Export Commands.

Definition severity_str (s : Severity) : string :=
  match s with
  | Info => "info" | Notice => "notice" | Warning => "warning" | Error => "error"
  | Critical => "critical"
  end.

Section Registry.
Context `{SerdeValue}.

Definition payload_kind_str (p : Payload) : string :=
  match p with
  | Journald _ => "journald"
  | FailedUnit _ => "failed_unit"
  | ConfigDrift _ => "config_drift"
  | Auth _ => "auth"
  | Update _ => "update"
  | KubeWorkload _ => "kube_workload"
  | KubeNode _ => "kube_node"
  | CircuitBreakerTrip _ => "circuit_breaker_trip"
  end.

(** ** Event fields *)

(** The arms of [event_field], in the order of the source. *)
Definition event_fields : list (string * (Event -> option string)) :=
  [("host", fun e => Some (ev_host e));
   ("title", fun e => Some (ev_title e));
   ("severity", fun e => Some (severity_str (ev_severity e)));
   ("payload.kind", fun e => Some (payload_kind_str (ev_payload e)));
   ("payload.unit", fun e => match ev_payload e with
      | FailedUnit p => Some (fu_unit p) | Journald p => jd_unit p | _ => None end);
   ("payload.result", fun e => match ev_payload e with FailedUnit p => Some (fu_result p) | _ => None end);
   ("payload.message", fun e => match ev_payload e with
      | Journald p => Some (jd_message p) | KubeWorkload p => kw_message p
      | KubeNode p => kn_message p | _ => None end);
   ("payload.path", fun e => match ev_payload e with ConfigDrift p => Some (cd_path p) | _ => None end);
   ("payload.new_hash", fun e => match ev_payload e with ConfigDrift p => Some (cd_new_hash p) | _ => None end);
   ("payload.old_hash", fun e => match ev_payload e with ConfigDrift p => cd_old_hash p | _ => None end);
   ("payload.diff", fun e => match ev_payload e with ConfigDrift p => cd_diff p | _ => None end);
   ("payload.action", fun e => match ev_payload e with Auth p => Some (au_action p) | _ => None end);
   ("payload.user", fun e => match ev_payload e with Auth p => au_user p | _ => None end);
   ("payload.remote_addr", fun e => match ev_payload e with Auth p => au_remote_addr p | _ => None end);
   ("payload.mechanism", fun e => match ev_payload e with Update p => Some (up_mechanism p) | _ => None end);
   ("payload.from", fun e => match ev_payload e with Update p => up_from p | _ => None end);
   ("payload.to", fun e => match ev_payload e with Update p => up_to p | _ => None end);
   ("payload.namespace", fun e => match ev_payload e with KubeWorkload p => Some (kw_namespace p) | _ => None end);
   ("payload.name", fun e => match ev_payload e with KubeWorkload p => Some (kw_name p) | _ => None end);
   ("payload.object_kind", fun e => match ev_payload e with KubeWorkload p => Some (kw_object_kind p) | _ => None end);
   ("payload.reason", fun e => match ev_payload e with KubeWorkload p => Some (kw_reason p) | _ => None end);
   ("payload.container", fun e => match ev_payload e with KubeWorkload p => kw_container p | _ => None end);
   ("payload.node", fun e => match ev_payload e with KubeNode p => Some (kn_node p) | _ => None end);
   ("payload.condition", fun e => match ev_payload e with KubeNode p => Some (kn_condition p) | _ => None end)].
Definition event_field (e : Event) (path : string) : option string :=
  match bt_get path event_fields with Some f => f e | None => None end.

Definition valid_event_paths : list string :=
  ["host"; "title"; "severity"; "payload.kind"; "payload.unit"; "payload.result";
   "payload.message"; "payload.path"; "payload.new_hash"; "payload.old_hash"; "payload.diff";
   "payload.action"; "payload.user"; "payload.remote_addr"; "payload.mechanism"; "payload.from";
   "payload.to"; "payload.namespace"; "payload.name"; "payload.object_kind"; "payload.reason";
   "payload.container"; "payload.node"; "payload.condition"].
Definition validate_event_path (path : string) : bool := one_of path valid_event_paths.

(** ** The registry *)

(** The end of the message of [validate_template_paths]. *)
Definition path_list : string := join ", " valid_event_paths.
Definition quoted (s : string) : string := "'" +:+ s +:+ "'".

Definition validate_template_paths (t : Template) : result string unit :=
  _ ← try_each (fun path =>
        if validate_event_path path then Ok tt
        else Err ("template " +:+ quoted (tpl_id t) +:+ ": condition path " +:+ quoted path
                  +:+ " is not a recognised event field; valid paths: " +:+ path_list))
      (bt_keys (tm_conditions (tpl_match t)));
  try_each (fun p =>
      if validate_event_path (ps_from p.2) then Ok tt
      else Err ("template " +:+ quoted (tpl_id t) +:+ ": parameter " +:+ quoted p.1
                +:+ " has unrecognised from-path " +:+ quoted (ps_from p.2)
                +:+ "; valid paths: " +:+ path_list))
    (tpl_parameters t).

(** [Path::extension] of a file name: what follows its last dot, unless nothing
    precedes that dot. *)
Fixpoint rcut_dot (s : string) : option (string * string) :=
  match s with
  | EmptyString => None
  | String c s' =>
      match rcut_dot s' with
      | Some (a, b) => Some (String c a, b)
      | None => if is_byte 46 c then Some (EmptyString, s') else None
      end
  end.
Definition path_extension (name : string) : option string :=
  match rcut_dot name with
  | Some (a, b) => if is_empty a then None else Some b
  | None => None
  end.

(** [load_dir]: the directory is missing, unreadable, or a list of entries, each
    an I/O error or a file name with the outcome of reading it. *)
Definition DirEntry : Type := result string (string * result string string).
Fixpoint load_entries (parse : string -> result string Template) (entries : list DirEntry)
    : result string (list Template) :=
  match entries with
  | [] => Ok []
  | entry :: entries' =>
      file ← entry;
      let (path, contents) := file : string * result string string in
      if bool_decide (path_extension path = Some "toml") then
        text ← contents;
        t ← map_err (fun e => "parsing template " +:+ path +:+ ": " +:+ e) (parse text);
        _ ← map_err (fun e => "invalid template " +:+ path +:+ ": " +:+ template_error_display e)
              (template_validate t);
        _ ← map_err (fun e => "invalid template " +:+ path +:+ ": " +:+ e)
              (validate_template_paths t);
        ts ← load_entries parse entries';
        Ok (t :: ts)
      else load_entries parse entries'
  end.
Definition load_dir (parse : string -> result string Template)
    (dir : result string (option (list DirEntry))) : result string (list Template) :=
  match dir with
  | Ok (Some entries) => load_entries parse entries
  | Ok None => Ok []
  | Err e => Err e
  end.

(** The test of [match_event] on one template. *)
Definition template_matches (e : Event) (t : Template) : bool :=
  bool_decide (tm_source (tpl_match t) = event_source e)
  && forallb (fun c => bool_decide (event_field e c.1 = Some c.2)) (tm_conditions (tpl_match t)).
Definition match_event (templates : list Template) (e : Event) : option Template :=
  find_first (template_matches e) templates.
Definition registry_get (templates : list Template) (id : string) : option Template :=
  find_first (fun t => String.eqb (tpl_id t) id) templates.

(** ** Parameters and proposals *)

Definition K8S_ID_PARAM_NAMES : list string := ["namespace"; "pod"; "deployment"; "name"].

Fixpoint resolve_specs (specs : btree ParameterSpec) (e : Event) (params : btree string)
    : result string (btree string) :=
  match specs with
  | [] => Ok params
  | (name, spec) :: specs' =>
      value ← ok_or ("parameter " +:+ name +:+ ": no string value at " +:+ quoted (ps_from spec))
                (event_field e (ps_from spec));
      if one_of name K8S_ID_PARAM_NAMES && negb (is_valid_k8s_label value) then
        Err ("parameter " +:+ name +:+ ": value " +:+ debug_str value
             +:+ " is not a valid Kubernetes identifier (RFC 1123 DNS label: 1–63 lowercase alphanumeric or '-' chars, must start and end with alphanumeric)")
      else resolve_specs specs' e (bt_insert name value params)
  end.
Definition resolve_params (t : Template) (e : Event) : result string (btree string) :=
  resolve_specs (tpl_parameters t) e [].

(** [build_proposal], with the drawn id and the clock. *)
Definition build_proposal (t : Template) (e : Event) (params : btree string) (id : Uuid) (now : DateTime)
    : RemediationProposal :=
  let detail := join ", " (bt_values params) in
  {| rp_id := id;
     rp_event_id := ev_id e;
     rp_agent_id := ev_agent_id e;
     rp_host := ev_host e;
     rp_template_id := tpl_id t;
     rp_template_version := tpl_version t;
     rp_risk_tier := tpl_risk_tier t;
     rp_params := params;
     rp_rationale :=
       ev_title e +:+ " on " +:+ ev_host e +:+ " matched template " +:+ dquote +:+ tpl_title t
       +:+ dquote +:+ " (" +:+ tpl_id t +:+ "). Proposed: " +:+ tpl_title t +:+ " ["
       +:+ (if is_empty detail then "no parameters" else detail) +:+ "].";
     rp_created_at := now |}.

(** ** Commands *)

Definition render_error_display (e : RenderError) : string :=
  match e with
  | MissingValue p => "no value supplied for parameter {{" +:+ p +:+ "}}"
  | InvalidKubeIdentifier field value =>
      "invalid Kubernetes identifier for " +:+ field +:+ ": " +:+ debug_str value
      +:+ " (must be an RFC 1123 DNS label: 1–63 lowercase alphanumeric or '-' chars, start and end with alphanumeric)"
  end.

Context `{Base64} `{Ed25519} `{SerdeJson}.

(** The resolution part of [build_command]. *)
Definition resolve_condition (params : btree string) (c : Condition) : result RenderError Condition :=
  check ← capability_resolve (co_check c) params;
  Ok {| co_check := check; co_equals := co_equals c |}.
Definition resolve_verify (params : btree string) (v : Verify) : result RenderError Verify :=
  check ← capability_resolve (ve_check v) params;
  Ok {| ve_check := check; ve_equals := ve_equals v; ve_timeout_s := ve_timeout_s v |}.

(** [build_command], with the drawn command id and nonce and the clock; the time
    to live is in seconds. *)
Definition build_command (proposal : RemediationProposal) (t : Template) (signer : CommandSigner)
    (approval : ApprovalRef) (ttl_secs : Z) (now : DateTime) (command_id : Uuid) (nonce : string)
    : result string CommandEnvelope :=
  let params := rp_params proposal in
  steps ← map_err (fun e => "resolving steps: " +:+ render_error_display e)
            (collect_result (fun c => capability_resolve c params) (tpl_steps t));
  preconditions ← map_err (fun e => "resolving preconditions: " +:+ render_error_display e)
                    (collect_result (resolve_condition params) (tpl_preconditions t));
  verify ← match tpl_verify t with
           | Some v => Some <$> map_err (fun e => "resolving verify: " +:+ render_error_display e)
                                 (resolve_verify params v)
           | None => Ok None
           end;
  Ok (signer_sign signer
    {| ce_command_id := command_id; ce_agent_id := rp_agent_id proposal;
       ce_template_id := tpl_id t; ce_template_version := tpl_version t;
       ce_risk_tier := tpl_risk_tier t; ce_preconditions := preconditions;
       ce_steps := steps; ce_verify := verify; ce_rollback := tpl_rollback t;
       ce_approval_ref := approval; ce_nonce := nonce; ce_issued_at := now;
       ce_expires_at := (now + Z.max ttl_secs 1 * 1000000000)%Z;
       ce_kid := None; ce_sig := None |}).
End Registry.

#[global] Arguments validate_event_path : simpl never.
#[global] Arguments event_field : simpl never.
#[global] Arguments one_of : simpl never.

(** ** Fields and paths *)

Section Paths.
Context `{SerdeValue}.

Definition sample_payloads : list Payload :=
  [Journald {| jd_unit := Some "u"; jd_priority := None; jd_message := "m"; jd_extra := [] |};
   FailedUnit {| fu_unit := "u"; fu_result := "r"; fu_recent_log := []; fu_extra := [] |};
   ConfigDrift {| cd_path := "p"; cd_old_hash := Some "o"; cd_new_hash := "n"; cd_diff := Some "d";
                  cd_extra := [] |};
   Auth {| au_action := "a"; au_user := Some "u"; au_remote_addr := Some "r"; au_succeeded := false;
           au_extra := [] |};
   Update {| up_mechanism := "m"; up_from := Some "f"; up_to := Some "t"; up_changes := [];
             up_extra := [] |};
   KubeWorkload {| kw_namespace := "n"; kw_object_kind := "Pod"; kw_name := "n"; kw_reason := "r";
                   kw_message := Some "m"; kw_count := None; kw_container := Some "c"; kw_extra := [] |};
   KubeNode {| kn_node := "n"; kn_condition := "c"; kn_message := Some "m"; kn_extra := [] |}].
Definition sample_event (p : Payload) : Event :=
  {| ev_id := 0; ev_occurred_at := 0; ev_observed_at := 0; ev_agent_id := mkAgentId 0; ev_host := "h";
     ev_severity := Error; ev_title := "t"; ev_category_hints := []; ev_payload := p |}.

(** The path validator and the field accessor agree: a path is accepted when
    a template is loaded if and only if some event has a value at that path, so
    a loaded template never carries a condition or a parameter that can match
    nothing. *)
Theorem event_paths_consistent (path : string) :
  validate_event_path path = true <-> exists e v, event_field e path = Some v.
Proof.
  unfold validate_event_path. rewrite one_of_elem. split.
  - intros Hin. assert (forallb (fun p => existsb (fun q =>
      match event_field (sample_event q) p with Some _ => true | None => false end) sample_payloads)
      valid_event_paths = true) as Hall by (vm_compute; reflexivity).
    apply (proj1 (forallb_elem_of _ _) Hall) in Hin.
    apply existsb_elem_of in Hin as (q & _ & Hq).
    exists (sample_event q). destruct (event_field _ path); [eauto|done].
  - intros (e & v & Hv). unfold event_field in Hv.
    destruct (bt_get path event_fields) as [f|] eqn:Hf; [|done].
    assert (valid_event_paths = bt_keys event_fields) as -> by reflexivity.
    apply bt_get_is_Some. eauto.
Qed.
End Paths.

(** ** Loading and matching *)

Section RegistryFacts.
Context `{SerdeValue}.

Lemma validate_template_paths_Ok t :
  validate_template_paths t = Ok tt ->
  Forall (fun p => validate_event_path p = true) (bt_keys (tm_conditions (tpl_match t)))
  /\ Forall (fun p => validate_event_path (ps_from p.2) = true) (tpl_parameters t).
Proof.
  unfold validate_template_paths.
  destruct (try_each _ (bt_keys _)) as [[]|] eqn:H1; cbn; [|done]. intros H2.
  pose proof (proj1 (try_each_Ok _ _) H1) as G1. pose proof (proj1 (try_each_Ok _ _) H2) as G2. split; apply Forall_forall; intros x Hx.
  - specialize (G1 x Hx). cbn in G1. by destruct (validate_event_path x).
  - specialize (G2 x Hx). cbn in G2. by destruct (validate_event_path (ps_from x.2)).
Qed.

(** What loading a directory guarantees of each template. *)
Definition loaded (t : Template) : Prop :=
  template_validate t = Ok tt
  /\ Forall (fun p => validate_event_path p = true) (bt_keys (tm_conditions (tpl_match t)))
  /\ Forall (fun p => validate_event_path (ps_from p.2) = true) (tpl_parameters t).

Lemma load_entries_loaded parse entries ts :
  load_entries parse entries = Ok ts -> Forall loaded ts.
Proof.
  revert ts; induction entries as [|entry entries IH]; intros ts; cbn; [by intros [= <-]|].
  destruct entry as [[path contents]|]; cbn; [|done].
  case_bool_decide; [|apply IH].
  destruct contents as [text|]; cbn; [|done]. destruct (parse text) as [t|]; cbn; [|done].
  destruct (template_validate t) as [[]|] eqn:Hv; cbn; [|done].
  destruct (validate_template_paths t) as [[]|] eqn:Hp; cbn; [|done].
  destruct (load_entries parse entries) as [ts'|]; cbn; [|done]. intros [= <-].
  constructor; [|auto]. split; [done|]. by apply validate_template_paths_Ok.
Qed.

Lemma load_dir_loaded parse dir ts : load_dir parse dir = Ok ts -> Forall loaded ts.
Proof. destruct dir as [[entries|]|]; cbn; [apply load_entries_loaded|by intros [= <-]|done]. Qed.

(** Matching picks the first template whose source is the event's and whose
    conditions all hold, and every template it can pick was validated on
    loading: placeholders declared, checks read-only, paths known. *)
Theorem match_event_first (parse : string -> result string Template)
    (dir : result string (option (list DirEntry))) (templates : list Template) (e : Event) (t : Template) :
  load_dir parse dir = Ok templates -> match_event templates e = Some t ->
  loaded t
  /\ tm_source (tpl_match t) = event_source e
  /\ (forall path v, (path, v) ∈ tm_conditions (tpl_match t) -> event_field e path = Some v)
  /\ exists before after, templates = before ++ t :: after
       /\ Forall (fun t' => template_matches e t' = false) before.
Proof.
  intros Hl (before & after & Heq & Hm & Hb)%find_first_Some.
  pose proof (load_dir_loaded _ _ _ Hl) as Hall.
  unfold template_matches in Hm. apply andb_true_iff in Hm as [Hs Hc].
  apply bool_decide_eq_true in Hs. rewrite forallb_elem_of in Hc. split_and!; [|done| |eauto].
  - rewrite Heq in Hall. by apply Forall_app in Hall as [_ [? _]%Forall_cons].
  - intros path v Hin. specialize (Hc _ Hin). by apply bool_decide_eq_true in Hc.
Qed.

Lemma resolve_specs_Ok specs e params params' :
  bt_ordered specs -> resolve_specs specs e params = Ok params' ->
  (bt_ordered params -> bt_ordered params')
  /\ (forall name, bt_get name params' =
        match bt_get name specs with
        | Some spec => event_field e (ps_from spec)
        | None => bt_get name params
        end)
  /\ (forall name, name ∈ bt_keys specs -> is_Some (bt_get name params'))
  /\ (forall name v, name ∈ bt_keys specs -> bt_get name params' = Some v ->
        one_of name K8S_ID_PARAM_NAMES = true -> is_valid_k8s_label v = true).
Proof.
  revert params; induction specs as [|[n spec] specs IH]; intros params Ho; cbn.
  { intros [= <-]. split_and!; [done..|set_solver|set_solver]. }
  destruct Ho as [Hb Ho]. destruct (event_field e (ps_from spec)) as [v|] eqn:Hv; cbn; [|done].
  destruct (one_of n K8S_ID_PARAM_NAMES && negb (is_valid_k8s_label v)) eqn:Hk; [done|].
  intros Hr. destruct (IH _ Ho Hr) as (H1 & H2 & H3 & H4).
  assert (bt_get n params' = Some v) as Hn.
  { rewrite H2, (bt_get_below _ _ Hb). apply bt_get_insert_eq. }
  split_and!.
  - intros Hp. apply H1. eauto with ravn.
  - intros name. destruct (String.eqb_spec name n) as [->|Hne]; [congruence|].
    rewrite H2, bt_get_insert. by rewrite (proj2 (String.eqb_neq name n)).
  - intros name [->|Hin]%elem_of_cons; [eauto|auto].
  - intros name x [->|Hin]%elem_of_cons Hx Hone; [|eauto].
    rewrite Hn in Hx. injection Hx as <-. rewrite Hone in Hk. by apply negb_false_iff in Hk.
Qed.
End RegistryFacts.

Section Commands.
Context `{SerdeValue} `{CL : CryptoLaws} `{SJ : SerdeJson}.

Lemma collect_resolve_Ok params (cs : list Capability) ks :
  collect_result (fun c => capability_resolve c params) cs = Ok ks ->
  Forall2 (fun c c' => capability_resolve c params = Ok c') cs ks.
Proof. apply collect_result_Ok. Qed.

Lemma resolve_conditions_Ok params (cs : list Condition) ks :
  collect_result (resolve_condition params) cs = Ok ks ->
  Forall2 (fun c c' => capability_resolve c params = Ok c') (map co_check cs) (map co_check ks).
Proof.
  intros Hr%collect_result_Ok. induction Hr as [|c k cs ks Hc _ IH]; cbn; constructor; [|done].
  unfold resolve_condition in Hc. destruct (capability_resolve (co_check c) params); cbn in Hc; [|done].
  by injection Hc as <-.
Qed.


(** Parameter resolution: the resolved map has exactly the declared
    parameters, in order, each with the event's value at its path, and those
    with Kubernetes identifier names hold DNS labels; a parameter without a
    value, or with a bad identifier, makes it fail. *)
Theorem resolve_params_spec (t : Template) (e : Event) (params : btree string) :
  bt_ordered (tpl_parameters t) -> resolve_params t e = Ok params ->
  bt_ordered params
  /\ (forall name, bt_get name params =
        spec ← bt_get name (tpl_parameters t); event_field e (ps_from spec))
  /\ (forall name, name ∈ bt_keys params <-> name ∈ bt_keys (tpl_parameters t))
  /\ (forall name v, bt_get name params = Some v -> one_of name K8S_ID_PARAM_NAMES = true ->
        is_valid_k8s_label v = true).
Proof.
  intros Ho Hr. destruct (resolve_specs_Ok _ _ _ _ Ho Hr) as (G1 & G2 & G3 & G4).
  assert (forall name, name ∈ bt_keys params <-> name ∈ bt_keys (tpl_parameters t)) as Hk.
  { intros name. rewrite <-!bt_get_is_Some. split; [|intros Hs; apply G3; by apply bt_get_is_Some].
    rewrite G2. destruct (bt_get name (tpl_parameters t)); [eauto|]. by intros [? ?]. }
  split_and!; [by apply G1| |done|].
  - intros name. rewrite G2. by destruct (bt_get name (tpl_parameters t)).
  - intros name v Hv. apply G4; [|done]. apply Hk, bt_get_is_Some. eauto.
Qed.
End Commands.

(** ** Witnesses *)

#[export] Existing Instance string_value.
Definition example_event : Event :=
  {| ev_id := 42; ev_occurred_at := 5; ev_observed_at := 6; ev_agent_id := mkAgentId 9;
     ev_host := "node-1"; ev_severity := Error; ev_title := "CrashLoopBackOff"; ev_category_hints := [];
     ev_payload := KubeWorkload
       {| kw_namespace := "payments"; kw_object_kind := "Pod"; kw_name := "api-7d9";
          kw_reason := "CrashLoopBackOff"; kw_message := None; kw_count := Some 3%N;
          kw_container := None; kw_extra := [] |} |}.
Definition example_signer : CommandSigner :=
  {| cs_key := key_a; cs_pubkey_b64 := "k"; cs_keyring_json := "r" |}.
Definition example_dir : result string (option (list DirEntry)) :=
  Ok (Some [Ok ("README.md", Ok "x"); Ok ("pod.toml", Ok "t")]).
Definition example_parse (s : string) : result string Template := Ok example_template.

Lemma match_event_first_witness :
  match_event [example_template] example_event = Some example_template
  /\ tm_source (tpl_match example_template) = event_source example_event.
Proof.
  assert (match_event [example_template] example_event = Some example_template) as Hm
    by (vm_compute; reflexivity).
  split; [exact Hm|].
  apply (match_event_first example_parse example_dir [example_template] example_event);
    [vm_compute; reflexivity|exact Hm].
Defined.


Lemma resolve_params_spec_witness :
  resolve_params example_template example_event = Ok example_params /\ bt_ordered example_params.
Proof.
  assert (resolve_params example_template example_event = Ok example_params) as Hr
    by (vm_compute; reflexivity).
  split; [exact Hr|].
  apply (resolve_params_spec example_template example_event example_params); [repeat constructor|exact Hr].
Defined.
