(* ===== verification/AuditStore.v ===== *)
(** * The remediation audit trail ([ravn-server/src/db.rs], last part, and
    [RemediationStore] of [ravn-server/src/remediation.rs])

  The table [remediation_records] as the list of its rows, the SQL statements
  on it, and the store that fronts it with an in-memory set of the keys of
  pending proposals.  JSON columns hold the values they encode.  Each database
  call takes a flag: [false] is an error, which leaves the table as it was. *)

From S2P Require Export Registry.

(** ** The table *)

Record RemediationRow := mkRow {
  rw_proposal : RemediationProposal;
  rw_decision_state : string;
  rw_decision : Decision;
  rw_command_id : option Uuid;
  rw_command_signature : option string;
  rw_result : option ActionResult;
  rw_fault_signature : string;
  rw_updated_at : DateTime;
}.
#[export] Instance RemediationRow_eq_dec : EqDecision RemediationRow.
Proof. solve_decision. Defined.
Abbreviation Table := (list RemediationRow).

(** The primary key. *)
Definition row_pk (r : RemediationRow) : Uuid * DateTime :=
  (rp_id (rw_proposal r), rp_created_at (rw_proposal r)).

(** [RemediationRow::into_record]. *)
Definition into_record (r : RemediationRow) : RemediationRecord :=
  {| rr_proposal := rw_proposal r; rr_decision := rw_decision r; rr_command_id := rw_command_id r;
     rr_signature := rw_command_signature r; rr_result := rw_result r;
     rr_updated_at := rw_updated_at r |}.

Definition decision_state_tag (d : Decision) : string :=
  match d with Pending => "pending" | Approved _ => "approved" | Rejected _ _ _ => "rejected" end.

(** [UPDATE .. WHERE p] with the number of rows affected. *)
Definition update_where (p : RemediationRow -> bool) (f : RemediationRow -> RemediationRow) (t : Table)
    : Table * nat :=
  (map (fun r => if p r then f r else r) t, length (List.filter p t)).

(** [INSERT .. ON CONFLICT (proposal_id, proposal_created_at) DO NOTHING]. *)
Definition insert_row (row : RemediationRow) (t : Table) : Table :=
  if existsb (fun r => bool_decide (row_pk r = row_pk row)) t then t else t ++ [row].

Definition insert_remediation (ok : bool) (p : RemediationProposal) (fault_signature : string)
    (now : DateTime) (t : Table) : result unit unit * Table :=
  if ok then
    (Ok tt,
     insert_row {| rw_proposal := p; rw_decision_state := "pending"; rw_decision := Pending;
                   rw_command_id := None; rw_command_signature := None; rw_result := None;
                   rw_fault_signature := fault_signature; rw_updated_at := now |} t)
  else (Err tt, t).

Definition insert_auto_approved_remediation (ok : bool) (p : RemediationProposal) (decision : Decision)
    (command_id : Uuid) (signature : option string) (fault_signature : string) (now : DateTime)
    (t : Table) : result unit unit * Table :=
  if ok then
    (Ok tt,
     insert_row {| rw_proposal := p; rw_decision_state := decision_state_tag decision;
                   rw_decision := decision; rw_command_id := Some command_id;
                   rw_command_signature := signature; rw_result := None;
                   rw_fault_signature := fault_signature; rw_updated_at := now |} t)
  else (Err tt, t).

Definition has_id (id : Uuid) (r : RemediationRow) : bool := (rp_id (rw_proposal r) =? id)%N.
Definition is_pending (r : RemediationRow) : bool := String.eqb (rw_decision_state r) "pending".

Definition approve_remediation (ok : bool) (id : Uuid) (decision : Decision) (command_id : Uuid)
    (signature : option string) (now : DateTime) (t : Table) : result unit bool * Table :=
  if ok then
    let (t', n) := update_where (fun r => has_id id r && is_pending r)
      (fun r => {| rw_proposal := rw_proposal r; rw_decision_state := decision_state_tag decision;
                   rw_decision := decision; rw_command_id := Some command_id;
                   rw_command_signature := signature; rw_result := rw_result r;
                   rw_fault_signature := rw_fault_signature r; rw_updated_at := now |}) t in
    (Ok (0 <? n), t')
  else (Err tt, t).

(** No test of the current state, as in the source. *)
Definition reject_remediation (ok : bool) (id : Uuid) (decision : Decision) (now : DateTime) (t : Table)
    : result unit bool * Table :=
  if ok then
    let (t', n) := update_where (has_id id)
      (fun r => {| rw_proposal := rw_proposal r; rw_decision_state := decision_state_tag decision;
                   rw_decision := decision; rw_command_id := rw_command_id r;
                   rw_command_signature := rw_command_signature r; rw_result := rw_result r;
                   rw_fault_signature := rw_fault_signature r; rw_updated_at := now |}) t in
    (Ok (0 <? n), t')
  else (Err tt, t).

Definition has_command (c : Uuid) (r : RemediationRow) : bool :=
  bool_decide (rw_command_id r = Some c).
Definition set_result (res : ActionResult) (now : DateTime) (r : RemediationRow) : RemediationRow :=
  {| rw_proposal := rw_proposal r; rw_decision_state := rw_decision_state r;
     rw_decision := rw_decision r; rw_command_id := rw_command_id r;
     rw_command_signature := rw_command_signature r; rw_result := Some res;
     rw_fault_signature := rw_fault_signature r; rw_updated_at := now |}.
(** [UPDATE .. RETURNING], of which the first row is fetched. *)
Definition record_remediation_result (ok : bool) (res : ActionResult) (now : DateTime) (t : Table)
    : result unit (option (RemediationRecord * string)) * Table :=
  if ok then
    (Ok (option_map (fun r => (into_record (set_result res now r), rw_fault_signature r))
           (find_first (has_command (ar_command_id res)) t)),
     (update_where (has_command (ar_command_id res)) (set_result res now) t).1)
  else (Err tt, t).

(** [ORDER BY proposal_created_at DESC]. *)
Fixpoint insert_newest (r : RemediationRow) (t : Table) : Table :=
  match t with
  | [] => [r]
  | r' :: t' =>
      if (rp_created_at (rw_proposal r') <? rp_created_at (rw_proposal r))%Z then r :: t
      else r' :: insert_newest r t'
  end.
Definition list_remediation_records (ok : bool) (t : Table) : result unit (list RemediationRecord) :=
  if ok then Ok (map into_record (fold_right insert_newest [] t)) else Err tt.

Definition pending_remediation_proposal (ok : bool) (id : Uuid) (t : Table)
    : result unit (option RemediationProposal) :=
  if ok then Ok (option_map rw_proposal (find_first (fun r => has_id id r && is_pending r) t))
  else Err tt.

(** ** The store *)

Section Store.
Context `{SerdeJson}.

(** [DedupKey]: template, agent, parameters as JSON. *)
Definition DedupKey : Type := string * Uuid * string.
Definition from_proposal (p : RemediationProposal) : DedupKey :=
  (rp_template_id p, agent_uuid (rp_agent_id p), json_params (rp_params p)).

Record RemediationStore := mkStore {
  st_table : Table;
  st_pending_keys : gset DedupKey;
}.

Definition store_new (ok : bool) (t : Table) : result unit RemediationStore :=
  records ← list_remediation_records ok t;
  Ok {| st_table := t;
        st_pending_keys := list_to_set
          (map (fun r => from_proposal (rr_proposal r))
             (List.filter (fun r => bool_decide (rr_decision r = Pending)) records)) |}.

(** The lookup of [insert] and [insert_auto_approved], under the lock. *)
Definition dedup_hit (p : RemediationProposal) (s : RemediationStore) : bool :=
  bool_decide (from_proposal p ∈ st_pending_keys s).
(** The rest of [insert], after the lock is released. *)
Definition insert_commit (ok : bool) (p : RemediationProposal) (fault_signature : string)
    (now : DateTime) (s : RemediationStore) : option Uuid * RemediationStore :=
  match insert_remediation ok p fault_signature now (st_table s) with
  | (Ok _, t) => (Some (rp_id p), {| st_table := t; st_pending_keys := {[from_proposal p]} ∪ st_pending_keys s |})
  | (Err _, t) => (None, {| st_table := t; st_pending_keys := st_pending_keys s |})
  end.
Definition store_insert (ok : bool) (p : RemediationProposal) (fault_signature : string)
    (now : DateTime) (s : RemediationStore) : option Uuid * RemediationStore :=
  if dedup_hit p s then (None, s) else insert_commit ok p fault_signature now s.

Definition store_insert_auto_approved (ok : bool) (p : RemediationProposal) (command_id : Uuid)
    (signature : option string) (fault_signature : string) (now : DateTime) (s : RemediationStore)
    : option Uuid * RemediationStore :=
  if dedup_hit p s then (None, s)
  else
    match insert_auto_approved_remediation ok p (Approved PolicyAuto) command_id signature
            fault_signature now (st_table s) with
    | (Ok _, t) => (Some (rp_id p), {| st_table := t; st_pending_keys := st_pending_keys s |})
    | (Err _, t) => (None, {| st_table := t; st_pending_keys := st_pending_keys s |})
    end.

Definition store_list (ok : bool) (s : RemediationStore) : list RemediationRecord :=
  match list_remediation_records ok (st_table s) with Ok l => l | Err _ => [] end.

Definition store_pending_proposal (ok : bool) (id : Uuid) (s : RemediationStore)
    : option RemediationProposal :=
  match pending_remediation_proposal ok id (st_table s) with Ok v => v | Err _ => None end.

(** Removal of the captured key. *)
Definition evict (key : option DedupKey) (keys : gset DedupKey) : gset DedupKey :=
  match key with Some k => keys ∖ {[k]} | None => keys end.

(** [approve]: [ok1] is the read of the key, [ok2] the update. *)
Definition store_approve (ok1 ok2 : bool) (id : Uuid) (by_ : ApprovalRef) (command_id : Uuid)
    (signature : option string) (now : DateTime) (s : RemediationStore) : bool * RemediationStore :=
  let maybe_key := option_map from_proposal (store_pending_proposal ok1 id s) in
  match approve_remediation ok2 id (Approved by_) command_id signature now (st_table s) with
  | (Ok found, t) =>
      (found, {| st_table := t;
                 st_pending_keys := if found then evict maybe_key (st_pending_keys s)
                                    else st_pending_keys s |})
  | (Err _, t) => (false, {| st_table := t; st_pending_keys := st_pending_keys s |})
  end.

Definition store_reject (ok1 ok2 : bool) (id : Uuid) (by_ : string) (reason : option string)
    (now : DateTime) (s : RemediationStore) : bool * RemediationStore :=
  let maybe_key := option_map from_proposal (store_pending_proposal ok1 id s) in
  match reject_remediation ok2 id (Rejected by_ now reason) now (st_table s) with
  | (Ok found, t) =>
      (found, {| st_table := t;
                 st_pending_keys := if found then evict maybe_key (st_pending_keys s)
                                    else st_pending_keys s |})
  | (Err _, t) => (false, {| st_table := t; st_pending_keys := st_pending_keys s |})
  end.

Definition store_record_result (ok : bool) (res : ActionResult) (now : DateTime) (s : RemediationStore)
    : option (RemediationRecord * string) * RemediationStore :=
  match record_remediation_result ok res now (st_table s) with
  | (Ok v, t) => (v, {| st_table := t; st_pending_keys := st_pending_keys s |})
  | (Err _, t) => (None, {| st_table := t; st_pending_keys := st_pending_keys s |})
  end.

(** ** Runs *)

Inductive StoreOp :=
  | OpInsert (ok : bool) (p : RemediationProposal) (fault_signature : string) (now : DateTime)
  | OpInsertAuto (ok : bool) (p : RemediationProposal) (command_id : Uuid) (signature : option string)
      (fault_signature : string) (now : DateTime)
  | OpApprove (ok1 ok2 : bool) (id : Uuid) (by_ : ApprovalRef) (command_id : Uuid)
      (signature : option string) (now : DateTime)
  | OpReject (ok1 ok2 : bool) (id : Uuid) (by_ : string) (reason : option string) (now : DateTime)
  | OpResult (ok : bool) (res : ActionResult) (now : DateTime).

Definition store_exec (op : StoreOp) (s : RemediationStore) : RemediationStore :=
  match op with
  | OpInsert ok p sig now => (store_insert ok p sig now s).2
  | OpInsertAuto ok p c sg sig now => (store_insert_auto_approved ok p c sg sig now s).2
  | OpApprove ok1 ok2 id b c sg now => (store_approve ok1 ok2 id b c sg now s).2
  | OpReject ok1 ok2 id b r now => (store_reject ok1 ok2 id b r now s).2
  | OpResult ok res now => (store_record_result ok res now s).2
  end.
Definition store_run (ops : list StoreOp) (s : RemediationStore) : RemediationStore :=
  foldl (fun s op => store_exec op s) s ops.

(** ** The invariant *)

Definition pending_keys_of (t : Table) : list DedupKey :=
  map (fun r => from_proposal (rw_proposal r)) (List.filter is_pending t).

(** A row: the tag is that of the decision, a pending row has no command, an
    approved one has, and a result is that of the row's command. *)
Record row_wf (r : RemediationRow) : Prop := {
  rwf_tag : rw_decision_state r = decision_state_tag (rw_decision r);
  rwf_pending : rw_decision r = Pending -> rw_command_id r = None;
  rwf_approved : forall b, rw_decision r = Approved b -> is_Some (rw_command_id r);
  rwf_result : forall res, rw_result r = Some res -> rw_command_id r = Some (ar_command_id res);
}.
Record store_wf (s : RemediationStore) : Prop := {
  swf_rows : Forall row_wf (st_table s);
  swf_pk : NoDup (map row_pk (st_table s));
  swf_unique : NoDup (pending_keys_of (st_table s));
  swf_cached : forall k, k ∈ pending_keys_of (st_table s) -> k ∈ st_pending_keys s;
}.
End Store.

Section StoreFacts.
Context `{SerdeJson}.

Lemma pending_keys_snoc t r :
  pending_keys_of (t ++ [r])
  = pending_keys_of t ++ if is_pending r then [from_proposal (rw_proposal r)] else [].
Proof.
  unfold pending_keys_of. rewrite List.filter_app, map_app. cbn. by destruct (is_pending r).
Qed.

Lemma pending_keys_elem t k :
  k ∈ pending_keys_of t <->
  exists r, r ∈ t /\ is_pending r = true /\ k = from_proposal (rw_proposal r).
Proof.
  unfold pending_keys_of. rewrite list_elem_of_fmap. setoid_rewrite list_elem_of_In.
  setoid_rewrite List.filter_In. naive_solver.
Qed.

(** Two pending rows of the same key are one row. *)
Lemma pending_unique t r r' :
  NoDup (pending_keys_of t) -> r ∈ t -> r' ∈ t -> is_pending r = true -> is_pending r' = true ->
  from_proposal (rw_proposal r) = from_proposal (rw_proposal r') -> r = r'.
Proof.
  unfold pending_keys_of. intros Hnd Hr Hr' Hp Hp' Heq.
  assert (forall x, x ∈ t -> is_pending x = true ->
    exists i, List.filter is_pending t !! i = Some x) as Hin.
  { intros x Hx Hpx. apply list_elem_of_lookup, list_elem_of_In, List.filter_In.
    by rewrite <-list_elem_of_In. }
  destruct (Hin r Hr Hp) as [i Hi], (Hin r' Hr' Hp') as [j Hj].
  assert (i = j) as <-; [|congruence].
  eapply NoDup_lookup; [exact Hnd|..]; rewrite list_lookup_fmap.
  - by rewrite Hi. - rewrite Hj. cbn. by rewrite Heq.
Qed.

(** Updates that leave the updated rows not pending. *)
Lemma update_keys_sublist p f t :
  (forall r, p r = true -> is_pending (f r) = false) ->
  pending_keys_of (update_where p f t).1 `sublist_of` pending_keys_of t.
Proof.
  intros Hf. unfold update_where, pending_keys_of. cbn. induction t as [|r t IH]; cbn; [done|].
  destruct (p r) eqn:Hp.
  - rewrite (Hf r Hp). destruct (is_pending r); cbn; [by apply sublist_cons|done].
  - destruct (is_pending r); cbn; [by apply sublist_skip|done].
Qed.

Lemma update_keys_elem p f t k :
  (forall r, p r = true -> is_pending (f r) = false) ->
  k ∈ pending_keys_of (update_where p f t).1 ->
  exists r, r ∈ t /\ is_pending r = true /\ p r = false /\ k = from_proposal (rw_proposal r).
Proof.
  intros Hf (r' & Hr' & Hp & ->)%pending_keys_elem. cbn in Hr'.
  apply list_elem_of_fmap in Hr' as (r & -> & Hr).
  destruct (p r) eqn:Hpr; [rewrite Hf in Hp by done; done|]. eauto.
Qed.

Lemma update_pk p f t :
  (forall r, rw_proposal (f r) = rw_proposal r) ->
  map row_pk (update_where p f t).1 = map row_pk t.
Proof.
  intros Hf. cbn. rewrite map_map. apply map_ext. intros r. unfold row_pk.
  destruct (p r); by rewrite ?Hf.
Qed.

Lemma update_rows p f t :
  (forall r, p r = true -> row_wf r -> row_wf (f r)) ->
  Forall row_wf t -> Forall row_wf (update_where p f t).1.
Proof.
  intros Hf Ht. cbn. apply Forall_map. eapply Forall_impl; [exact Ht|]. cbn.
  intros r Hr. destruct (p r) eqn:Hp; auto.
Qed.

Lemma insert_row_cases row t :
  insert_row row t = t \/ (insert_row row t = t ++ [row] /\ row_pk row ∉ map row_pk t).
Proof.
  unfold insert_row. destruct (existsb _ t) eqn:E; [auto|right]. split; [done|].
  intros (r & Hpk & Hr)%list_elem_of_fmap.
  assert (existsb (fun r => bool_decide (row_pk r = row_pk row)) t = true); [|congruence].
  apply existsb_elem_of. exists r. split; [done|]. by rewrite Hpk, bool_decide_eq_true_2.
Qed.

Lemma insert_row_wf row t :
  row_wf row -> Forall row_wf t -> NoDup (map row_pk t) ->
  Forall row_wf (insert_row row t) /\ NoDup (map row_pk (insert_row row t)).
Proof.
  intros Hrow Hrows Hpk. destruct (insert_row_cases row t) as [->|[-> Hnew]]; [done|]. split.
  - apply Forall_app_2; [done|by constructor].
  - rewrite map_app. apply NoDup_app. split_and!; [done| |apply NoDup_singleton].
    intros x Hx ->%list_elem_of_singleton. done.
Qed.

Lemma pending_find id t r :
  find_first (fun r => has_id id r && is_pending r) t = Some r ->
  r ∈ t /\ has_id id r = true /\ is_pending r = true.
Proof.
  intros (l1 & l2 & -> & Hr & _)%find_first_Some. apply andb_true_iff in Hr as [? ?].
  split_and!; [set_solver|done..].
Qed.

(** Approving and rejecting: the key captured before belongs to a row that
    stops being pending, so evicting it keeps every other pending key. *)
Lemma evict_keeps ok id s p f k :
  store_wf s ->
  (forall r, p r = true -> is_pending (f r) = false) ->
  (forall r, has_id id r && is_pending r = true -> p r = true) ->
  k ∈ pending_keys_of (update_where p f (st_table s)).1 ->
  k ∈ evict (option_map from_proposal (store_pending_proposal ok id s)) (st_pending_keys s).
Proof.
  intros [Hrows Hpk Hu Hc] Hf Hcover Hk.
  apply update_keys_elem in Hk as (r & Hr & Hp & Hpr & ->); [|done].
  assert (from_proposal (rw_proposal r) ∈ st_pending_keys s) as Hin
    by (apply Hc, pending_keys_elem; eauto).
  unfold store_pending_proposal, pending_remediation_proposal. destruct ok; [|done].
  destruct (find_first _ (st_table s)) as [r0|] eqn:Hfind; [|done]. cbn.
  apply pending_find in Hfind as (Hr0 & Hid & Hp0).
  apply elem_of_difference. split; [done|]. intros Heq%elem_of_singleton.
  assert (r = r0) as -> by (by eapply pending_unique).
  rewrite Hcover in Hpr; [done|]. by rewrite Hid, Hp0.
Qed.

Lemma store_insert_wf ok p sig now s : store_wf s -> store_wf (store_insert ok p sig now s).2.
Proof.
  intros [Hrows Hpk Hu Hc]. unfold store_insert, dedup_hit.
  case_bool_decide as Hhit; [done|]. unfold insert_commit, insert_remediation.
  destruct ok; cbn; [|done].
  match goal with |- context [insert_row ?r ?t] => set (row := r) end.
  destruct (insert_row_wf row (st_table s)) as [Hr' Hpk']; [by constructor|done..|].
  assert (pending_keys_of (insert_row row (st_table s)) = pending_keys_of (st_table s)
    \/ pending_keys_of (insert_row row (st_table s)) = pending_keys_of (st_table s) ++ [from_proposal p])
    as Hk.
  { destruct (insert_row_cases row (st_table s)) as [->|[-> _]]; [auto|]. rewrite pending_keys_snoc. auto. }
  split; cbn [st_table st_pending_keys]; [done..| |]; destruct Hk as [->| ->]; [done| | |].
  - apply NoDup_app. split_and!; [done| |apply NoDup_singleton].
    intros k Hk ->%list_elem_of_singleton. auto.
  - set_solver.
  - intros k [Hk|Hk%list_elem_of_singleton]%elem_of_app; set_solver.
Qed.

Lemma store_insert_auto_wf ok p c sg sig now s :
  store_wf s -> store_wf (store_insert_auto_approved ok p c sg sig now s).2.
Proof.
  intros [Hrows Hpk Hu Hc]. unfold store_insert_auto_approved, insert_auto_approved_remediation.
  destruct (dedup_hit p s); [done|]. destruct ok; cbn; [|done].
  match goal with |- context [insert_row ?r ?t] => set (row := r) end.
  destruct (insert_row_wf row (st_table s)) as [Hr' Hpk']; [by constructor; cbn; eauto|done..|].
  assert (pending_keys_of (insert_row row (st_table s)) = pending_keys_of (st_table s)) as Hk.
  { destruct (insert_row_cases row (st_table s)) as [->|[-> _]]; [done|].
    rewrite pending_keys_snoc. apply app_nil_r. }
  by split; cbn [st_table st_pending_keys]; rewrite ?Hk.
Qed.

(** Both decisions are updates that unmark the pending row of the id. *)
Lemma store_decide_wf ok id p f s (n : bool) :
  store_wf s ->
  (forall r, p r = true -> is_pending (f r) = false) ->
  (forall r, has_id id r && is_pending r = true -> p r = true) ->
  (forall r, rw_proposal (f r) = rw_proposal r) ->
  (forall r, p r = true -> row_wf r -> row_wf (f r)) ->
  store_wf {| st_table := (update_where p f (st_table s)).1;
              st_pending_keys := if n
                then evict (option_map from_proposal (store_pending_proposal ok id s)) (st_pending_keys s)
                else st_pending_keys s |}.
Proof.
  intros Hwf Hf Hcover Hprop Hrow. pose proof Hwf as [Hrows Hpk Hu Hc]. split; cbn [st_table st_pending_keys].
  - by apply update_rows.
  - by rewrite update_pk.
  - eapply sublist_NoDup; [exact Hu|]. by apply update_keys_sublist.
  - intros k Hk. destruct n; [by eapply evict_keeps|]. apply Hc.
    eapply elem_of_sublist; [exact Hk|]. by apply update_keys_sublist.
Qed.

Lemma store_approve_wf ok1 ok2 id b c sg now s :
  store_wf s -> store_wf (store_approve ok1 ok2 id b c sg now s).2.
Proof.
  intros Hwf. unfold store_approve, approve_remediation. destruct ok2; cbn [snd]; [|by destruct s].
  apply store_decide_wf; [done|done|done|done|].
  intros r Hp%andb_true_iff Hr. destruct Hp as [_ Hpen]. split; cbn; [done|done|eauto|].
  intros res Hres. apply (rwf_result _ Hr) in Hres. destruct Hr as [Ht Hn _ _].
  unfold is_pending in Hpen. apply String.eqb_eq in Hpen. rewrite Hpen in Ht.
  destruct (rw_decision r); [|done..]. rewrite Hn in Hres by done. done.
Qed.

Lemma store_reject_wf ok1 ok2 id b reason now s :
  store_wf s -> store_wf (store_reject ok1 ok2 id b reason now s).2.
Proof.
  intros Hwf. unfold store_reject, reject_remediation. destruct ok2; cbn [snd]; [|by destruct s].
  apply store_decide_wf; [done|done| |done|].
  - by intros r [? _]%andb_true_iff.
  - intros r _ Hr. split; cbn; [done..|]. apply Hr.
Qed.

Lemma update_keys_same p f t :
  (forall r, is_pending (f r) = is_pending r) -> (forall r, rw_proposal (f r) = rw_proposal r) ->
  pending_keys_of (update_where p f t).1 = pending_keys_of t.
Proof.
  intros Hp Hf. unfold pending_keys_of. cbn. induction t as [|r t IH]; cbn; [done|].
  destruct (p r); rewrite ?Hp; destruct (is_pending r); cbn; by rewrite ?Hf, IH.
Qed.

Lemma store_result_wf ok res now s : store_wf s -> store_wf (store_record_result ok res now s).2.
Proof.
  intros [Hrows Hpk Hu Hc]. unfold store_record_result, record_remediation_result.
  destruct ok; cbn [snd]; [|done].
  split; cbn [st_table st_pending_keys]; rewrite ?update_keys_same, ?update_pk by done; [|done..].
  apply update_rows; [|done]. intros r Hp%bool_decide_eq_true [H1 H2 H3 H4].
  split; cbn; [done..|]. by intros ? [= <-].
Qed.

Lemma store_exec_wf op s : store_wf s -> store_wf (store_exec op s).
Proof.
  destruct op; cbn [store_exec]; eauto using store_insert_wf, store_insert_auto_wf, store_approve_wf,
    store_reject_wf, store_result_wf.
Qed.

Lemma store_run_wf ops s : store_wf s -> store_wf (store_run ops s).
Proof. revert s; induction ops as [|op ops IH]; intros s Hs; cbn; eauto using store_exec_wf. Qed.

Lemma insert_newest_elem r t x : x ∈ insert_newest r t <-> x = r \/ x ∈ t.
Proof. induction t as [|r' t IH]; cbn; [set_solver|]. destruct (_ <? _)%Z; set_solver. Qed.

Lemma listed_elem t x : x ∈ fold_right insert_newest [] t <-> x ∈ t.
Proof. induction t as [|r t IH]; cbn; [done|]. rewrite insert_newest_elem. set_solver. Qed.

Lemma store_new_wf (ok : bool) (t : Table) (s : RemediationStore) :
  Forall row_wf t -> NoDup (map row_pk t) -> NoDup (pending_keys_of t) -> store_new ok t = Ok s -> store_wf s.
Proof.
  intros Hrows Hpk Hu Hnew. unfold store_new, list_remediation_records in Hnew.
  destruct ok; cbn in Hnew; [|done]. injection Hnew as <-. split; cbn; [done..|].
  intros k (r & Hr & Hp & ->)%pending_keys_elem. apply elem_of_list_to_set, list_elem_of_fmap.
  exists (into_record r). split; [done|]. apply list_elem_of_In, List.filter_In.
  rewrite <-list_elem_of_In. split.
  - apply list_elem_of_fmap. exists r. split; [done|]. by apply listed_elem.
  - apply bool_decide_eq_true. cbn. rewrite Forall_forall in Hrows. destruct (Hrows r Hr) as [Ht _ _ _].
    unfold is_pending in Hp. apply String.eqb_eq in Hp. rewrite Hp in Ht.
    by destruct (rw_decision r).
Qed.


(** ** The trail only grows *)

(** What no operation takes back: the proposal, the fault signature, a command
    once issued with its signature, and that a decision was taken. *)
Record row_grows (r r' : RemediationRow) : Prop := {
  rg_proposal : rw_proposal r' = rw_proposal r;
  rg_fault : rw_fault_signature r' = rw_fault_signature r;
  rg_command : forall c, rw_command_id r = Some c ->
    rw_command_id r' = Some c /\ rw_command_signature r' = rw_command_signature r;
  rg_decided : rw_decision r <> Pending -> rw_decision r' <> Pending;
}.
Definition trail_grows (t t' : Table) : Prop :=
  exists t1 t2, t' = t1 ++ t2 /\ Forall2 row_grows t t1.

#[global] Instance row_grows_preorder : PreOrder row_grows.
Proof.
  split; [by intros r; split|]. intros r1 r2 r3 [P1 F1 C1 D1] [P2 F2 C2 D2]. split; [congruence..| |auto].
  intros c Hc. destruct (C1 c Hc) as [Hc2 Hs2]. destruct (C2 c Hc2) as [Hc3 Hs3]. split; congruence.
Qed.

#[global] Instance trail_grows_preorder : PreOrder trail_grows.
Proof.
  split.
  - intros t. exists t, []. rewrite app_nil_r. split; [done|]. induction t; by constructor.
  - intros t1 t2 t3 (a & b & -> & Hab) (c & d & -> & Hcd).
    apply Forall2_app_inv_l in Hcd as (c1 & c2 & Hc1 & Hc2 & ->).
    exists c1, (c2 ++ d). rewrite app_assoc. split; [done|].
    eapply Forall2_trans; [intros x y z; apply transitivity|done|done].
Qed.

Lemma trail_grows_update p f t :
  Forall row_wf t -> (forall r, p r = true -> row_wf r -> row_grows r (f r)) ->
  trail_grows t (update_where p f t).1.
Proof.
  intros Hwf Hf. exists (update_where p f t).1, []. rewrite app_nil_r. split; [done|].
  cbn. induction Hwf as [|r t Hr _ IH]; cbn; constructor; [|done].
  destruct (p r) eqn:Hp; [auto|reflexivity].
Qed.

Lemma trail_grows_insert row t : trail_grows t (insert_row row t).
Proof.
  destruct (insert_row_cases row t) as [->|[-> _]]; [reflexivity|].
  exists t, [row]. split; [done|]. induction t; constructor; [reflexivity|done].
Qed.

Lemma store_exec_grows op s : store_wf s -> trail_grows (st_table s) (st_table (store_exec op s)).
Proof.
  intros Hwf. pose proof (swf_rows _ Hwf) as Hrows. destruct op; cbn [store_exec].
  - unfold store_insert, insert_commit, insert_remediation. destruct (dedup_hit p s); [reflexivity|].
    destruct ok; [apply trail_grows_insert|reflexivity].
  - unfold store_insert_auto_approved, insert_auto_approved_remediation.
    destruct (dedup_hit p s); [reflexivity|]. destruct ok; [apply trail_grows_insert|reflexivity].
  - unfold store_approve, approve_remediation. destruct ok2; [|reflexivity].
    apply trail_grows_update; [done|]. intros r Hp%andb_true_iff [Ht Hn _ _]. split; cbn; [done..| |done].
    intros c Hc. destruct Hp as [_ Hp%String.eqb_eq]. rewrite Hp in Ht.
    destruct (rw_decision r); [|done..]. rewrite Hn in Hc by done. done.
  - unfold store_reject, reject_remediation. destruct ok2; [|reflexivity].
    apply trail_grows_update; [done|]. by intros r _ _.
  - unfold store_record_result, record_remediation_result. destruct ok; [|reflexivity].
    apply trail_grows_update; [done|]. by intros r _ _.
Qed.

Lemma store_run_grows (ops : list StoreOp) (s : RemediationStore) :
  store_wf s -> trail_grows (st_table s) (st_table (store_run ops s)).
Proof.
  revert s; induction ops as [|op ops IH]; intros s Hs; [reflexivity|].
  cbn. etransitivity; [by apply store_exec_grows|]. apply IH. by apply store_exec_wf.
Qed.

(** The audit trail is append-only: over any sequence of operations no row
    disappears, and in each row the proposal and fault signature never change,
    a command id and signature once written are never replaced, and a decision
    is never taken back to pending. *)
Theorem audit_append_only (ops : list StoreOp) (s : RemediationStore) :
  store_wf s -> trail_grows (st_table s) (st_table (store_run ops s)).
Proof. apply store_run_grows. Qed.

Lemma pending_tag r : row_wf r -> is_pending r = true <-> rw_decision r = Pending.
Proof.
  intros [Ht _ _ _]. unfold is_pending. rewrite Ht, String.eqb_eq. by destruct (rw_decision r).
Qed.

Lemma filter_length_pos {A} (p : A -> bool) l :
  (0 <? length (List.filter p l)) = true <-> exists x, x ∈ l /\ p x = true.
Proof.
  rewrite Nat.ltb_lt. setoid_rewrite list_elem_of_In. setoid_rewrite <-List.filter_In.
  destruct (List.filter p l) as [|x k]; cbn; split; [lia|by intros (? & [])|eauto|lia].
Qed.

Lemma update_none p f t :
  (forall r, r ∈ t -> p r = false) -> update_where p f t = (t, 0).
Proof.
  intros Hp. unfold update_where. f_equal.
  - rewrite <-(map_id t) at 2. apply map_ext_in. intros r Hr%list_elem_of_In. by rewrite Hp.
  - induction t as [|r t IH]; cbn; [done|]. rewrite Hp by left. apply IH. intros; apply Hp; by right.
Qed.

(** A proposal is approved at most once: approving reports success exactly
    when a pending row has that id, the row then carries the decision and the
    issued command, and any later approval of the same id reports failure and
    changes nothing. *)
Theorem approve_once (s s' : RemediationStore) (id : Uuid) (b : ApprovalRef) (c : Uuid)
    (sg : option string) (now : DateTime) (found : bool) :
  store_wf s -> store_approve true true id b c sg now s = (found, s') ->
  (found = true <-> exists r, r ∈ st_table s /\ has_id id r = true /\ rw_decision r = Pending)
  /\ (found = true -> exists r, r ∈ st_table s' /\ has_id id r = true
       /\ rw_decision r = Approved b /\ rw_command_id r = Some c)
  /\ forall b' c' sg' now', store_approve true true id b' c' sg' now' s' = (false, s').
Proof.
  intros Hwf Heq. pose proof (store_approve_wf true true id b c sg now s Hwf) as Hwf'.
  pose proof (swf_rows _ Hwf) as Hrows. rewrite Forall_forall in Hrows.
  rewrite Heq in Hwf'. cbn in Hwf'. unfold store_approve, approve_remediation in Heq.
  match type of Heq with context [update_where ?p ?f _] => set (pp := p) in *; set (ff := f) in * end.
  cbn [update_where] in Heq. injection Heq as Hfound Hs'.
  assert (found = true <-> exists r, r ∈ st_table s /\ has_id id r = true /\ rw_decision r = Pending) as Hiff.
  { rewrite <-Hfound, filter_length_pos. split.
    - intros (r & Hr & [Hid Hp]%andb_true_iff). exists r. by rewrite <-pending_tag by auto.
    - intros (r & Hr & Hid & Hp). exists r. split; [done|]. unfold pp. rewrite Hid.
      by apply pending_tag; auto. }
  split_and!; [done| |].
  - intros (r & Hr & Hid & Hp)%Hiff. exists (ff r). split_and!; [|done..].
    subst s'. cbn. apply list_elem_of_fmap. exists r. split; [|done].
    unfold pp. rewrite Hid, (proj2 (pending_tag r (Hrows r Hr)) Hp). done.
  - intros b' c' sg' now'. unfold store_approve, approve_remediation.
    rewrite update_none; [by destruct s'|]. intros r' Hr'. subst s'. cbn in Hr'.
    apply list_elem_of_fmap in Hr' as (r & -> & Hr). destruct (pp r) eqn:Hpp; [|done].
    cbn. apply andb_false_r.
Qed.
End StoreFacts.

(** ** Examples *)

Definition example_proposal (id : Uuid) (created : DateTime) : RemediationProposal :=
  build_proposal example_template example_event example_params id created.
Definition empty_store : RemediationStore := {| st_table := []; st_pending_keys := ∅ |}.


Lemma empty_wf : store_wf empty_store.
Proof. split; cbn; try constructor. intros k Hk. by apply elem_of_nil in Hk. Qed.

Lemma audit_append_only_witness :
  trail_grows [] (st_table (store_run [OpInsert true (example_proposal 1 10) "sig" 10] empty_store)).
Proof. apply (audit_append_only _ empty_store). apply empty_wf. Defined.

Lemma approve_once_witness :
  let s := store_exec (OpInsert true (example_proposal 1 10) "sig" 10) empty_store in
  let s' := (store_approve true true 1 PolicyAuto 77 None 11 s).2 in
  store_approve true true 1 PolicyAuto 78 None 12 s' = (false, s').
Proof.
  cbv zeta. apply (approve_once (store_exec (OpInsert true (example_proposal 1 10) "sig" 10) empty_store) _
    1 PolicyAuto 77 None 11 true).
  - apply store_exec_wf, empty_wf.
  - reflexivity.
Defined.

(** Rejection does not test the state: a remediation that was approved, and whose
    command was issued, is overwritten as rejected. *)
Theorem reject_overwrites_approved :
  let s := store_run [OpInsert true (example_proposal 1 10) "sig" 10;
                      OpApprove true true 1 (Human "ann" 11) 77 (Some "s") 11] empty_store in
  let (found, s') := store_reject true true 1 "bob" None 12 s in
  map rw_decision (st_table s) = [Approved (Human "ann" 11)]
  /\ found = true /\ map rw_decision (st_table s') = [Rejected "bob" 12 None]
  /\ map rw_command_id (st_table s') = [Some 77%N].
Proof. vm_compute. auto. Qed.

(** The check and the write of [insert] are two critical sections: two concurrent
    inserts of the same fault both pass the check and leave two pending rows. *)
Theorem insert_race_duplicates :
  let s := empty_store in
  let p := example_proposal 1 10 in
  let p' := example_proposal 2 11 in
  let s1 := (insert_commit true p "sig" 10 s).2 in
  let s2 := (insert_commit true p' "sig" 11 s1).2 in
  dedup_hit p s = false /\ dedup_hit p' s = false
  /\ length (st_table s2) = 2 /\ pending_keys_of (st_table s2) = [from_proposal p; from_proposal p].
Proof. vm_compute. auto. Qed.
