(* ===== verification/Knowledge.v ===== *)
(** * The remediation knowledge base ([ravn-server/src/knowledge.rs])

    Fault signatures, their file names, the entry file format with its printer
    and its tolerant parser, recall, and the recording of outcomes and gaps.

    The directory is a map from file names to contents; writing an entry may
    fail, which leaves it as it was.  RFC 3339 timestamps are those of the
    [chrono] crate: the class [Rfc3339]. *)

From S2P Require Export Registry.

Class Rfc3339 : Type := {
  to_rfc3339 : DateTime -> string;
  parse_from_rfc3339 : string -> option DateTime;
}.
(** A printed timestamp parses back, and has neither white space around it nor
    a character that ends a field. *)
Class Rfc3339Laws `{Rfc3339} : Prop := {
  rfc3339_roundtrip t : parse_from_rfc3339 (to_rfc3339 t) = Some t;
  rfc3339_plain t :
    str_forallb (fun c => is_ascii_alphanumeric c || is_byte 45 c || is_byte 43 c || is_byte 58 c
                          || is_byte 46 c) (to_rfc3339 t) = true /\ to_rfc3339 t <> EmptyString;
}.

Definition status_str (s : ActionStatus) : string :=
  match s with
  | Succeeded => "succeeded"
  | Failed => "failed"
  | StatusRejected => "rejected"
  | PreconditionFailed => "precondition_failed"
  | Frozen => "frozen"
  end.

Definition fault_signature `{SerdeValue} (e : Event) : string :=
  let '(key, state) :=
    match ev_payload e with
    | FailedUnit p => (fu_unit p, fu_result p)
    | Journald p => (default "-"%string (jd_unit p), "journal"%string)
    | ConfigDrift p => (cd_path p, "drift"%string)
    | Auth p => (default "-"%string (au_user p), au_action p)
    | Update p => (up_mechanism p, "update"%string)
    | KubeWorkload p =>
        (if is_empty (kw_namespace p) then kw_name p else kw_namespace p +:+ "/" +:+ kw_name p,
         kw_reason p)
    | KubeNode p => (kn_node p, kn_condition p)
    | CircuitBreakerTrip p => (cb_host p, cb_template_id p)
    end in
  source_debug (event_source e) +:+ ":" +:+ key +:+ ":" +:+ state.

(** [slug]: the loop over the characters, with [last_dash]; every byte of a
    multi-byte character falls in the dash branch, which collapses runs. *)
Definition is_slug_char (c : ascii) : bool :=
  is_ascii_alphanumeric c || is_byte 46 c || is_byte 95 c.
Fixpoint slug_loop (last_dash : bool) (s : string) : string :=
  match s with
  | EmptyString => EmptyString
  | String c s' =>
      if is_slug_char c then String (to_lower c) (slug_loop false s')
      else if last_dash then slug_loop true s'
      else String (ascii_of_N 45) (slug_loop true s')
  end.
Definition slug (signature : string) : string := trim_matches (is_byte 45) (slug_loop false signature).

(** ** Entries *)

Record Outcome := mkOutcome {
  oc_ts : DateTime;
  oc_result : string;
  oc_ttr_s : option Z;
  oc_approver : string;
}.

Record Entry := mkEntry {
  en_fault_signature : string;
  en_template_used : string;
  en_params : btree string;
  en_outcomes : list Outcome;
  en_occurrences : N;
  en_last_seen : DateTime;
  en_body : string;
}.

Section Format.
Context `{Rfc3339}.

Definition render_params (params : btree string) : string :=
  join ", " (map (fun p => p.1 +:+ ": " +:+ p.2) params).

Definition render_outcome (o : Outcome) : string :=
  "  - { ts: " +:+ to_rfc3339 (oc_ts o) +:+ ", result: " +:+ oc_result o +:+ ", ttr_s: "
  +:+ match oc_ttr_s o with Some v => show_Z v | None => "null" end
  +:+ ", approver: " +:+ dquote +:+ oc_approver o +:+ dquote +:+ " }" +:+ newline.

Definition ends_with_newline (s : string) : bool :=
  match last_byte s with Some c => is_byte 10 c | None => false end.

(** [Entry::to_markdown]. *)
Definition to_markdown (e : Entry) : string :=
  "---" +:+ newline
  +:+ "fault_signature: " +:+ dquote +:+ en_fault_signature e +:+ dquote +:+ newline
  +:+ "template_used: " +:+ en_template_used e +:+ newline
  +:+ "params: { " +:+ render_params (en_params e) +:+ " }" +:+ newline
  +:+ match en_outcomes e with
      | [] => "outcomes: []" +:+ newline
      | os => "outcomes:" +:+ newline +:+ fold_right (fun o s => render_outcome o +:+ s) EmptyString os
      end
  +:+ "occurrences: " +:+ show_N (en_occurrences e) +:+ newline
  +:+ "last_seen: " +:+ to_rfc3339 (en_last_seen e) +:+ newline
  +:+ "---" +:+ newline
  +:+ en_body e
  +:+ if ends_with_newline (en_body e) then EmptyString else newline.

Definition unquote (s : string) : string := trim_matches (is_byte 34) (trim s).

(** The inner text of a braced list: [trim], leading and trailing braces, [trim]. *)
Definition strip_braces (raw : string) : string :=
  trim (trim_end_matches (is_byte 125) (trim_start_matches (is_byte 123) (trim raw))).

Definition parse_params (raw : string) : btree string :=
  let inner := strip_braces raw in
  if is_empty inner then []
  else foldl (fun m kv =>
         match cut ":" kv with
         | Some (k, v) => bt_insert (trim k) (trim v) m
         | None => m
         end) [] (split_on (is_byte 44) inner).

(** [split_top_level]: the loop over the bytes; [depth] is an [i32], [cur] is the
    slice from [start], reversed. *)
Fixpoint split_top_loop (depth : Z) (in_quote : bool) (cur s : string) : list string :=
  match s with
  | EmptyString => [str_rev cur]
  | String c s' =>
      if is_byte 34 c then split_top_loop depth (negb in_quote) (String c cur) s'
      else if (is_byte 123 c || is_byte 91 c) && negb in_quote
      then split_top_loop (depth + 1) in_quote (String c cur) s'
      else if (is_byte 125 c || is_byte 93 c) && negb in_quote
      then split_top_loop (depth - 1) in_quote (String c cur) s'
      else if is_byte 44 c && (depth =? 0)%Z && negb in_quote
      then str_rev cur :: split_top_loop depth in_quote EmptyString s'
      else split_top_loop depth in_quote (String c cur) s'
  end.
Definition split_top_level (s : string) : list string := split_top_loop 0 false EmptyString s.

(** The fields of an outcome as they are read, last one wins. *)
Record OutcomeFields := mkFields {
  of_ts : option DateTime;
  of_result : option string;
  of_ttr_s : option Z;
  of_approver : string;
}.
Fixpoint parse_fields (pairs : list string) (f : OutcomeFields) : option OutcomeFields :=
  match pairs with
  | [] => Some f
  | kv :: pairs' =>
      match cut ":" kv with
      | None => None
      | Some (k, v) =>
          let k := trim k in
          let v := trim v in
          parse_fields pairs'
            (if String.eqb k "ts" then
               mkFields (parse_from_rfc3339 v) (of_result f) (of_ttr_s f) (of_approver f)
             else if String.eqb k "result" then
               mkFields (of_ts f) (Some v) (of_ttr_s f) (of_approver f)
             else if String.eqb k "ttr_s" then
               mkFields (of_ts f) (of_result f)
                 (if String.eqb v "null" then None else parse_i64 v) (of_approver f)
             else if String.eqb k "approver" then
               mkFields (of_ts f) (of_result f) (of_ttr_s f) (unquote v)
             else f)
      end
  end.
Definition parse_outcome (raw : string) : option Outcome :=
  f ← parse_fields (split_top_level (strip_braces raw)) (mkFields None None None EmptyString);
  ts ← of_ts f;
  result ← of_result f;
  Some {| oc_ts := ts; oc_result := result; oc_ttr_s := of_ttr_s f; oc_approver := of_approver f |}.

(** The loop of [from_markdown] over the lines of the front matter; [in_list] is
    true inside the inner loop that consumes the items of [outcomes:]. *)
Definition list_item (line : string) : option string := strip_prefix "- " (trim_start line).
Definition front_line (line : string) (e : Entry) : bool * Entry :=
  let line := trim_end line in
  match strip_prefix "fault_signature:" line with
  | Some v => (false, mkEntry (unquote (trim v)) (en_template_used e) (en_params e) (en_outcomes e)
                        (en_occurrences e) (en_last_seen e) (en_body e))
  | None =>
  match strip_prefix "template_used:" line with
  | Some v => (false, mkEntry (en_fault_signature e) (trim v) (en_params e) (en_outcomes e)
                        (en_occurrences e) (en_last_seen e) (en_body e))
  | None =>
  match strip_prefix "params:" line with
  | Some v => (false, mkEntry (en_fault_signature e) (en_template_used e) (parse_params (trim v))
                        (en_outcomes e) (en_occurrences e) (en_last_seen e) (en_body e))
  | None =>
  match strip_prefix "occurrences:" line with
  | Some v => (false, mkEntry (en_fault_signature e) (en_template_used e) (en_params e) (en_outcomes e)
                        (default 0%N (parse_uint (2 ^ 64 - 1) (trim v))) (en_last_seen e) (en_body e))
  | None =>
  match strip_prefix "last_seen:" line with
  | Some v =>
      (false, mkEntry (en_fault_signature e) (en_template_used e) (en_params e) (en_outcomes e)
                (en_occurrences e) (default (en_last_seen e) (parse_from_rfc3339 (trim v))) (en_body e))
  | None => (String.eqb (trim line) "outcomes:", e)
  end end end end end.
Fixpoint parse_front (in_list : bool) (lines : list string) (e : Entry) : Entry :=
  match lines with
  | [] => e
  | line :: lines' =>
      match (if in_list then list_item line else None) with
      | Some item =>
          parse_front true lines'
            (match parse_outcome (trim item) with
             | Some o => mkEntry (en_fault_signature e) (en_template_used e) (en_params e)
                           (en_outcomes e ++ [o]) (en_occurrences e) (en_last_seen e) (en_body e)
             | None => e
             end)
      | None => let (in_list, e) := front_line line e in parse_front in_list lines' e
      end
  end.

(** [Entry::from_markdown]; [now] is the clock. *)
Definition from_markdown (text : string) (now : DateTime) : result string Entry :=
  rest ← ok_or "entry missing front-matter opener"%string (strip_prefix ("---" +:+ newline) text);
  fb ← ok_or "entry missing front-matter closer"%string (cut (newline +:+ "---" +:+ newline) rest);
  Ok (parse_front false (lines fb.1) (mkEntry EmptyString EmptyString [] [] 0 now fb.2)).

(** ** The knowledge base *)

(** [None] is the disabled base. *)
Definition KnowledgeBase : Type := option (gmap string string).
(** [open]: the directory as it is found or created. *)
Definition kb_open (dir : option (result string (gmap string string))) : result string KnowledgeBase :=
  match dir with None => Ok None | Some d => Some <$> d end.
Definition is_enabled (kb : KnowledgeBase) : bool := bool_decide (is_Some kb).
Definition entry_path (signature : string) : string := slug signature +:+ ".md".

Definition kb_load (kb : KnowledgeBase) (signature : string) (now : DateTime) : option Entry :=
  dir ← kb;
  text ← dir !! entry_path signature;
  result_ok (from_markdown text now).

(** [store]; [ok] is the outcome of the write and the rename. *)
Definition kb_store (ok : bool) (e : Entry) (kb : KnowledgeBase) : KnowledgeBase :=
  match kb with
  | None => None
  | Some dir =>
      if ok then Some (<[entry_path (en_fault_signature e) := to_markdown e]> dir) else Some dir
  end.

Definition succeeded (o : Outcome) : bool := String.eqb (oc_result o) "succeeded".
Definition wrap_i64 (z : Z) : Z := ((z + 2 ^ 63) mod 2 ^ 64 - 2 ^ 63)%Z.
Definition sum_i64 (l : list Z) : Z := foldl (fun a b => wrap_i64 (a + b)%Z) 0%Z l.

Definition recall (kb : KnowledgeBase) (signature : string) (now : DateTime) : option string :=
  entry ← kb_load kb signature now;
  if String.eqb (en_template_used entry) "gap" || bool_decide (en_outcomes entry = []) then None
  else
    let successes := List.filter succeeded (en_outcomes entry) in
    if bool_decide (successes = []) then None
    else
      let ttrs := omap oc_ttr_s successes in
      let avg := match ttrs with
                 | [] => EmptyString
                 | _ => ", avg " +:+ show_Z (Z.quot (sum_i64 ttrs) (Z.of_nat (length ttrs))) +:+ "s"
                 end in
      Some ("Recall: last " +:+ show_N (en_occurrences entry) +:+ " time(s) this fault fired, template "
            +:+ en_template_used entry +:+ " succeeded " +:+ show_N (N.of_nat (length successes)) +:+ "/"
            +:+ show_N (N.of_nat (length (en_outcomes entry))) +:+ avg +:+ ".").

Definition retrospective_body (signature : string) (e : Entry) : string :=
  "# " +:+ signature +:+ newline +:+ newline
  +:+ "**Reflect:** template `" +:+ en_template_used e +:+ "` has been applied "
  +:+ show_N (en_occurrences e) +:+ " time(s) to this fault, succeeding "
  +:+ show_N (N.of_nat (length (List.filter succeeded (en_outcomes e)))) +:+ "/"
  +:+ show_N (N.of_nat (length (en_outcomes e)))
  +:+ ". Recurrence may indicate an upstream cause worth a deeper look." +:+ newline.

Definition gap_body `{SerdeValue} (signature : string) (e : Event) : string :=
  "# " +:+ signature +:+ newline +:+ newline
  +:+ "**Gap:** no remediation template matched this fault on `" +:+ ev_host e
  +:+ "`. Author a template so the control plane can remediate it next time." +:+ newline +:+ newline
  +:+ "Event title: " +:+ ev_title e +:+ newline.

(** [entry.occurrences += 1] on a [u64]. *)
Definition incr_u64 (n : N) : N := ((n + 1) mod 2 ^ 64)%N.

(** The entry [record_outcome] writes, from the one it loaded. *)
Definition outcome_entry (signature : string) (p : RemediationProposal) (st : ActionStatus)
    (ttr_s : option Z) (approver : string) (now : DateTime) (loaded : option Entry) : Entry :=
  let template_used := rp_template_id p +:+ "@" +:+ show_N (rp_template_version p) in
  let o := {| oc_ts := now; oc_result := status_str st; oc_ttr_s := ttr_s; oc_approver := approver |} in
  let entry := default {| en_fault_signature := signature; en_template_used := template_used;
                          en_params := rp_params p; en_outcomes := []; en_occurrences := 0;
                          en_last_seen := now; en_body := EmptyString |} loaded in
  let entry := {| en_fault_signature := en_fault_signature entry; en_template_used := template_used;
                  en_params := rp_params p; en_outcomes := en_outcomes entry ++ [o];
                  en_occurrences := incr_u64 (en_occurrences entry); en_last_seen := now;
                  en_body := en_body entry |} in
  {| en_fault_signature := en_fault_signature entry; en_template_used := en_template_used entry;
     en_params := en_params entry; en_outcomes := en_outcomes entry;
     en_occurrences := en_occurrences entry; en_last_seen := en_last_seen entry;
     en_body := retrospective_body signature entry |}.
Definition record_outcome (ok : bool) (signature : string) (p : RemediationProposal) (st : ActionStatus)
    (ttr_s : option Z) (approver : string) (now : DateTime) (kb : KnowledgeBase) : KnowledgeBase :=
  if negb (is_enabled kb) then kb
  else kb_store ok (outcome_entry signature p st ttr_s approver now (kb_load kb signature now)) kb.

Definition gap_entry `{SerdeValue} (e : Event) (now : DateTime) (loaded : option Entry) : Entry :=
  let signature := fault_signature e in
  let entry := default {| en_fault_signature := signature; en_template_used := "gap"; en_params := [];
                          en_outcomes := []; en_occurrences := 0; en_last_seen := now;
                          en_body := EmptyString |} loaded in
  {| en_fault_signature := en_fault_signature entry;
     en_template_used :=
       if is_empty (en_template_used entry) then "gap" else en_template_used entry;
     en_params := en_params entry; en_outcomes := en_outcomes entry;
     en_occurrences := incr_u64 (en_occurrences entry); en_last_seen := now;
     en_body := if is_empty (en_body entry) then gap_body signature e else en_body entry |}.
Definition record_gap `{SerdeValue} (ok : bool) (e : Event) (now : DateTime) (kb : KnowledgeBase)
    : KnowledgeBase :=
  if negb (is_enabled kb) then kb
  else kb_store ok (gap_entry e now (kb_load kb (fault_signature e) now)) kb.
End Format.

(** ** File names *)

Definition is_file_char (c : ascii) : bool :=
  is_ascii_lowercase c || is_ascii_digit c || is_byte 46 c || is_byte 95 c || is_byte 45 c.

Lemma slug_char_lower (c : ascii) : is_slug_char c = true -> is_file_char (to_lower c) = true.
Proof.
  unfold is_slug_char, is_file_char, is_ascii_alphanumeric, to_lower. intros Hc.
  destruct (is_ascii_uppercase c) eqn:Hu; [|by destruct (is_ascii_lowercase c), (is_ascii_digit c),
    (is_byte 46 c), (is_byte 95 c)].
  apply orb_true_iff. left. apply orb_true_iff. left. apply orb_true_iff. left. apply orb_true_iff. left.
  unfold is_ascii_uppercase, is_ascii_lowercase, in_range in *. split_bool.
  apply N.leb_le in H, H0. rewrite code_ascii by lia. rewrite !(proj2 (N.leb_le _ _)) by lia. done.
Qed.

Lemma slug_loop_chars (b : bool) (s : string) : str_forallb is_file_char (slug_loop b s) = true.
Proof.
  revert b; induction s as [|c s IH]; intros b; cbn; [done|].
  destruct (is_slug_char c) eqn:Hc; cbn; [by rewrite (slug_char_lower c Hc), IH|].
  destruct b; cbn; by rewrite IH.
Qed.

(** Entry files cannot escape their directory: whatever the fault signature
    (unit names, paths and workloads from the hosts included), the file name stem
    consists of lowercase letters, digits, dots, underscores and dashes only, and
    neither begins nor ends with a dash. *)
Theorem slug_safe (signature : string) :
  str_forallb is_file_char (slug signature) = true
  /\ first_byte (slug signature) <> Some (ascii_of_N 45)
  /\ last_byte (slug signature) <> Some (ascii_of_N 45).
Proof.
  unfold slug, trim_matches. set (s := slug_loop false signature).
  set (t := trim_start_matches (is_byte 45) s).
  destruct (trim_start_matches_suffix (is_byte 45) s) as [a Ha]. fold t in Ha.
  destruct (trim_end_matches_prefix (is_byte 45) t) as [b Hb].
  assert (str_forallb is_file_char t = true) as Ht.
  { pose proof (slug_loop_chars false signature) as Hs. fold s in Hs. rewrite Ha, str_forallb_app in Hs.
    by apply andb_true_iff in Hs as [_ ?]. }
  assert (forall c, is_byte 45 c = false -> c <> ascii_of_N 45) as Hne
    by (intros c Hc ->; vm_compute in Hc; discriminate).
  split_and!.
  - rewrite Hb, str_forallb_app in Ht. by apply andb_true_iff in Ht as [? _].
  - intros Hf. assert (first_byte t = Some (ascii_of_N 45)) as Hft.
    { rewrite Hb. destruct (trim_end_matches (is_byte 45) t); [done|]. exact Hf. }
    apply trim_start_matches_first in Hft. by apply Hne in Hft.
  - intros Hl. unfold trim_end_matches in Hl. rewrite last_byte_rev in Hl.
    apply trim_start_matches_first in Hl. by apply Hne in Hl.
Qed.

(** Distinct faults can share a file: the separators and the case are lost. *)
Theorem slug_collides :
  slug "FailedUnit:a:b" = slug "FailedUnit:A/b" /\ "FailedUnit:a:b" <> "FailedUnit:A/b".
Proof. split; [vm_compute; reflexivity|discriminate]. Qed.

(** ** Timestamps for the witnesses *)

#[export] Instance toy_rfc3339 : Rfc3339 :=
  {| to_rfc3339 t := String "b" (bits_encode t);
     parse_from_rfc3339 s := match s with String _ s' => bits_decode s' | EmptyString => None end |}.
#[export] Instance toy_rfc3339_laws : Rfc3339Laws.
Proof.
  constructor; cbn; intros t; [apply bits_decode_encode|]. split; [|done].
  unfold bits_encode. by induction (encode t) as [p IH|p IH|]; cbn.
Qed.
