(* ===== verification/Orchestrator.v ===== *)
(** * The remediation orchestrator ([prepare_inner], [auto_execute] and
    [emit_breaker_trip_event] of [ravn-server/src/remediation.rs]; the
    remediation endpoints of [ravn-server/src/api.rs]; [message_to_stored] of
    [ravn-server/src/db.rs])

  The control plane's state and its handlers, composed from the registry, the
  policy engine, the audit store, the command queue and the knowledge base, and
  the theorems about runs of the whole: the kill switch, the dangerous tier, and
  that no command leaves without an audit record.

  A handler takes an [Inputs] record of what it draws from outside: the clock,
  fresh identifiers and the outcomes of the database and file operations. *)

From S2P Require Export Policy AuditStore Knowledge.

(** [auth.rs]. *)
Inductive Role := Viewer | Admin.
#[export] Instance Role_eq_dec : EqDecision Role.
Proof. solve_decision. Defined.

(** The serde names of [Source]. *)
Definition source_str (s : Source) : string :=
  match s with
  | SourceJournald => "journald" | SourceFailedUnit => "failed_unit"
  | SourceConfigDrift => "config_drift" | SourceAuth => "auth" | SourceUpdate => "update"
  | SourceKubeWorkload => "kube_workload" | SourceKubeNode => "kube_node"
  | SourceRavnInternal => "ravn_internal"
  end.

Section Orchestrator.
Context `{SerdeValue} `{Base64} `{Ed25519} `{SerdeJson} `{Rfc3339}.

(** [StoredEvent], with the values its JSON columns encode. *)
Record StoredEvent := mkStored {
  se_id : Uuid;
  se_occurred_at : DateTime;
  se_observed_at : DateTime;
  se_received_at : DateTime;
  se_agent_id : Uuid;
  se_host : string;
  se_severity : string;
  se_source : string;
  se_title : string;
  se_category_hints : list string;
  se_payload : Payload;
  se_explanation : option Explanation;
}.
Definition message_to_stored (m : Message) (now : DateTime) : StoredEvent :=
  let ev := msg_event m in
  {| se_id := ev_id ev; se_occurred_at := ev_occurred_at ev; se_observed_at := ev_observed_at ev;
     se_received_at := now; se_agent_id := agent_uuid (ev_agent_id ev); se_host := ev_host ev;
     se_severity := severity_str (ev_severity ev); se_source := source_str (event_source ev);
     se_title := ev_title ev; se_category_hints := ev_category_hints ev; se_payload := ev_payload ev;
     se_explanation := msg_explanation m |}.
Definition synthetic_event_to_stored (ev : Event) (now : DateTime) : StoredEvent :=
  {| se_id := ev_id ev; se_occurred_at := ev_occurred_at ev; se_observed_at := ev_observed_at ev;
     se_received_at := now; se_agent_id := agent_uuid (ev_agent_id ev); se_host := ev_host ev;
     se_severity := severity_str (ev_severity ev); se_source := source_str (event_source ev);
     se_title := ev_title ev; se_category_hints := ev_category_hints ev; se_payload := ev_payload ev;
     se_explanation := None |}.

(** The part of [AppState] the remediation loop uses; counters are the lists of
    the labels they were incremented with. *)
Record AppState := mkState {
  as_templates : list Template;
  as_signer : CommandSigner;
  as_ttl_secs : Z;
  as_policy : PolicyEngine;
  as_store : RemediationStore;
  as_queue : CommandQueue;
  as_knowledge : KnowledgeBase;
  as_events_tx : list StoredEvent;
  as_proposed : list string;
  as_outcomes : list string;
  as_breaker_trips : N;
  as_channel_errors : N;
}.

Definition set_policy (p : PolicyEngine) (s : AppState) : AppState :=
  {| as_templates := as_templates s; as_signer := as_signer s; as_ttl_secs := as_ttl_secs s;
     as_policy := p; as_store := as_store s; as_queue := as_queue s; as_knowledge := as_knowledge s;
     as_events_tx := as_events_tx s; as_proposed := as_proposed s; as_outcomes := as_outcomes s;
     as_breaker_trips := as_breaker_trips s; as_channel_errors := as_channel_errors s |}.
Definition set_store (st : RemediationStore) (s : AppState) : AppState :=
  {| as_templates := as_templates s; as_signer := as_signer s; as_ttl_secs := as_ttl_secs s;
     as_policy := as_policy s; as_store := st; as_queue := as_queue s; as_knowledge := as_knowledge s;
     as_events_tx := as_events_tx s; as_proposed := as_proposed s; as_outcomes := as_outcomes s;
     as_breaker_trips := as_breaker_trips s; as_channel_errors := as_channel_errors s |}.
Definition set_queue (q : CommandQueue) (s : AppState) : AppState :=
  {| as_templates := as_templates s; as_signer := as_signer s; as_ttl_secs := as_ttl_secs s;
     as_policy := as_policy s; as_store := as_store s; as_queue := q; as_knowledge := as_knowledge s;
     as_events_tx := as_events_tx s; as_proposed := as_proposed s; as_outcomes := as_outcomes s;
     as_breaker_trips := as_breaker_trips s; as_channel_errors := as_channel_errors s |}.
Definition set_knowledge (k : KnowledgeBase) (s : AppState) : AppState :=
  {| as_templates := as_templates s; as_signer := as_signer s; as_ttl_secs := as_ttl_secs s;
     as_policy := as_policy s; as_store := as_store s; as_queue := as_queue s; as_knowledge := k;
     as_events_tx := as_events_tx s; as_proposed := as_proposed s; as_outcomes := as_outcomes s;
     as_breaker_trips := as_breaker_trips s; as_channel_errors := as_channel_errors s |}.
(** Appended broadcasts and counters. *)
Definition bump (events : list StoredEvent) (proposed outcomes : list string) (trips errors : N)
    (s : AppState) : AppState :=
  {| as_templates := as_templates s; as_signer := as_signer s; as_ttl_secs := as_ttl_secs s;
     as_policy := as_policy s; as_store := as_store s; as_queue := as_queue s;
     as_knowledge := as_knowledge s; as_events_tx := as_events_tx s ++ events;
     as_proposed := as_proposed s ++ proposed; as_outcomes := as_outcomes s ++ outcomes;
     as_breaker_trips := (as_breaker_trips s + trips)%N;
     as_channel_errors := (as_channel_errors s + errors)%N |}.

Record Inputs := mkInputs {
  in_now : DateTime;
  in_proposal_id : Uuid;
  in_command_id : Uuid;
  in_event_id : Uuid;
  in_nonce : string;
  in_read_ok : bool;
  in_db_ok : bool;
  in_kb_ok : bool;
}.

(** ** Prepare *)

Definition breaker_trip_event (i : Inputs) (host template_id : string) : Event :=
  {| ev_id := in_event_id i; ev_occurred_at := in_now i; ev_observed_at := in_now i;
     ev_agent_id := mkAgentId 0; ev_host := host; ev_severity := Warning;
     ev_title := "Circuit breaker tripped: auto→approve for template " +:+ template_id +:+ " on " +:+ host;
     ev_category_hints := ["ravn:self"; "circuit-breaker"];
     ev_payload := CircuitBreakerTrip {| cb_host := host; cb_template_id := template_id |} |}.
Definition emit_breaker_trip_event (i : Inputs) (host template_id : string) (s : AppState) : AppState :=
  bump [synthetic_event_to_stored (breaker_trip_event i host template_id) (in_now i)] [] [] 0 0 s.

Definition set_rationale (r : string) (p : RemediationProposal) : RemediationProposal :=
  {| rp_id := rp_id p; rp_event_id := rp_event_id p; rp_agent_id := rp_agent_id p; rp_host := rp_host p;
     rp_template_id := rp_template_id p; rp_template_version := rp_template_version p;
     rp_risk_tier := rp_risk_tier p; rp_params := rp_params p; rp_rationale := r;
     rp_created_at := rp_created_at p |}.

Definition auto_execute (i : Inputs) (t : Template) (proposal : RemediationProposal)
    (fault_signature : string) (s : AppState) : AppState :=
  match build_command proposal t (as_signer s) PolicyAuto (as_ttl_secs s) (in_now i)
          (in_command_id i) (in_nonce i) with
  | Err _ => bump [] [] [] 0 1 s
  | Ok envelope =>
      let (inserted, st) := store_insert_auto_approved (in_db_ok i) proposal (ce_command_id envelope)
                              (ce_sig envelope) fault_signature (in_now i) (as_store s) in
      let s := set_store st s in
      match inserted with
      | Some _ => set_queue (enqueue envelope (as_queue s)) s
      | None => s
      end
  end.

Definition prepare_inner (i : Inputs) (event : Event) (s : AppState) : AppState :=
  let signature := fault_signature event in
  match match_event (as_templates s) event with
  | None => set_knowledge (record_gap (in_kb_ok i) event (in_now i) (as_knowledge s)) s
  | Some t =>
      match resolve_params t event with
      | Err _ => s
      | Ok params =>
          let proposal := build_proposal t event params (in_proposal_id i) (in_now i) in
          let proposal :=
            match recall (as_knowledge s) signature (in_now i) with
            | Some note => set_rationale (rp_rationale proposal +:+ " " +:+ note) proposal
            | None => proposal
            end in
          let (res, policy) := evaluate (as_policy s) (ev_host event) (tpl_risk_tier t) (tpl_id t)
                                 (in_now i) in
          let s := set_policy policy s in
          let s := if er_breaker_tripped res
                   then emit_breaker_trip_event i (ev_host event) (tpl_id t) (bump [] [] [] 1 0 s)
                   else s in
          match er_decision res with
          | Forbid => bump [] ["forbid"%string] [] 0 0 s
          | Approve =>
              let s := bump [] ["approve"%string] [] 0 0 s in
              let (_, st) := store_insert (in_db_ok i) proposal signature (in_now i) (as_store s) in
              set_store st s
          | Auto => auto_execute i t proposal signature (bump [] ["auto"%string] [] 0 0 s)
          end
      end
  end.

(** ** Endpoints *)

Inductive Response :=
  | NotFound (msg : string)
  | Conflict (msg : string)
  | InternalError (msg : string)
  | JsonApproved (command_id : Uuid)
  | JsonRejected
  | JsonCommands (l : list CommandEnvelope)
  | Accepted.

Definition role_user (role : option Role) : string :=
  match default Admin role with Admin => "admin" | Viewer => "viewer" end.

Definition get_commands (agent : Uuid) (s : AppState) : Response * AppState :=
  let (l, q) := take_for agent (as_queue s) in (JsonCommands l, set_queue q s).

Definition api_approve_remediation (i : Inputs) (id : Uuid) (role : option Role) (s : AppState)
    : Response * AppState :=
  match store_pending_proposal (in_read_ok i) id (as_store s) with
  | None => (NotFound "no pending remediation with that id", s)
  | Some proposal =>
      match registry_get (as_templates s) (rp_template_id proposal) with
      | None => (Conflict "template for this proposal is no longer loaded", s)
      | Some t =>
          let approval := Human (role_user role) (in_now i) in
          match build_command proposal t (as_signer s) approval (as_ttl_secs s) (in_now i)
                  (in_command_id i) (in_nonce i) with
          | Err e => (InternalError e, s)
          | Ok envelope =>
              let s := set_queue (enqueue envelope (as_queue s)) s in
              let (_, st) := store_approve (in_read_ok i) (in_db_ok i) id approval
                               (ce_command_id envelope) (ce_sig envelope) (in_now i) (as_store s) in
              (JsonApproved (ce_command_id envelope), set_store st s)
          end
      end
  end.

Definition api_reject_remediation (i : Inputs) (id : Uuid) (role : option Role) (s : AppState)
    : Response * AppState :=
  let (found, st) := store_reject (in_read_ok i) (in_db_ok i) id (role_user role) None (in_now i)
                       (as_store s) in
  (if found then JsonRejected else NotFound "no remediation with that id", set_store st s).

(** The name of the approver in [post_command_result]. *)
Definition approver_of (d : Decision) : string :=
  match d with
  | Approved (Human user _) => user
  | Approved PolicyAuto => "policy:auto"
  | _ => "unknown"
  end.
Definition post_command_result (i : Inputs) (res : ActionResult) (s : AppState) : Response * AppState :=
  let s := bump [] [] [status_str (ar_status res)] 0 0 s in
  let (closed, st) := store_record_result (in_db_ok i) res (in_now i) (as_store s) in
  let s := set_store st s in
  let s :=
    match closed with
    | Some (record, signature) =>
        if is_enabled (as_knowledge s) && negb (is_empty signature) then
          let ttr_s := option_map (fun r => Z.quot (ar_finished_at r - rp_created_at (rr_proposal record))
                                              1000000000) (rr_result record) in
          set_knowledge (record_outcome (in_kb_ok i) signature (rr_proposal record) (ar_status res)
                           ttr_s (approver_of (rr_decision record)) (in_now i) (as_knowledge s)) s
        else s
    | None => s
    end in
  (Accepted, set_queue (queue_record_result res (as_queue s)) s).

(** ** Runs of the control plane *)

Inductive ServerOp :=
  | DoPrepare (i : Inputs) (event : Event)
  | DoPull (agent : Uuid)
  | DoApprove (i : Inputs) (id : Uuid) (role : option Role)
  | DoReject (i : Inputs) (id : Uuid) (role : option Role)
  | DoResult (i : Inputs) (res : ActionResult).

Definition server_exec (op : ServerOp) (s : AppState) : AppState :=
  match op with
  | DoPrepare i event => prepare_inner i event s
  | DoPull agent => (get_commands agent s).2
  | DoApprove i id role => (api_approve_remediation i id role s).2
  | DoReject i id role => (api_reject_remediation i id role s).2
  | DoResult i res => (post_command_result i res s).2
  end.
Definition server_run (ops : list ServerOp) (s : AppState) : AppState :=
  foldl (fun s op => server_exec op s) s ops.
End Orchestrator.

(** ** What each step may put in the queue *)

Lemma evaluate_auto_inv e host tier template_id now :
  er_decision (evaluate e host tier template_id now).1 = Auto ->
  pe_auto_enabled e = true /\ policy_decide (pe_policy e) host tier = Auto /\ tier <> Dangerous.
Proof.
  unfold evaluate, evaluate_check, evaluate_rules. destruct (pe_auto_enabled e); cbn [negb];
    destruct (policy_decide (pe_policy e) host tier); repeat case_bool_decide; cbn; try done.
Qed.

(** The kill switch and the rules are fixed at start-up. *)
Definition same_rules (e e' : PolicyEngine) : Prop :=
  pe_auto_enabled e' = pe_auto_enabled e /\ pe_policy e' = pe_policy e.

Lemma evaluate_same_rules e host tier template_id now :
  same_rules e (evaluate e host tier template_id now).2.
Proof.
  unfold evaluate, evaluate_check. destruct (evaluate_rules e host tier); [done|].
  destruct (tripped (pe_breaker e) host template_id now) as [[] b]; done.
Qed.

Lemma pending_enqueue a env env' q :
  env' ∈ pending_for a (enqueue env q) -> env' = env \/ env' ∈ pending_for a q.
Proof.
  unfold pending_for. cbn. destruct (decide (agent_uuid (ce_agent_id env) = a)) as [<-|Hne].
  - rewrite lookup_insert_eq. cbn. set_solver.
  - rewrite lookup_insert_ne by done. auto.
Qed.

Lemma pending_take a b env q : env ∈ pending_for a (take_for b q).2 -> env ∈ pending_for a q.
Proof.
  unfold take_for. destruct (cq_pending q !! b) as [p|] eqn:Hb; [|done]. unfold pending_for. cbn.
  destruct (decide (b = a)) as [->|Hne].
  - rewrite lookup_insert_eq. cbn. set_solver.
  - by rewrite lookup_insert_ne by done.
Qed.

Section OrchestratorFacts.
Context `{SerdeValue} `{Base64} `{Ed25519} `{SerdeJson} `{Rfc3339}.

Lemma build_command_fields p t signer approval ttl now cid nonce env :
  build_command p t signer approval ttl now cid nonce = Ok env ->
  ce_approval_ref env = approval /\ ce_risk_tier env = tpl_risk_tier t /\ ce_command_id env = cid.
Proof.
  unfold build_command. destruct (collect_result _ (tpl_steps t)); cbn; [|done].
  destruct (collect_result _ (tpl_preconditions t)); cbn; [|done].
  destruct (match tpl_verify t with Some v => _ | None => _ end); cbn; [|done]. by intros [= <-].
Qed.

(** The row that records a command. *)
Definition recorded (t : Table) (env : CommandEnvelope) : Prop :=
  exists r, r ∈ t /\ rw_command_id r = Some (ce_command_id env) /\ rw_command_signature r = ce_sig env.

(** What permits a command no one approved: the kill switch is released, a rule of
    the policy says so for some host, and the tier is not dangerous. *)
Definition automatic (e : PolicyEngine) (env : CommandEnvelope) : Prop :=
  pe_auto_enabled e = true /\ ce_risk_tier env <> Dangerous
  /\ exists host, policy_decide (pe_policy e) host (ce_risk_tier env) = Auto.

(** A command the step itself issued. *)
Definition issued (op : ServerOp) (s s' : AppState) (env : CommandEnvelope) : Prop :=
  match op with
  | DoPrepare i event =>
      ce_approval_ref env = PolicyAuto
      /\ automatic (as_policy s) env
      /\ ((in_proposal_id i, in_now i) ∉ map row_pk (st_table (as_store s)) ->
          recorded (st_table (as_store s')) env)
  | DoApprove i id role =>
      ce_approval_ref env = Human (role_user role) (in_now i)
      /\ (in_db_ok i = true -> recorded (st_table (as_store s')) env)
  | _ => False
  end.

Lemma insert_auto_recorded ok p env sig now st st' id :
  store_insert_auto_approved ok p (ce_command_id env) (ce_sig env) sig now st = (Some id, st') ->
  (rp_id p, rp_created_at p) ∉ map row_pk (st_table st) ->
  recorded (st_table st') env.
Proof.
  unfold store_insert_auto_approved, insert_auto_approved_remediation.
  destruct (dedup_hit p st); [done|]. destruct ok; [|done]. intros [= _ <-] Hnew. cbn.
  match goal with |- recorded (insert_row ?r _) _ => set (row := r) end.
  exists row. split; [|done]. unfold insert_row.
  destruct (existsb _ (st_table st)) eqn:E; [|set_solver].
  apply existsb_elem_of in E as (r & Hr & Hpk%bool_decide_eq_true). destruct Hnew.
  apply list_elem_of_fmap. exists r. split; [|done]. by rewrite Hpk.
Qed.

Lemma approve_recorded ok id b env now st p :
  store_pending_proposal ok id st = Some p ->
  recorded (st_table (store_approve ok true id b (ce_command_id env) (ce_sig env) now st).2) env.
Proof.
  unfold store_pending_proposal, pending_remediation_proposal. destruct ok; [|done].
  destruct (find_first _ (st_table st)) as [r|] eqn:Hf; [|done]. intros _.
  apply find_first_Some in Hf as (l1 & l2 & Ht & Hr & _).
  unfold store_approve, approve_remediation. cbn. eexists. split; [|split].
  - apply list_elem_of_fmap. exists r. split; [done|]. rewrite Ht. set_solver.
  - by rewrite Hr.
  - by rewrite Hr.
Qed.

Lemma prepare_queue i event s a env :
  env ∈ pending_for a (as_queue (prepare_inner i event s)) ->
  env ∈ pending_for a (as_queue s) \/ issued (DoPrepare i event) s (prepare_inner i event s) env.
Proof.
  unfold prepare_inner. destruct (match_event (as_templates s) event) as [t|]; [|by left].
  destruct (resolve_params t event) as [params|]; [|by left].
  set (p := match recall _ _ _ with Some _ => _ | None => _ end).
  assert (rp_id p = in_proposal_id i /\ rp_created_at p = in_now i) as [Hpid Hpc].
  { unfold p. by destruct (recall _ _ _). }
  pose proof (evaluate_auto_inv (as_policy s) (ev_host event) (tpl_risk_tier t) (tpl_id t) (in_now i))
    as Hauto.
  destruct (evaluate (as_policy s) _ _ _ _) as [res policy]. cbn [fst] in Hauto.
  destruct (er_decision res) eqn:Hd.
  - specialize (Hauto eq_refl) as (Hon & Hdec & Htier). unfold auto_execute.
    assert (forall s0, as_queue (if er_breaker_tripped res
      then emit_breaker_trip_event i (ev_host event) (tpl_id t) (bump [] [] [] 1 0 s0) else s0)
      = as_queue s0) as Hq by (intros; by destruct (er_breaker_tripped res)).
    assert (forall s0, as_store (if er_breaker_tripped res
      then emit_breaker_trip_event i (ev_host event) (tpl_id t) (bump [] [] [] 1 0 s0) else s0)
      = as_store s0) as Hs by (intros; by destruct (er_breaker_tripped res)).
    destruct (build_command _ _ _ _ _ _ _ _) as [e|] eqn:Hb; [|cbn; rewrite Hq; by left].
    apply build_command_fields in Hb as (Ha & Ht & _). cbn [as_store bump]. rewrite !Hs.
    destruct (store_insert_auto_approved _ _ _ _ _ _ _) as [[id|] st] eqn:Hins;
      cbn [as_queue set_queue set_store bump]; rewrite !Hq; [|by left].
    intros [->|?]%pending_enqueue; [|by left]. right. split_and!; [done|split_and!; [done|by rewrite Ht|]|].
    { exists (ev_host event). by rewrite Ht. }
    intros Hnew. cbn. eapply insert_auto_recorded; [exact Hins|]. cbn. by rewrite Hpid, Hpc.
  - destruct (store_insert _ _ _ _ _) as [o st]. cbn. by destruct (er_breaker_tripped res); left.
  - cbn. by destruct (er_breaker_tripped res); left.
Qed.

Lemma server_queue op s a env :
  env ∈ pending_for a (as_queue (server_exec op s)) ->
  env ∈ pending_for a (as_queue s) \/ issued op s (server_exec op s) env.
Proof.
  destruct op as [i event|agent|i id role|i id role|i res]; cbn [server_exec].
  - apply prepare_queue.
  - unfold get_commands. destruct (take_for agent (as_queue s)) as [l q] eqn:Ht. cbn. intros Hin. left.
    assert (q = (take_for agent (as_queue s)).2) as -> by (by rewrite Ht). by eapply pending_take.
  - unfold api_approve_remediation. destruct (store_pending_proposal _ _ _) as [p|] eqn:Hp; [|by left].
    destruct (registry_get _ _) as [t|]; [|by left].
    destruct (build_command _ _ _ _ _ _ _ _) as [e|] eqn:Hb; [|by left].
    apply build_command_fields in Hb as (Ha & _ & _).
    destruct (store_approve _ _ _ _ _ _ _ _) as [f st] eqn:Hst. cbn.
    intros [->|?]%pending_enqueue; [|by left]. right. split; [done|]. intros Hok. rewrite Hok in Hst.
    assert (st = (store_approve (in_read_ok i) true id (Human (role_user role) (in_now i))
      (ce_command_id e) (ce_sig e) (in_now i) (as_store s)).2) as -> by (cbn [as_store set_queue] in Hst; by rewrite Hst).
    by eapply approve_recorded.
  - unfold api_reject_remediation. destruct (store_reject _ _ _ _ _ _ _) as [f st]. cbn. by left.
  - unfold post_command_result. destruct (store_record_result _ _ _ _) as [[[r sig]|] st]; cbn; [|by left].
    destruct (_ && _); cbn; by left.
Qed.

(** Every step acts on the audit store through its operations only. *)
Lemma server_store op s :
  exists sops, as_store (server_exec op s) = store_run sops (as_store s).
Proof.
  assert (exists sops, as_store s = store_run sops (as_store s)) as Hsame by (by exists []).
  destruct op as [i event|agent|i id role|i id role|i res]; cbn [server_exec].
  - unfold prepare_inner. destruct (match_event (as_templates s) event) as [t|]; [|done].
    destruct (resolve_params t event) as [params|]; [|done].
    set (p := match recall _ _ _ with Some _ => _ | None => _ end).
    destruct (evaluate (as_policy s) _ _ _ _) as [res policy].
    set (s0 := if er_breaker_tripped res then _ else _).
    assert (as_store s0 = as_store s) as Hs0 by (unfold s0; by destruct (er_breaker_tripped res)).
    destruct (er_decision res); [|..].
    + unfold auto_execute. cbn [as_store bump as_signer as_ttl_secs].
      destruct (build_command _ _ _ _ _ _ _ _) as [e|]; [|cbn; rewrite Hs0; done].
      rewrite Hs0. exists [OpInsertAuto (in_db_ok i) p (ce_command_id e) (ce_sig e)
        (fault_signature event) (in_now i)]. cbn [store_run foldl store_exec].
      by destruct (store_insert_auto_approved _ _ _ _ _ _ _) as [[id|] st].
    + cbn [as_store bump]. rewrite Hs0.
      exists [OpInsert (in_db_ok i) p (fault_signature event) (in_now i)].
      cbn [store_run foldl store_exec]. by destruct (store_insert _ _ _ _ _).
    + cbn. by rewrite Hs0.
  - unfold get_commands. by destruct (take_for agent (as_queue s)).
  - unfold api_approve_remediation. destruct (store_pending_proposal _ _ _) as [p|]; [|done].
    destruct (registry_get _ _) as [t|]; [|done].
    destruct (build_command _ _ _ _ _ _ _ _) as [e|]; [|done].
    exists [OpApprove (in_read_ok i) (in_db_ok i) id (Human (role_user role) (in_now i))
      (ce_command_id e) (ce_sig e) (in_now i)]. cbn [store_run foldl store_exec as_store set_queue].
    by destruct (store_approve _ _ _ _ _ _ _ _).
  - unfold api_reject_remediation.
    exists [OpReject (in_read_ok i) (in_db_ok i) id (role_user role) None (in_now i)].
    cbn [store_run foldl store_exec]. by destruct (store_reject _ _ _ _ _ _ _).
  - unfold post_command_result. exists [OpResult (in_db_ok i) res (in_now i)].
    cbn [store_run foldl store_exec as_store bump].
    destruct (store_record_result _ _ _ _) as [[[r sig]|] st]; cbn; [|done].
    by destruct (_ && _).
Qed.

Lemma server_same_rules op s : same_rules (as_policy s) (as_policy (server_exec op s)).
Proof.
  destruct op as [i event|agent|i id role|i id role|i res]; cbn [server_exec].
  - unfold prepare_inner. destruct (match_event (as_templates s) event) as [t|]; [|done].
    destruct (resolve_params t event) as [params|]; [|done].
    pose proof (evaluate_same_rules (as_policy s) (ev_host event) (tpl_risk_tier t) (tpl_id t)
      (in_now i)) as He.
    destruct (evaluate (as_policy s) _ _ _ _) as [res policy]. cbn [snd] in He.
    set (s0 := if er_breaker_tripped res then _ else _).
    assert (as_policy s0 = policy) as Hs0 by (unfold s0; by destruct (er_breaker_tripped res)).
    rewrite <-Hs0 in He. destruct (er_decision res); [|..].
    + unfold auto_execute. destruct (build_command _ _ _ _ _ _ _ _) as [e|]; [|done].
      by destruct (store_insert_auto_approved _ _ _ _ _ _ _) as [[id|] st].
    + by destruct (store_insert _ _ _ _ _).
    + done.
  - unfold get_commands. by destruct (take_for agent (as_queue s)).
  - unfold api_approve_remediation. destruct (store_pending_proposal _ _ _) as [p|]; [|done].
    destruct (registry_get _ _) as [t|]; [|done].
    destruct (build_command _ _ _ _ _ _ _ _) as [e|]; [|done]. by destruct (store_approve _ _ _ _ _ _ _ _).
  - unfold api_reject_remediation. by destruct (store_reject _ _ _ _ _ _ _).
  - unfold post_command_result. destruct (store_record_result _ _ _ _) as [[[r sig]|] st]; cbn; [|done].
    by destruct (_ && _).
Qed.

(** The invariant of the queue: what policy approved alone was permitted. *)
Definition autos_permitted (s : AppState) : Prop :=
  forall a env, env ∈ pending_for a (as_queue s) -> ce_approval_ref env = PolicyAuto ->
    automatic (as_policy s) env.

Lemma automatic_same_rules e e' env : same_rules e e' -> automatic e env -> automatic e' env.
Proof. unfold automatic. by intros [-> ->]. Qed.

Lemma server_exec_autos op s : autos_permitted s -> autos_permitted (server_exec op s).
Proof.
  intros Hs a env Hin Hauto. apply automatic_same_rules with (as_policy s); [apply server_same_rules|].
  apply server_queue in Hin as [Hin|Hiss]; [by eapply Hs|].
  destruct op; cbn in Hiss; try done; destruct Hiss as (Ha & Hiss);
    [by destruct Hiss|by rewrite Ha in Hauto].
Qed.

Lemma server_run_autos ops s :
  autos_permitted s -> autos_permitted (server_run ops s) /\ same_rules (as_policy s) (as_policy (server_run ops s)).
Proof.
  revert s; induction ops as [|op ops IH]; intros s Hs; cbn; [done|].
  destruct (IH (server_exec op s)) as [Ha Hr]; [by apply server_exec_autos|]. split; [done|].
  destruct (server_same_rules op s) as [He Hp], Hr as [He' Hp'].
  split; [exact (eq_trans He' He)|exact (eq_trans Hp' Hp)].
Qed.

Lemma recorded_grows t t' env : trail_grows t t' -> recorded t env -> recorded t' env.
Proof.
  intros (t1 & t2 & -> & Hg) (r & Hr & Hc & Hs).
  apply list_elem_of_lookup in Hr as [k Hk].
  destruct (Forall2_lookup_l _ _ _ _ _ Hg Hk) as (r' & Hk' & [_ _ Hcmd _]).
  destruct (Hcmd _ Hc) as [Hc' Hs']. exists r'. split_and!; [|done|congruence].
  apply elem_of_app. left. by apply list_elem_of_lookup_2 with k.
Qed.

(** ** Properties *)

(** C4. Guardrails hold on every run: starting with no waiting command, whatever
    sequence of faults, pulls, approvals, rejections and results the control
    plane handles, a waiting command that policy approved on its own implies that
    the kill switch allows automation, that its tier is not dangerous, and that a
    rule of the policy the server started with decides [auto] for that tier on some
    host. *)
Theorem auto_commands_guarded (ops : list ServerOp) (s : AppState) (a : Uuid) (env : CommandEnvelope) :
  (forall a, pending_for a (as_queue s) = []) ->
  env ∈ pending_for a (as_queue (server_run ops s)) -> ce_approval_ref env = PolicyAuto ->
  pe_auto_enabled (as_policy s) = true /\ ce_risk_tier env <> Dangerous
  /\ exists host, policy_decide (pe_policy (as_policy s)) host (ce_risk_tier env) = Auto.
Proof.
  intros Hempty Hin Hauto. destruct (server_run_autos ops s) as [Ha [He Hp]].
  - intros a' e Hin'. rewrite Hempty in Hin'. by apply elem_of_nil in Hin'.
  - destruct (Ha a env Hin Hauto) as (Hon & Ht & Hd). by rewrite <-He, <-Hp.
Qed.

(** The steps of a run draw fresh proposal identifiers, and the database does not
    fail while an approval is recorded. *)
Definition op_ok (op : ServerOp) (s : AppState) : Prop :=
  match op with
  | DoPrepare i _ => (in_proposal_id i, in_now i) ∉ map row_pk (st_table (as_store s))
  | DoApprove i _ _ => in_db_ok i = true
  | _ => True
  end.
Fixpoint server_run_ok (ops : list ServerOp) (s : AppState) : Prop :=
  match ops with
  | [] => True
  | op :: ops' => op_ok op s /\ server_run_ok ops' (server_exec op s)
  end.

Lemma server_run_wf (ops : list ServerOp) (s : AppState) :
  store_wf (as_store s) -> store_wf (as_store (server_run ops s)).
Proof.
  revert s; induction ops as [|op ops IH]; intros s Hwf; cbn; [done|]. apply IH.
  destruct (server_store op s) as [sops ->]. by apply store_run_wf.
Qed.

Lemma run_recorded (ops : list ServerOp) (s : AppState) :
  store_wf (as_store s) ->
  (forall a env, env ∈ pending_for a (as_queue s) -> recorded (st_table (as_store s)) env) ->
  server_run_ok ops s ->
  forall a env, env ∈ pending_for a (as_queue (server_run ops s)) ->
    recorded (st_table (as_store (server_run ops s))) env.
Proof.
  revert s; induction ops as [|op ops IH]; intros s Hwf Hinit; cbn; [by intros _|].
  intros [Hok Hrun]. apply IH; [|clear IH Hrun|done].
  - by apply (server_run_wf [op]).
  - intros a env Hin. apply server_queue in Hin as [Hin|Hiss].
    + destruct (server_store op s) as [sops ->]. eapply recorded_grows; [by apply store_run_grows|].
      by eapply Hinit.
    + destruct op; cbn in Hiss, Hok; try done; destruct Hiss as (_ & Hiss); [|auto].
      destruct Hiss as (_ & Hrec). auto.
Qed.

End OrchestratorFacts.

(** ** Examples *)

Definition example_inputs (n : N) : Inputs :=
  {| in_now := Z.of_N n; in_proposal_id := n; in_command_id := (100 + n)%N; in_event_id := (200 + n)%N;
     in_nonce := "n"; in_read_ok := true; in_db_ok := true; in_kb_ok := true |}.
Definition auto_k8s : Policy := [{| pr_host := None; pr_tier := Safe; pr_decision := Auto |}].
Definition example_state (policy : Policy) (auto_enabled : bool) : AppState :=
  {| as_templates := [example_template]; as_signer := example_signer; as_ttl_secs := 300;
     as_policy := engine_new policy auto_enabled 1 100; as_store := empty_store; as_queue := queue_new;
     as_knowledge := Some ∅; as_events_tx := []; as_proposed := []; as_outcomes := [];
     as_breaker_trips := 0; as_channel_errors := 0 |}.

Lemma auto_commands_guarded_witness :
  exists env, env ∈ pending_for 9 (as_queue
      (server_run [DoPrepare (example_inputs 1) example_event] (example_state auto_k8s true)))
    /\ ce_risk_tier env <> Dangerous.
Proof.
  pose (env := default example_envelope (head (pending_for 9 (as_queue
    (server_run [DoPrepare (example_inputs 1) example_event] (example_state auto_k8s true)))))).
  assert (env ∈ pending_for 9 (as_queue
    (server_run [DoPrepare (example_inputs 1) example_event] (example_state auto_k8s true)))) as Hin.
  { apply (bool_decide_unpack _). vm_compute. exact I. }
  exists env. split; [exact Hin|].
  apply (auto_commands_guarded [DoPrepare (example_inputs 1) example_event] (example_state auto_k8s true)
    9 env); [intros a; reflexivity|exact Hin|vm_compute; reflexivity].
Defined.


(** A database failure during an approval: the command is in the queue, the row is
    still pending without a command, and approving again issues a second one. *)
Theorem approval_without_record :
  let fail i := {| in_now := in_now i; in_proposal_id := in_proposal_id i;
                   in_command_id := in_command_id i; in_event_id := in_event_id i;
                   in_nonce := in_nonce i; in_read_ok := true; in_db_ok := false; in_kb_ok := true |} in
  let s := server_run [DoPrepare (example_inputs 1) example_event;
                       DoApprove (fail (example_inputs 2)) 1 None] (example_state [] true) in
  let s' := server_exec (DoApprove (example_inputs 3) 1 None) s in
  length (pending_for 9 (as_queue s)) = 1
  /\ map rw_decision (st_table (as_store s)) = [Pending]
  /\ map rw_command_id (st_table (as_store s)) = [None]
  /\ length (pending_for 9 (as_queue s')) = 2.
Proof. vm_compute. auto. Qed.
