(* ===== verification/AgentPull.v ===== *)
(** * The agent's command pull ([ravn-agent/src/remediation.rs])

  The pinned keyring and its refresh, the on-disk idempotency ledger, the
  processing of a pulled command, the poll with its reports, and the adaptive
  poll loop with exponential backoff and circuit breaker.

  Files are strings; a failed append may leave any number of its bytes.  The
  actuator's answers, the clock and the drawn jitter are inputs.  Crashes are
  explicit steps, so that the at-most-once theorem is about runs that include
  them. *)

From S2P Require Export Crypto.

(** The [uuid] crate: printing and parsing. *)
Class UuidText : Type := {
  uuid_to_string : Uuid -> string;
  uuid_parse : string -> option Uuid;
}.
Class UuidTextLaws `{UuidText} : Prop := {
  uuid_roundtrip u : uuid_parse (uuid_to_string u) = Some u;
  uuid_graphic u : str_forallb graphic (uuid_to_string u) = true;
}.

(** ** The pinned keyring *)

Section Agent.
Context `{Base64} `{Ed25519} `{SerdeJson} `{UuidText}.

(** [load_pinned_keyring]: the two files, when they can be read. *)
Definition load_pinned_keyring (ring_file pubkey_file : option string) : option Keyring :=
  let legacy :=
    b64 ← pubkey_file;
    match verifying_key_from_b64 b64 with Ok k => Some (keyring_single k) | Err _ => None end in
  match ring_file with
  | Some json =>
      match keyring_from_json json with
      | Ok ring => if keyring_is_empty ring then legacy else Some ring
      | Err _ => legacy
      end
  | None => legacy
  end.

(** [refresh_keyring]: the fetched document ([None] when the fetch fails) and
    whether pinning it succeeds; the ring in memory and the pinned file. *)
Definition refresh_keyring (fetched : option string) (persist_ok : bool)
    (st : Keyring * option string) : Keyring * option string :=
  let (ring, file) := st in
  match fetched with
  | None => st
  | Some json =>
      match keyring_from_json json with
      | Err _ => st
      | Ok fresh =>
          if keyring_is_empty fresh then st
          else if negb (bool_decide (keyring_kids ring = keyring_kids fresh))
                  || negb (bool_decide (kr_default_kid ring = kr_default_kid fresh))
               then (fresh, if persist_ok then Some json else file)
               else st
      end
  end.

(** ** The ledger *)

Record Ledger := mkLedger {
  lg_disk : string;
  lg_seen : gset Uuid;
}.

(** [Ledger::load]: the ids of the lines that parse. *)
Definition ledger_ids (contents : string) : list Uuid :=
  omap (fun line => uuid_parse (trim line)) (lines contents).
Definition ledger_load (contents : option string) : Ledger :=
  {| lg_disk := default EmptyString contents;
     lg_seen := list_to_set (ledger_ids (default EmptyString contents)) |}.

Definition ledger_contains (id : Uuid) (l : Ledger) : bool := bool_decide (id ∈ lg_seen l).

(** An append that succeeds, or fails after some bytes. *)
Inductive Append := Wrote | Torn (bytes : nat).

(** [Ledger::record]. *)
Definition ledger_record (id : Uuid) (w : Append) (l : Ledger) : result unit unit * Ledger :=
  if ledger_contains id l then (Ok tt, l)
  else
    let line := uuid_to_string id +:+ newline in
    let seen := {[id]} ∪ lg_seen l in
    match w with
    | Wrote => (Ok tt, {| lg_disk := lg_disk l +:+ line; lg_seen := seen |})
    | Torn n => (Err tt, {| lg_disk := lg_disk l +:+ String.substring 0 n line; lg_seen := seen |})
    end.

(** ** Commands *)

(** [result]. *)
Definition agent_result (id : Uuid) (st : ActionStatus) (detail : string) (now : DateTime) : ActionResult :=
  {| ar_command_id := id; ar_status := st; ar_detail := Some detail; ar_observed_state := None;
     ar_finished_at := now |}.

(** [process_command] up to the dispatch: [inl] is the final answer, [inr] means
    that the command is sent. *)
Definition process_check (env : CommandEnvelope) (ring : Keyring) (w : Append) (now : DateTime)
    (l : Ledger) : (option ActionResult + unit) * Ledger :=
  if ledger_contains (ce_command_id env) l then (inl None, l)
  else
    match verify_envelope_with ring env now with
    | Err e => (inl (Some (agent_result (ce_command_id env) StatusRejected (verify_error_display e) now)), l)
    | Ok _ =>
        match ledger_record (ce_command_id env) w l with
        | (Err _, l) => (inl None, l)
        | (Ok _, l) => (inr tt, l)
        end
    end.
(** The rest, with the answer of the actuator. *)
Definition process_send (env : CommandEnvelope) (answer : result string ActionResult) (now : DateTime)
    : ActionResult :=
  match answer with
  | Ok r => r
  | Err e => agent_result (ce_command_id env) Failed ("actuator dispatch failed: " +:+ e) now
  end.

(** The result to report, the ledger, and the command that was dispatched. *)
Definition process_command (env : CommandEnvelope) (ring : Keyring) (w : Append)
    (answer : result string ActionResult) (now : DateTime) (l : Ledger)
    : option ActionResult * Ledger * list CommandEnvelope :=
  match process_check env ring w now l with
  | (inl r, l) => (r, l, [])
  | (inr _, l) => (Some (process_send env answer now), l, [env])
  end.

(** One envelope of a poll with what happens around it. *)
Record Delivery := mkDelivery {
  dl_env : CommandEnvelope;
  dl_append : Append;
  dl_answer : result string ActionResult;
  dl_now : DateTime;
}.
(** The loop of [poll_once]: the reported results, the ledger, the dispatched
    commands. *)
Fixpoint poll_loop (ds : list Delivery) (ring : Keyring) (l : Ledger)
    : list ActionResult * Ledger * list CommandEnvelope :=
  match ds with
  | [] => ([], l, [])
  | d :: ds' =>
      let '(r, l, sent) := process_command (dl_env d) ring (dl_append d) (dl_answer d) (dl_now d) l in
      let '(rs, l, sents) := poll_loop ds' ring l in
      (match r with Some r => r :: rs | None => rs end, l, sent ++ sents)
  end.
(** [poll_once]: [None] is a failed fetch. *)
Definition poll_once (fetched : option (list Delivery)) (ring : Keyring) (l : Ledger)
    : result unit (list ActionResult) * Ledger * list CommandEnvelope :=
  match fetched with
  | None => (Err tt, l, [])
  | Some ds => let '(rs, l, sent) := poll_loop ds ring l in (Ok rs, l, sent)
  end.
End Agent.

(** ** Runs with crashes *)

Section Runs.
Context `{Base64} `{Ed25519} `{SerdeJson} `{UuidText}.

(** A delivered command, with or without a crash between the ledger write and the
    dispatch; a keyring refresh; a restart, which reads the ledger back. *)
Inductive AgentOp :=
  | Deliver (d : Delivery) (crash : bool)
  | SetRing (ring : Keyring)
  | RestartAgent.

Definition agent_exec (op : AgentOp) (st : Keyring * Ledger) : list CommandEnvelope * (Keyring * Ledger) :=
  let (ring, l) := st in
  match op with
  | Deliver d crash =>
      if crash then
        let (_, l) := process_check (dl_env d) ring (dl_append d) (dl_now d) l in
        ([], (ring, ledger_load (Some (lg_disk l))))
      else
        let '(_, l, sent) :=
          process_command (dl_env d) ring (dl_append d) (dl_answer d) (dl_now d) l in
        (sent, (ring, l))
  | SetRing ring => ([], (ring, l))
  | RestartAgent => ([], (ring, ledger_load (Some (lg_disk l))))
  end.
(** The commands dispatched over a run, in order. *)
Fixpoint agent_run (ops : list AgentOp) (st : Keyring * Ledger) : list CommandEnvelope * (Keyring * Ledger) :=
  match ops with
  | [] => ([], st)
  | op :: ops' =>
      let (sent, st) := agent_exec op st in
      let (sents, st) := agent_run ops' st in (sent ++ sents, st)
  end.

(** No append leaves part of a line behind. *)
Definition clean_op (op : AgentOp) : Prop :=
  match op with Deliver d _ => dl_append d = Wrote \/ dl_append d = Torn 0 | _ => True end.
End Runs.

(** ** The adaptive poll loop *)

Definition MIN_POLL_SECS : N := 5.
Definition BACKOFF_MULTIPLIER : N := 2.
Definition MAX_BACKOFF_SECS : N := 300.
Definition CIRCUIT_OPEN_THRESHOLD : N := 5.
Definition CIRCUIT_OPEN_SECS : N := 60.

Record PollState := mkPoll {
  ps_consecutive_errors : N;
  ps_backoff_secs : N;
  ps_base_poll_secs : N;
}.
Definition poll_new (poll_secs : N) : PollState :=
  {| ps_consecutive_errors := 0; ps_backoff_secs := poll_secs; ps_base_poll_secs := poll_secs |}.
Definition record_success (s : PollState) : PollState :=
  {| ps_consecutive_errors := 0; ps_backoff_secs := ps_base_poll_secs s;
     ps_base_poll_secs := ps_base_poll_secs s |}.

(** [u64::saturating_mul]. *)
Definition saturating_mul (a b : N) : N := N.min (a * b) (2 ^ 64 - 1).
(** The cap of the delay after the given number of errors. *)
Definition raw_backoff (base errors : N) : N :=
  N.min (saturating_mul base (BACKOFF_MULTIPLIER ^ N.min (errors - 1) 31)) MAX_BACKOFF_SECS.
(** [record_error]: [draw] gives the jitter drawn from [0..=raw].  The count of
    consecutive errors is a [u32] in the source; with the circuit open each of
    them takes a minute, so it is kept unbounded here. *)
Definition record_error (draw : N -> N) (s : PollState) : N * bool * PollState :=
  let errors := (ps_consecutive_errors s + 1)%N in
  let raw := raw_backoff (ps_base_poll_secs s) errors in
  let backoff := N.max (draw raw) 1 in
  (backoff, (errors =? CIRCUIT_OPEN_THRESHOLD)%N,
   {| ps_consecutive_errors := errors; ps_backoff_secs := backoff;
      ps_base_poll_secs := ps_base_poll_secs s |}).
Definition circuit_is_open (s : PollState) : bool :=
  (CIRCUIT_OPEN_THRESHOLD <=? ps_consecutive_errors s)%N.

(** The pause of [run] before the next poll, and its clamped interval. *)
Definition next_sleep (s : PollState) : N :=
  if circuit_is_open s then CIRCUIT_OPEN_SECS else ps_backoff_secs s.
Definition run_start (poll_secs : N) : PollState := poll_new (N.max poll_secs MIN_POLL_SECS).
(** One turn of the loop: a successful poll, or a failed one with its draw. *)
Inductive PollOutcome := PollOk | PollErr (draw : N -> N).
Definition run_turn (s : PollState) (o : PollOutcome) : PollState :=
  match o with PollOk => record_success s | PollErr draw => (record_error draw s).2 end.
Definition poll_run (poll_secs : N) (os : list PollOutcome) : PollState :=
  foldl run_turn (run_start poll_secs) os.

(** The errors since the last success. *)
Fixpoint trailing_errors (os : list PollOutcome) (acc : N) : N :=
  match os with
  | [] => acc
  | PollOk :: os' => trailing_errors os' 0
  | PollErr _ :: os' => trailing_errors os' (acc + 1)
  end.

(** ** The ledger file *)

Lemma split_on_cons (p : ascii -> bool) (l : string) (c : ascii) (rest : string) :
  str_forallb (fun x => negb (p x)) l = true -> p c = true ->
  split_on p (l +:+ String c rest) = l :: split_on p rest.
Proof.
  intros Hl Hc. induction l as [|d l IH]; cbn in *; [by rewrite Hc|].
  apply andb_true_iff in Hl as [Hd%negb_true_iff Hl]. by rewrite Hd, IH.
Qed.

Lemma split_on_not_nil (p : ascii -> bool) (s : string) : split_on p s <> [].
Proof. destruct s as [|c s]; cbn; [done|]. destruct (p c); [done|]. by destruct (split_on p s). Qed.

Lemma graphic_not_byte (n : N) (c : ascii) : (n < 33)%N -> graphic c = true -> is_byte n c = false.
Proof.
  unfold graphic, in_range, is_byte. intros Hn [H1%N.leb_le _]%andb_true_iff. apply N.eqb_neq. lia.
Qed.

Lemma last_byte_forallb (p : ascii -> bool) (s : string) (c : ascii) :
  str_forallb p s = true -> last_byte s = Some c -> p c = true.
Proof.
  induction s as [|d s IH]; cbn; [done|]. intros [Hd Hs]%andb_true_iff.
  destruct s; [by intros [= <-]|]. by apply IH.
Qed.

(** Printable ASCII, spaces included. *)
Definition printable (c : ascii) : bool := in_range 32 126 c.
Lemma printable_not_byte (n : N) (c : ascii) : (n < 32)%N -> printable c = true -> is_byte n c = false.
Proof.
  unfold printable, in_range, is_byte. intros Hn [H1%N.leb_le _]%andb_true_iff. apply N.eqb_neq. lia.
Qed.
Lemma graphic_printable (c : ascii) : graphic c = true -> printable c = true.
Proof. unfold graphic, printable, in_range. rewrite !andb_true_iff, !N.leb_le. lia. Qed.
Lemma printable_no_newline (l : string) :
  str_forallb printable l = true -> str_forallb (fun c => negb (is_byte 10 c)) l = true.
Proof. apply str_forallb_impl. intros c Hc. by rewrite printable_not_byte. Qed.

Lemma lines_printable (l rest : string) :
  str_forallb printable l = true -> lines (l +:+ newline +:+ rest) = l :: lines rest.
Proof.
  intros Hl. unfold lines, newline. cbn [String.append]. rewrite split_on_cons; [|by apply printable_no_newline|done].
  cbn. destruct (split_on (is_byte 10) rest) as [|w ws] eqn:E; [by apply split_on_not_nil in E|].
  f_equal. unfold strip_cr. destruct (last_byte l) as [c|] eqn:Hc; [|done].
  rewrite printable_not_byte; [done|lia|]. by eapply last_byte_forallb.
Qed.

Lemma lines_cons (l rest : string) :
  str_forallb graphic l = true -> lines (l +:+ newline +:+ rest) = l :: lines rest.
Proof. intros Hl. apply lines_printable. eapply str_forallb_impl; [exact graphic_printable|exact Hl]. Qed.

Section LedgerFacts.
Context `{B64 : Base64} `{Ed : Ed25519} `{SJ : SerdeJson} `{UL : UuidTextLaws}.

(** The text of a ledger of whole lines. *)
Fixpoint ledger_text (ids : list Uuid) : string :=
  match ids with
  | [] => EmptyString
  | id :: ids' => uuid_to_string id +:+ newline +:+ ledger_text ids'
  end.

Lemma ledger_text_snoc ids id :
  ledger_text (ids ++ [id]) = ledger_text ids +:+ uuid_to_string id +:+ newline.
Proof.
  induction ids as [|i ids IH]; [cbn [app ledger_text]; by rewrite str_app_nil_r|].
  cbn [app ledger_text]. rewrite IH. by rewrite !str_app_assoc.
Qed.

Lemma ledger_ids_text ids : ledger_ids (ledger_text ids) = ids.
Proof.
  unfold ledger_ids. induction ids as [|id ids IH]; [done|]. cbn [ledger_text].
  rewrite lines_cons by apply uuid_graphic. cbn [omap list_omap].
  by rewrite trim_graphic, uuid_roundtrip, IH by apply uuid_graphic.
Qed.

(** What the ledger knows: the file is whole lines, and all of them are seen. *)
Record ledger_wf (l : Ledger) (ids : list Uuid) : Prop := {
  lw_disk : lg_disk l = ledger_text ids;
  lw_seen : forall id, id ∈ ids -> id ∈ lg_seen l;
}.

Lemma ledger_load_wf ids : ledger_wf (ledger_load (Some (ledger_text ids))) ids.
Proof.
  split; [done|]. intros id Hid. unfold ledger_load. cbn [lg_seen]. apply elem_of_list_to_set.
  change (id ∈ ledger_ids (ledger_text ids)). by rewrite ledger_ids_text.
Qed.

Lemma process_check_wf env ring w now l ids x l' :
  ledger_wf l ids -> w = Wrote \/ w = Torn 0 -> process_check env ring w now l = (x, l') ->
  exists ids', ledger_wf l' (ids ++ ids')
    /\ (x = inr tt -> ids' = [ce_command_id env] /\ ce_command_id env ∉ ids
         /\ verify_envelope_with ring env now = Ok tt).
Proof.
  intros [Hd Hs] Hw. unfold process_check.
  destruct (ledger_contains (ce_command_id env) l) eqn:Hc.
  { intros [= <- <-]. exists []. rewrite app_nil_r. by split. }
  destruct (verify_envelope_with ring env now) as [[]|] eqn:Hv.
  2:{ intros [= <- <-]. exists []. rewrite app_nil_r. by split. }
  unfold ledger_record. rewrite Hc. unfold ledger_contains in Hc. apply bool_decide_eq_false in Hc.
  destruct Hw as [->| ->]; intros [= <- <-].
  - exists [ce_command_id env]. split.
    + split; cbn; [by rewrite ledger_text_snoc, Hd|set_solver].
    + intros _. split_and!; [done| |done]. auto.
  - exists []. rewrite app_nil_r. split; [|done]. split; cbn [lg_disk lg_seen]; [|set_solver].
    rewrite Hd. destruct (uuid_to_string (ce_command_id env) +:+ newline); cbn; apply str_app_nil_r.
Qed.

Lemma agent_exec_wf op ring l ids sent st' :
  ledger_wf l ids -> clean_op op -> agent_exec op (ring, l) = (sent, st') ->
  exists ids', ledger_wf st'.2 (ids ++ ids')
    /\ (sent = [] \/ exists env, sent = [env] /\ ids' = [ce_command_id env] /\ ce_command_id env ∉ ids).
Proof.
  intros Hwf Hclean. destruct op as [d crash|ring'|]; cbn.
  - destruct crash.
    + destruct (process_check _ _ _ _ _) as [x l1] eqn:Hp. intros [= <- <-].
      destruct (process_check_wf _ _ _ _ _ _ _ _ Hwf Hclean Hp) as (ids' & [Hd Hs] & _).
      exists ids'. split; [|by left]. cbn [snd]. rewrite Hd. apply ledger_load_wf.
    + unfold process_command. destruct (process_check _ _ _ _ _) as [x l1] eqn:Hp.
      destruct (process_check_wf _ _ _ _ _ _ _ _ Hwf Hclean Hp) as (ids' & Hwf' & Hx).
      destruct x as [r|[]]; intros [= <- <-]; exists ids'; (split; [done|]); [by left|].
      destruct (Hx eq_refl) as (-> & Hnew & _). right. eauto.
  - intros [= <- <-]. exists []. rewrite app_nil_r. by split; [|left].
  - intros [= <- <-]. exists []. rewrite app_nil_r. split; [|by left]. cbn [snd].
    destruct Hwf as [-> _]. apply ledger_load_wf.
Qed.

Lemma agent_run_fresh ops ring l ids :
  ledger_wf l ids -> Forall clean_op ops ->
  NoDup (map ce_command_id (agent_run ops (ring, l)).1)
  /\ Forall (fun env => ce_command_id env ∉ ids) (agent_run ops (ring, l)).1.
Proof.
  revert ring l ids; induction ops as [|op ops IH]; intros ring l ids Hwf Hclean; cbn [agent_run].
  { split; cbn; constructor. }
  apply Forall_cons in Hclean as [Hop Hclean].
  destruct (agent_exec op (ring, l)) as [sent [ring' l']] eqn:He.
  destruct (agent_exec_wf _ _ _ _ _ _ Hwf Hop He) as (ids' & Hwf' & Hsent). cbn in Hwf'.
  destruct (IH ring' l' _ Hwf' Hclean) as [Hnd Hfr].
  destruct (agent_run ops (ring', l')) as [sents st']. cbn [fst] in *.
  destruct Hsent as [->|(env & -> & -> & Hnew)]; cbn [app map].
  - split; [done|]. eapply Forall_impl; [exact Hfr|]. cbn. set_solver.
  - split.
    + apply NoDup_cons. split; [|done]. intros (env' & Heq & Hin)%list_elem_of_fmap.
      rewrite Forall_forall in Hfr. specialize (Hfr env' Hin). set_solver.
    + constructor; [done|]. eapply Forall_impl; [exact Hfr|]. cbn. set_solver.
Qed.

(** C5. At most once, across crashes: over any sequence of deliveries (repeated,
    reordered, interrupted by a crash after the ledger write), key rotations and
    restarts that read the ledger back, no command id is dispatched to the
    actuator twice, and none that the ledger file already listed is dispatched
    at all, as long as no append leaves a torn line. *)
Theorem at_most_once (ops : list AgentOp) (ring : Keyring) (ids : list Uuid) :
  Forall clean_op ops ->
  let sent := (agent_run ops (ring, ledger_load (Some (ledger_text ids)))).1 in
  NoDup (map ce_command_id sent) /\ Forall (fun env => ce_command_id env ∉ ids) sent.
Proof. intros Hclean. cbv zeta. apply agent_run_fresh; [apply ledger_load_wf|done]. Qed.
End LedgerFacts.

(** ** Backoff *)

(** The jitter is drawn within its range. *)
Definition legal (o : PollOutcome) : Prop :=
  match o with PollOk => True | PollErr draw => forall raw, (draw raw <= raw)%N end.

Record poll_wf (base : N) (s : PollState) : Prop := {
  pw_base : ps_base_poll_secs s = base;
  pw_idle : ps_consecutive_errors s = 0%N -> ps_backoff_secs s = base;
  pw_error : (0 < ps_consecutive_errors s)%N ->
    (1 <= ps_backoff_secs s <= N.max 1 (raw_backoff base (ps_consecutive_errors s)))%N;
}.

Lemma run_turn_wf base s o : poll_wf base s -> legal o -> poll_wf base (run_turn s o).
Proof.
  intros [Hb Hi He] Hl. destruct o as [|draw]; cbn; split; cbn; [done|done|lia|done|lia|].
  intros _. rewrite Hb. specialize (Hl (raw_backoff base (ps_consecutive_errors s + 1))).
  lia.
Qed.

Lemma poll_turns_wf base os s :
  poll_wf base s -> Forall legal os ->
  poll_wf base (foldl run_turn s os)
  /\ ps_consecutive_errors (foldl run_turn s os) = trailing_errors os (ps_consecutive_errors s).
Proof.
  revert s; induction os as [|o os IH]; intros s Hs Hl; cbn; [done|].
  apply Forall_cons in Hl as [Ho Hl]. destruct (IH (run_turn s o)) as [Hw He]; [by apply run_turn_wf|done|].
  split; [done|]. rewrite He. by destruct o.
Qed.

(** The poll loop is polite: after any history of polls the pause before the
    next one is the clamped interval when the last poll succeeded; between one
    second and the exponential cap, never above five minutes, after one to four
    consecutive errors; and exactly one minute from the fifth on, when the
    circuit is open. *)
Theorem backoff_bounds (poll_secs : N) (os : list PollOutcome) :
  Forall legal os ->
  let base := N.max poll_secs 5 in
  let errors := trailing_errors os 0 in
  let pause := next_sleep (poll_run poll_secs os) in
  (errors = 0 -> pause = base)%N
  /\ (0 < errors < 5 -> 1 <= pause <= N.min (base * 2 ^ (errors - 1)) 300)%N
  /\ (5 <= errors -> pause = 60)%N.
Proof.
  intros Hl. cbv zeta.
  destruct (poll_turns_wf (N.max poll_secs 5) os (run_start poll_secs)) as [[Hb Hi He] Herr]; [|done|].
  { by split; cbn. }
  change (foldl run_turn (run_start poll_secs) os) with (poll_run poll_secs os) in *.
  change (ps_consecutive_errors (run_start poll_secs)) with 0%N in Herr.
  rewrite <-!Herr. unfold next_sleep, circuit_is_open, CIRCUIT_OPEN_THRESHOLD.
  set (s := poll_run poll_secs os) in *. destruct (N.leb_spec 5 (ps_consecutive_errors s)) as [H5|H5].
  { split_and!; intros; [lia|lia|done]. }
  split_and!; [done| |lia]. intros [Hpos _]. specialize (He Hpos).
  unfold raw_backoff, saturating_mul, MAX_BACKOFF_SECS, BACKOFF_MULTIPLIER in He.
  rewrite (N.min_l (ps_consecutive_errors s - 1) 31) in He by lia.
  assert (5 <= N.max poll_secs 5 * 2 ^ (ps_consecutive_errors s - 1))%N; [|lia].
  assert (2 ^ (ps_consecutive_errors s - 1) <> 0)%N by (apply N.pow_nonzero; lia). nia.
Qed.

(** ** Trust *)

Section TrustFacts.
Context `{Base64} `{Ed25519} `{SerdeJson}.

(** The agent always has someone to trust: the keyring it loads is well
    formed and not empty, and refreshing it keeps that, whatever the control
    plane serves; a failed fetch, a garbled or an empty document changes neither
    the ring nor the pinned file. *)
Theorem agent_keyring_never_empty (ring_file pubkey_file : option string) (ring : Keyring)
    (fetched : option string) (persist_ok : bool) (file : option string) :
  load_pinned_keyring ring_file pubkey_file = Some ring ->
  let (ring', file') := refresh_keyring fetched persist_ok (ring, file) in
  keyring_wf ring /\ keyring_is_empty ring = false
  /\ keyring_wf ring' /\ keyring_is_empty ring' = false
  /\ (ring' = ring /\ file' = file
      \/ exists json, fetched = Some json /\ keyring_from_json json = Ok ring'
           /\ file' = (if persist_ok then Some json else file)).
Proof.
  intros Hload. assert (keyring_wf ring /\ keyring_is_empty ring = false) as [Hw He].
  { unfold load_pinned_keyring in Hload.
    assert ((b64 ← pubkey_file; match verifying_key_from_b64 b64 with
      | Ok k => Some (keyring_single k) | Err _ => None end) = Some ring ->
      keyring_wf ring /\ keyring_is_empty ring = false) as Hleg.
    { destruct pubkey_file as [b64|]; cbn; [|done]. destruct (verifying_key_from_b64 b64); [|done].
      intros [= <-]. split; [apply single_wf|done]. }
    destruct ring_file as [json|]; [|auto]. destruct (keyring_from_json json) as [r|] eqn:Hj; [|auto].
    destruct (keyring_is_empty r) eqn:Hr; [auto|]. injection Hload as <-.
    split; [by eapply from_json_wf|done]. }
  unfold refresh_keyring. destruct fetched as [json|]; [|by auto 10].
  destruct (keyring_from_json json) as [fresh|] eqn:Hj; [|by auto 10].
  destruct (keyring_is_empty fresh) eqn:Hf; [by auto 10|].
  destruct (_ || _); [|by auto 10]. split_and!; [done..|by eapply from_json_wf|done|].
  right. exists json. done.
Qed.
End TrustFacts.

(** ** Examples *)

#[export] Instance toy_uuid : UuidText :=
  {| uuid_to_string u := String "u" (bits_encode u);
     uuid_parse s := match s with String c s' => if is_byte 117 c then bits_decode s' else None
                     | EmptyString => None end |}.
#[export] Instance toy_uuid_laws : UuidTextLaws.
Proof.
  constructor; cbn; intros u; [apply bits_decode_encode|].
  unfold bits_encode. by induction (encode u) as [p IH|p IH|]; cbn.
Qed.

Definition toy_delivery (w : Append) : Delivery :=
  {| dl_env := sign_envelope key_a example_envelope; dl_append := w; dl_answer := Err "no socket";
     dl_now := 10 |}.

Lemma at_most_once_witness :
  let ops := [Deliver (toy_delivery (Torn 0)) false; Deliver (toy_delivery Wrote) false; RestartAgent;
              Deliver (toy_delivery Wrote) false] in
  let sent := (agent_run ops (keyring_single (verifying_key key_a),
                 ledger_load (Some (ledger_text [3%N])))).1 in
  NoDup (map ce_command_id sent).
Proof.
  cbv zeta. apply at_most_once. constructor; [right; reflexivity|].
  constructor; [left; reflexivity|]. constructor; [exact I|].
  constructor; [left; reflexivity|constructor].
Defined.

Lemma backoff_bounds_witness :
  next_sleep (poll_run 10 [PollOk; PollErr (fun raw => raw); PollErr (fun raw => raw)]) = 20%N
  /\ (1 <= next_sleep (poll_run 10 [PollOk; PollErr (fun raw => raw); PollErr (fun raw => raw)])
        <= N.min (N.max 10 5 * 2 ^ (2 - 1)) 300)%N.
Proof.
  split; [reflexivity|].
  apply (backoff_bounds 10 [PollOk; PollErr (fun raw => raw); PollErr (fun raw => raw)]).
  - repeat constructor; cbn; lia.
  - cbn. lia.
Defined.

Lemma agent_keyring_never_empty_witness :
  let ring := keyring_single (verifying_key key_a) in
  let (ring', _) := refresh_keyring (Some (keyring_to_json (keyring_single (verifying_key key_b)))) true
                      (ring, None) in
  keyring_is_empty ring' = false.
Proof.
  cbv zeta.
  assert (load_pinned_keyring None (Some (verifying_key_to_b64 (verifying_key key_a)))
          = Some (keyring_single (verifying_key key_a))) as Hl by (vm_compute; reflexivity).
  pose proof (agent_keyring_never_empty None _ _
    (Some (keyring_to_json (keyring_single (verifying_key key_b)))) true None Hl) as H.
  destruct (refresh_keyring _ _ _) as [ring' file']. apply H.
Defined.

(** An append that fails part way leaves the next id on the same line: after a
    restart that id is forgotten, and its command runs a second time. *)
Theorem torn_append_forgets :
  let other := {| dl_env := sign_envelope key_a
                    (set_sig None {| ce_command_id := 8; ce_agent_id := ce_agent_id example_envelope;
                       ce_template_id := "t"; ce_template_version := 1; ce_risk_tier := Safe;
                       ce_preconditions := []; ce_steps := []; ce_verify := None;
                       ce_rollback := RollbackNone; ce_approval_ref := PolicyAuto; ce_nonce := "m";
                       ce_issued_at := 0; ce_expires_at := 300; ce_kid := None; ce_sig := None |});
                  dl_append := Torn 2; dl_answer := Err "no socket"; dl_now := 10 |} in
  let ops := [Deliver other false; Deliver (toy_delivery Wrote) false; RestartAgent;
              Deliver (toy_delivery Wrote) false] in
  map ce_command_id (agent_run ops (keyring_single (verifying_key key_a), ledger_load None)).1
  = [7%N; 7%N].
Proof. vm_compute. reflexivity. Qed.
