(* ===== verification/KnowledgeFormat.v ===== *)
(** * The entries of the knowledge base read back ([ravn-server/src/knowledge.rs])

    The file format is written and read by hand: a front matter of one line per
    field, an inline map, a block list of inline maps, and a body. This file proves
    that what [to_markdown] writes [from_markdown] reads, for the entries whose
    fields do not contain the characters the format gives a meaning to, and shows
    the ones that do lose something. *)

From S2P Require Export Knowledge AgentPull.

(** ** Text whose ends are not white space *)

Definition solid (s : string) : bool :=
  match first_byte s, last_byte s with Some c, Some d => graphic c && graphic d | _, _ => false end.

Lemma last_byte_app (a b : string) : b <> EmptyString -> last_byte (a +:+ b) = last_byte b.
Proof.
  intros Hb. induction a as [|c a IH]; cbn; [done|]. rewrite IH. by destruct (a +:+ b) eqn:E; [destruct a, b|].
Qed.

Lemma last_byte_rev' (s : string) : first_byte (str_rev s) = last_byte s.
Proof. rewrite <-(str_rev_involutive s) at 2. by rewrite last_byte_rev. Qed.

Lemma solid_app (a b c : string) :
  (exists x, first_byte a = Some x /\ graphic x = true) -> (exists x, last_byte c = Some x /\ graphic x = true) ->
  solid (a +:+ b +:+ c) = true.
Proof.
  intros (x & Hx & Hgx) (y & Hy & Hgy). unfold solid.
  destruct a as [|x' a]; [done|]. injection Hx as ->. cbn [first_byte String.append].
  change (String x (a +:+ b +:+ c)) with (String x a +:+ b +:+ c). rewrite <-str_app_assoc, last_byte_app; [|by intros ->].
  by rewrite Hy, Hgx, Hgy.
Qed.

Lemma solid_inv (s : string) :
  solid s = true -> exists c d, first_byte s = Some c /\ last_byte s = Some d /\ graphic c = true /\ graphic d = true.
Proof.
  unfold solid. destruct (first_byte s) as [c|]; [|done]. destruct (last_byte s) as [d|]; [|done].
  intros [? ?]%andb_true_iff. eauto 10.
Qed.

Lemma graphic_solid (s : string) : str_forallb graphic s = true -> s <> EmptyString -> solid s = true.
Proof.
  intros Hs Hne. unfold solid. destruct s as [|c s]; [done|]. cbn [first_byte].
  destruct (last_byte (String c s)) as [d|] eqn:Hd.
  - rewrite (last_byte_forallb graphic _ d Hs Hd). cbn in Hs. apply andb_true_iff in Hs as [-> _]. done.
  - exfalso. clear Hs Hne. revert c Hd. induction s as [|d s IH]; intros c; cbn; [done|]. apply IH.
Qed.

Lemma trim_start_id (s : string) (c : ascii) : first_byte s = Some c -> graphic c = true -> trim_start s = s.
Proof.
  destruct s as [|d s]; [done|]. intros [= ->] Hc. apply graphic_no_ws in Hc as (? & ? & _ & ? & _).
  unfold trim_start. by apply ws_strip_all_id, ws_strip_None.
Qed.

Lemma trim_end_id (s : string) (d : ascii) : last_byte s = Some d -> graphic d = true -> trim_end s = s.
Proof.
  intros Hl Hd. unfold trim_end. rewrite ws_strip_all_id; [apply str_rev_involutive|].
  rewrite <-last_byte_rev' in Hl. destruct (str_rev s) as [|c r]; [done|]. injection Hl as ->.
  apply graphic_no_ws in Hd as (? & _ & ? & _ & ?). by apply ws_strip_None.
Qed.

Lemma trim_start_space (s : string) : trim_start (String " " s) = trim_start s.
Proof. reflexivity. Qed.

Lemma trim_end_space (s : string) : trim_end (s +:+ " ") = trim_end s.
Proof.
  unfold trim_end. rewrite str_rev_app_distr, str_length_app, Nat.add_comm. reflexivity.
Qed.

Lemma trim_solid (s : string) : solid s = true -> trim s = s.
Proof.
  intros (c & d & Hc & Hd & Hgc & Hgd)%solid_inv. unfold trim. by rewrite (trim_start_id s c), (trim_end_id s d).
Qed.
Lemma trim_before (s : string) : trim (String " " s) = trim s.
Proof. unfold trim. by rewrite trim_start_space. Qed.
Lemma trim_around (s : string) : solid s = true -> trim (String " " (s +:+ " ")) = s.
Proof.
  intros (c & d & Hc & Hd & Hgc & Hgd)%solid_inv. unfold trim.
  rewrite trim_start_space, (trim_start_id _ c), trim_end_space; [by apply (trim_end_id s d)| |done].
  by destruct s; [|injection Hc as ->].
Qed.

(** ** Quotes and braces *)

Lemma trim_end_matches_stop (p : ascii -> bool) (s : string) (d : ascii) :
  last_byte s = Some d -> p d = false -> trim_end_matches p s = s.
Proof.
  intros Hl Hd. unfold trim_end_matches. rewrite <-last_byte_rev' in Hl.
  destruct (str_rev s) as [|c r] eqn:E; [done|]. injection Hl as ->. cbn. rewrite Hd, <-E. apply str_rev_involutive.
Qed.

Lemma trim_end_matches_snoc (p : ascii -> bool) (s : string) (d : ascii) :
  p d = true -> trim_end_matches p (s +:+ String d EmptyString) = trim_end_matches p s.
Proof. intros Hd. unfold trim_end_matches. rewrite str_rev_app_distr. cbn. by rewrite Hd. Qed.

Definition unquoted (c : ascii) : bool := printable c && negb (is_byte 34 c).

Lemma unquote_quoted (s : string) : str_forallb unquoted s = true -> unquote (dquote +:+ s +:+ dquote) = s.
Proof.
  intros Hs. unfold unquote. rewrite trim_solid by (apply solid_app; eexists; split; reflexivity).
  unfold trim_matches. destruct s as [|c s]; [reflexivity|].
  assert (is_byte 34 c = false) as Hc.
  { cbn in Hs. apply andb_true_iff in Hs as [Hc _]. unfold unquoted in Hc. by apply andb_true_iff in Hc as [_ ?%negb_true_iff]. }
  change (trim_start_matches (is_byte 34) (dquote +:+ String c s +:+ dquote))
    with (trim_start_matches (is_byte 34) (String c (s +:+ dquote))).
  cbn [trim_start_matches]. rewrite Hc. change (String c (s +:+ dquote)) with (String c s +:+ dquote).
  unfold dquote. rewrite trim_end_matches_snoc by reflexivity.
  destruct (last_byte (String c s)) as [d|] eqn:Hd.
  - eapply trim_end_matches_stop; [exact Hd|]. apply (last_byte_forallb _ _ _ Hs) in Hd. unfold unquoted in Hd.
    by apply andb_true_iff in Hd as [_ ?%negb_true_iff].
  - exfalso. clear -Hd. revert c Hd. induction s as [|d s IH]; intros c; cbn; [done|]. apply IH.
Qed.

Lemma strip_braces_spaced (s : string) : solid s = true -> strip_braces ("{ " +:+ s +:+ " }") = s.
Proof.
  intros Hs. unfold strip_braces. rewrite (trim_solid ("{ " +:+ s +:+ " }")) by (apply (solid_app "{ "); eexists; split; reflexivity).
  change (trim_start_matches (is_byte 123) ("{ " +:+ s +:+ " }")) with (String " " (s +:+ " }")).
  assert (String " " (s +:+ " }") = String " " (s +:+ " ") +:+ "}") as ->.
  { cbn. by rewrite str_app_assoc. }
  rewrite trim_end_matches_snoc by reflexivity.
  rewrite (trim_end_matches_stop _ _ " "); [by apply trim_around| |reflexivity].
  change (String " " (s +:+ " ")) with (String " " s +:+ " "). by rewrite last_byte_app.
Qed.

(** ** Numbers *)

Lemma pretty_go_parse (n : N) (s : string) : parse_digits 0 (pretty_N_go n s) = parse_digits n s.
Proof.
  revert s. induction (N.lt_wf_0 n) as [n _ IH]; intros s.
  destruct (decide (n = 0)%N) as [->|Hn]; [by rewrite pretty_N_go_0|].
  rewrite pretty_N_go_step by lia. rewrite IH by (apply N.div_lt; lia). cbn [parse_digits].
  pose proof (N.mod_lt n 10 ltac:(done)) as Hm. pose proof (N.div_mod n 10 ltac:(done)) as Hd.
  assert (is_ascii_digit (pretty_N_char (n mod 10)) = true
          /\ code (pretty_N_char (n mod 10)) = 48 + n mod 10)%N as [-> ->].
  { generalize dependent (n mod 10)%N. intros m Hm _.
    assert (m = 0 \/ m = 1 \/ m = 2 \/ m = 3 \/ m = 4 \/ m = 5 \/ m = 6 \/ m = 7 \/ m = 8 \/ m = 9)%N as Hc by lia.
    by repeat (destruct Hc as [->|Hc]; [done|]); subst m. }
  f_equal. revert Hd. generalize (n `div` 10)%N (n `mod` 10)%N. clear. intros q m Hd. lia.
Qed.

Lemma pretty_go_digits (n : N) (s : string) :
  str_forallb is_ascii_digit (pretty_N_go n s) = str_forallb is_ascii_digit s.
Proof.
  revert s. induction (N.lt_wf_0 n) as [n _ IH]; intros s.
  destruct (decide (n = 0)%N) as [->|Hn]; [by rewrite pretty_N_go_0|].
  rewrite pretty_N_go_step by lia. rewrite IH by (apply N.div_lt; lia). cbn.
  assert (is_ascii_digit (pretty_N_char (n mod 10)) = true) as ->; [|done].
  unfold pretty_N_char. by repeat case_match.
Qed.

Lemma show_N_digits (n : N) : str_forallb is_ascii_digit (show_N n) = true /\ show_N n <> EmptyString.
Proof.
  unfold show_N, pretty, pretty_N. case_decide as Hn; [done|]. split; [by rewrite pretty_go_digits|].
  rewrite pretty_N_go_step by lia. intros He. apply (f_equal String.length) in He. revert He.
  assert (forall m s, String.length s <= String.length (pretty_N_go m s)) as Hlen; [|pose proof (Hlen (n / 10)%N
    (String (pretty_N_char (n mod 10)) EmptyString)) as Hl; cbn in Hl |- *; lia].
  intros m. induction (N.lt_wf_0 m) as [m _ IH]; intros s.
  destruct (decide (m = 0)%N) as [->|Hm]; [by rewrite pretty_N_go_0|].
  rewrite pretty_N_go_step by lia. etrans; [|apply IH; apply N.div_lt; lia]. cbn. lia.
Qed.

Lemma show_N_parse (n : N) : parse_digits 0 (show_N n) = Some n.
Proof. unfold show_N, pretty, pretty_N. case_decide as Hn; [by subst|]. by rewrite pretty_go_parse. Qed.

Lemma digit_graphic (c : ascii) : is_ascii_digit c = true -> graphic c = true.
Proof. unfold is_ascii_digit, graphic, in_range. rewrite !andb_true_iff, !N.leb_le. lia. Qed.

Lemma parse_uint_show (max n : N) : (n <= max)%N -> parse_uint max (show_N n) = Some n.
Proof.
  intros Hn. pose proof (show_N_digits n) as [Hd Hne]. unfold parse_uint.
  assert ((match show_N n with String c s' => if is_byte 43 c then s' else show_N n | _ => show_N n end) = show_N n) as ->.
  { destruct (show_N n) as [|c s]; [done|]. cbn in Hd. apply andb_true_iff in Hd as [Hc _].
    destruct (is_byte 43 c) eqn:E; [|done]. unfold is_byte, is_ascii_digit, in_range in *.
    apply N.eqb_eq in E. rewrite E in Hc. done. }
  destruct (is_empty (show_N n)) eqn:E; [by destruct (show_N n)|]. rewrite show_N_parse.
  by rewrite (proj2 (N.leb_le _ _) Hn).
Qed.

Lemma parse_i64_show (z : Z) : (- 2 ^ 63 <= z < 2 ^ 63)%Z -> parse_i64 (show_Z z) = Some z.
Proof.
  intros Hz. unfold show_Z, pretty, pretty_Z. destruct z as [|p|p]; [reflexivity| |].
  - change (pretty p) with (show_N (Npos p)).
    pose proof (show_N_digits (Npos p)) as [Hd Hne]. pose proof (parse_uint_show (2 ^ 63 - 1) (Npos p)) as Hp.
    unfold parse_i64. destruct (show_N (Npos p)) as [|c s]; [done|].
    assert (is_byte 45 c = false) as ->; [|rewrite Hp by lia; done].
    cbn in Hd. apply andb_true_iff in Hd as [Hc _]. unfold is_byte, is_ascii_digit, in_range in *.
    apply N.eqb_neq. intros E. rewrite E in Hc. done.
  - change (pretty p) with (show_N (Npos p)). change ("-" +:+ show_N (Npos p)) with (String "-" (show_N (Npos p))).
    unfold parse_i64. change (is_byte 45 "-") with true. cbn iota.
    pose proof (show_N_digits (Npos p)) as [_ Hne]. destruct (is_empty (show_N (Npos p))) eqn:E; [by destruct (show_N _)|].
    rewrite show_N_parse. rewrite (proj2 (N.leb_le _ _)) by lia. done.
Qed.

(** ** Lines *)

Fixpoint unlines (ls : list string) : string :=
  match ls with [] => EmptyString | l :: ls' => l +:+ newline +:+ unlines ls' end.

Lemma unlines_app (l1 l2 : list string) : unlines (l1 ++ l2) = unlines l1 +:+ unlines l2.
Proof. induction l1 as [|l l1 IH]; cbn; [done|]. by rewrite IH, !str_app_assoc. Qed.

(** The closing rule of the front matter. *)
Definition closer : string := newline +:+ "---" +:+ newline.

Lemma cut_line (l rest : string) :
  str_forallb printable l = true ->
  cut closer (l +:+ newline +:+ rest)
  = match strip_prefix ("---" +:+ newline) rest with
    | Some r => Some (l, r)
    | None => match cut closer rest with Some (a, b) => Some (l +:+ newline +:+ a, b) | None => None end
    end.
Proof.
  induction l as [|c l IH]; intros Hl.
  - change (EmptyString +:+ newline +:+ rest) with (String (ascii_of_N 10) rest).
    assert (strip_prefix closer (String (ascii_of_N 10) rest) = strip_prefix ("---" +:+ newline) rest) as Hs by reflexivity.
    cbn [cut]. rewrite Hs. destruct (strip_prefix ("---" +:+ newline) rest); [done|]. by destruct (cut closer rest) as [[a b]|].
  - cbn in Hl. apply andb_true_iff in Hl as [Hc Hl]. cbn [String.append cut].
    assert (strip_prefix closer (String c (l +:+ newline +:+ rest)) = None) as ->.
    { unfold closer. cbn [String.append newline strip_prefix]. destruct (Ascii.eqb_spec (ascii_of_N 10) c) as [<-|]; done. }
    rewrite (IH Hl). destruct (strip_prefix _ rest); [done|]. by destruct (cut closer rest) as [[a b]|].
Qed.

(** A line of the front matter. *)
Definition front_ok (l : string) : bool :=
  str_forallb printable l && match first_byte l with Some c => negb (is_byte 45 c) | None => false end.

Lemma front_ok_inv (l : string) :
  front_ok l = true -> str_forallb printable l = true /\ exists c l', l = String c l' /\ is_byte 45 c = false.
Proof.
  unfold front_ok. intros [Hp Hf]%andb_true_iff. split; [done|]. destruct l as [|c l]; [done|].
  exists c, l. split; [done|]. by apply negb_true_iff.
Qed.

Lemma cut_unlines (l : string) (ls : list string) (body : string) :
  Forall (fun l => front_ok l = true) (l :: ls) ->
  cut closer (unlines (l :: ls) +:+ "---" +:+ newline +:+ body) = Some (join newline (l :: ls), body).
Proof.
  revert l. induction ls as [|l2 ls IH]; intros l [Hl Hls]%Forall_cons; cbn [unlines];
    rewrite !str_app_assoc, cut_line by apply (front_ok_inv l Hl).
  - done.
  - assert (strip_prefix ("---" +:+ newline) (unlines (l2 :: ls) +:+ "---" +:+ newline +:+ body) = None) as Hn.
    { apply Forall_cons in Hls as [(_ & c & l' & -> & Hc)%front_ok_inv _]. cbn [unlines String.append strip_prefix].
      destruct (Ascii.eqb_spec "-" c) as [<-|]; [|done]. done. }
    cbn [unlines] in Hn. rewrite !str_app_assoc in Hn. rewrite Hn.
    specialize (IH l2 Hls). cbn [unlines] in IH. rewrite !str_app_assoc in IH. by rewrite IH.
Qed.

Lemma lines_join (l : string) (ls : list string) :
  Forall (fun l => front_ok l = true) (l :: ls) -> lines (join newline (l :: ls)) = l :: ls.
Proof.
  revert l. induction ls as [|l2 ls IH]; intros l [Hl Hls]%Forall_cons.
  - apply front_ok_inv in Hl as (Hp & c & l' & -> & _). cbn [join]. unfold lines.
    assert (split_on (is_byte 10) (String c l') = [String c l']) as ->; [|done].
    apply printable_no_newline in Hp. revert Hp. generalize (String c l') as s. intros s.
    induction s as [|d s IH]; cbn; [done|]. intros [Hd%negb_true_iff Hs]%andb_true_iff. by rewrite Hd, (IH Hs).
  - change (join newline (l :: l2 :: ls)) with (l +:+ newline +:+ join newline (l2 :: ls)).
    rewrite lines_printable by apply (front_ok_inv l Hl). by rewrite IH.
Qed.

(** ** The inline map *)

Definition plain_text (bad : ascii -> bool) (s : string) : bool :=
  str_forallb (fun c => graphic c && negb (bad c)) s && negb (is_empty s).
(** A comma and a colon end a key, a comma a value. *)
Definition param_ok (p : string * string) : bool :=
  plain_text (fun c => is_byte 44 c || is_byte 58 c) p.1 && plain_text (is_byte 44) p.2.

Lemma plain_text_inv bad s :
  plain_text bad s = true ->
  str_forallb graphic s = true /\ str_forallb (fun c => negb (bad c)) s = true /\ s <> EmptyString /\ solid s = true.
Proof.
  unfold plain_text. intros [Hs Hne]%andb_true_iff.
  assert (str_forallb graphic s = true /\ str_forallb (fun c => negb (bad c)) s = true) as [Hg Hb].
  { split; (eapply str_forallb_impl; [|exact Hs]); intros c; cbn; by intros [? ?]%andb_true_iff. }
  assert (s <> EmptyString) as He by (by intros ->). split_and!; [done..|]. by apply graphic_solid.
Qed.

Lemma split_on_space (p : ascii -> bool) (s : string) :
  p " "%char = false ->
  split_on p (String " " s) = match split_on p s with w :: ws => String " " w :: ws | [] => [] end.
Proof.
  intros Hp. cbn. rewrite Hp. destruct (split_on p s) eqn:E; [by apply split_on_not_nil in E|done].
Qed.

Lemma split_on_none (p : ascii -> bool) (s : string) :
  str_forallb (fun c => negb (p c)) s = true -> split_on p s = [s].
Proof.
  induction s as [|c s IH]; cbn; [done|]. intros [Hc%negb_true_iff Hs]%andb_true_iff. by rewrite Hc, IH.
Qed.

Lemma split_on_join (p : ascii -> bool) (sep : ascii) (x : string) (xs : list string) :
  p sep = true -> p " "%char = false -> Forall (fun x => str_forallb (fun c => negb (p c)) x = true) (x :: xs) ->
  split_on p (join (String sep " ") (x :: xs)) = x :: map (String " ") xs.
Proof.
  intros Hsep Hsp. revert x. induction xs as [|y xs IH]; intros x [Hx Hxs]%Forall_cons; [by apply split_on_none|].
  change (join (String sep " ") (x :: y :: xs)) with (x +:+ String sep (String " " (join (String sep " ") (y :: xs)))).
  rewrite split_on_cons by done. rewrite split_on_space by done. by rewrite (IH y Hxs).
Qed.

Lemma cut_char (c : ascii) (a b : string) :
  str_forallb (fun x => negb (Ascii.eqb c x)) a = true -> cut (String c EmptyString) (a +:+ String c b) = Some (a, b).
Proof.
  induction a as [|x a IH]; cbn [str_forallb String.append cut strip_prefix].
  - intros _. by rewrite Ascii.eqb_refl.
  - intros [Hx%negb_true_iff Ha]%andb_true_iff. rewrite Hx. by rewrite IH.
Qed.

Lemma is_byte_eqb (n : N) (c : ascii) : (n < 256)%N -> Ascii.eqb (ascii_of_N n) c = is_byte n c.
Proof.
  intros Hn. unfold is_byte. destruct (Ascii.eqb_spec (ascii_of_N n) c) as [<-|Hne].
  - unfold code. rewrite N_ascii_embedding by done. by rewrite N.eqb_refl.
  - symmetry. apply N.eqb_neq. intros <-. apply Hne. unfold code. by rewrite ascii_N_embedding.
Qed.

(** A field of an inline map, with or without the space the separator leaves. *)
Lemma cut_field (k v : string) :
  str_forallb (fun c => negb (is_byte 58 c)) k = true -> cut ":" (k +:+ ": " +:+ v) = Some (k, String " " v).
Proof.
  intros Hk. change (k +:+ ": " +:+ v) with (k +:+ String ":" (String " " v)). apply (cut_char ":").
  eapply str_forallb_impl; [|exact Hk]. intros c. cbn beta. change ":"%char with (ascii_of_N 58). by rewrite is_byte_eqb.
Qed.

Lemma bt_insert_last {V} (k : string) (v : V) (m : btree V) :
  Forall (fun e => str_ltb e.1 k = true) m -> bt_insert k v m = m ++ [(k, v)].
Proof.
  induction m as [|[k0 v0] m IH]; cbn; [done|]. intros [H0 Hm]%Forall_cons. cbn in H0.
  destruct (String.eqb_spec k k0) as [->|_]; [by rewrite str_ltb_irrefl in H0|].
  destruct (str_ltb k k0) eqn:Hlt; [|by rewrite IH].
  pose proof (str_ltb_trans _ _ _ H0 Hlt) as Hc. by rewrite str_ltb_irrefl in Hc.
Qed.

Lemma bt_fold_ordered {V} (l m : btree V) :
  bt_ordered l -> Forall (fun e => Forall (fun e' => str_ltb e'.1 e.1 = true) m) l ->
  foldl (fun m p => bt_insert p.1 p.2 m) m l = m ++ l.
Proof.
  revert m. induction l as [|[k v] l IH]; intros m; cbn; [by rewrite app_nil_r|].
  intros [Hk Hl] [Hm Hml]%Forall_cons. cbn in Hm. rewrite bt_insert_last by done. rewrite IH; [by rewrite <-app_assoc|done|].
  rewrite Forall_forall in Hk, Hml |- *. intros e He. apply Forall_app. split; [by apply Hml|].
  apply Forall_singleton. by apply Hk.
Qed.

Lemma parse_params_render (params : btree string) :
  bt_ordered params -> Forall (fun p => param_ok p = true) params ->
  parse_params ("{ " +:+ render_params params +:+ " }") = params.
Proof.
  intros Hord Hok. unfold parse_params, render_params. destruct params as [|[k v] params]; [reflexivity|].
  set (pair p := (p.1 +:+ ": " +:+ p.2 : string)).
  assert (forall p, param_ok p = true -> solid (pair p) = true
    /\ str_forallb (fun c => negb (is_byte 44 c)) (pair p) = true
    /\ cut ":" (pair p) = Some (p.1, String " " p.2) /\ trim p.1 = p.1 /\ trim p.2 = p.2) as Hpair.
  { intros [k' v'] [(Hk1 & Hk2 & Hk3 & Hk4)%plain_text_inv (Hv1 & Hv2 & Hv3 & Hv4)%plain_text_inv]%andb_true_iff.
    cbn [fst snd] in *. unfold pair. cbn [fst snd].
    assert (str_forallb (fun c => negb (is_byte 44 c)) k' = true /\ str_forallb (fun c => negb (is_byte 58 c)) k' = true)
      as [Hk5 Hk6].
    { split; (eapply str_forallb_impl; [|exact Hk2]); intros c; cbn; rewrite negb_orb; by intros [? ?]%andb_true_iff. }
    split_and!.
    - apply solid_inv in Hk4 as (c & _ & Hc & _ & Hgc & _). apply solid_inv in Hv4 as (_ & d & _ & Hd & _ & Hgd).
      apply solid_app; eauto.
    - by rewrite !str_forallb_app, Hk5, Hv2.
    - by apply cut_field.
    - by apply trim_solid.
    - by apply trim_solid. }
  change (map _ ((k, v) :: params)) with (map pair ((k, v) :: params)).
  rewrite strip_braces_spaced.
  - destruct (is_empty (join _ _)) eqn:He.
    { exfalso. cbn in He. destruct k; [|by destruct params]. apply Forall_cons in Hok as [Hk _]. done. }
    change (map pair ((k, v) :: params)) with (pair (k, v) :: map pair params).
    rewrite (split_on_join (is_byte 44) "," (pair (k, v)) (map pair params)); [|reflexivity..|].
      assert (forall l m, Forall (fun p => param_ok p = true) l ->
        foldl (fun m kv => match cut ":" kv with Some (k, v) => bt_insert (trim k) (trim v) m | None => m end) m
          (map (String " ") (map pair l)) = foldl (fun m p => bt_insert p.1 p.2 m) m l) as Hrest.
      { intros l. induction l as [|p l IH]; intros m; cbn [map foldl]; [done|]. intros [Hp Hl]%Forall_cons.
        destruct (Hpair p Hp) as (_ & _ & Hc & Hk & Hv).
        assert (cut ":" (String " " (pair p)) = Some (String " " p.1, String " " p.2)) as ->.
        { cbn. cbn in Hc. by rewrite Hc. }
        rewrite !trim_before, Hk, Hv. by apply IH. }
      cbn [foldl]. apply Forall_cons in Hok as [Hp Hok]. destruct (Hpair _ Hp) as (_ & _ & -> & Hk & Hv).
      rewrite trim_before, Hk, Hv, (Hrest _ _ Hok). cbn [fst snd] in *. 
      rewrite bt_fold_ordered; [reflexivity|by destruct Hord|].
      destruct Hord as [Hlt _]. cbn. eapply Forall_impl; [exact Hlt|]. intros e He'. by apply Forall_singleton.
    + change (Forall (fun x => str_forallb (fun c => negb (is_byte 44 c)) x = true) (map pair ((k, v) :: params))).
      apply Forall_map. eapply Forall_impl; [exact Hok|]. intros p Hp. by apply (Hpair p Hp).
  - clear Hord.
    revert k v Hok. induction params as [|[k2 v2] params IH]; intros k v [Hp Hok]%Forall_cons; [by apply (Hpair (k, v))|].
    change (join ", " (map pair ((k, v) :: (k2, v2) :: params)))
      with (pair (k, v) +:+ ", " +:+ join ", " (map pair ((k2, v2) :: params))).
    destruct (Hpair _ Hp) as [(c & _ & Hc & _ & Hgc & _)%solid_inv _].
    destruct (solid_inv _ (IH k2 v2 Hok)) as (_ & d & _ & Hd & _ & Hgd). apply solid_app; eauto.
Qed.

(** ** The list of outcomes *)

(** Neither a quote, a bracket, a brace nor a comma. *)
Definition segment (c : ascii) : bool :=
  negb (is_byte 34 c || is_byte 123 c || is_byte 91 c || is_byte 125 c || is_byte 93 c || is_byte 44 c).

Lemma split_top_segment (cur a s : string) :
  str_forallb segment a = true -> split_top_loop 0 false cur (a +:+ s) = split_top_loop 0 false (str_rev_app a cur) s.
Proof.
  revert cur. induction a as [|c a IH]; intros cur; cbn [str_forallb String.append split_top_loop str_rev_app]; [done|].
  unfold segment at 1. rewrite negb_orb, !negb_orb. intros [Hc Ha]%andb_true_iff.
  repeat (apply andb_true_iff in Hc as [Hc ?%negb_true_iff]). apply negb_true_iff in Hc.
  repeat match goal with H : is_byte _ c = false |- _ => rewrite H; clear H end. cbn. by apply IH.
Qed.

Lemma split_top_quoted (cur a s : string) :
  str_forallb unquoted a = true -> split_top_loop 0 true cur (a +:+ s) = split_top_loop 0 true (str_rev_app a cur) s.
Proof.
  revert cur. induction a as [|c a IH]; intros cur; cbn [str_forallb String.append split_top_loop str_rev_app]; [done|].
  unfold unquoted at 1. intros [[_ Hc%negb_true_iff]%andb_true_iff Ha]%andb_true_iff. rewrite Hc, !andb_false_r.
  by apply IH.
Qed.

Lemma split_top_comma (a s : string) :
  str_forallb segment a = true -> split_top_loop 0 false EmptyString (a +:+ "," +:+ s) = a :: split_top_loop 0 false EmptyString s.
Proof.
  intros Ha. rewrite split_top_segment by done. cbn. f_equal. change (str_rev_app a EmptyString) with (str_rev a).
  apply str_rev_involutive.
Qed.

Definition ttr_text (ttr : option Z) : string := match ttr with Some v => show_Z v | None => "null" end.

Lemma show_Z_chars (z : Z) :
  str_forallb (fun c => is_ascii_digit c || is_byte 45 c) (show_Z z) = true /\ show_Z z <> EmptyString /\ show_Z z <> "null"%string.
Proof.
  assert (forall n, str_forallb (fun c => is_ascii_digit c || is_byte 45 c) (show_N n) = true) as Hd.
  { intros n. eapply str_forallb_impl; [|apply show_N_digits]. intros c Hc. cbn beta. by rewrite Hc. }
  assert (str_forallb (fun c => is_ascii_digit c || is_byte 45 c) (show_Z z) = true) as Hz.
  { unfold show_Z, pretty, pretty_Z. destruct z as [|p|p]; [done|apply (Hd (Npos p))|].
    change ("-" +:+ pretty p) with (String "-" (show_N (Npos p))). cbn [str_forallb]. by rewrite Hd. }
  split_and!; [done| |by intros He; rewrite He in Hz].
  unfold show_Z, pretty, pretty_Z. destruct z as [|p|p]; [done|apply (show_N_digits (Npos p))|done].
Qed.

Lemma ttr_text_facts (ttr : option Z) :
  (forall v, ttr = Some v -> (- 2 ^ 63 <= v < 2 ^ 63)%Z) ->
  str_forallb segment (ttr_text ttr) = true /\ solid (ttr_text ttr) = true
  /\ (if String.eqb (ttr_text ttr) "null" then None else parse_i64 (ttr_text ttr)) = ttr.
Proof.
  destruct ttr as [v|]; [|done]. intros Hv. specialize (Hv v eq_refl). cbn [ttr_text].
  destruct (show_Z_chars v) as (Hc & Hne & Hnull). split_and!.
  - eapply str_forallb_impl; [|exact Hc]. intros c. unfold segment, is_ascii_digit, in_range, is_byte.
    rewrite negb_true_iff, !orb_false_iff, orb_true_iff, andb_true_iff, !N.leb_le, !N.eqb_neq, N.eqb_eq. lia.
  - apply graphic_solid; [|done]. eapply str_forallb_impl; [|exact Hc]. intros c.
    unfold graphic, is_ascii_digit, in_range, is_byte. rewrite !andb_true_iff, orb_true_iff, andb_true_iff, !N.leb_le, N.eqb_eq. lia.
  - destruct (String.eqb_spec (show_Z v) "null") as [He|_]; [done|]. by apply parse_i64_show.
Qed.

Section Format.
Context `{RL : Rfc3339Laws}.

Definition outcome_ok (o : Outcome) : bool :=
  str_forallb (fun c => graphic c && segment c) (oc_result o) && negb (is_empty (oc_result o))
  && match oc_ttr_s o with Some v => (- 2 ^ 63 <=? v)%Z && (v <? 2 ^ 63)%Z | None => true end
  && str_forallb unquoted (oc_approver o).

Lemma rfc3339_facts t :
  str_forallb segment (to_rfc3339 t) = true /\ solid (to_rfc3339 t) = true /\ str_forallb graphic (to_rfc3339 t) = true.
Proof.
  destruct (rfc3339_plain t) as [Hp Hne].
  assert (str_forallb graphic (to_rfc3339 t) = true) as Hg.
  { eapply str_forallb_impl; [|exact Hp]. intros c.
    unfold graphic, is_ascii_alphanumeric, is_ascii_lowercase, is_ascii_uppercase, is_ascii_digit, in_range, is_byte.
    rewrite !orb_true_iff, !andb_true_iff, !N.leb_le, !N.eqb_eq. lia. }
  split_and!; [|by apply graphic_solid|done]. eapply str_forallb_impl; [|exact Hp]. intros c.
  unfold segment, is_ascii_alphanumeric, is_ascii_lowercase, is_ascii_uppercase, is_ascii_digit, in_range, is_byte.
  rewrite negb_true_iff, !orb_false_iff, !orb_true_iff, !andb_true_iff, !N.leb_le, !N.eqb_neq, !N.eqb_eq. lia.
Qed.

(** The text of an outcome between its braces. *)
Definition outcome_fields (o : Outcome) : string :=
  ("ts: " +:+ to_rfc3339 (oc_ts o)) +:+ "," +:+ (" result: " +:+ oc_result o) +:+ "," +:+ (" ttr_s: " +:+ ttr_text (oc_ttr_s o))
  +:+ "," +:+ " approver: " +:+ dquote +:+ oc_approver o +:+ dquote.

Lemma parse_outcome_render (o : Outcome) :
  outcome_ok o = true -> parse_outcome ("{ " +:+ outcome_fields o +:+ " }") = Some o.
Proof.
  unfold outcome_ok. intros [[[Hr Hrne]%andb_true_iff Httr]%andb_true_iff Ha]%andb_true_iff.
  assert (str_forallb graphic (oc_result o) = true /\ str_forallb segment (oc_result o) = true) as [Hrg Hrs].
  { split; (eapply str_forallb_impl; [|exact Hr]); intros c; cbn; by intros [? ?]%andb_true_iff. }
  assert (solid (oc_result o) = true) as Hrsolid by (apply graphic_solid; [done|by intros He; rewrite He in Hrne]).
  destruct (rfc3339_facts (oc_ts o)) as (Hts & Htsolid & _).
  destruct (ttr_text_facts (oc_ttr_s o)) as (Hvs & Hvsolid & Hv).
  { intros v He. rewrite He in Httr. apply andb_true_iff in Httr as [?%Z.leb_le ?%Z.ltb_lt]. lia. }
  unfold parse_outcome. rewrite strip_braces_spaced.
  2: { unfold outcome_fields. rewrite (str_app_assoc "ts: "). apply solid_app; [by exists "t"%char|].
       exists (ascii_of_N 34). split; [|done]. by rewrite !last_byte_app by (intros He; destruct (oc_approver o); done). }
  assert (split_top_level (outcome_fields o)
    = ["ts: " +:+ to_rfc3339 (oc_ts o); " result: " +:+ oc_result o; " ttr_s: " +:+ ttr_text (oc_ttr_s o);
       " approver: " +:+ dquote +:+ oc_approver o +:+ dquote]) as ->.
  { unfold split_top_level, outcome_fields.
    rewrite split_top_comma by (by rewrite str_forallb_app, Hts). rewrite split_top_comma by (by rewrite str_forallb_app, Hrs).
    rewrite split_top_comma by (by rewrite str_forallb_app, Hvs). do 3 f_equal.
    rewrite split_top_segment by reflexivity.
    change (dquote +:+ oc_approver o +:+ dquote) with (String (ascii_of_N 34) (oc_approver o +:+ dquote)).
    cbn [split_top_loop]. change (is_byte 34 (ascii_of_N 34)) with true. cbn [negb].
    rewrite split_top_quoted by done. unfold dquote. cbn [split_top_loop]. change (is_byte 34 (ascii_of_N 34)) with true.
    cbn iota. f_equal. rewrite str_rev_cons. unfold str_rev. rewrite str_rev_app_involutive. cbn.
    by rewrite str_app_nil_r. }
  cbn [parse_fields].
  change (cut ":" ("ts: " +:+ to_rfc3339 (oc_ts o))) with (Some ("ts"%string, String " " (to_rfc3339 (oc_ts o)))).
  change (cut ":" (" result: " +:+ oc_result o)) with (Some (" result"%string, String " " (oc_result o))).
  change (cut ":" (" ttr_s: " +:+ ttr_text (oc_ttr_s o))) with (Some (" ttr_s"%string, String " " (ttr_text (oc_ttr_s o)))).
  change (cut ":" (" approver: " +:+ dquote +:+ oc_approver o +:+ dquote))
    with (Some (" approver"%string, String " " (dquote +:+ oc_approver o +:+ dquote))).
  cbv beta iota zeta.
  change (trim "ts") with "ts"%string. change (trim " result") with "result"%string.
  change (trim " ttr_s") with "ttr_s"%string. change (trim " approver") with "approver"%string.
  rewrite !trim_before, (trim_solid (to_rfc3339 (oc_ts o))), (trim_solid (oc_result o)),
    (trim_solid (ttr_text (oc_ttr_s o))), (trim_solid (dquote +:+ oc_approver o +:+ dquote)) by
    (done || apply solid_app; eexists; split; reflexivity).
  rewrite unquote_quoted by done. cbn [String.eqb Ascii.eqb Bool.eqb of_ts of_result of_ttr_s of_approver].
  rewrite rfc3339_roundtrip, Hv. cbn. by destruct o.
Qed.

(** ** The front matter *)

(** The entries whose fields the format can carry: a quoted signature without
    quotes, words for the template, the parameters and the results, numbers in
    range, a body that ends its last line. *)
Record entry_ok (e : Entry) : Prop := {
  eo_signature : str_forallb unquoted (en_fault_signature e) = true;
  eo_template : str_forallb graphic (en_template_used e) = true /\ en_template_used e <> EmptyString;
  eo_ordered : bt_ordered (en_params e);
  eo_params : Forall (fun p => param_ok p = true) (en_params e);
  eo_outcomes : Forall (fun o => outcome_ok o = true) (en_outcomes e);
  eo_occurrences : (en_occurrences e < 2 ^ 64)%N;
  eo_body : ends_with_newline (en_body e) = true;
}.

Definition outcome_line (o : Outcome) : string := "  - { " +:+ outcome_fields o +:+ " }".
Definition signature_line (e : Entry) : string := "fault_signature: " +:+ (dquote +:+ en_fault_signature e +:+ dquote).
Definition template_line (e : Entry) : string := "template_used: " +:+ en_template_used e.
Definition params_line (e : Entry) : string := "params: " +:+ ("{ " +:+ render_params (en_params e) +:+ " }").
Definition outcome_lines (l : list Outcome) : list string :=
  match l with [] => ["outcomes: []"%string] | _ => "outcomes:"%string :: map outcome_line l end.
Definition tail_lines (e : Entry) : list string :=
  ["occurrences: " +:+ show_N (en_occurrences e); "last_seen: " +:+ to_rfc3339 (en_last_seen e)].
Definition front_lines (e : Entry) : list string :=
  [signature_line e; template_line e; params_line e] ++ outcome_lines (en_outcomes e) ++ tail_lines e.

Lemma render_outcome_line (o : Outcome) : render_outcome o = outcome_line o +:+ newline.
Proof. unfold render_outcome, outcome_line, outcome_fields. by rewrite !str_app_assoc. Qed.

Lemma to_markdown_lines (e : Entry) :
  ends_with_newline (en_body e) = true ->
  to_markdown e = "---" +:+ newline +:+ unlines (front_lines e) +:+ "---" +:+ newline +:+ en_body e.
Proof.
  intros Hb. unfold to_markdown, front_lines. rewrite Hb, str_app_nil_r, !unlines_app.
  assert (match en_outcomes e with
          | [] => "outcomes: []" +:+ newline
          | os => "outcomes:" +:+ newline +:+ fold_right (fun o s => render_outcome o +:+ s) EmptyString os
          end = unlines (outcome_lines (en_outcomes e))) as ->.
  { destruct (en_outcomes e) as [|o l]; [done|]. unfold outcome_lines. cbn [unlines]. do 2 f_equal.
    generalize (o :: l) as os. intros os. induction os as [|o' os IH]; cbn [fold_right map unlines]; [done|].
    by rewrite IH, render_outcome_line, !str_app_assoc. }
  unfold tail_lines, signature_line, template_line, params_line. cbn [unlines].
  by rewrite ?str_app_nil_r, !str_app_assoc.
Qed.

(** ** Every line is read back *)

Lemma trim_end_solid (a s : string) : solid s = true -> trim_end (a +:+ s) = a +:+ s.
Proof.
  intros (_ & d & _ & Hd & _ & Hg)%solid_inv. eapply trim_end_id; [|exact Hg]. rewrite last_byte_app; [done|by intros ->].
Qed.

Lemma quoted_solid (s : string) : solid (dquote +:+ s +:+ dquote) = true.
Proof. apply solid_app; eexists; split; reflexivity. Qed.
Lemma braced_solid (s : string) : solid ("{ " +:+ s +:+ " }") = true.
Proof. apply (solid_app "{ "); eexists; split; reflexivity. Qed.
Lemma show_N_solid (n : N) : solid (show_N n) = true.
Proof.
  destruct (show_N_digits n) as [Hd Hne]. apply graphic_solid; [|done]. by eapply str_forallb_impl; [apply digit_graphic|].
Qed.

Lemma read_signature (e x : Entry) :
  str_forallb unquoted (en_fault_signature e) = true ->
  front_line (signature_line e) x
  = (false, mkEntry (en_fault_signature e) (en_template_used x) (en_params x) (en_outcomes x) (en_occurrences x)
              (en_last_seen x) (en_body x)).
Proof.
  intros Hs. unfold signature_line. pose proof (quoted_solid (en_fault_signature e)) as Hq. 
  unfold front_line. rewrite trim_end_solid by exact Hq.
  change (strip_prefix "fault_signature:" ("fault_signature: " +:+ (dquote +:+ en_fault_signature e +:+ dquote)))
    with (Some (String " " (dquote +:+ en_fault_signature e +:+ dquote))).
  cbv beta iota zeta. by rewrite trim_before, (trim_solid _ Hq), unquote_quoted.
Qed.

Lemma read_template (e x : Entry) :
  str_forallb graphic (en_template_used e) = true -> en_template_used e <> EmptyString ->
  front_line (template_line e) x
  = (false, mkEntry (en_fault_signature x) (en_template_used e) (en_params x) (en_outcomes x) (en_occurrences x)
              (en_last_seen x) (en_body x)).
Proof.
  intros Hs Hne. unfold template_line. pose proof (graphic_solid _ Hs Hne) as Hq.
  unfold front_line. rewrite trim_end_solid by exact Hq.
  change (strip_prefix "fault_signature:" ("template_used: " +:+ en_template_used e)) with (@None string).
  change (strip_prefix "template_used:" ("template_used: " +:+ en_template_used e))
    with (Some (String " " (en_template_used e))).
  cbv beta iota zeta. by rewrite trim_before, (trim_solid _ Hq).
Qed.

Lemma read_params (e x : Entry) :
  bt_ordered (en_params e) -> Forall (fun p => param_ok p = true) (en_params e) ->
  front_line (params_line e) x
  = (false, mkEntry (en_fault_signature x) (en_template_used x) (en_params e) (en_outcomes x) (en_occurrences x)
              (en_last_seen x) (en_body x)).
Proof.
  intros Ho Hok. unfold params_line. pose proof (braced_solid (render_params (en_params e))) as Hq.
  unfold front_line. rewrite trim_end_solid by exact Hq. set (t := "{ " +:+ render_params (en_params e) +:+ " }") in *.
  change (strip_prefix "fault_signature:" ("params: " +:+ t)) with (@None string).
  change (strip_prefix "template_used:" ("params: " +:+ t)) with (@None string).
  change (strip_prefix "params:" ("params: " +:+ t)) with (Some (String " " t)).
  cbv beta iota zeta. rewrite trim_before, (trim_solid _ Hq). unfold t. by rewrite parse_params_render.
Qed.

Lemma read_tail (e x : Entry) :
  (en_occurrences e < 2 ^ 64)%N ->
  parse_front false (tail_lines e) x
  = mkEntry (en_fault_signature x) (en_template_used x) (en_params x) (en_outcomes x) (en_occurrences e)
      (en_last_seen e) (en_body x).
Proof.
  intros Hn. unfold tail_lines. pose proof (show_N_solid (en_occurrences e)) as Hq.
  destruct (rfc3339_facts (en_last_seen e)) as (_ & Ht & _).
  cbn [parse_front]. unfold front_line. rewrite !trim_end_solid by done.
  set (n := show_N (en_occurrences e)) in *. set (t := to_rfc3339 (en_last_seen e)) in *.
  change (strip_prefix "fault_signature:" ("occurrences: " +:+ n)) with (@None string).
  change (strip_prefix "template_used:" ("occurrences: " +:+ n)) with (@None string).
  change (strip_prefix "params:" ("occurrences: " +:+ n)) with (@None string).
  change (strip_prefix "occurrences:" ("occurrences: " +:+ n)) with (Some (String " " n)).
  cbv beta iota zeta. rewrite trim_before, (trim_solid _ Hq). unfold n. rewrite parse_uint_show by lia.
  change (strip_prefix "fault_signature:" ("last_seen: " +:+ t)) with (@None string).
  change (strip_prefix "template_used:" ("last_seen: " +:+ t)) with (@None string).
  change (strip_prefix "params:" ("last_seen: " +:+ t)) with (@None string).
  change (strip_prefix "occurrences:" ("last_seen: " +:+ t)) with (@None string).
  change (strip_prefix "last_seen:" ("last_seen: " +:+ t)) with (Some (String " " t)).
  cbv beta iota zeta. rewrite trim_before, (trim_solid _ Ht). unfold t. by rewrite rfc3339_roundtrip.
Qed.

Lemma read_outcomes (l : list Outcome) (rest : list string) (x : Entry) :
  Forall (fun o => outcome_ok o = true) l ->
  match rest with line :: _ => list_item line = None | [] => True end ->
  parse_front true (map outcome_line l ++ rest) x
  = parse_front false rest (mkEntry (en_fault_signature x) (en_template_used x) (en_params x) (en_outcomes x ++ l)
      (en_occurrences x) (en_last_seen x) (en_body x)).
Proof.
  intros Hok Hrest. revert x Hok. induction l as [|o l IH]; intros x Hok.
  - rewrite app_nil_r. cbn [map app]. destruct x. destruct rest as [|line rest]; [done|]. cbn [parse_front].
    by rewrite Hrest.
  - apply Forall_cons in Hok as [Ho Hok]. cbn [map app parse_front].
    assert (list_item (outcome_line o) = Some ("{ " +:+ outcome_fields o +:+ " }")) as ->.
    { unfold list_item, outcome_line. change ("  - { " +:+ outcome_fields o +:+ " }")
        with (String " " (String " " ("- { " +:+ outcome_fields o +:+ " }"))).
      rewrite !trim_start_space, (trim_start_id _ "-") by done. reflexivity. }
    rewrite (trim_solid _ (braced_solid _)), parse_outcome_render by done. rewrite IH by done. cbn.
    by rewrite <-app_assoc.
Qed.

Lemma render_params_printable (params : btree string) :
  Forall (fun p => param_ok p = true) params -> str_forallb printable (render_params params) = true.
Proof.
  unfold render_params. set (pair p := (p.1 +:+ ": " +:+ p.2 : string)). change (map _ params) with (map pair params).
  assert (forall p, param_ok p = true -> str_forallb printable (pair p) = true) as Hpair.
  { intros [k v] [(Hk & _)%plain_text_inv (Hv & _)%plain_text_inv]%andb_true_iff. cbn [fst snd] in *. unfold pair.
    rewrite !str_forallb_app. cbn [fst snd].
    by rewrite (str_forallb_impl _ _ _ graphic_printable Hk), (str_forallb_impl _ _ _ graphic_printable Hv). }
  induction params as [|p l IH]; [done|]. intros [Hp Hl]%Forall_cons. specialize (IH Hl).
  destruct l as [|p' l]; [by apply Hpair|].
  change (join ", " (map pair (p :: p' :: l))) with (pair p +:+ ", " +:+ join ", " (map pair (p' :: l))).
  rewrite (str_forallb_app _ (pair p)), (str_forallb_app _ ", "), (Hpair p Hp), IH. reflexivity.
Qed.

Lemma front_lines_ok (e : Entry) : entry_ok e -> Forall (fun l => front_ok l = true) (front_lines e).
Proof.
  intros [Hsig [Htpl _] _ Hpar Hout _ _].
  assert (forall s, str_forallb graphic s = true -> str_forallb printable s = true) as Hgp.
  { intros s. apply str_forallb_impl, graphic_printable. }
  assert (forall s, str_forallb unquoted s = true -> str_forallb printable s = true) as Hup.
  { intros s. apply str_forallb_impl. intros c. unfold unquoted. by intros [? _]%andb_true_iff. }
  assert (forall t, str_forallb printable (to_rfc3339 t) = true) as Ht by (intros t; apply Hgp, rfc3339_facts).
  assert (forall n, str_forallb printable (show_N n) = true) as Hn.
  { intros n. apply Hgp. eapply str_forallb_impl; [apply digit_graphic|apply show_N_digits]. }
  unfold front_lines. rewrite !Forall_app. split_and!.
  - repeat apply Forall_cons_2; [..|apply Forall_nil_2]; unfold front_ok; apply andb_true_iff; (split; [|done]).
    + unfold signature_line. rewrite !str_forallb_app, (Hup _ Hsig). done.
    + unfold template_line. by rewrite str_forallb_app, (Hgp _ Htpl).
    + unfold params_line. by rewrite !str_forallb_app, render_params_printable.
  - unfold outcome_lines. destruct (en_outcomes e) as [|o l]; [by repeat constructor|].
    apply Forall_cons_2; [done|]. apply Forall_map. eapply Forall_impl; [exact Hout|]. intros o' Ho. cbn beta.
    unfold outcome_ok in Ho. apply andb_true_iff in Ho as [[[Hr _]%andb_true_iff _]%andb_true_iff Ha].
    assert (str_forallb graphic (oc_result o') = true) as Hrg.
    { eapply str_forallb_impl; [|exact Hr]. intros c. cbn. by intros [? _]%andb_true_iff. }
    assert (str_forallb printable (ttr_text (oc_ttr_s o')) = true) as Hv.
    { destruct (oc_ttr_s o') as [v|]; [|done]. destruct (show_Z_chars v) as [Hc _].
      eapply str_forallb_impl; [|exact Hc]. intros c. unfold printable, is_ascii_digit, in_range, is_byte.
      rewrite orb_true_iff, !andb_true_iff, !N.leb_le, N.eqb_eq. lia. }
    unfold front_ok. apply andb_true_iff. split; [|done]. unfold outcome_line, outcome_fields.
    by rewrite !str_forallb_app, Ht, (Hgp _ Hrg), Hv, (Hup _ Ha).
  - unfold tail_lines. repeat apply Forall_cons_2; [..|apply Forall_nil_2]; unfold front_ok; apply andb_true_iff;
      (split; [|done]); by rewrite str_forallb_app, ?Hn, ?Ht.
Qed.

(** An entry whose fields the format can carry reads back as it was. *)
Lemma from_to_markdown (e : Entry) (now : DateTime) : entry_ok e -> from_markdown (to_markdown e) now = Ok e.
Proof.
  intros Hok. pose proof (front_lines_ok e Hok) as Hlines. destruct Hok as [Hsig [Htpl Htne] Hord Hpar Hout Hocc Hbody].
  unfold from_markdown. rewrite (to_markdown_lines e Hbody).
  rewrite <-(str_app_assoc "---" newline), strip_prefix_app. cbn [ok_or mbind result_bind].
  change (newline +:+ "---" +:+ newline) with closer. unfold front_lines in *. cbn [app] in *.
  rewrite cut_unlines by done. cbn [ok_or mbind result_bind fst snd]. rewrite lines_join by done. f_equal.
  cbn [parse_front]. rewrite read_signature, read_template, read_params by done. cbv iota.
  cbn [en_fault_signature en_template_used en_params en_outcomes en_occurrences en_last_seen en_body].
  destruct (en_outcomes e) as [|o l] eqn:Hl; unfold outcome_lines; cbn [app parse_front].
  - change (front_line "outcomes: []" ?x) with (false, x). cbv iota. rewrite read_tail by done. cbn. rewrite <-Hl. by destruct e.
  - match goal with |- context [front_line "outcomes:" ?x] => change (front_line "outcomes:" x) with (true, x) end. cbv iota.
    rewrite read_outcomes by done. rewrite read_tail by done. cbn. rewrite <-Hl. by destruct e.
Qed.

Lemma kb_store_load (e : Entry) (now : DateTime) (dir : gmap string string) :
  entry_ok e -> kb_load (kb_store true e (Some dir)) (en_fault_signature e) now = Some e.
Proof. intros Hok. unfold kb_load, kb_store, mbind, option_bind. by rewrite lookup_insert_eq, from_to_markdown. Qed.

(** ** What the remediation loop writes *)

Lemma ends_newline_app (a s : string) : ends_with_newline s = true -> ends_with_newline (a +:+ s) = true.
Proof. unfold ends_with_newline. intros Hs. rewrite last_byte_app; [done|by intros ->]. Qed.

Lemma retrospective_newline signature e : ends_with_newline (retrospective_body signature e) = true.
Proof. unfold retrospective_body. repeat lazymatch goal with |- context [_ +:+ _] => apply ends_newline_app end. done. Qed.

(** A proposal whose words the format can carry. *)
Definition proposal_ok (p : RemediationProposal) : Prop :=
  str_forallb graphic (rp_template_id p) = true /\ bt_ordered (rp_params p)
  /\ Forall (fun q => param_ok q = true) (rp_params p).
Definition loaded_ok (signature : string) (loaded : option Entry) : Prop :=
  forall e, loaded = Some e -> entry_ok e /\ en_fault_signature e = signature.

Lemma outcome_entry_ok signature p st ttr_s approver now loaded :
  str_forallb unquoted signature = true -> proposal_ok p -> loaded_ok signature loaded ->
  (forall v, ttr_s = Some v -> (- 2 ^ 63 <= v < 2 ^ 63)%Z) -> str_forallb unquoted approver = true ->
  let e := outcome_entry signature p st ttr_s approver now loaded in entry_ok e /\ en_fault_signature e = signature.
Proof.
  intros Hsig (Htpl & Hord & Hpar) Hload Httr Happ. cbv zeta.
  assert (en_fault_signature (outcome_entry signature p st ttr_s approver now loaded) = signature) as Hs.
  { unfold outcome_entry. cbn. destruct loaded as [e|]; [|done]. by apply (Hload e). }
  split; [|exact Hs]. split; rewrite ?Hs; try done; [| | |apply retrospective_newline]; unfold outcome_entry; cbn.
  - split.
    + rewrite !str_forallb_app, Htpl. cbn. eapply str_forallb_impl; [apply digit_graphic|apply show_N_digits].
    + intros He. apply (f_equal String.length) in He. rewrite !str_length_app in He. cbn in He. lia.
  - apply Forall_app. split; [destruct loaded as [e|]; [by apply (Hload e)|constructor]|]. apply Forall_singleton.
    unfold outcome_ok. cbn. rewrite Happ, andb_true_r. apply andb_true_iff. split; [by destruct st|].
    destruct ttr_s as [v|]; [|done]. specialize (Httr v eq_refl). apply andb_true_iff. by rewrite Z.leb_le, Z.ltb_lt.
  - unfold incr_u64. by apply N.mod_lt.
Qed.

(** C28. The knowledge base remembers: after an outcome is recorded, the next load of
    its signature, at any time and in any later process, gives exactly the entry that
    was recorded: what the file held before, with the outcome appended, the counter
    stepped, and the template and parameters of the last remediation. This holds for
    a signature and an approver without quotes and parameters without the
    separators of the format, as long as what the file held before was such an
    entry. *)
Theorem kb_remembers (dir : gmap string string) signature p st ttr_s approver (now later : DateTime) :
  str_forallb unquoted signature = true -> proposal_ok p -> loaded_ok signature (kb_load (Some dir) signature now) ->
  (forall v, ttr_s = Some v -> (- 2 ^ 63 <= v < 2 ^ 63)%Z) -> str_forallb unquoted approver = true ->
  let kb' := record_outcome true signature p st ttr_s approver now (Some dir) in
  let e := outcome_entry signature p st ttr_s approver now (kb_load (Some dir) signature now) in
  kb_load kb' signature later = Some e
  /\ en_outcomes e = match kb_load (Some dir) signature now with Some old => en_outcomes old | None => [] end
                     ++ [{| oc_ts := now; oc_result := status_str st; oc_ttr_s := ttr_s; oc_approver := approver |}]
  /\ en_params e = rp_params p
  /\ loaded_ok signature (kb_load kb' signature later).
Proof.
  intros Hsig Hp Hload Httr Happ. cbv zeta.
  destruct (outcome_entry_ok signature p st ttr_s approver now (kb_load (Some dir) signature now) Hsig Hp Hload Httr Happ)
    as [Hok Hs].
  assert (kb_load (record_outcome true signature p st ttr_s approver now (Some dir)) signature later
    = Some (outcome_entry signature p st ttr_s approver now (kb_load (Some dir) signature now))) as Hl.
  { transitivity (kb_load (kb_store true (outcome_entry signature p st ttr_s approver now
      (kb_load (Some dir) signature now)) (Some dir)) signature later); [done|].
    set (e := outcome_entry _ _ _ _ _ _ _) in *. clearbody e. subst signature. by apply kb_store_load. }
  rewrite Hl. split_and!; [done| |done|].
  - unfold outcome_entry. by destruct (kb_load (Some dir) signature now).
  - intros e [= <-]. done.
Qed.
End Format.

(** ** Examples *)

Definition kb_proposal (path : string) : RemediationProposal :=
  {| rp_id := 1; rp_event_id := 2; rp_agent_id := mkAgentId 9; rp_host := "web"; rp_template_id := "restart";
     rp_template_version := 3; rp_risk_tier := Safe; rp_params := [("path"%string, path)]; rp_rationale := "";
     rp_created_at := 0 |}.

Lemma kb_remembers_witness :
  exists e, kb_load (record_outcome true "FailedUnit:nginx:failed" (kb_proposal "/etc/nginx.conf") Succeeded (Some 8%Z)
      "policy:auto" 5 (Some ∅)) "FailedUnit:nginx:failed" 77 = Some e
    /\ length (en_outcomes e) = 1 /\ en_params e = [("path", "/etc/nginx.conf")]%string.
Proof.
  destruct (kb_remembers ∅ "FailedUnit:nginx:failed" (kb_proposal "/etc/nginx.conf") Succeeded (Some 8%Z) "policy:auto"
    5 77) as (Hl & Ho & Hp & _).
  - reflexivity.
  - split; [reflexivity|]. split; [split; constructor|]. constructor; [reflexivity|constructor].
  - intros e He. discriminate.
  - intros v [= <-]. lia.
  - reflexivity.
  - eexists. split; [exact Hl|]. split; [rewrite Ho; reflexivity|exact Hp].
Defined.

(** A comma in a parameter: what comes after it is lost when the entry is loaded. *)
Theorem comma_param_lost :
  exists e, kb_load (record_outcome true "ConfigDrift:a,b:drift" (kb_proposal "/etc/a,b") Succeeded None "admin" 5 (Some ∅))
      "ConfigDrift:a,b:drift" 5 = Some e
    /\ en_params e = [("path", "/etc/a")]%string.
Proof. eexists. split; [vm_compute; reflexivity|reflexivity]. Qed.
