(* ===== verification/EndToEnd.v ===== *)
(** * The remediation loop, end to end

  The control plane, the agent and the actuator composed: the queue of one agent is
  pulled, each envelope is checked against the pinned keyring and the ledger,
  dispatched over the socket, and its result is reported and recorded. Every command
  the control plane issued is closed by one round in which nothing is down.

  The JSON of an envelope on the socket is a parameter with its round trip. *)

From S2P Require Export Orchestrator AgentPull Actuator.

Section Loop.
Context `{SerdeValue} `{Base64} `{Ed25519} `{SerdeJson} `{Rfc3339} `{UuidText} {W : Type} `{!Host W}.
Variable envelope_to_json : CommandEnvelope -> string.
Variable parse_envelope : string -> option CommandEnvelope.
(** The fuel of the verification loop, and the keyrings of the agent and of the
    actuator. *)
Variable fuel : nat.
Variables (ring actuator_ring : Keyring).

(** [send_to_actuator]: a reply that is not a result is an error of the reader. *)
Definition send_to_actuator (env : CommandEnvelope) (ws : W * Log) : result string ActionResult * (W * Log) :=
  match handle_connection parse_envelope fuel actuator_ring (Ok (envelope_to_json env +:+ newline)) ws with
  | (Done (Replied r), ws) => (Ok r, ws)
  | (_, ws) => (Err "EOF while parsing a value"%string, ws)
  end.

(** What surrounds one envelope of the round: the clock, the append to the ledger,
    the inputs of the result endpoint, and whether the report reaches it. *)
Record RoundCtx := mkRoundCtx {
  rc_now : DateTime;
  rc_append : Append;
  rc_inputs : Inputs;
  rc_posted : bool;
}.
Definition Round : Type := AppState * Ledger * (W * Log).

(** One envelope: the round's state, and the envelope when it was dispatched. *)
Definition round_step (c : RoundCtx) (env : CommandEnvelope) (st : Round) : Round * list CommandEnvelope :=
  let '(s, l, ws) := st in
  let (answer, ws') :=
    match (process_check env ring (rc_append c) (rc_now c) l).1 with
    | inr _ => send_to_actuator env ws
    | inl _ => (Err EmptyString, ws)
    end in
  let '(r, l', sent) := process_command env ring (rc_append c) answer (rc_now c) l in
  (match r with
   | Some res => if rc_posted c then (post_command_result (rc_inputs c) res s).2 else s
   | None => s
   end, l', ws', sent).
Fixpoint round_loop (ctx : nat -> RoundCtx) (k : nat) (envs : list CommandEnvelope) (st : Round)
    : Round * list CommandEnvelope :=
  match envs with
  | [] => (st, [])
  | env :: envs' =>
      let (st, sent) := round_step (ctx k) env st in
      let (st, sents) := round_loop ctx (S k) envs' st in (st, sent ++ sents)
  end.
(** [poll_once] against the endpoints of the control plane. *)
Definition pull_round (ctx : nat -> RoundCtx) (agent : Uuid) (st : Round) : Round * list CommandEnvelope :=
  let '(s, l, ws) := st in
  let (envs, q) := take_for agent (as_queue s) in round_loop ctx 0 envs (set_queue q s, l, ws).
End Loop.

(** ** The round closes what was issued *)

Section LoopFacts.
Context `{SerdeValue} `{Base64} `{Ed25519} `{SerdeJson} `{Rfc3339} `{UuidText} {W : Type} `{!Host W}.
Variable envelope_to_json : CommandEnvelope -> string.
Variable parse_envelope : string -> option CommandEnvelope.
Variable fuel : nat.
Variables (ring actuator_ring : Keyring).
#[local] Abbreviation send := (send_to_actuator envelope_to_json parse_envelope fuel actuator_ring).
#[local] Abbreviation step := (round_step envelope_to_json parse_envelope fuel ring actuator_ring).
#[local] Abbreviation loop := (round_loop envelope_to_json parse_envelope fuel ring actuator_ring).

(** The envelope comes back from its line on the socket. *)
Definition json_ok (env : CommandEnvelope) : Prop :=
  envelope_to_json env <> EmptyString /\ parse_envelope (trim (envelope_to_json env +:+ newline)) = Some env.

(** The row of a command whose result is recorded. *)
Definition closed (t : Table) (env : CommandEnvelope) : Prop :=
  exists r res, r ∈ t /\ rw_command_id r = Some (ce_command_id env) /\ rw_command_signature r = ce_sig env
    /\ rw_result r = Some res /\ ar_command_id res = ce_command_id env.

Lemma send_reports env ws r ws' : json_ok env -> send env ws = (Ok r, ws') -> ar_command_id r = ce_command_id env.
Proof.
  intros [Hne Hparse]. unfold send_to_actuator, handle_connection.
  destruct (envelope_to_json env +:+ newline) as [|c line] eqn:Hl.
  { apply (f_equal String.length) in Hl. rewrite str_length_app in Hl. cbn in Hl. lia. }
  rewrite Hparse. destruct (envelope_contains_kube_capability env).
  { unfold reject, make_result. run_monad. by intros [= <- _]. }
  destruct ws as [w l]. destruct (handle_command_spec fuel actuator_ring env w l) as (o & w' & k & Ho & Hr & _).
  unfold mbind, M_bind. rewrite Ho. destruct o as [a| |]; [|done..]. unfold mret, M_ret. by intros [= <- _].
Qed.

Lemma post_table i res s :
  in_db_ok i = true ->
  st_table (as_store (post_command_result i res s).2)
  = (update_where (has_command (ar_command_id res)) (set_result res (in_now i)) (st_table (as_store s))).1.
Proof.
  intros Hdb. unfold post_command_result, store_record_result, record_remediation_result. rewrite Hdb. cbn.
  by repeat case_match.
Qed.

Lemma post_queue i res s a : pending_for a (as_queue (post_command_result i res s).2) = pending_for a (as_queue s).
Proof.
  unfold post_command_result. destruct (store_record_result _ _ _ _) as [[[r sig]|] st]; cbn; by repeat case_match.
Qed.

Lemma set_result_row t res now r :
  r ∈ t -> exists r', r' ∈ (update_where (has_command (ar_command_id res)) (set_result res now) t).1
    /\ rw_command_id r' = rw_command_id r /\ rw_command_signature r' = rw_command_signature r
    /\ rw_result r' = if has_command (ar_command_id res) r then Some res else rw_result r.
Proof.
  intros Hr. exists (if has_command (ar_command_id res) r then set_result res now r else r). split.
  - cbn. by apply (list_elem_of_fmap_2 (fun r => if has_command (ar_command_id res) r then set_result res now r else r)).
  - by destruct (has_command _ r).
Qed.

Lemma recorded_after t res now env :
  recorded t env -> recorded (update_where (has_command (ar_command_id res)) (set_result res now) t).1 env.
Proof.
  intros (r & Hr & Hc & Hs). destruct (set_result_row t res now r Hr) as (r' & Hin & Hc' & Hs' & _).
  exists r'. split; [done|]. by rewrite Hc', Hs'.
Qed.

Lemma closed_after t res now env :
  closed t env -> closed (update_where (has_command (ar_command_id res)) (set_result res now) t).1 env.
Proof.
  intros (r & res0 & Hr & Hc & Hs & Hres & Hid). destruct (set_result_row t res now r Hr) as (r' & Hin & Hc' & Hs' & Hr').
  exists r'. destruct (has_command (ar_command_id res) r) eqn:Hh.
  - exists res. rewrite Hc', Hs', Hr'. split_and!; [done..|]. unfold has_command in Hh.
    apply bool_decide_eq_true in Hh. congruence.
  - exists res0. rewrite Hc', Hs', Hr'. done.
Qed.

Lemma recorded_closes t res now env :
  recorded t env -> ar_command_id res = ce_command_id env ->
  closed (update_where (has_command (ar_command_id res)) (set_result res now) t).1 env.
Proof.
  intros (r & Hr & Hc & Hs) Hid. destruct (set_result_row t res now r Hr) as (r' & Hin & Hc' & Hs' & Hr').
  exists r', res. rewrite Hc', Hs', Hr'. split_and!; [done..| |done].
  unfold has_command. by rewrite Hc, Hid, bool_decide_eq_true_2.
Qed.

(** Nothing is down: the ledger is written, the report arrives, the database answers. *)
Definition all_up (c : RoundCtx) : Prop :=
  rc_append c = Wrote /\ rc_posted c = true /\ in_db_ok (rc_inputs c) = true.

Lemma round_step_closes c env s l ws st' sent :
  json_ok env -> all_up c -> ledger_contains (ce_command_id env) l = false -> step c env (s, l, ws) = (st', sent) ->
  exists res l' ws', st' = ((post_command_result (rc_inputs c) res s).2, l', ws')
    /\ ar_command_id res = ce_command_id env
    /\ (forall id, ledger_contains id l' = true -> ledger_contains id l = true \/ id = ce_command_id env)
    /\ sent = (if bool_decide (verify_envelope_with ring env (rc_now c) = Ok tt) then [env] else [])
    /\ (sent = [] -> ws' = ws).
Proof.
  intros Hj (Ha & Hp & Hdb) Hl. unfold round_step, process_command, process_check. rewrite Hl, Ha, Hp.
  destruct (verify_envelope_with ring env (rc_now c)) as [[]|e]; cbn.
  - unfold ledger_record. rewrite Hl. cbn. destruct (send env ws) as [answer ws'] eqn:Hs. intros [= <- <-].
    eexists _, _, ws'. split; [reflexivity|]. split; [|split; [|split; [done|done]]].
    + unfold process_send. destruct answer as [r|e]; [|done]. by eapply send_reports.
    + unfold ledger_contains. cbn. intros id. rewrite !bool_decide_eq_true. set_solver.
  - intros [= <- <-]. eexists _, l, ws. split_and!; try done. auto.
Qed.

Lemma round_loop_closes ctx k envs s l ws st' sent :
  (forall k, all_up (ctx k)) -> (forall env, env ∈ envs -> json_ok env) -> NoDup (map ce_command_id envs) ->
  (forall env, env ∈ envs -> ledger_contains (ce_command_id env) l = false) ->
  (forall env, env ∈ envs -> recorded (st_table (as_store s)) env) ->
  loop ctx k envs (s, l, ws) = (st', sent) ->
  (forall a, pending_for a (as_queue st'.1.1) = pending_for a (as_queue s))
  /\ (forall env, env ∈ envs \/ closed (st_table (as_store s)) env -> closed (st_table (as_store st'.1.1)) env)
  /\ sent `sublist_of` envs
  /\ (forall env, env ∈ envs -> (forall k, verify_envelope_with ring env (rc_now (ctx k)) = Ok tt) -> env ∈ sent)
  /\ (sent = [] -> st'.2 = ws).
Proof.
  intros Hup. revert k s l ws st' sent. induction envs as [|env envs IH]; intros k s l ws st' sent Hj Hnd Hl Hrec; cbn [round_loop].
  { intros [= <- <-]. split_and!; try done. intros env [Hin|Hc]; [by apply elem_of_nil in Hin|done]. }
  cbn [map] in Hnd. apply NoDup_cons in Hnd as [Hnew Hnd].
  destruct (step (ctx k) env (s, l, ws)) as [st1 sent1] eqn:Hs.
  destruct (round_step_closes _ _ _ _ _ _ _ (Hj env ltac:(set_solver)) (Hup k) (Hl env ltac:(set_solver)) Hs)
    as (res & l1 & ws1 & -> & Hid & Hl1 & Hsent1 & Hws1).
  match goal with |- context [loop ctx (S k) envs ?x] => destruct (loop ctx (S k) envs x) as [st2 sent2] eqn:Hr end.
  intros [= <- <-].
  pose proof (post_table (rc_inputs (ctx k)) res s (proj2 (proj2 (Hup k)))) as Ht.
  assert (forall x, x ∈ envs -> ledger_contains (ce_command_id x) l1 = false) as Hl'.
  { intros x Hx. destruct (ledger_contains (ce_command_id x) l1) eqn:Hc; [|done]. apply Hl1 in Hc as [Hc|Hc].
    - rewrite Hl in Hc; [done|set_solver].
    - exfalso. apply Hnew. rewrite <-Hc. by apply list_elem_of_fmap_2. }
  assert (forall x, x ∈ envs -> recorded (st_table (as_store (post_command_result (rc_inputs (ctx k)) res s).2)) x) as Hrec'.
  { intros x Hx. rewrite Ht. apply recorded_after, Hrec. set_solver. }
  destruct (IH _ _ _ _ _ _ (fun x Hx => Hj x ltac:(set_solver)) Hnd Hl' Hrec' Hr) as (Hq & Hclosed & Hsub & Hdisp & Hws2). split_and!.
  - intros a. by rewrite Hq, post_queue.
  - intros x Hx. apply Hclosed. rewrite Ht. destruct Hx as [[->|Hx]%elem_of_cons|Hx]; [right|left; done|right].
    + apply recorded_closes; [apply Hrec; set_solver|done].
    + by apply closed_after.
  - rewrite Hsent1. case_bool_decide; cbn; [by apply sublist_skip|by apply sublist_cons].
  - intros x [->|Hx]%elem_of_cons Hv; apply elem_of_app; [left|right; by apply Hdisp].
    rewrite Hsent1, bool_decide_eq_true_2 by apply Hv. by left.
  - intros [Hn1 Hn2]%app_eq_nil. rewrite (Hws2 Hn2). auto.
Qed.

Lemma pending_after_take a q : pending_for a (take_for a q).2 = [].
Proof.
  unfold take_for, pending_for. destruct (cq_pending q !! a) as [p|] eqn:Hp; cbn; [by rewrite lookup_insert_eq|by rewrite Hp].
Qed.

Lemma taken_pending a q : (take_for a q).1 = pending_for a q.
Proof. unfold take_for, pending_for. by destruct (cq_pending q !! a). Qed.

End LoopFacts.

(** ** A concrete round *)

Definition loop_state : AppState := server_run [DoPrepare (example_inputs 1) example_event; DoApprove (example_inputs 2) 1 None]
  (example_state [] true).
Definition loop_envelope : CommandEnvelope := default example_envelope (head (pending_for 9 (as_queue loop_state))).
Definition loop_ctx (k : nat) : RoundCtx :=
  {| rc_now := 5; rc_append := Wrote; rc_inputs := example_inputs 7; rc_posted := true |}.

