(* ===== verification/Taps.v ===== *)
(** * Detection taps of the host agent ([ravn-agent/src/detection])

  The journald mapping with its auth classifier, the failed-unit grace
  tracker, config-drift evaluation, and NixOS generation changes.  The journal,
  D-Bus, inotify and the file system are inputs; so are SHA-256, the line diff
  and [chrono]'s timestamps, which come from other crates. *)

From S2P Require Export Event.

Class TapEnv : Type := {
  sha256_hex : string -> string;
  text_diff : string -> string -> string -> string;
  timestamp_micros : Z -> option DateTime;
}.

(** What an event takes from outside. *)
Record Draw := mkDraw { dr_id : Uuid; dr_now : DateTime }.

Section Journal.
Context `{SerdeValue} `{TapEnv}.

(** ** Auth events ([auth.rs]) *)

Record Detected := mkDetected {
  de_action : string;
  de_user : option string;
  de_remote : option string;
  de_succeeded : bool;
  de_severity : Severity;
}.

(** A journal record, and [rec.get(k).and_then(Value::as_str)]. *)
Definition JournalRecord : Type := btree Value.
Definition field (rec : JournalRecord) (k : string) : option string :=
  v ← bt_get k rec; value_as_str v.

Definition is_trailing_punct (c : ascii) : bool :=
  is_byte 58 c || is_byte 59 c || is_byte 44 c || is_byte 46 c.
Definition non_empty (s : string) : option string := if is_empty s then None else Some s.
Definition word_after (s marker : string) : option string :=
  p ← cut marker s;
  w ← first_word p.2;
  non_empty (trim_end_matches is_trailing_punct w).

Definition sudo_user (msg : string) : option string :=
  match word_after msg "ruser=" with
  | Some u => Some u
  | None =>
      let head := match cut " : " msg with Some (a, _) => a | None => msg end in
      let head := trim head in
      if negb (is_empty head) && negb (contains " " head) then Some head
      else word_after msg "logname="
  end.

Definition classify_ssh (msg : string) : option Detected :=
  match strip_prefix "Accepted " msg with
  | Some rest => Some (mkDetected "ssh_login" (word_after rest "for ") (word_after rest "from ") true Notice)
  | None =>
      if starts_with "Failed password for" msg || starts_with "Failed publickey for" msg then
        let user := if contains "invalid user" msg then word_after msg "invalid user "
                    else word_after msg "for " in
        Some (mkDetected "ssh_failed" user (word_after msg "from ") false Warning)
      else if starts_with "Invalid user" msg then
        Some (mkDetected "ssh_invalid_user" (word_after msg "Invalid user ") (word_after msg "from ")
                false Warning)
      else None
  end.

Definition classify_sudo (msg : string) : option Detected :=
  if contains "authentication failure" msg || contains "incorrect password" msg then
    Some (mkDetected "sudo_failed" (sudo_user msg) None false Warning)
  else if contains "TTY=" msg && contains "COMMAND=" msg then
    Some (mkDetected "sudo" (sudo_user msg) None true Notice)
  else None.

Definition classify_audit (msg : string) : option Detected :=
  if negb (contains "USER_AUTH" msg || contains "USER_LOGIN" msg) then None
  else
    let succeeded := contains "res=success" msg in
    let remote := match word_after msg "addr=" with
                  | Some a => if String.eqb a "?" then None else Some a
                  | None => None
                  end in
    Some (mkDetected "audit_user_auth" (word_after msg "acct=") remote succeeded
            (if succeeded then Info else Warning)).

(** [__REALTIME_TIMESTAMP], else the clock. *)
Definition record_time (rec : JournalRecord) (now : DateTime) : DateTime :=
  default now
    (t ← field rec "__REALTIME_TIMESTAMP"; us ← parse_i64 t; timestamp_micros us).

Definition auth_detect (rec : JournalRecord) (msg : string) : option Detected :=
  let ident := default EmptyString
    (match field rec "SYSLOG_IDENTIFIER" with Some i => Some i | None => field rec "_COMM" end) in
  let transport := default EmptyString (field rec "_TRANSPORT") in
  if String.eqb ident "sshd" then classify_ssh msg
  else if String.eqb ident "sudo" then classify_sudo msg
  else if String.eqb transport "audit" || String.eqb ident "audit" || String.eqb ident "auditd"
  then classify_audit msg
  else if starts_with "New session" msg || contains "session opened for user" msg
  then Some (mkDetected "session_open" (word_after msg "user ") None true Info)
  else None.

Definition auth_title (d : Detected) : string :=
  match de_user d, de_remote d with
  | Some u, Some r => de_action d +:+ ": " +:+ u +:+ " from " +:+ r
  | Some u, None => de_action d +:+ ": " +:+ u
  | None, Some r => de_action d +:+ " from " +:+ r
  | None, None => de_action d
  end.

(** [auth::classify]. *)
Definition auth_classify (rec : JournalRecord) (agent_id : Uuid) (host : string) (x : Draw) : option Event :=
  msg ← field rec "MESSAGE";
  d ← auth_detect rec msg;
  Some {| ev_id := dr_id x; ev_occurred_at := record_time rec (dr_now x); ev_observed_at := dr_now x;
          ev_agent_id := mkAgentId agent_id; ev_host := host; ev_severity := de_severity d;
          ev_title := auth_title d; ev_category_hints := [];
          ev_payload := Auth {| au_action := de_action d; au_user := de_user d;
                                au_remote_addr := de_remote d; au_succeeded := de_succeeded d;
                                au_extra := [] |} |}.

(** ** Journal entries ([journald.rs]) *)

Record JournaldTap := mkJournaldTap {
  jt_agent_id : Uuid;
  jt_host : string;
  jt_min_priority : N;
  jt_auth_enable : bool;
  jt_skip_kernel : bool;
}.

(** The priority down to which the journal is streamed. *)
Definition stream_priority (t : JournaldTap) : N :=
  if jt_auth_enable t then N.max (jt_min_priority t) 6 else jt_min_priority t.

Definition severity_from_priority (p : N) : Severity :=
  if (p <=? 2)%N then Critical
  else if (p =? 3)%N then Error
  else if (p =? 4)%N then Warning
  else if (p =? 5)%N then Notice
  else Info.

Definition truncate (s : string) (max : nat) : string :=
  if char_count s <=? max then s else take_chars max s +:+ "…".

Definition record_priority (rec : JournalRecord) : N :=
  default 6%N (p ← field rec "PRIORITY"; parse_uint 255 p).

Definition record_to_event (t : JournaldTap) (rec : JournalRecord) (x : Draw) : option Event :=
  let priority := record_priority rec in
  if (jt_min_priority t <? priority)%N then None
  else if jt_skip_kernel t && bool_decide (field rec "_TRANSPORT" = Some "kernel") then None
  else
    message ← field rec "MESSAGE";
    let unit_ := field rec "_SYSTEMD_UNIT" in
    let extra := match field rec "SYSLOG_IDENTIFIER" with
                 | Some i => bt_insert "syslog_identifier" (value_from_str i) []
                 | None => [] end in
    let extra := match field rec "_PID" with
                 | Some p => bt_insert "pid" (value_from_str p) extra
                 | None => extra end in
    let title := match unit_ with
                 | Some u => u +:+ ": " +:+ truncate message 80
                 | None => truncate message 100
                 end in
    Some {| ev_id := dr_id x; ev_occurred_at := record_time rec (dr_now x); ev_observed_at := dr_now x;
            ev_agent_id := mkAgentId (jt_agent_id t); ev_host := jt_host t;
            ev_severity := severity_from_priority priority; ev_title := title; ev_category_hints := [];
            ev_payload := Journald {| jd_unit := unit_; jd_priority := Some priority;
                                      jd_message := message; jd_extra := extra |} |}.

Definition classify (t : JournaldTap) (rec : JournalRecord) (x : Draw) : option Event :=
  match (if jt_auth_enable t then auth_classify rec (jt_agent_id t) (jt_host t) x else None) with
  | Some e => Some e
  | None => record_to_event t rec x
  end.

(** ** Failed units ([failed_unit.rs]) *)

(** [build_event] of the failed-unit tap. *)
Definition failed_unit_event (agent_id : Uuid) (host unit_ result : string) (recent_log : list string)
    (active_state : string) (x : Draw) : Event :=
  {| ev_id := dr_id x; ev_occurred_at := dr_now x; ev_observed_at := dr_now x;
     ev_agent_id := mkAgentId agent_id; ev_host := host; ev_severity := Error;
     ev_title := "unit failed: " +:+ unit_; ev_category_hints := [];
     ev_payload := FailedUnit {| fu_unit := unit_; fu_result := result; fu_recent_log := recent_log;
       fu_extra := bt_insert "active_state" (value_from_str active_state) [] |} |}.
End Journal.

Record GraceTracker := mkTracker {
  gt_pending : gmap string Z;
  gt_emitted : gset string;
}.
Definition tracker_new : GraceTracker := {| gt_pending := ∅; gt_emitted := ∅ |}.

(** The body of the loop of [observe] for one unit. *)
Definition observe_one (now grace : Z) (name : string) (t : GraceTracker) : bool * GraceTracker :=
  if bool_decide (name ∈ gt_emitted t) then (false, t)
  else
    let first_seen := default now (gt_pending t !! name) in
    if (grace <=? Z.max 0 (now - first_seen))%Z
    then (true, {| gt_pending := delete name (gt_pending t); gt_emitted := {[name]} ∪ gt_emitted t |})
    else (false, {| gt_pending := <[name := first_seen]> (gt_pending t); gt_emitted := gt_emitted t |}).
Fixpoint observe_loop (now grace : Z) (order : list string) (t : GraceTracker) : list string * GraceTracker :=
  match order with
  | [] => ([], t)
  | name :: order' =>
      let (fired, t) := observe_one now grace name t in
      let (rest, t) := observe_loop now grace order' t in
      (if fired then name :: rest else rest, t)
  end.
(** [observe]: [current] lists the currently failed units in the iteration order
    of the set. *)
Definition observe (current : list string) (now grace : Z) (t : GraceTracker) : list string * GraceTracker :=
  let t := {| gt_pending := filter (fun x => x.1 ∈ current) (gt_pending t);
              gt_emitted := filter (fun x => x ∈ current) (gt_emitted t) |} in
  observe_loop now grace current t.

(** A run of the tracker: for each poll the failed units and the time, nothing when the
    listing failed; what is emitted at each poll. *)
Definition Poll : Type := option (list string * Z).
Fixpoint observe_run (grace : Z) (polls : list Poll) (t : GraceTracker) : list (list string) * GraceTracker :=
  match polls with
  | [] => ([], t)
  | Some (current, now) :: polls' =>
      let (out, t) := observe current now grace t in
      let (outs, t) := observe_run grace polls' t in (out :: outs, t)
  | None :: polls' => let (outs, t) := observe_run grace polls' t in ([] :: outs, t)
  end.

(** ** Config drift ([config_drift.rs]) *)

Definition MAX_TEXT_BYTES : N := 262144.

Record FileState := mkFileState {
  fs_hash : string;
  fs_text : option string;
}.

(** [String::from_utf8]: well-formed UTF-8. *)
Definition cont (c : ascii) : bool := is_cont c.
Fixpoint valid_utf8 (s : string) : bool :=
  match s with
  | EmptyString => true
  | String a s1 =>
      if (code a <? 128)%N then valid_utf8 s1
      else
        match s1 with
        | EmptyString => false
        | String b s2 =>
            if in_range 194 223 a then cont b && valid_utf8 s2
            else
              match s2 with
              | EmptyString => false
              | String c s3 =>
                  if is_byte 224 a then in_range 160 191 b && cont c && valid_utf8 s3
                  else if is_byte 237 a then in_range 128 159 b && cont c && valid_utf8 s3
                  else if in_range 225 239 a then cont b && cont c && valid_utf8 s3
                  else
                    match s3 with
                    | EmptyString => false
                    | String d s4 =>
                        if is_byte 240 a then in_range 144 191 b && cont c && cont d && valid_utf8 s4
                        else if in_range 241 243 a then cont b && cont c && cont d && valid_utf8 s4
                        else if is_byte 244 a then in_range 128 143 b && cont c && cont d && valid_utf8 s4
                        else false
                    end
              end
        end
  end.

Section Drift.
Context `{SerdeValue} `{TapEnv}.

(** [None] is a panic. *)
Definition unified_diff (path old new : string) : option string :=
  let diff := text_diff path old new in
  if (MAX_TEXT_BYTES <? str_len diff)%N
  then (fun d => d +:+ newline +:+ "… (diff truncated)") <$> slice_to MAX_TEXT_BYTES diff
  else Some diff.

(** [evaluate]: the outer option is a panic, the inner one the answer. *)
Definition drift_evaluate (path : string) (prev : option FileState) (bytes : string)
    : option (option (ConfigDriftPayload * FileState)) :=
  let new_hash := sha256_hex bytes in
  if match prev with Some p => String.eqb (fs_hash p) new_hash | None => false end then Some None
  else
    let new_text := if (str_len bytes <=? MAX_TEXT_BYTES)%N && valid_utf8 bytes
                    then Some bytes else None in
    diff ← match prev ≫= fs_text, new_text with
           | Some old, Some new => Some <$> unified_diff path old new
           | _, _ => Some None
           end;
    Some (Some ({| cd_path := path; cd_old_hash := fs_hash <$> prev; cd_new_hash := new_hash;
                   cd_diff := diff; cd_extra := [] |},
                {| fs_hash := new_hash; fs_text := new_text |})).

Definition drift_event (p : ConfigDriftPayload) (agent_id : Uuid) (host : string) (x : Draw) : Event :=
  {| ev_id := dr_id x; ev_occurred_at := dr_now x; ev_observed_at := dr_now x;
     ev_agent_id := mkAgentId agent_id; ev_host := host; ev_severity := Warning;
     ev_title := "config drift: " +:+ cd_path p; ev_category_hints := []; ev_payload := ConfigDrift p |}.

(** [process]: what reading the changed path gives ([None] when it cannot be
    read); the event, and the baseline after it. *)
Definition drift_process (path : string) (contents : option string) (agent_id : Uuid) (host : string)
    (x : Draw) (baseline : gmap string FileState) : option (option Event * gmap string FileState) :=
  match contents with
  | Some bytes =>
      r ← drift_evaluate path (baseline !! path) bytes;
      Some (match r with
            | Some (payload, state) =>
                (Some (drift_event payload agent_id host x), <[path := state]> baseline)
            | None => (None, baseline)
            end)
  | None =>
      Some (match baseline !! path with
            | Some prev =>
                (Some (drift_event {| cd_path := path; cd_old_hash := Some (fs_hash prev);
                                      cd_new_hash := "(removed)"; cd_diff := None; cd_extra := [] |}
                         agent_id host x), delete path baseline)
            | None => (None, baseline)
            end)
  end.

(** ** Updates ([update.rs]) *)

Definition update_event (agent_id : Uuid) (host : string) (from to : N) (changes : list string) (x : Draw)
    : Event :=
  {| ev_id := dr_id x; ev_occurred_at := dr_now x; ev_observed_at := dr_now x;
     ev_agent_id := mkAgentId agent_id; ev_host := host; ev_severity := Notice;
     ev_title := "system updated: generation " +:+ show_N from +:+ " → " +:+ show_N to;
     ev_category_hints := [];
     ev_payload := Update {| up_mechanism := "nixos"; up_from := Some (show_N from);
                             up_to := Some (show_N to); up_changes := changes; up_extra := [] |} |}.
End Drift.

(** The last piece of [rsplit('-')]. *)
Definition parse_generation (target : string) : option N :=
  stem ← strip_suffix "-link" target;
  piece ← last (split_on (is_byte 45) stem);
  parse_uint (2 ^ 64 - 1) piece.

(** One turn of the loop of the update tap: the generation last seen, the one the
    profile points at now (if any), the reported change. *)
Definition update_turn (current : N) (latest : option N) : option (N * N) * N :=
  match latest with
  | None => (None, current)
  | Some l => if (l =? current)%N then (None, current) else (Some (current, l), l)
  end.

(** ** The grace tracker, one unit at a time *)

(** What the tracker knows of a unit: when it was first seen failed, and whether
    it was reported. *)
Definition unit_state (u : string) (t : GraceTracker) : option Z * bool :=
  (gt_pending t !! u, bool_decide (u ∈ gt_emitted t)).
#[global] Arguments unit_state : simpl never.
Definition unit_step (now grace : Z) (st : option Z * bool) : bool * (option Z * bool) :=
  if st.2 then (false, st)
  else
    let first_seen := default now st.1 in
    if (grace <=? Z.max 0 (now - first_seen))%Z then (true, (None, true))
    else (false, (Some first_seen, false)).

Lemma observe_one_self now grace u t :
  (observe_one now grace u t).1 = (unit_step now grace (unit_state u t)).1
  /\ unit_state u (observe_one now grace u t).2 = (unit_step now grace (unit_state u t)).2.
Proof.
  unfold observe_one, unit_step, unit_state. cbn. case_bool_decide as He; cbn.
  { by rewrite bool_decide_eq_true_2. }
  destruct (grace <=? _)%Z; cbn.
  - rewrite lookup_delete_eq, bool_decide_eq_true_2 by set_solver. done.
  - rewrite lookup_insert_eq, bool_decide_eq_false_2 by done. done.
Qed.

Lemma observe_one_other now grace u v t :
  u <> v -> unit_state u (observe_one now grace v t).2 = unit_state u t.
Proof.
  intros Hne. unfold observe_one, unit_state. case_bool_decide; cbn; [done|].
  destruct (grace <=? _)%Z; cbn.
  - rewrite lookup_delete_ne by done. f_equal. apply bool_decide_ext. set_solver.
  - by rewrite lookup_insert_ne by done.
Qed.

Lemma observe_loop_unit now grace order u t :
  NoDup order ->
  (u ∉ order -> u ∉ (observe_loop now grace order t).1
     /\ unit_state u (observe_loop now grace order t).2 = unit_state u t)
  /\ (u ∈ order ->
        (u ∈ (observe_loop now grace order t).1 <-> (unit_step now grace (unit_state u t)).1 = true)
        /\ unit_state u (observe_loop now grace order t).2 = (unit_step now grace (unit_state u t)).2).
Proof.
  intros Hnd. revert t; induction Hnd as [|v order Hv _ IH]; intros t; cbn [observe_loop].
  { split; [cbn; set_solver|set_solver]. }
  destruct (observe_one now grace v t) as [fired t1] eqn:H1.
  specialize (IH t1) as [IHout IHin]. destruct (observe_loop now grace order t1) as [rest t2].
  cbn [fst snd] in *. split.
  - intros [Hne Hu]%not_elem_of_cons. destruct (IHout Hu) as [Hr Hs].
    pose proof (observe_one_other now grace u v t Hne) as Ho. rewrite H1 in Ho. cbn in Ho.
    split; [destruct fired; set_solver|congruence].
  - intros [->|Hu]%elem_of_cons.
    + destruct (IHout Hv) as [Hr Hs]. destruct (observe_one_self now grace v t) as [Hf Hst].
      rewrite H1 in Hf, Hst. cbn in Hf, Hst. rewrite Hs, <-Hf, <-Hst.
      split; [|done]. destruct fired; set_solver.
    + assert (u <> v) as Hne by (by intros ->).
      pose proof (observe_one_other now grace u v t Hne) as Ho. rewrite H1 in Ho. cbn in Ho.
      rewrite <-Ho. destruct (IHin Hu) as [Hr Hs]. split; [|done].
      rewrite <-Hr. destruct fired; set_solver.
Qed.

Lemma observe_unit current now grace u t :
  NoDup current ->
  (u ∉ current -> u ∉ (observe current now grace t).1
     /\ unit_state u (observe current now grace t).2 = (None, false))
  /\ (u ∈ current ->
        (u ∈ (observe current now grace t).1 <-> (unit_step now grace (unit_state u t)).1 = true)
        /\ unit_state u (observe current now grace t).2 = (unit_step now grace (unit_state u t)).2).
Proof.
  intros Hnd. unfold observe.
  set (t0 := {| gt_pending := _; gt_emitted := _ |}).
  destruct (observe_loop_unit now grace current u t0 Hnd) as [Hout Hin]. split.
  - intros Hu. destruct (Hout Hu) as [Hr Hs]. split; [done|]. rewrite Hs. unfold unit_state, t0. cbn.
    rewrite map_lookup_filter_None_2 by (right; intros ? _; done).
    rewrite bool_decide_eq_false_2 by set_solver. done.
  - intros Hu. assert (unit_state u t0 = unit_state u t) as <-; [|by apply Hin].
    unfold unit_state, t0. cbn. f_equal.
    + rewrite map_lookup_filter. destruct (gt_pending t !! u); cbn; [|done]. by rewrite option_guard_True.
    + apply bool_decide_ext. set_solver.
Qed.

(** A poll that fails or sees the unit failed; when a poll was made. *)
Definition sees (u : string) (p : Poll) : Prop := match p with Some (current, _) => NoDup current /\ u ∈ current | None => True end.
Definition time_at (polls : list Poll) (k : nat) : option Z := p ← polls !! k; snd <$> p.
(** The instants at which a failure that lasts is old enough. *)
Definition ripe (grace t0 : Z) (now : Z) : Prop := (grace <= Z.max 0 (now - t0))%Z.
Definition first_ripe (grace t0 : Z) (polls : list Poll) (k : nat) : Prop :=
  (exists now, time_at polls k = Some now /\ ripe grace t0 now)
  /\ forall j nowj, j < k -> time_at polls j = Some nowj -> ~ ripe grace t0 nowj.

Lemma first_ripe_cons grace t0 p polls k :
  (forall now, snd <$> p = Some now -> ~ ripe grace t0 now) ->
  first_ripe grace t0 (p :: polls) (S k) <-> first_ripe grace t0 polls k.
Proof.
  intros Hp. unfold first_ripe. split; intros [Hk Hj]; (split; [exact Hk|]).
  - intros j nowj Hlt. apply (Hj (S j)). lia.
  - intros [|j] nowj Hlt; [apply Hp|]. apply Hj. lia.
Qed.

Lemma episode_reported grace u polls t :
  Forall (sees u) polls -> (unit_state u t).2 = true ->
  forall k out, (observe_run grace polls t).1 !! k = Some out -> u ∉ out.
Proof.
  intros Hall. revert t; induction Hall as [|[[current now]|] polls Hp _ IH]; intros t Hst k out; cbn [observe_run]; [done| |].
  - destruct Hp as [Hnd Hu]. destruct (observe_unit current now grace u t Hnd) as [_ Hin]. destruct (Hin Hu) as [Hout Hst'].
    unfold unit_step in *. rewrite Hst in *. cbn in *.
    destruct (observe current now grace t) as [o t1]. cbn in *. specialize (IH t1).
    destruct (observe_run grace polls t1) as [outs t2]. cbn in *.
    destruct k as [|k]; cbn; [intros [= <-] Ho; by apply Hout in Ho|]. apply IH. by rewrite Hst'.
  - specialize (IH t Hst). destruct (observe_run grace polls t) as [outs t2]. cbn in *.
    destruct k as [|k]; cbn; [intros [= <-]; apply not_elem_of_nil|apply IH].
Qed.

(** A unit first seen at [t0], or not yet seen, when it is first seen at [t0]. *)
Definition seen_since (t0 : Z) (polls : list Poll) (st : option Z * bool) : Prop :=
  st = (Some t0, false) \/ (st = (None, false) /\ head (omap (fun p => snd <$> p) polls) = Some t0).

Lemma episode_pending grace u polls t t0 :
  Forall (sees u) polls -> seen_since t0 polls (unit_state u t) ->
  forall k out, (observe_run grace polls t).1 !! k = Some out -> u ∈ out <-> first_ripe grace t0 polls k.
Proof.
  intros Hall. revert t; induction Hall as [|[[current n0]|] polls Hp Hall IH]; intros t Hst k out; cbn [observe_run]; [done| |].
  - destruct Hp as [Hnd Hu]. destruct (observe_unit current n0 grace u t Hnd) as [_ Hin]. destruct (Hin Hu) as [Hout Hst'].
    assert (unit_step n0 grace (unit_state u t)
      = if (grace <=? Z.max 0 (n0 - t0))%Z then (true, (None, true)) else (false, (Some t0, false))) as Hstep.
    { destruct Hst as [->|[-> Hhd]]; [done|]. cbn in Hhd. injection Hhd as ->. done. }
    rewrite Hstep in Hout, Hst'. destruct (observe current n0 grace t) as [o t1]. cbn [fst snd] in Hout, Hst'.
    pose proof (episode_reported grace u polls t1 Hall) as Hrep. specialize (IH t1).
    destruct (observe_run grace polls t1) as [outs t2]. cbn [fst] in *.
    destruct (Z.leb_spec grace (Z.max 0 (n0 - t0))) as [Hr|Hr]; cbn in Hout, Hst'.
    + destruct k as [|k]; cbn [lookup list_lookup].
      * intros [= <-]. rewrite Hout. split; [|done]. intros _. split; [by exists n0|]. intros j nj Hj. lia.
      * intros Ho. split; [intros Hin'; exfalso; revert Hin'; eapply Hrep; [by rewrite Hst'|done]|].
        intros [_ Hno]. exfalso. by apply (Hno 0 n0); [lia|done|].
    + assert (~ ripe grace t0 n0) as Hnr by (unfold ripe; lia). destruct k as [|k]; cbn [lookup list_lookup].
      * intros [= <-]. rewrite Hout. split; [done|]. intros [(now & [= <-] & Hn) _]. done.
      * intros Ho. rewrite (IH ltac:(left; exact Hst') k out Ho), first_ripe_cons; [done|]. by intros now [= <-].
  - specialize (IH t Hst). destruct (observe_run grace polls t) as [outs t2]. cbn [fst] in *.
    destruct k as [|k]; cbn [lookup list_lookup].
    + intros [= <-]. split; [by intros ?%not_elem_of_nil|]. by intros [(now & Hn & _) _].
    + intros Ho. rewrite (IH k out Ho), first_ripe_cons; done.
Qed.

(** A persistent failure is reported exactly once: from a tracker that does not know
    the unit, over any polls that fail or see it failed (whatever else fails and in
    whatever order the set is iterated), the unit is emitted at the first poll at
    least the grace period after the first one, and at no other; and a poll that
    does not see it failed makes the tracker forget it, so that it re-arms. *)
Theorem grace_exactly_once (grace : Z) (u : string) (polls : list Poll) (t : GraceTracker)
    (k : nat) (out : list string) (first : Z) :
  Forall (sees u) polls -> unit_state u t = (None, false) -> head (omap (fun p => snd <$> p) polls) = Some first ->
  (observe_run grace polls t).1 !! k = Some out ->
  (u ∈ out <-> first_ripe grace first polls k)
  /\ forall current now' t', NoDup current -> u ∉ current -> unit_state u (observe current now' grace t').2 = (None, false).
Proof.
  intros Hall Hst Hfirst Hout. split; [apply (episode_pending grace u polls t first Hall); [by right|done]|].
  intros current now' t' Hnd Hu. by apply (observe_unit current now' grace u t' Hnd).
Qed.

Definition grace_polls : list Poll := [Some (["a"; "b"]%string, 0%Z); Some (["b"; "a"]%string, 5%Z); None; Some (["a"]%string, 12%Z); Some (["a"]%string, 20%Z)].
Lemma grace_exactly_once_witness :
  (observe_run 10 grace_polls tracker_new).1 = [[]; []; []; ["a"]; []]%string
  /\ ("a"%string ∈ ["a"%string] <-> first_ripe 10 0 grace_polls 3).
Proof.
  split; [vm_compute; reflexivity|].
  apply (grace_exactly_once 10 "a" grace_polls tracker_new 3 ["a"%string] 0).
  - repeat constructor; cbn; set_solver.
  - vm_compute. reflexivity.
  - reflexivity.
  - vm_compute. reflexivity.
Defined.

(** ** Drift *)

Section DriftFacts.
Context `{SerdeValue} `{TapEnv}.

(** A change of a watched file is reported once: processing new contents gives
    an event exactly when their hash differs from the remembered one (or nothing
    was remembered), remembers the hash, leaves every other path alone, and
    processing the same contents again reports nothing. *)
Theorem drift_reported_once (path : string) (bytes : string) (agent : Uuid) (host : string) (x : Draw)
    (baseline baseline' : gmap string FileState) (ev : option Event) :
  drift_process path (Some bytes) agent host x baseline = Some (ev, baseline') ->
  (ev = None <-> exists p, baseline !! path = Some p /\ fs_hash p = sha256_hex bytes)
  /\ (exists p, baseline' !! path = Some p /\ fs_hash p = sha256_hex bytes)
  /\ (forall x', drift_process path (Some bytes) agent host x' baseline' = Some (None, baseline'))
  /\ (forall q, q <> path -> baseline' !! q = baseline !! q).
Proof.
  assert (forall b p, b !! path = Some p -> fs_hash p = sha256_hex bytes ->
    forall x', drift_process path (Some bytes) agent host x' b = Some (None, b)) as Hsame.
  { intros b p Hp Hh x'. unfold drift_process, drift_evaluate. rewrite Hp, Hh, String.eqb_refl. done. }
  unfold drift_process at 1, drift_evaluate.
  destruct (match baseline !! path with Some p => String.eqb (fs_hash p) (sha256_hex bytes) | None => false end)
    eqn:Heq.
  - destruct (baseline !! path) as [p|] eqn:Hp; [|done]. apply String.eqb_eq in Heq.
    intros [= <- <-]. split_and!; [naive_solver|by eauto|by eapply Hsame|done].
  - destruct (match baseline !! path ≫= fs_text with Some _ => _ | None => _ end) as [diff|]; [|done].
    cbn. intros [= <- <-]. split_and!.
    + split; [done|]. intros (p & Hp & Hh). rewrite Hp, Hh, String.eqb_refl in Heq. done.
    + eexists. rewrite lookup_insert_eq. done.
    + eapply Hsame; [apply lookup_insert_eq|done].
    + intros q Hq. by rewrite lookup_insert_ne.
Qed.

(** A diff longer than the bound whose character at the bound is not ASCII is
    sliced inside a character: a panic. *)
Theorem diff_truncation_panics (path old new : string) (c : ascii) :
  (MAX_TEXT_BYTES < str_len (text_diff path old new))%N ->
  String.get (N.to_nat MAX_TEXT_BYTES) (text_diff path old new) = Some c -> is_cont c = true ->
  unified_diff path old new = None.
Proof.
  intros Hlen Hget Hc. unfold unified_diff, slice_to. rewrite (proj2 (N.ltb_lt _ _) Hlen), Hget, Hc.
  done.
Qed.
End DriftFacts.

#[export] Instance toy_tap : TapEnv :=
  {| sha256_hex s := s; text_diff p a b := a +:+ b; timestamp_micros us := Some (us * 1000)%Z |}.

Lemma drift_reported_once_witness :
  exists ev b, drift_process (H := string_value) "/etc/x" (Some "new") 1 "h" (mkDraw 1 1)
      {["/etc/x" := mkFileState "old" None]} = Some (ev, b)
    /\ forall x', drift_process (H := string_value) "/etc/x" (Some "new") 1 "h" x' b = Some (None, b).
Proof.
  eexists _, _. assert (drift_process (H := string_value) "/etc/x" (Some "new") 1 "h" (mkDraw 1 1)
    {["/etc/x" := mkFileState "old" None]} = Some (_, _)) as Hp by (vm_compute; reflexivity).
  split; [exact Hp|].
  apply (drift_reported_once (H := string_value) "/etc/x" "new" 1 "h" (mkDraw 1 1) _ _ _ Hp).
Defined.
