(* ===== verification/Kube.v ===== *)
(** * The Kubernetes side ([ravn-k8s/src])

    The in-cluster executor and its command loop, the mapping of cluster events
    and node conditions to signals with their de-duplication.

    The Kubernetes API is the class [Cluster]; the executor over it is an instance
    of the actuator's [Host] interface, so the theorems on [handle_command] apply
    to the in-cluster executor as they stand. *)

From S2P Require Export Actuator.

(** ** The executor ([executor.rs]) *)

Definition is_k8s_name_char (c : ascii) : bool :=
  is_ascii_lowercase c || is_ascii_digit c || is_byte 45 c || is_byte 46 c.
Definition byte_is (n : N) (o : option ascii) : bool :=
  match o with Some c => is_byte n c | None => false end.
Definition is_valid_k8s_name (name : string) : bool :=
  negb (is_empty name) && (String.length name <=? 253) && str_forallb is_k8s_name_char name
  && negb (byte_is 45 (first_byte name)) && negb (byte_is 45 (last_byte name))
  && negb (byte_is 46 (first_byte name)) && negb (byte_is 46 (last_byte name)).

Definition validate_ns_and_name (namespace name name_label : string) : result ExecError unit :=
  if negb (is_valid_k8s_name namespace) then
    Err (mkExecError ("invalid Kubernetes namespace: " +:+ debug_str namespace))
  else if negb (is_valid_k8s_name name) then
    Err (mkExecError ("invalid Kubernetes " +:+ name_label +:+ ": " +:+ debug_str name))
  else Ok tt.

(** A listed pod: its name and the phase of its status. *)
Record PodInfo := mkPod { pod_name : option string; pod_phase : option string }.

Class Cluster (W : Type) : Type := {
  api_delete_pod : string -> string -> W -> result string unit * W;
  api_restart_deployment : string -> string -> W -> result string unit * W;
  api_list_pods : string -> W -> result string (list PodInfo) * W;
}.

Section Executor.
Context {W : Type} `{Cluster W}.

Definition delete_pod (namespace pod : string) (w : W) : Answer * W :=
  match validate_ns_and_name namespace pod "pod name" with
  | Err e => (Err e, w)
  | Ok _ =>
      match api_delete_pod namespace pod w with
      | (Ok _, w) => (Ok None, w)
      | (Err e, w) =>
          (Err (mkExecError ("deleting pod " +:+ namespace +:+ "/" +:+ pod +:+ ": " +:+ e)), w)
      end
  end.

Definition restart_deployment (namespace deployment : string) (w : W) : Answer * W :=
  match validate_ns_and_name namespace deployment "deployment name" with
  | Err e => (Err e, w)
  | Ok _ =>
      match api_restart_deployment namespace deployment w with
      | (Ok _, w) => (Ok None, w)
      | (Err e, w) =>
          (Err (mkExecError ("patching deployment " +:+ namespace +:+ "/" +:+ deployment +:+ ": " +:+ e)), w)
      end
  end.

Definition name_has_prefix (prefix : string) (p : PodInfo) : bool :=
  match pod_name p with Some n => starts_with prefix n | None => false end.
Definition phase_of (p : PodInfo) : string := default "Unknown"%string (pod_phase p).
(** The answer of [pod_state] on the listed pods. *)
Definition state_of_pods (namespace prefix : string) (pods : list PodInfo) : Answer :=
  let matching := List.filter (name_has_prefix prefix) pods in
  match matching with
  | [] => Err (mkExecError ("no pod with prefix " +:+ debug_str prefix +:+ " found in namespace " +:+ namespace))
  | _ =>
      Ok (Some (match find_first (fun p => negb (String.eqb (phase_of p) "Running")) matching with
                | Some p => phase_of p
                | None => "Running"%string
                end))
  end.
Definition pod_state (namespace prefix : string) (w : W) : Answer * W :=
  match validate_ns_and_name namespace prefix "pod prefix" with
  | Err e => (Err e, w)
  | Ok _ =>
      match api_list_pods namespace w with
      | (Ok pods, w) => (state_of_pods namespace prefix pods, w)
      | (Err e, w) => (Err (mkExecError ("listing pods in " +:+ namespace +:+ ": " +:+ e)), w)
      end
  end.

(** [CapabilityExecutor for KubeExecutor]. *)
Definition kube_run (c : Capability) (w : W) : Answer * W :=
  match c with
  | DeletePod n p => delete_pod n p w
  | RestartDeployment n d => restart_deployment n d w
  | PodState n p => pod_state n p w
  | ResetFailed _ | RestartUnit _ | UnitState _ | NixRollback =>
      (Err (mkExecError "host systemd capability is not supported by the K8s executor; route to the host actuator instead"), w)
  end.

Definition kube_host (utc : W -> DateTime) (instant : W -> Z) (slp : Z -> W -> W) : Host W :=
  {| exec_run := kube_run; utc_now := utc; instant_now := instant; sleep := slp |}.
End Executor.

(** ** The command loop ([command_loop.rs]) *)

Section CommandLoop.
Context {W : Type} `{Host W} `{Base64} `{Ed25519} `{SerdeJson}.
Variable parse_envelope : string -> option CommandEnvelope.

(** One message: the reported outcome, the executed ids, the world and the log. *)
Definition command_step (fuel : nat) (ring : Keyring) (payload : string) (st : gset Uuid * (W * Log))
    : option (Uuid * outcome ActionResult) * (gset Uuid * (W * Log)) :=
  match parse_envelope payload with
  | None => (None, st)
  | Some env =>
      let id := ce_command_id env in
      if bool_decide (id ∈ st.1) then (None, st)
      else
        let (o, wl) := handle_command fuel ring env st.2 in
        (Some (id, o), ({[id]} ∪ st.1, wl))
  end.
(** The loop over the messages of the subscription: the results it reports, in
    order; a panic of the handler unwinds the loop. *)
Fixpoint command_loop (fuel : nat) (ring : Keyring) (payloads : list string) (st : gset Uuid * (W * Log))
    : list (Uuid * outcome ActionResult) * (gset Uuid * (W * Log)) :=
  match payloads with
  | [] => ([], st)
  | p :: ps =>
      match command_step fuel ring p st with
      | (None, st) => command_loop fuel ring ps st
      | (Some (id, Done r), st) =>
          let (os, st) := command_loop fuel ring ps st in ((id, Done r) :: os, st)
      | (Some o, st) => ([o], st)
      end
  end.
End CommandLoop.

(** ** Cluster events ([mapping.rs], [watcher.rs]) *)

Record KubeEvent := mkKubeEvent {
  ke_uid : option string;
  ke_reason : option string;
  ke_type : option string;
  ke_namespace : option string;
  ke_kind : option string;
  ke_name : option string;
  ke_field_path : option string;
  ke_count : option Z;
  ke_last_timestamp : option DateTime;
  ke_first_timestamp : option DateTime;
  ke_message : option string;
}.

Definition container_from_field_path (path : string) : option string :=
  a ← cut "{" path;
  b ← cut "}" a.2;
  if is_empty b.1 then None else Some b.1.

Section Mapping.
Context `{SerdeValue}.

Definition event_to_message (ev : KubeEvent) (agent_id : AgentId) (host : string) (id : Uuid) (now : DateTime)
    : option Message :=
  reason ← ke_reason ev;
  let severity := kube_severity_for_reason reason in
  let is_warning := bool_decide (ke_type ev = Some "Warning"%string) in
  if negb is_warning && severity_ltb severity Error then None
  else
    let namespace := default EmptyString (ke_namespace ev) in
    let object_kind := default EmptyString (ke_kind ev) in
    let name := default EmptyString (ke_name ev) in
    let container := ke_field_path ev ≫= container_from_field_path in
    let count := (fun c => Z.to_N (Z.max c 0)) <$> ke_count ev in
    let occurred_at := default now (match ke_last_timestamp ev with
                                    | Some t => Some t | None => ke_first_timestamp ev end) in
    let title := if is_empty object_kind then reason +:+ " in " +:+ namespace
                 else reason +:+ ": " +:+ object_kind +:+ " " +:+ namespace +:+ "/" +:+ name in
    Some (message_new
      {| ev_id := id; ev_occurred_at := occurred_at; ev_observed_at := now; ev_agent_id := agent_id;
         ev_host := host; ev_severity := severity; ev_title := title;
         ev_category_hints := [namespace; "kubernetes"%string];
         ev_payload := KubeWorkload
           {| kw_namespace := namespace; kw_object_kind := object_kind; kw_name := name;
              kw_reason := reason; kw_message := ke_message ev; kw_count := count;
              kw_container := container; kw_extra := [] |} |}).

(** The counts by uid. *)
Abbreviation Seen := (gmap string Z).
Definition remember (ev : KubeEvent) (seen : Seen) : Seen :=
  match ke_uid ev with Some k => <[k := default 0%Z (ke_count ev)]> seen | None => seen end.
Definition is_new_or_changed (ev : KubeEvent) (seen : Seen) : bool * Seen :=
  match ke_uid ev with
  | None => (true, seen)
  | Some k =>
      let count := default 0%Z (ke_count ev) in
      (match seen !! k with Some prev => negb (prev =? count)%Z | None => true end,
       <[k := count]> seen)
  end.

(** One item of the watch: the initial snapshot seeds, a change may be published. *)
Inductive WatchEvent (A : Type) := InitApply (a : A) | Apply (a : A) | Delete (a : A).
#[global] Arguments InitApply {A} a. #[global] Arguments Apply {A} a. #[global] Arguments Delete {A} a.
Definition watch_step (w : WatchEvent KubeEvent) (agent_id : AgentId) (host : string) (id : Uuid)
    (now : DateTime) (seen : Seen) : option Message * Seen :=
  match w with
  | InitApply ev => (None, remember ev seen)
  | Apply ev =>
      let (fresh, seen) := is_new_or_changed ev seen in
      (if fresh then event_to_message ev agent_id host id now else None, seen)
  | Delete _ => (None, seen)
  end.

(** ** Node conditions ([node.rs]) *)

Record NodeCondition := mkNodeCondition {
  nc_type : string;
  nc_status : string;
  nc_message : option string;
  nc_last_transition : option DateTime;
}.
Record Node := mkNode { nd_name : option string; nd_conditions : option (list NodeCondition) }.

Definition PRESSURE_CONDITIONS : list string := ["MemoryPressure"; "DiskPressure"; "PIDPressure"].
Definition active_condition (c : NodeCondition) : option string :=
  if String.eqb (nc_type c) "Ready" then
    if String.eqb (nc_status c) "True" then None else Some "NodeNotReady"%string
  else if one_of (nc_type c) PRESSURE_CONDITIONS then
    if String.eqb (nc_status c) "True" then Some (nc_type c) else None
  else None.

Definition node_message (node_name condition : string) (c : NodeCondition) (agent_id : AgentId)
    (host : string) (id : Uuid) (now : DateTime) : Message :=
  message_new
    {| ev_id := id; ev_occurred_at := default now (nc_last_transition c); ev_observed_at := now;
       ev_agent_id := agent_id; ev_host := host; ev_severity := kube_severity_for_reason condition;
       ev_title := condition +:+ " on node " +:+ node_name;
       ev_category_hints := [node_name; "kubernetes"%string; "node"%string];
       ev_payload := KubeNode {| kn_node := node_name; kn_condition := condition;
                                 kn_message := nc_message c; kn_extra := [] |} |}.
Definition node_to_messages (node : Node) (agent_id : AgentId) (host : string) (ids : nat -> Uuid)
    (now : DateTime) : list Message :=
  let node_name := default host (nd_name node) in
  match nd_conditions node with
  | None => []
  | Some conditions =>
      omap (fun x => condition ← active_condition x.2;
                     Some (node_message node_name condition x.2 agent_id host (ids x.1) now))
        (imap pair conditions)
  end.

Definition node_key (node_name condition : string) : string := node_name +:+ "/" +:+ condition.
Definition condition_of (m : Message) : string :=
  match ev_payload (msg_event m) with KubeNode p => kn_condition p | _ => EmptyString end.

(** The loop of [reconcile] over the messages. *)
Fixpoint insert_fresh (node_name : string) (emit : bool) (ms : list Message) (active : gset string)
    : list Message * gset string :=
  match ms with
  | [] => ([], active)
  | m :: ms' =>
      let k := node_key node_name (condition_of m) in
      let new := negb (bool_decide (k ∈ active)) in
      let (fresh, active) := insert_fresh node_name emit ms' ({[k]} ∪ active) in
      (if new && emit then m :: fresh else fresh, active)
  end.
Definition reconcile (node : Node) (agent_id : AgentId) (host : string) (ids : nat -> Uuid) (now : DateTime)
    (emit : bool) (active : gset string) : list Message * gset string :=
  let node_name := default host (nd_name node) in
  let messages := node_to_messages node agent_id host ids now in
  let current : gset string := list_to_set (map (fun m => node_key node_name (condition_of m)) messages) in
  let prefix := node_name +:+ "/" in
  let active := filter (fun k => starts_with prefix k = false \/ k ∈ current) active in
  insert_fresh node_name emit messages active.
End Mapping.

(** ** Names *)

Lemma byte_is_label_end (n : N) (o : option ascii) :
  (n = 45 \/ n = 46)%N -> opt_test is_label_end o = true -> byte_is n o = false.
Proof.
  intros Hn. destruct o as [c|]; [|done]. cbn.
  unfold is_label_end, is_ascii_lowercase, is_ascii_digit, in_range, is_byte.
  intros Hc. apply N.eqb_neq. intros Heq. rewrite Heq in Hc. destruct Hn as [->| ->]; done.
Qed.

(** What the control plane and the actuator accept, the executor accepts. *)
Lemma label_is_k8s_name (s : string) : is_valid_k8s_label s = true -> is_valid_k8s_name s = true.
Proof.
  intros Hs. apply label_spec in Hs as (Hlen & (c & s' & -> & Hc) & Hlast & Hall).
  unfold is_valid_k8s_name.
  rewrite !(byte_is_label_end _ (first_byte (String c s'))), !(byte_is_label_end _ (last_byte (String c s')))
    by (auto; done).
  rewrite (str_forallb_impl is_label_char is_k8s_name_char _); [|clear|done].
  - rewrite (proj2 (Nat.leb_le _ _)) by lia. done.
  - intros x. unfold is_label_char, is_k8s_name_char. by intros ->.
Qed.

Section ExecutorFacts.
Context {W : Type} `{Cluster W}.

Lemma validated_names (c : Capability) (n x label : string) (f : string) :
  capability_kube_ids c = [("namespace", n); (f, x)]%string -> invalid_target c = None ->
  validate_ns_and_name n x label = Ok tt.
Proof.
  intros Hids [_ Hk]%invalid_target_None. rewrite Hids, !Forall_cons in Hk.
  destruct Hk as (Hn & Hx & _). cbn in Hn, Hx. unfold validate_ns_and_name.
  by rewrite !label_is_k8s_name by done.
Qed.

Lemma phase_running (p : PodInfo) :
  String.eqb (phase_of p) "Running" = true <-> pod_phase p = Some "Running"%string.
Proof.
  unfold phase_of. destruct (pod_phase p) as [s|]; cbn; [|done].
  rewrite String.eqb_eq. naive_solver.
Qed.

Lemma state_of_pods_running (namespace prefix : string) (pods : list PodInfo) :
  state_of_pods namespace prefix pods = Ok (Some "Running"%string) <->
  (exists q, q ∈ pods /\ name_has_prefix prefix q = true)
  /\ (forall q, q ∈ pods -> name_has_prefix prefix q = true -> pod_phase q = Some "Running"%string).
Proof.
  unfold state_of_pods.
  assert (forall q, q ∈ List.filter (name_has_prefix prefix) pods
            <-> q ∈ pods /\ name_has_prefix prefix q = true) as Hm.
  { intros q. rewrite !list_elem_of_In. apply filter_In. }
  destruct (List.filter _ pods) as [|m ms] eqn:Hf.
  { split; [done|]. intros [(q & Hq) _]. apply Hm in Hq. set_solver. }
  split.
  - intros Hs. split; [exists m; apply Hm; set_solver|]. intros q Hq Hp.
    destruct (find_first _ (m :: ms)) as [p|] eqn:Hff.
    + injection Hs as Hph. apply find_first_Some in Hff as (l1 & l2 & _ & Hff & _).
      rewrite Hph in Hff. done.
    + apply phase_running, negb_false_iff. apply find_first_None in Hff. rewrite Forall_forall in Hff.
      by apply Hff, Hm.
  - intros [_ Hall]. destruct (find_first _ (m :: ms)) as [p|] eqn:Hff; [|done].
    apply find_first_Some in Hff as (l1 & l2 & Hl & Hff & _). apply negb_true_iff in Hff.
    assert (p ∈ m :: ms) as [Hin Hpre]%Hm by (rewrite Hl; set_solver). by rewrite (proj2 (phase_running p)) in Hff by auto.
Qed.

(** The in-cluster executor does what a validated capability says and nothing
    else: a target the command handler has validated is never refused by the
    executor's own name check; a deletion or a rollout restart is that one API call,
    successful exactly when the call is; the pod state is [Running] exactly when the
    namespace lists at least one pod of the prefix and every such pod is running;
    and a host capability is refused without touching the cluster. *)
Theorem kube_run_faithful (c : Capability) (w : W) :
  invalid_target c = None ->
  match c with
  | DeletePod n p =>
      (kube_run c w).2 = (api_delete_pod n p w).2
      /\ ((kube_run c w).1 = Ok None <-> (api_delete_pod n p w).1 = Ok tt)
  | RestartDeployment n d =>
      (kube_run c w).2 = (api_restart_deployment n d w).2
      /\ ((kube_run c w).1 = Ok None <-> (api_restart_deployment n d w).1 = Ok tt)
  | PodState n p =>
      (kube_run c w).2 = (api_list_pods n w).2
      /\ ((kube_run c w).1 = Ok (Some "Running"%string) <->
          exists pods, (api_list_pods n w).1 = Ok pods
            /\ (exists q, q ∈ pods /\ name_has_prefix p q = true)
            /\ (forall q, q ∈ pods -> name_has_prefix p q = true -> pod_phase q = Some "Running"%string))
  | _ => (kube_run c w).2 = w /\ is_ok (kube_run c w).1 = false
  end.
Proof.
  intros Hv. destruct c as [u|u|u| |n p|n d|n p]; try done; cbn [kube_run].
  - unfold delete_pod. rewrite (validated_names (DeletePod n p) n p _ "pod") by done.
    destruct (api_delete_pod n p w) as [[[]|e] w']; cbn; done.
  - unfold restart_deployment. rewrite (validated_names (RestartDeployment n d) n d _ "deployment") by done.
    destruct (api_restart_deployment n d w) as [[[]|e] w']; cbn; done.
  - unfold pod_state. rewrite (validated_names (PodState n p) n p _ "pod_prefix") by done.
    destruct (api_list_pods n w) as [[pods|e] w']; cbn; [|naive_solver].
    split; [done|]. rewrite state_of_pods_running. naive_solver.
Qed.
End ExecutorFacts.

(** ** The command loop *)

Section CommandLoopFacts.
Context {W : Type} `{Host W} `{Base64} `{Ed25519} `{SerdeJson}.
Variable parse_envelope : string -> option CommandEnvelope.
  Implicit Types (fuel : nat) (ring : Keyring) (w : W) (l : Log).

Lemma command_loop_ids fuel ring payloads seen w l :
  let r := command_loop parse_envelope fuel ring payloads (seen, (w, l)) in
  NoDup r.1.*1 /\ (forall id, id ∈ r.1.*1 -> id ∉ seen) /\ seen ⊆ r.2.1.
Proof.
  revert seen w l; induction payloads as [|p ps IH]; intros seen w l; cbn [command_loop].
  { cbn. split_and!; [constructor|set_solver|done]. }
  unfold command_step. destruct (parse_envelope p) as [env|]; [|apply IH].
  case_bool_decide as Hseen; [apply IH|]. cbn [fst snd].
  destruct (handle_command fuel ring env (w, l)) as [o [w1 l1]].
  specialize (IH ({[ce_command_id env]} ∪ seen) w1 l1).
  destruct (command_loop parse_envelope fuel ring ps ({[ce_command_id env]} ∪ seen, (w1, l1)))
    as [os [seen2 wl2]]. cbn in IH. destruct IH as (Hnd & Hfresh & Hsub).
  destruct o; cbn; [|split_and!; [by repeat constructor; set_solver|set_solver|set_solver]..].
  split_and!; [|set_solver..]. constructor; [|done]. intros Hin%Hfresh. set_solver.
Qed.

(** What one reported result accounts for: one message of the subscription was
    handled, it executed the capabilities of this piece of the log, and only with
    the authority of a verified envelope. *)
Definition handled (fuel : nat) (ring : Keyring) (payloads : list string)
    (r : Uuid * outcome ActionResult) (piece : Log) : Prop :=
  exists p env w0 w1 l0, p ∈ payloads /\ parse_envelope p = Some env /\ r.1 = ce_command_id env
    /\ handle_command fuel ring env (w0, l0) = (r.2, (w1, l0 ++ piece))
    /\ forall c a, (c, a) ∈ piece ->
         verify_envelope_with ring env (utc_now w0) = Ok tt /\ authorised env c.

Lemma handled_command fuel ring p payloads env w l :
  p ∈ payloads -> parse_envelope p = Some env ->
  exists o w1 piece, handle_command fuel ring env (w, l) = (o, (w1, l ++ piece))
    /\ handled fuel ring payloads (ce_command_id env, o) piece.
Proof.
  intros Hp Henv. destruct (handle_command_spec fuel ring env w l) as (o & w1 & k & Hk & _ & Hspec).
  exists o, w1, k. split; [done|]. exists p, env, w, w1, l. split_and!; [done..|].
  intros c a Hin. destruct Hspec as [(_ & -> & _)|(Hv & _ & Ht)]; [by apply elem_of_nil in Hin|].
  apply command_trace_auth in Ht. rewrite Forall_forall in Ht. split; [done|]. exact (Ht _ Hin).
Qed.

Lemma handled_mono fuel ring ps ps' r piece :
  ps ⊆ ps' -> handled fuel ring ps r piece -> handled fuel ring ps' r piece.
Proof.
  intros Hsub (p & env & w0 & w1 & l0 & Hp & Hrest). exists p, env, w0, w1, l0. split; [by apply Hsub|done].
Qed.

Lemma command_loop_log fuel ring payloads seen w l :
  let r := command_loop parse_envelope fuel ring payloads (seen, (w, l)) in
  exists pieces, r.2.2.2 = l ++ concat pieces /\ Forall2 (handled fuel ring payloads) r.1 pieces.
Proof.
  revert seen w l; induction payloads as [|p ps IH]; intros seen w l; cbn [command_loop].
  { exists []. cbn. by rewrite app_nil_r. }
  assert (forall st, let r := command_loop parse_envelope fuel ring ps st in
    exists pieces, r.2.2.2 = st.2.2 ++ concat pieces /\ Forall2 (handled fuel ring (p :: ps)) r.1 pieces)
    as IH'.
  { intros [s [w' l']]. destruct (IH s w' l') as (pieces & Hl & Hf). exists pieces. split; [done|].
    eapply Forall2_impl; [exact Hf|]. intros ??. apply handled_mono. set_solver. }
  unfold command_step. destruct (parse_envelope p) as [env|] eqn:Henv; [|apply IH'].
  case_bool_decide; [apply IH'|]. cbn [fst snd].
  destruct (handled_command fuel ring p (p :: ps) env w l) as (o & w1 & k & -> & Hk); [set_solver|done|].
  specialize (IH' ({[ce_command_id env]} ∪ seen, (w1, l ++ k))) as (pieces & Hl & Hf).
  destruct (command_loop parse_envelope fuel ring ps _) as [os [seen2 [w2 l2]]]. cbn in Hl, Hf.
  destruct o; cbn.
  - exists (k :: pieces). cbn. rewrite Hl, app_assoc. split; [done|by constructor].
  - exists [k]. cbn. rewrite app_nil_r. split; [done|by repeat constructor].
  - exists [k]. cbn. rewrite app_nil_r. split; [done|by repeat constructor].
Qed.

(** The in-cluster command loop executes each command at most once and only
    with authority: over any messages of the subscription, the ids it reports are
    distinct and were not in the executed set before, and the executed capabilities
    are exactly the pieces of the reported handlings, in order, each piece run by
    one [handle_command] on a message of the subscription and non-empty only if
    that envelope verified against the keyring. *)
Theorem command_loop_at_most_once (fuel : nat) (ring : Keyring) (payloads : list string)
    (seen : gset Uuid) (w : W) (l : Log) :
  let r := command_loop parse_envelope fuel ring payloads (seen, (w, l)) in
  NoDup r.1.*1 /\ (forall id, id ∈ r.1.*1 -> id ∉ seen)
  /\ exists pieces, r.2.2.2 = l ++ concat pieces /\ Forall2 (handled fuel ring payloads) r.1 pieces.
Proof.
  intros r. destruct (command_loop_ids fuel ring payloads seen w l) as (Hnd & Hfresh & _).
  split_and!; [done..|]. apply command_loop_log.
Qed.
End CommandLoopFacts.

(** An envelope of the right id and a wrong signature, first on the wire: the id is
    recorded before the signature is checked, so that the genuine command that
    follows is dropped as a duplicate. *)
Definition forged_example : CommandEnvelope := sign_envelope key_b example_envelope.
Definition toy_parse (s : string) : option CommandEnvelope :=
  if String.eqb s "forged" then Some forged_example
  else if String.eqb s "genuine" then Some signed_example else None.

Theorem forged_envelope_suppresses_genuine :
  ce_command_id forged_example = ce_command_id signed_example
  /\ map (fun r => status_of r.2)
      (command_loop toy_parse 5 toy_ring ["genuine"] (∅, (toy_start, []))).1 = [Done Succeeded]
  /\ map (fun r => status_of r.2)
      (command_loop toy_parse 5 toy_ring ["forged"; "genuine"] (∅, (toy_start, []))).1
     = [Done StatusRejected].
Proof. split; [reflexivity|]. split; vm_compute; reflexivity. Qed.

Definition toy_pods : list PodInfo :=
  [mkPod (Some "api-1") (Some "Running"); mkPod (Some "api-2") (Some "Running"); mkPod (Some "db-1") None]%string.
#[export] Instance toy_cluster : Cluster unit :=
  {| api_delete_pod _ _ w := (Ok tt, w); api_restart_deployment _ _ w := (Err "forbidden"%string, w);
     api_list_pods _ w := (Ok toy_pods, w) |}.

Lemma kube_run_faithful_witness :
  (kube_run (PodState "payments" "api") tt).1 = Ok (Some "Running"%string)
  /\ exists q, q ∈ toy_pods /\ name_has_prefix "api" q = true.
Proof.
  assert ((kube_run (PodState "payments" "api") tt).1 = Ok (Some "Running"%string)) as Hr
    by (vm_compute; reflexivity).
  split; [exact Hr|].
  assert (invalid_target (PodState "payments" "api") = None) as Hv by (vm_compute; reflexivity).
  pose proof (kube_run_faithful (PodState "payments" "api") tt Hv) as [_ Hiff].
  apply Hiff in Hr as (pods & Hp & Hex & _). injection Hp as <-. exact Hex.
Defined.

(** ** Node conditions *)

Section NodeFacts.
Context `{SerdeValue}.
  Implicit Types (node : Node) (agent : AgentId) (host : string) (ids : nat -> Uuid) (now : DateTime).

(** The unhealthy conditions of a node. *)
Definition unhealthy (node : Node) : list string :=
  omap active_condition (default [] (nd_conditions node)).

Lemma node_messages_conditions node agent host ids now :
  map condition_of (node_to_messages node agent host ids now) = unhealthy node.
Proof.
  unfold node_to_messages, unhealthy. destruct (nd_conditions node) as [cs|]; [|done]. cbn.
  generalize (default host (nd_name node)) as name. intros name.
  assert (forall f : nat -> nat, map condition_of (omap (fun x => condition ← active_condition x.2;
            Some (node_message name condition x.2 agent host (ids x.1) now)) (imap (fun i x => (f i, x)) cs))
            = omap active_condition cs) as Hgen; [|apply (Hgen id)].
  induction cs as [|c cs IH]; intros f; [done|]. rewrite imap_cons. cbn.
  destruct (active_condition c); cbn; [f_equal|]; apply (IH (fun i => f (S i))).
Qed.

Lemma insert_fresh_spec name emit ms active :
  let r := insert_fresh name emit ms active in
  r.2 = list_to_set (map (fun m => node_key name (condition_of m)) ms) ∪ active
  /\ (emit = false -> r.1 = [])
  /\ (emit = true -> NoDup (map condition_of r.1)
      /\ forall c, c ∈ map condition_of r.1 <-> c ∈ map condition_of ms /\ node_key name c ∉ active).
Proof.
  revert active; induction ms as [|m ms IH]; intros active; cbn [insert_fresh].
  { cbn. split_and!; [set_solver|done|]. intros _. split; [constructor|set_solver]. }
  set (k := node_key name (condition_of m)). specialize (IH ({[k]} ∪ active)).
  destruct (insert_fresh name emit ms ({[k]} ∪ active)) as [fresh act]. cbn in IH |- *.
  destruct IH as (Ha & Hoff & Hon). split_and!.
  - rewrite Ha. unfold k. set_solver.
  - intros ->. rewrite andb_false_r. auto.
  - intros ->. rewrite andb_true_r. destruct (Hon eq_refl) as [Hnd Hin].
    assert (forall c, node_key name c = k <-> c = condition_of m) as Hk.
    { intros c. unfold k, node_key. split; [|by intros ->].
      intros Heq%str_app_inv_head. by apply str_app_inv_head in Heq. }
    case_bool_decide as Hact; cbn.
    + split; [done|]. intros c. rewrite Hin, elem_of_cons, not_elem_of_union, not_elem_of_singleton, Hk.
      split; [naive_solver|]. intros [[->|Hc] Hna]; [done|]. split_and!; [done| |done].
      intros ->. done.
    + split; [constructor; [|done]; rewrite Hin; set_solver|].
      intros c. rewrite elem_of_cons, Hin, elem_of_cons, not_elem_of_union, not_elem_of_singleton, Hk.
      destruct (decide (c = condition_of m)) as [->|Hne]; [naive_solver|]. naive_solver.
Qed.

Definition name_of (host : string) (node : Node) : string := default host (nd_name node).

Lemma key_prefix name c : starts_with (name +:+ "/") (node_key name c) = true.
Proof. apply starts_with_spec. exists c. unfold node_key. by rewrite str_app_assoc. Qed.

Lemma reconcile_active node agent host ids now emit active :
  let r := reconcile node agent host ids now emit active in
  (forall c, node_key (name_of host node) c ∈ r.2 <-> c ∈ unhealthy node)
  /\ (forall k, starts_with (name_of host node +:+ "/") k = false -> k ∈ r.2 <-> k ∈ active).
Proof.
  unfold reconcile. fold (name_of host node). set (name := name_of host node).
  match goal with |- context [insert_fresh name emit ?ms ?a] =>
    destruct (insert_fresh_spec name emit ms a) as (-> & _) end.
  rewrite <-(node_messages_conditions node agent host ids now).
  set (ms := node_to_messages node agent host ids now). split.
  - intros c. rewrite elem_of_union, elem_of_filter, !elem_of_list_to_set, key_prefix.
    assert (node_key name c ∈ map (fun m => node_key name (condition_of m)) ms
      <-> c ∈ map condition_of ms) as ->; [|naive_solver].
    rewrite !list_elem_of_In, !in_map_iff. split; [|naive_solver].
    intros (m & Hk & Hm). exists m. split; [|done]. unfold node_key in Hk.
    apply str_app_inv_head in Hk. by apply str_app_inv_head in Hk.
  - intros k Hk. rewrite elem_of_union, elem_of_filter, !elem_of_list_to_set.
    split; [|naive_solver]. intros [Hin|?]; [|naive_solver]. exfalso.
    apply list_elem_of_In, in_map_iff in Hin as (m & <- & _). by rewrite key_prefix in Hk.
Qed.

Lemma reconcile_emits node agent host ids now emit active :
  let r := reconcile node agent host ids now emit active in
  (emit = false -> r.1 = [])
  /\ (emit = true -> NoDup (map condition_of r.1)
      /\ forall c, c ∈ map condition_of r.1
           <-> c ∈ unhealthy node /\ node_key (name_of host node) c ∉ active).
Proof.
  unfold reconcile. fold (name_of host node). set (name := name_of host node).
  match goal with |- context [insert_fresh name emit ?ms ?a] =>
    destruct (insert_fresh_spec name emit ms a) as (_ & Hoff & Hon) end.
  split; [done|]. intros He. destruct (Hon He) as [Hnd Hin]. split; [done|].
  intros c. rewrite Hin, node_messages_conditions.
  rewrite <-(node_messages_conditions node agent host ids now).
  set (ms := node_to_messages node agent host ids now).
  split; intros [Hc Hna]; (split; [done|]).
  - intros Hact. apply Hna, elem_of_filter. split; [|done]. right.
    rewrite elem_of_list_to_set, list_elem_of_In, in_map_iff.
    apply list_elem_of_In, in_map_iff in Hc as (m & <- & Hm). eauto.
  - intros [_ Hact]%elem_of_filter. done.
Qed.

Definition no_slash (s : string) : Prop := forall a b, s <> a +:+ "/" +:+ b.
Lemma key_of_other n1 n2 c :
  no_slash n1 -> no_slash n2 -> n1 <> n2 -> starts_with (n2 +:+ "/") (node_key n1 c) = false.
Proof.
  intros H1 H2 Hne. apply not_true_iff_false. rewrite starts_with_spec. unfold node_key.
  intros [r Heq]. rewrite str_app_assoc in Heq. apply Hne.
  clear Hne. revert n2 H2 Heq; induction n1 as [|x n1 IH]; intros [|y n2] H2 Heq; cbn in Heq.
  - done.
  - injection Heq as <- _. by destruct (H2 EmptyString n2).
  - injection Heq as -> _. by destruct (H1 EmptyString n1).
  - injection Heq as <- Heq. f_equal. apply IH; [|intros a b ->; by apply (H2 (String x a) b)|done].
    intros a b ->. by apply (H1 (String x a) b).
Qed.

(** Observations of other nodes, in between. *)
Definition observe_others (agent : AgentId) (host : string) (ids : nat -> Uuid) (now : DateTime)
    (others : list (Node * bool)) (active : gset string) : gset string :=
  foldl (fun act o => (reconcile o.1 agent host ids now o.2 act).2) active others.

Lemma observe_others_key agent host ids now others name c active :
  no_slash name ->
  Forall (fun o => no_slash (name_of host o.1) /\ name_of host o.1 <> name) others ->
  node_key name c ∈ observe_others agent host ids now others active <-> node_key name c ∈ active.
Proof.
  intros Hn Hall. revert active; induction Hall as [|[o e] others [Ho Hne] _ IH]; intros active; cbn; [done|].
  unfold observe_others in IH. rewrite IH.
  destruct (reconcile_active o agent host ids now e active) as [_ Hother].
  apply Hother, key_of_other; auto.
Qed.

(** Node signals fire exactly on the healthy-to-unhealthy edge: after an
    observation of a node (the silent seed or a change) and any observations of
    other nodes, the next observation of that node emits one message for each
    condition that is unhealthy now and was not then, no other, and none twice; a
    seed emits nothing. *)
Theorem node_signals_on_edges (node1 node2 : Node) (agent : AgentId) (host : string) (ids : nat -> Uuid)
    (now : DateTime) (emit : bool) (others : list (Node * bool)) (active : gset string) :
  name_of host node1 = name_of host node2 -> no_slash (name_of host node2) ->
  Forall (fun o => no_slash (name_of host o.1) /\ name_of host o.1 <> name_of host node2) others ->
  let active1 := (reconcile node1 agent host ids now emit active).2 in
  let emitted := (reconcile node2 agent host ids now true
                    (observe_others agent host ids now others active1)).1 in
  NoDup (map condition_of emitted)
  /\ (forall c, c ∈ map condition_of emitted <-> c ∈ unhealthy node2 /\ c ∉ unhealthy node1)
  /\ (forall act, (reconcile node2 agent host ids now false act).1 = []).
Proof.
  intros Hname Hslash Hothers active1 emitted.
  destruct (reconcile_emits node2 agent host ids now true (observe_others agent host ids now others active1))
    as [_ [Hnd Hin]]; [done|]. split_and!; [done| |].
  - intros c. unfold emitted. rewrite Hin, observe_others_key by done.
    destruct (reconcile_active node1 agent host ids now emit active) as [Hact _].
    unfold active1. by rewrite <-Hname, Hact.
  - intros act. by apply reconcile_emits.
Qed.

(** The watcher publishes again when the count goes down. *)
Theorem count_may_decrease (ev : KubeEvent) (k : string) (seen : gmap string Z) (prev c : Z) :
  ke_uid ev = Some k -> ke_count ev = Some c -> seen !! k = Some prev -> (c < prev)%Z ->
  (is_new_or_changed ev seen).1 = true.
Proof.
  intros Hk Hc Hs Hlt. unfold is_new_or_changed. rewrite Hk, Hc, Hs. cbn.
  apply negb_true_iff, Z.eqb_neq. lia.
Qed.
End NodeFacts.

Definition toy_node (name : string) (cs : list (string * string)) : Node :=
  mkNode (Some name) (Some (map (fun c => mkNodeCondition c.1 c.2 None None) cs)).

Definition node_before : Node := toy_node "a" [("Ready", "True"); ("DiskPressure", "True")]%string.
Definition node_after : Node := toy_node "a" [("Ready", "False"); ("DiskPressure", "True")]%string.
Definition node_other : Node := toy_node "b" [("Ready", "False")]%string.
Definition toy_reconcile (node : Node) (emit : bool) (act : gset string) : list Message * gset string :=
  reconcile (H := string_value) node (mkAgentId 1) "h" (fun _ => 1%N) 0 emit act.

Lemma no_slash_char (x : ascii) : x <> "/"%char -> no_slash (String x EmptyString).
Proof. intros Hx [|y a] b; cbn; [intros [= -> _]; done|]. intros [= _ Hc]. by destruct a. Qed.

Lemma node_signals_on_edges_witness :
  map condition_of (toy_reconcile node_after true
    (observe_others (H := string_value) (mkAgentId 1) "h" (fun _ => 1%N) 0 [(node_other, true)]
      (toy_reconcile node_before false ∅).2)).1 = ["NodeNotReady"%string]
  /\ ("NodeNotReady"%string ∈ unhealthy node_after /\ "NodeNotReady"%string ∉ unhealthy node_before).
Proof.
  assert (map condition_of (toy_reconcile node_after true
    (observe_others (H := string_value) (mkAgentId 1) "h" (fun _ => 1%N) 0 [(node_other, true)]
      (toy_reconcile node_before false ∅).2)).1 = ["NodeNotReady"%string]) as Hr
    by (vm_compute; reflexivity).
  split; [exact Hr|].
  assert (no_slash (name_of "h" node_after)) as Hslash by (apply no_slash_char; discriminate).
  assert (Forall (fun o => no_slash (name_of "h" o.1) /\ name_of "h" o.1 <> name_of "h" node_after)
    [(node_other, true)]) as Ho.
  { constructor; [|constructor]. split; [apply no_slash_char; discriminate|discriminate]. }
  pose proof (proj1 (proj2 (node_signals_on_edges (H := string_value) node_before node_after (mkAgentId 1)
    "h" (fun _ => 1%N) 0 false [(node_other, true)] ∅ eq_refl Hslash Ho))) as Hiff.
  unfold toy_reconcile in Hr. specialize (Hiff "NodeNotReady"%string). rewrite Hr in Hiff.
  apply Hiff, list_elem_of_singleton. reflexivity.
Defined.
