(* ===== verification/KubeLogs.v ===== *)
(** * The pod log scraper ([ravn-k8s/src/logs.rs])

    The per-pod de-duplication cache, the classification of a line, and the
    scraper's step on the pod watch.  The LRU cache of the [lru] crate is the
    class [Lru] with the crate's documented behaviour as laws; the standard
    library's hasher, whose algorithm is unspecified, is the parameter
    [hash_line] of the class [LineHash]. *)

From S2P Require Export Kube.

(** ** The cache *)

Abbreviation Entries := (list (N * Z)).
Fixpoint assoc (k : N) (l : Entries) : option Z :=
  match l with
  | [] => None
  | (k', v) :: l' => if (k =? k')%N then Some v else assoc k l'
  end.
Definition drop_key (k : N) (l : Entries) : Entries := filter (fun e => e.1 <> k) l.
Definition promote (k : N) (l : Entries) : Entries :=
  match assoc k l with Some v => (k, v) :: drop_key k l | None => l end.

(** [LruCache<u64, Instant>]; [lru_view] is [iter()]: most recently used first. *)
Class Lru : Type := {
  lru : Type;
  lru_new : nat -> lru;
  lru_get_mut : N -> lru -> option Z * lru;
  lru_put : N -> Z -> lru -> lru;
  lru_len : lru -> nat;
  lru_cap : lru -> nat;
  lru_view : lru -> Entries;
}.
Class LruLaws `{Lru} : Prop := {
  lru_new_view n : lru_view (lru_new n) = [];
  lru_new_cap n : lru_cap (lru_new n) = n;
  lru_get_mut_value k c : (lru_get_mut k c).1 = assoc k (lru_view c);
  lru_get_mut_view k c : lru_view (lru_get_mut k c).2 = promote k (lru_view c);
  lru_get_mut_cap k c : lru_cap (lru_get_mut k c).2 = lru_cap c;
  lru_put_view k v c : lru_view (lru_put k v c) = take (lru_cap c) ((k, v) :: drop_key k (lru_view c));
  lru_put_cap k v c : lru_cap (lru_put k v c) = lru_cap c;
  lru_len_view c : lru_len c = length (lru_view c);
}.
Class LineHash : Type := hash_line : string -> N.

(** ** Configuration *)

Record Config := mkConfig {
  cf_per_pod_cap : nat;
  cf_ttl : Z;
  cf_namespace : option string;
  cf_min_severity : Severity;
}.
Definition config_default : Config :=
  {| cf_per_pod_cap := 1024; cf_ttl := 600000000000; cf_namespace := None; cf_min_severity := Warning |}.

(** ** The deduper *)

Section Deduper.
Context `{Lru} `{LineHash}.

Record LogDeduper := mkDeduper {
  dd_per_pod_cap : nat;
  dd_ttl : Z;
  dd_pods : gmap string lru;
}.
(** [None] is the panic on a zero capacity. *)
Definition deduper_new (per_pod_cap : nat) (ttl : Z) : option LogDeduper :=
  match per_pod_cap with O => None | S _ => Some (mkDeduper per_pod_cap ttl ∅) end.

(** [now.duration_since(seen_at)] saturates at zero. *)
Definition is_new (now : Z) (pod_key line : string) (d : LogDeduper) : bool * LogDeduper :=
  let hash := hash_line line in
  let cache := default (lru_new (dd_per_pod_cap d)) (dd_pods d !! pod_key) in
  let (seen_at, cache) := lru_get_mut hash cache in
  let within := match seen_at with Some s => (Z.max 0 (now - s) <? dd_ttl d)%Z | None => false end in
  let cache := if within then cache else lru_put hash now cache in
  (negb within, mkDeduper (dd_per_pod_cap d) (dd_ttl d) (<[pod_key := cache]> (dd_pods d))).
Definition remove_pod (pod_key : string) (d : LogDeduper) : LogDeduper :=
  mkDeduper (dd_per_pod_cap d) (dd_ttl d) (delete pod_key (dd_pods d)).
Definition total_entries (d : LogDeduper) : nat := sum_list_with (fun p => lru_len p.2) (map_to_list (dd_pods d)).
Definition pod_count (d : LogDeduper) : nat := size (dd_pods d).

(** ** Lines *)

Definition classify_line (line : string) : Severity :=
  let lower := to_ascii_lowercase line in
  if contains "panic" lower || contains "fatal" lower || contains "oom" lower then Critical
  else if contains "error" lower || contains "exception" lower || contains "crash" lower then Error
  else if contains "warn" lower then Warning
  else Info.

Context `{SerdeValue}.

Definition line_to_message (line namespace pod_name : string) (agent_id : AgentId) (host : string)
    (id : Uuid) (now : DateTime) : Message :=
  let severity := classify_line line in
  let reason := if severity_leb Critical severity then "LogFatal"%string
                else if severity_leb Error severity then "LogError"%string else "LogWarning"%string in
  message_new
    {| ev_id := id; ev_occurred_at := now; ev_observed_at := now; ev_agent_id := agent_id; ev_host := host;
       ev_severity := severity; ev_title := reason +:+ ": Pod " +:+ namespace +:+ "/" +:+ pod_name;
       ev_category_hints := [namespace; "kubernetes"%string; "logs"%string];
       ev_payload := KubeWorkload
         {| kw_namespace := namespace; kw_object_kind := "Pod"; kw_name := pod_name; kw_reason := reason;
            kw_message := Some (take_chars 512 line); kw_count := None; kw_container := None;
            kw_extra := [] |} |}.

(** ** The watch *)

Record PodMeta := mkPodMeta { pm_namespace : option string; pm_name : option string }.
(** What the environment gives for the n-th line: the monotonic clock, an id, the
    time. *)
Record LineDraw := mkLineDraw { ld_instant : Z; ld_id : Uuid; ld_now : DateTime }.

Section Scrape.
Variable config : Config.
Variable agent_id : AgentId.
Variable host : string.

(** The loop over the lines of a fetched log: the messages handed to the
    publisher, in order. *)
Fixpoint scrape_lines (ns name : string) (ls : list (string * LineDraw)) (d : LogDeduper)
    : list Message * LogDeduper :=
  match ls with
  | [] => ([], d)
  | (line, x) :: ls' =>
      if severity_ltb (classify_line line) (cf_min_severity config) then scrape_lines ns name ls' d
      else
        match is_new (ld_instant x) (ns +:+ "/" +:+ name) line d with
        | (false, d) => scrape_lines ns name ls' d
        | (true, d) =>
            let (ms, d) := scrape_lines ns name ls' d in
            (line_to_message line ns name agent_id host (ld_id x) (ld_now x) :: ms, d)
        end
  end.

(** One event of the watch; [logs] is what fetching the pod's last lines gives,
    [draws] what the environment gives for each line. *)
Definition scrape_step (event : WatchEvent PodMeta) (logs : string -> result string string)
    (draws : nat -> LineDraw) (d : LogDeduper) : list Message * LogDeduper :=
  match event with
  | InitApply _ => ([], d)
  | Apply pod =>
      let ns := default "default"%string (pm_namespace pod) in
      match pm_name pod with
      | None => ([], d)
      | Some name =>
          match logs name with
          | Err _ => ([], d)
          | Ok text => scrape_lines ns name (imap (fun i l => (l, draws i)) (lines text)) d
          end
      end
  | Delete pod =>
      let ns := default "default"%string (pm_namespace pod) in
      match pm_name pod with
      | None => ([], d)
      | Some name => ([], remove_pod (ns +:+ "/" +:+ name) d)
      end
  end.
End Scrape.
End Deduper.

(** ** The entries of a cache *)

Lemma assoc_app_notin (k : N) (l l' : Entries) : k ∉ l.*1 -> assoc k (l ++ l') = assoc k l'.
Proof.
  induction l as [|[k' v] l IH]; cbn; [done|]. rewrite not_elem_of_cons. intros [Hne Hin].
  rewrite (proj2 (N.eqb_neq _ _) Hne). auto.
Qed.

Lemma drop_key_elem (k x : N) (l : Entries) : x ∈ (drop_key k l).*1 <-> x <> k /\ x ∈ l.*1.
Proof.
  unfold drop_key. rewrite !list_elem_of_fmap. setoid_rewrite list_elem_of_filter. naive_solver.
Qed.

Lemma drop_key_length (k : N) (l : Entries) : length (drop_key k l) <= length l.
Proof. apply length_filter. Qed.

Lemma drop_key_NoDup (k : N) (l : Entries) : NoDup l.*1 -> NoDup (drop_key k l).*1.
Proof.
  induction l as [|[x v] l IH]; [done|]. rewrite fmap_cons. intros [Hx Hnd]%NoDup_cons.
  unfold drop_key. rewrite filter_cons. case_decide; [|by apply IH]. rewrite fmap_cons.
  constructor; [|by apply IH]. intros Hin%(drop_key_elem k x l). naive_solver.
Qed.

(** The entry [(h, t0)] is in the cache and only keys of [S] are more recent. *)
Definition behind (h : N) (t0 : Z) (S : gset N) (l : Entries) : Prop :=
  exists pre post, l = pre ++ (h, t0) :: post /\ h ∉ pre.*1 /\ NoDup pre.*1 /\ forall k, k ∈ pre.*1 -> k ∈ S.

Lemma behind_assoc h t0 S l : behind h t0 S l -> assoc h l = Some t0.
Proof.
  intros (pre & post & -> & Hpre & _). rewrite assoc_app_notin by done. cbn. by rewrite N.eqb_refl.
Qed.

Lemma behind_mono h t0 S S' l : S ⊆ S' -> behind h t0 S l -> behind h t0 S' l.
Proof. intros HS (pre & post & Hl & Hpre & Hnd & Hin). exists pre, post. split_and!; [done..|]. set_solver. Qed.

Lemma behind_head h t0 l : behind h t0 ∅ ((h, t0) :: l).
Proof. exists [], l. cbn. split_and!; [done|set_solver|constructor|set_solver]. Qed.

Lemma drop_key_behind h t0 k v S l :
  k <> h -> behind h t0 S l -> behind h t0 ({[k]} ∪ S) ((k, v) :: drop_key k l).
Proof.
  intros Hk (pre & post & -> & Hpre & Hnd & Hin).
  exists ((k, v) :: drop_key k pre), (drop_key k post). split_and!.
  - unfold drop_key. by rewrite filter_app, filter_cons_True by naive_solver.
  - cbn. rewrite not_elem_of_cons, drop_key_elem. naive_solver.
  - cbn. constructor; [rewrite drop_key_elem; naive_solver|by apply drop_key_NoDup].
  - cbn. intros x [->|Hx]%elem_of_cons; [set_solver|]. apply drop_key_elem in Hx. set_solver.
Qed.

Lemma behind_take h t0 S l n : size S < n -> behind h t0 S l -> behind h t0 S (take n l).
Proof.
  intros Hn (pre & post & -> & Hpre & Hnd & Hin).
  assert (length pre <= size S) as Hlen.
  { rewrite <-(length_fmap fst pre), <-(size_list_to_set (C := gset N)) by done.
    apply subseteq_size. intros x. rewrite elem_of_list_to_set. auto. }
  rewrite take_app_ge by lia. replace (n - length pre) with (Datatypes.S (n - length pre - 1)) by lia. cbn.
  exists pre, (take (n - length pre - 1) post). done.
Qed.

Lemma promote_behind h t0 k S l : k <> h -> behind h t0 S l -> behind h t0 ({[k]} ∪ S) (promote k l).
Proof.
  intros Hk Hb. unfold promote. destruct (assoc k l); [by apply drop_key_behind|].
  eapply behind_mono; [|done]. set_solver.
Qed.

Lemma promote_self h t0 S l : behind h t0 S l -> behind h t0 ∅ (promote h l).
Proof. intros Hb. unfold promote. rewrite (behind_assoc _ _ _ _ Hb). apply behind_head. Qed.

Lemma promote_length k l : length (promote k l) <= length l \/ assoc k l = None.
Proof.
  unfold promote. destruct (assoc k l) eqn:Ha; [|by right]. left.
  assert (length (drop_key k l) < length l); [|cbn; lia].
  clear -Ha. unfold drop_key. induction l as [|[x v] l IH]; [done|]. cbn [assoc] in Ha. rewrite filter_cons.
  pose proof (drop_key_length k l). unfold drop_key in *.
  destruct (N.eqb_spec k x) as [->|Hne]; case_decide; cbn in *; [done|lia|specialize (IH Ha); lia|lia].
Qed.

(** ** The deduper *)

Section DeduperFacts.
Context `{LruLaws} `{LineHash}.
  Implicit Types (d : LogDeduper) (pod line : string) (now : Z).

(** Every pod's cache has the configured capacity and respects it. *)
Definition deduper_wf (d : LogDeduper) : Prop :=
  0 < dd_per_pod_cap d
  /\ map_Forall (fun _ c => lru_cap c = dd_per_pod_cap d /\ length (lru_view c) <= dd_per_pod_cap d) (dd_pods d).

Definition cache_of (pod : string) (d : LogDeduper) : Entries :=
  match dd_pods d !! pod with Some c => lru_view c | None => [] end.

(** What one call does to the cache of its pod. *)
Lemma is_new_spec now pod line d :
  deduper_wf d ->
  let h := hash_line line in
  let l := cache_of pod d in
  let within := match assoc h l with Some s => (Z.max 0 (now - s) <? dd_ttl d)%Z | None => false end in
  (is_new now pod line d).1 = negb within
  /\ cache_of pod (is_new now pod line d).2
     = (if within then promote h l else take (dd_per_pod_cap d) ((h, now) :: drop_key h (promote h l)))
  /\ (forall pod', pod' <> pod -> dd_pods (is_new now pod line d).2 !! pod' = dd_pods d !! pod')
  /\ deduper_wf (is_new now pod line d).2
  /\ dd_per_pod_cap (is_new now pod line d).2 = dd_per_pod_cap d
  /\ dd_ttl (is_new now pod line d).2 = dd_ttl d.
Proof.
  intros [Hcap Hall] h l within. unfold is_new. fold h.
  set (c := default (lru_new (dd_per_pod_cap d)) (dd_pods d !! pod)).
  assert (lru_view c = l /\ lru_cap c = dd_per_pod_cap d /\ length l <= dd_per_pod_cap d) as (Hl & Hc & Hlen).
  { unfold c, l, cache_of. destruct (dd_pods d !! pod) as [c0|] eqn:Hp; cbn.
    - destruct (Hall _ _ Hp). auto.
    - rewrite lru_new_view, lru_new_cap. cbn. split_and!; [done..|lia]. }
  pose proof (lru_get_mut_value h c) as Hv. pose proof (lru_get_mut_view h c) as Hw.
  pose proof (lru_get_mut_cap h c) as Hg.
  destruct (lru_get_mut h c) as [s c1]. cbn in Hv, Hw, Hg. rewrite Hv, Hl. fold within.
  rewrite Hl in Hw.
  assert (length (promote h l) <= dd_per_pod_cap d) as Hplen.
  { destruct (promote_length h l) as [?|Hn]; [lia|]. unfold promote. by rewrite Hn. }
  set (c2 := if within then c1 else lru_put h now c1).
  assert (lru_view c2 = (if within then promote h l else take (dd_per_pod_cap d) ((h, now) :: drop_key h (promote h l)))
    /\ lru_cap c2 = dd_per_pod_cap d) as [Hview Hcap2].
  { unfold c2. destruct within; [by rewrite Hw, Hg, Hc|].
    by rewrite lru_put_view, lru_put_cap, Hw, Hg, Hc. }
  cbn. split_and!; [done| | | |done|done].
  - unfold cache_of. cbn. by rewrite lookup_insert_eq.
  - intros pod' Hne. by rewrite lookup_insert_ne.
  - split; [done|]. cbn. apply map_Forall_insert_2; [|done]. split; [done|].
    rewrite Hview. destruct within; [done|]. rewrite length_take. lia.
Qed.

(** A sequence of calls, with the answers. *)
Record Call := mkCall { cl_pod : string; cl_line : string; cl_now : Z }.
Fixpoint feed (calls : list Call) (d : LogDeduper) : LogDeduper :=
  match calls with
  | [] => d
  | c :: calls' => feed calls' (is_new (cl_now c) (cl_pod c) (cl_line c) d).2
  end.
(** The other hashes that occur for the pod. *)
Definition others (pod : string) (h : N) (calls : list Call) : gset N :=
  list_to_set (List.filter (fun k => negb (k =? h)%N)
    (map (fun c => hash_line (cl_line c)) (List.filter (fun c => String.eqb (cl_pod c) pod) calls))).

Lemma feed_behind pod h t0 calls d S :
  deduper_wf d -> behind h t0 S (cache_of pod d) ->
  Forall (fun c => (Z.max 0 (cl_now c - t0) < dd_ttl d)%Z) calls ->
  size (S ∪ others pod h calls) < dd_per_pod_cap d ->
  behind h t0 (S ∪ others pod h calls) (cache_of pod (feed calls d))
  /\ deduper_wf (feed calls d) /\ dd_ttl (feed calls d) = dd_ttl d.
Proof.
  intros Hwf Hb Hall. revert d S Hwf Hb Hall; induction calls as [|[p line now] calls IH];
    intros d S Hwf Hb Hall Hsize; cbn [feed].
  { split_and!; [|done..]. eapply behind_mono; [|done]. set_solver. }
  apply Forall_cons in Hall as [Hnow Hall]. cbn [cl_now cl_pod cl_line] in *.
  destruct (is_new_spec now p line d Hwf) as (_ & Hcache & Hother & Hwf' & Hcap & Httl).
  assert (others pod h calls ⊆ others pod h (mkCall p line now :: calls)) as Hsub.
  { unfold others. cbn. destruct (String.eqb p pod); [|done]. cbn.
    destruct (negb _); [|done]. cbn. set_solver. }
  assert (forall S', S' ⊆ S ∪ others pod h (mkCall p line now :: calls) ->
    behind h t0 S' (cache_of pod (is_new now p line d).2) ->
    behind h t0 (S ∪ others pod h (mkCall p line now :: calls))
      (cache_of pod (feed calls (is_new now p line d).2))
    /\ deduper_wf (feed calls (is_new now p line d).2)
    /\ dd_ttl (feed calls (is_new now p line d).2) = dd_ttl d) as Hgo.
  { intros S' HS' Hb'. rewrite <-Httl in Hall. destruct (IH _ S' Hwf' Hb' Hall) as (Hb2 & Hwf2 & Httl2).
    - rewrite Hcap. eapply Nat.le_lt_trans; [|exact Hsize]. apply subseteq_size. set_solver.
    - rewrite Httl2. split_and!; [|done..]. eapply behind_mono; [|exact Hb2]. set_solver. }
  destruct (decide (p = pod)) as [->|Hne].
  2:{ apply (Hgo S); [set_solver|]. unfold cache_of. by rewrite Hother. }
  destruct (decide (hash_line line = h)) as [Hh|Hh].
  { apply (Hgo ∅); [set_solver|]. rewrite Hcache, Hh, (behind_assoc _ _ _ _ Hb).
    rewrite (proj2 (Z.ltb_lt _ _) Hnow). by eapply promote_self. }
  assert ({[hash_line line]} ⊆ others pod h (mkCall pod line now :: calls)) as Hk.
  { unfold others. cbn. rewrite String.eqb_refl. cbn. rewrite (proj2 (N.eqb_neq _ _) Hh). cbn. set_solver. }
  apply (Hgo ({[hash_line line]} ∪ S)); [set_solver|]. rewrite Hcache.
  pose proof (promote_behind h t0 (hash_line line) S _ Hh Hb) as Hp.
  destruct (match assoc _ _ with Some _ => _ | None => _ end); [done|].
  apply behind_take.
  - eapply Nat.le_lt_trans; [|exact Hsize]. apply subseteq_size. set_solver.
  - eapply behind_mono; [|by apply drop_key_behind]. set_solver.
Qed.

Lemma is_new_recorded t0 pod line d :
  deduper_wf d -> (is_new t0 pod line d).1 = true ->
  behind (hash_line line) t0 ∅ (cache_of pod (is_new t0 pod line d).2).
Proof.
  intros Hwf Hnew. destruct (is_new_spec t0 pod line d Hwf) as (Hans & -> & _).
  rewrite Hnew in Hans. destruct (match assoc _ _ with Some _ => _ | None => _ end); [done|].
  destruct Hwf as [Hcap _]. destruct (dd_per_pod_cap d) as [|n]; [lia|]. cbn. apply behind_head.
Qed.

Lemma entries_bound d : deduper_wf d -> total_entries d <= dd_per_pod_cap d * pod_count d.
Proof.
  intros [_ Hall]. unfold total_entries, pod_count. destruct d as [cap ttl pods]. cbn in *.
  induction pods as [|k c pods Hk IH] using map_ind; [rewrite map_to_list_empty; cbn; lia|].
  apply map_Forall_insert in Hall as [[_ Hc] Hall]; [|done].
  rewrite map_size_insert_None by done.
  rewrite map_to_list_insert by done. cbn. rewrite lru_len_view. specialize (IH Hall). lia.
Qed.

Lemma feed_wf calls d : deduper_wf d -> deduper_wf (feed calls d).
Proof.
  revert d; induction calls as [|c calls IH]; intros d Hwf; cbn; [done|]. apply IH.
  by apply is_new_spec.
Qed.

(** The log de-duplication window: once a line of a pod has been let through,
    it is suppressed for its time to live, whatever lines of whatever pods are
    processed in between, as long as the pod's other lines among them number fewer
    distinct hashes than the capacity; a line with no live entry is always let
    through; and the cache never holds more than the capacity per tracked pod. *)
Theorem dedup_window (pod line : string) (t0 now : Z) (calls : list Call) (d : LogDeduper) :
  deduper_wf d ->
  ((is_new t0 pod line d).1 = true ->
   Forall (fun c => (Z.max 0 (cl_now c - t0) < dd_ttl d)%Z) calls -> (Z.max 0 (now - t0) < dd_ttl d)%Z ->
   size (others pod (hash_line line) calls) < dd_per_pod_cap d ->
   (is_new now pod line (feed calls (is_new t0 pod line d).2)).1 = false)
  /\ ((forall s, assoc (hash_line line) (cache_of pod d) = Some s -> (dd_ttl d <= Z.max 0 (now - s))%Z) ->
      (is_new now pod line d).1 = true)
  /\ total_entries (feed calls d) <= dd_per_pod_cap (feed calls d) * pod_count (feed calls d).
Proof.
  intros Hwf. split_and!.
  - intros Hnew Hcalls Hnow Hsize.
    destruct (is_new_spec t0 pod line d Hwf) as (_ & _ & _ & Hwf1 & Hcap & Httl).
    destruct (feed_behind pod (hash_line line) t0 calls (is_new t0 pod line d).2 ∅)
      as (Hb & Hwf2 & Httl2); [done|by apply is_new_recorded|by rewrite Httl| |].
    { rewrite Hcap. eapply Nat.le_lt_trans; [|exact Hsize]. apply subseteq_size. set_solver. }
    destruct (is_new_spec now pod line _ Hwf2) as (-> & _).
    rewrite (behind_assoc _ _ _ _ Hb), Httl2, Httl. by rewrite (proj2 (Z.ltb_lt _ _) Hnow).
  - intros Hold. destruct (is_new_spec now pod line d Hwf) as (-> & _).
    destruct (assoc _ _) as [s|]; [|done]. by rewrite (proj2 (Z.ltb_ge _ _) (Hold s eq_refl)).
  - apply entries_bound, feed_wf, Hwf.
Qed.
End DeduperFacts.

(** ** An instance *)

Record ListLru := mkListLru { ll_cap : nat; ll_entries : Entries }.
#[export] Instance list_lru : Lru :=
  {| lru := ListLru;
     lru_new n := mkListLru n [];
     lru_get_mut k c := (assoc k (ll_entries c), mkListLru (ll_cap c) (promote k (ll_entries c)));
     lru_put k v c := mkListLru (ll_cap c) (take (ll_cap c) ((k, v) :: drop_key k (ll_entries c)));
     lru_len c := length (ll_entries c);
     lru_cap := ll_cap;
     lru_view := ll_entries |}.
#[export] Instance list_lru_laws : LruLaws.
Proof. constructor; done. Qed.
#[export] Instance length_hash : LineHash := fun s => N.of_nat (String.length s).

Definition toy_deduper : LogDeduper := mkDeduper 2 10 ∅.
Definition toy_calls : list Call :=
  [mkCall "p" "error: a" 1; mkCall "q" "error" 2; mkCall "p" "error: ab" 3]%string.

Lemma dedup_window_witness :
  (is_new 0 "p" "error: a" toy_deduper).1 = true
  /\ (is_new 9 "p" "error: a" (feed toy_calls (is_new 0 "p" "error: a" toy_deduper).2)).1 = false.
Proof.
  assert ((is_new 0 "p" "error: a" toy_deduper).1 = true) as Hnew by (vm_compute; reflexivity).
  split; [exact Hnew|].
  assert (deduper_wf toy_deduper) as Hwf by (split; [cbn; lia|intros k c Hk; discriminate]).
  apply (proj1 (dedup_window "p" "error: a" 0 9 toy_calls toy_deduper Hwf)).
  - exact Hnew.
  - repeat constructor.
  - reflexivity.
  - apply Nat.ltb_lt. vm_compute. reflexivity.
Defined.
