(* ===== verification/ApiAuth.v ===== *)
(** * Access to the control plane ([ravn-server/src/auth.rs], [api.rs])

    Token verification, the mapping of a user's groups to a role, the validators
    of the ingest endpoint, and the bearer middleware with its static tokens.

    [jsonwebtoken] and the methods of the HTTP crate are the classes [Jwt] and
    [Http]. *)

From S2P Require Export JsonValue Orchestrator.

(** ** Token verification ([auth.rs]) *)

Inductive Algorithm := RS256.
Record Validation := mkValidation {
  va_algorithm : Algorithm;
  va_issuer : string;
  va_audience : option string;
}.
(** [jsonwebtoken]: decoding succeeds only for a token that satisfies the
    validation under the key. *)
Class Jwt : Type := {
  JwkSet : Type;
  Jwk : Type;
  DecodingKey : Type;
  decode_header : string -> option (option string);
  jwks_find : JwkSet -> string -> option Jwk;
  from_jwk : Jwk -> option DecodingKey;
  jwt_decode : string -> DecodingKey -> Validation -> option Json;
}.

Section Tokens.
Context `{Jwt}.

Definition verify (jwks : JwkSet) (issuer : string) (audience : option string) (token : string) : option Json :=
  header_kid ← decode_header token;
  kid ← header_kid;
  jwk ← jwks_find jwks kid;
  key ← from_jwk jwk;
  jwt_decode token key (mkValidation RS256 issuer audience).

Record IngestAuth := mkIngestAuth { ia_issuer : string; ia_audience : string; ia_jwks : JwkSet }.
(** The [sub] of the claims. *)
Definition ingest_validate (a : IngestAuth) (token : string) : option string :=
  claims ← verify (ia_jwks a) (ia_issuer a) (Some (ia_audience a)) token;
  json_get "sub" claims ≫= as_str.

(** [TokenReviewValidator::validate] on the response of the cluster: [None] when
    the call or the parsing failed or the status was not a success. *)
Record TokenReviewStatus := mkReview { tr_authenticated : bool; tr_username : string; tr_error : option string }.
Definition review_validate (response : option TokenReviewStatus) : option string :=
  r ← response;
  if tr_authenticated r then Some (tr_username r) else None.

Record UserAuth := mkUserAuth {
  ua_issuer : string;
  ua_audience : option string;
  ua_jwks : JwkSet;
  ua_groups_claim : string;
  ua_admin_group : option string;
  ua_viewer_group : option string;
}.
Definition is_group_sep (c : ascii) : bool := is_byte 44 c || is_byte 32 c.
Definition extract_groups (claims : Json) (claim : string) : list string :=
  match json_get claim claims with
  | Some (JArray items) => omap as_str items
  | Some (JString s) => List.filter (fun t => negb (is_empty t)) (split_on is_group_sep s)
  | _ => []
  end.
(** [None]: the token is invalid; [Some None]: valid, but in no allowed group. *)
Definition authorize (u : UserAuth) (token : string) : option (option Role) :=
  claims ← verify (ua_jwks u) (ua_issuer u) (ua_audience u) token;
  let groups := extract_groups claims (ua_groups_claim u) in
  if match ua_admin_group u with Some admin => one_of admin groups | None => false end then Some (Some Admin)
  else
    let viewer_ok := match ua_viewer_group u with Some vg => one_of vg groups | None => true end in
    Some (if viewer_ok then Some Viewer else None).
End Tokens.

(** ** Requests ([api.rs]) *)

(** The methods of the [http] crate and [Method::is_safe]. *)
Class Http : Type := {
  Method : Type;
  GET : Method; HEAD : Method; POST : Method; PUT : Method; DELETE : Method;
  is_safe : Method -> bool;
}.
Class HttpLaws `{Http} : Prop := {
  get_safe : is_safe GET = true;
  head_safe : is_safe HEAD = true;
  post_unsafe : is_safe POST = false;
  put_unsafe : is_safe PUT = false;
  delete_unsafe : is_safe DELETE = false;
}.

(** [split_once('=')] and [query_param]. *)
Fixpoint find_map {A B} (f : A -> option B) (l : list A) : option B :=
  match l with
  | [] => None
  | a :: l' => match f a with Some b => Some b | None => find_map f l' end
  end.
Definition query_param (query : option string) (key : string) : option string :=
  q ← query;
  find_map (fun pair => kv ← cut "=" pair; if String.eqb kv.1 key then Some kv.2 else None)
    (split_on (is_byte 38) q).

(** [fold(0u8, |acc, (x, y)| acc | (x ^ y)) == 0]. *)
Fixpoint fold_xor (acc : N) (a b : string) : N :=
  match a, b with
  | String x a', String y b' => fold_xor (N.lor acc (N.lxor (code x) (code y))) a' b'
  | _, _ => acc
  end.
Definition constant_time_eq (a b : string) : bool :=
  if negb (String.length a =? String.length b) then false
  else (fold_xor 0 a b =? 0)%N.

Definition is_public (path : string) : bool :=
  one_of path ["/ready"; "/metrics"; "/enroll"; "/ingest"; "/auth/config"; "/api/system/health"].

Definition role_for (token : string) (admin viewer : option string) : option Role :=
  if bool_decide (admin = Some token) then Some Admin
  else if bool_decide (viewer = Some token) then Some Viewer
  else None.

Section Middleware.
Context `{Jwt} `{Http}.

Definition authorized (method : Method) (role : Role) : bool := is_safe method || bool_decide (role = Admin).

Record HttpRequest := mkRequest {
  rq_method : Method;
  rq_path : string;
  rq_query : option string;
  rq_authorization : option string;
}.
(** The credentials the middleware checks against. *)
Record Credentials := mkCredentials {
  cr_admin_token : option string;
  cr_viewer_token : option string;
  cr_user_auth : option UserAuth;
}.
Definition bearer (req : HttpRequest) : option string := rq_authorization req ≫= strip_prefix "Bearer ".

(** The request goes on, with the role the handlers see, or is answered. *)
Inductive Gate := Next (role : option Role) | Unauthorized (msg : string) | Forbidden (msg : string).
Definition auth_mw (s : Credentials) (req : HttpRequest) : Gate :=
  let auth_enabled := bool_decide (is_Some (cr_admin_token s)) || bool_decide (is_Some (cr_viewer_token s))
                      || match cr_user_auth s with Some _ => true | None => false end in
  if negb auth_enabled then Next None
  else if is_public (rq_path req) then Next None
  else
    let token := match bearer req with Some t => Some t | None => query_param (rq_query req) "access_token" end in
    match token with
    | None => Unauthorized "missing bearer token"
    | Some token =>
        let gate role := if authorized (rq_method req) role then Next (Some role)
                         else Forbidden "admin role required" in
        match role_for token (cr_admin_token s) (cr_viewer_token s) with
        | Some role => gate role
        | None =>
            match cr_user_auth s with
            | None => Unauthorized "missing or invalid bearer token"
            | Some user_auth =>
                match authorize user_auth token with
                | Some (Some role) => gate role
                | Some None => Forbidden "authenticated but not in an allowed group"
                | None => Unauthorized "missing or invalid bearer token"
                end
            end
        end
    end.
End Middleware.

(** ** Facts *)

Lemma fold_xor_lor (acc : N) (a b : string) :
  (N.lor acc (fold_xor 0 a b) = fold_xor acc a b)%N.
Proof.
  revert acc b; induction a as [|x a IH]; intros acc [|y b]; cbn; try apply N.lor_0_r.
  rewrite <-(IH (N.lxor (code x) (code y))), <-(IH (N.lor acc _)). by rewrite N.lor_assoc.
Qed.

Lemma fold_xor_zero (a b : string) :
  String.length a = String.length b -> (fold_xor 0 a b = 0%N <-> a = b).
Proof.
  revert b; induction a as [|x a IH]; intros [|y b]; cbn; try done. intros [= Hlen].
  rewrite <-fold_xor_lor, N.lor_eq_0_iff, (IH _ Hlen). split.
  - intros [Hc%N.lxor_eq ->]. f_equal. rewrite <-(ascii_N_embedding x), <-(ascii_N_embedding y). f_equal. exact Hc.
  - intros [= -> ->]. by rewrite N.lxor_nilpotent.
Qed.

(** The comparison that looks at every byte is equality. *)
Lemma constant_time_eq_spec (a b : string) : constant_time_eq a b = true <-> a = b.
Proof.
  unfold constant_time_eq. destruct (Nat.eqb_spec (String.length a) (String.length b)) as [Hl|Hl]; cbn.
  - rewrite N.eqb_eq. by apply fold_xor_zero.
  - split; [done|]. by intros ->.
Qed.

Section AccessFacts.
Context `{Jwt} `{Http}.

(** A token is verified: the key of the set it names, RS256, the configured issuer
    and audience. *)
Definition verified (jwks : JwkSet) (issuer : string) (audience : option string) (token : string)
    (claims : Json) : Prop :=
  exists kid jwk key, decode_header token = Some (Some kid) /\ jwks_find jwks kid = Some jwk
    /\ from_jwk jwk = Some key /\ jwt_decode token key (mkValidation RS256 issuer audience) = Some claims.

Lemma verify_Some jwks issuer audience token claims :
  verify jwks issuer audience token = Some claims <-> verified jwks issuer audience token claims.
Proof.
  unfold verify, verified. split.
  - intros Hv. repeat (apply bind_Some in Hv as (? & ? & Hv)). subst. naive_solver.
  - intros (kid & jwk & key & Hh & Hf & Hk & Hd). rewrite Hh. cbn. rewrite Hf. cbn. by rewrite Hk.
Qed.

(** Who holds a role: the holder of the static token, or a user with a verified
    token in the right group. *)
Definition holds (s : Credentials) (token : string) (role : Role) : Prop :=
  match role with
  | Admin => cr_admin_token s = Some token
  | Viewer => cr_viewer_token s = Some token
  end
  \/ exists u claims, cr_user_auth s = Some u
      /\ verified (ua_jwks u) (ua_issuer u) (ua_audience u) token claims
      /\ match role with
         | Admin => exists g, ua_admin_group u = Some g /\ g ∈ extract_groups claims (ua_groups_claim u)
         | Viewer => forall g, ua_viewer_group u = Some g -> g ∈ extract_groups claims (ua_groups_claim u)
         end.

Lemma authorize_holds s u token role :
  cr_user_auth s = Some u -> authorize u token = Some (Some role) -> holds s token role.
Proof.
  intros Hu Ha. unfold authorize in Ha. apply bind_Some in Ha as (claims & Hv & Ha).
  apply verify_Some in Hv. right. exists u, claims. split_and!; [done..|].
  destruct (match ua_admin_group u with Some _ => _ | None => _ end) eqn:Hg.
  - injection Ha as <-. destruct (ua_admin_group u) as [g|]; [|done]. exists g. split; [done|].
    by apply one_of_elem.
  - destruct (ua_viewer_group u) as [g|].
    + destruct (one_of g _) eqn:Ho; [|done]. injection Ha as <-. intros g' [= <-]. by apply one_of_elem.
    + by injection Ha as <-.
Qed.

Lemma role_for_holds s token role :
  role_for token (cr_admin_token s) (cr_viewer_token s) = Some role -> holds s token role.
Proof.
  unfold role_for. intros Hr. left.
  case_bool_decide; [by injection Hr as <-|]. case_bool_decide; [by injection Hr as <-|done].
Qed.

(** The token a request presents: the header first, the query otherwise. *)
Definition presents (req : HttpRequest) (token : string) : Prop :=
  bearer req = Some token \/ (bearer req = None /\ query_param (rq_query req) "access_token" = Some token).

(** How a request gets past the middleware. *)
Lemma auth_mw_next (s : Credentials) (req : HttpRequest) (role : option Role) :
  auth_mw s req = Next role ->
  match role with
  | None => (cr_admin_token s = None /\ cr_viewer_token s = None /\ cr_user_auth s = None)
            \/ is_public (rq_path req) = true
  | Some r => is_public (rq_path req) = false
      /\ (exists token, presents req token /\ holds s token r)
      /\ (is_safe (rq_method req) = false -> r = Admin)
  end.
Proof.
  unfold auth_mw. destruct (negb _) eqn:Hen.
  { intros [= <-]. left. apply negb_true_iff in Hen. rewrite !orb_false_iff, !bool_decide_eq_false in Hen.
    rewrite <-!eq_None_not_Some in Hen. destruct (cr_user_auth s); naive_solver. }
  destruct (is_public (rq_path req)) eqn:Hpub; [intros [= <-]; by right|].
  destruct (match bearer req with Some t => Some t | None => _ end) as [token|] eqn:Htok; [|done].
  assert (presents req token) as Hpres.
  { unfold presents. destruct (bearer req); naive_solver. }
  assert (forall r, (if authorized (rq_method req) r then Next (Some r) else Forbidden "admin role required")
    = Next role -> role = Some r /\ (is_safe (rq_method req) = false -> r = Admin)) as Hgate.
  { intros r. unfold authorized. destruct (is_safe _); cbn; [by intros Hn; simplify_eq|].
    destruct (bool_decide (r = Admin)) eqn:Hb; [|done]. apply bool_decide_eq_true in Hb.
    intros Hn. by simplify_eq. }
  destruct (role_for token (cr_admin_token s) (cr_viewer_token s)) as [r|] eqn:Hr.
  { intros [-> Hadm]%Hgate. split_and!; [done|exists token; split; [done|by apply role_for_holds]|done]. }
  destruct (cr_user_auth s) as [u|] eqn:Hu; [|done].
  destruct (authorize u token) as [[r|]|] eqn:Ha; [|done..].
  intros [-> Hadm]%Hgate. split_and!; [done|exists token; split; [done|by eapply authorize_holds]|done].
Qed.

(** C9. The bearer middleware admits nobody it should not: a request that reaches a
    handler either meets no configured credential or a public path (and then no role
    is attached), or presents a token whose holder has the attached role, by the
    static token or by a verified user token (RS256, issuer, audience) in the
    configured group; and a method that is not safe gets through only for an
    admin. *)
Theorem auth_mw_sound (s : Credentials) (req : HttpRequest) (role : option Role) :
  auth_mw s req = Next role ->
  match role with
  | None => (cr_admin_token s = None /\ cr_viewer_token s = None /\ cr_user_auth s = None)
            \/ is_public (rq_path req) = true
  | Some r => is_public (rq_path req) = false
      /\ (exists token, presents req token /\ holds s token r)
      /\ (is_safe (rq_method req) = false -> r = Admin)
  end.
Proof. apply auth_mw_next. Qed.

(** The role of a viewer is enough to pull the commands of any agent: the pull is a
    safe method, and it empties the queue. *)
Lemma viewer_may_pull (s : Credentials) (req : HttpRequest) (token : string) :
  cr_viewer_token s = Some token -> cr_admin_token s <> Some token ->
  bearer req = Some token -> is_public (rq_path req) = false -> is_safe (rq_method req) = true ->
  auth_mw s req = Next (Some Viewer).
Proof.
  intros Hv Ha Hb Hp Hs. unfold auth_mw. rewrite Hv, Hp, Hb. cbn. rewrite orb_true_r. cbn.
  unfold role_for. rewrite bool_decide_eq_false_2, bool_decide_eq_true_2 by done.
  unfold authorized. by rewrite Hs.
Qed.
End AccessFacts.

(** ** Examples *)

Inductive ToyMethod := ToyGet | ToyHead | ToyPost | ToyPut | ToyDelete.
#[export] Instance toy_http : Http :=
  {| Method := ToyMethod; GET := ToyGet; HEAD := ToyHead; POST := ToyPost; PUT := ToyPut; DELETE := ToyDelete;
     is_safe m := match m with ToyGet | ToyHead => true | _ => false end |}.
#[export] Instance toy_http_laws : HttpLaws.
Proof. constructor; reflexivity. Qed.
(** Tokens that are their own claims. *)
#[export] Instance toy_jwt : Jwt :=
  {| JwkSet := list string; Jwk := string; DecodingKey := string;
     decode_header t := Some (Some "k"%string);
     jwks_find ks k := if one_of k ks then Some k else None;
     from_jwk k := Some k;
     jwt_decode t k v := Some (JObject [("groups", JString t)])%string |}.

Definition toy_user_auth : UserAuth :=
  mkUserAuth "iss" (Some "ravn") ["k"] "groups" (Some "sre") (Some "dev").
Definition toy_credentials : Credentials :=
  mkCredentials (Some "root") (Some "look") (Some toy_user_auth).
Definition approve_request (token : string) : HttpRequest :=
  mkRequest ToyPost "/api/remediations/1/approve" None (Some ("Bearer " +:+ token)).

Lemma auth_mw_sound_witness :
  auth_mw toy_credentials (approve_request "dev,sre") = Next (Some Admin)
  /\ auth_mw toy_credentials (approve_request "dev") = Forbidden "admin role required"
  /\ exists token, presents (approve_request "dev,sre") token /\ holds toy_credentials token Admin.
Proof.
  assert (auth_mw toy_credentials (approve_request "dev,sre") = Next (Some Admin)) as Hn
    by (vm_compute; reflexivity).
  split; [exact Hn|]. split; [vm_compute; reflexivity|].
  exact (proj1 (proj2 (auth_mw_sound toy_credentials (approve_request "dev,sre") (Some Admin) Hn))).
Defined.

(** A viewer who pulls gets the commands, and the agent they were meant for finds
    its queue empty. *)
Definition pull_request (token : string) : HttpRequest :=
  mkRequest ToyGet "/agents/9/commands" None (Some ("Bearer " +:+ token)).
Theorem viewer_drains_queue :
  let s := server_run [DoPrepare (example_inputs 1) example_event] (example_state auto_k8s true) in
  auth_mw toy_credentials (pull_request "look") = Next (Some Viewer)
  /\ length (pending_for 9 (as_queue s)) = 1
  /\ (get_commands 9 (get_commands 9 s).2).1 = JsonCommands [].
Proof. split; [vm_compute; reflexivity|]. split; vm_compute; reflexivity. Qed.
