(* ===== verification/Floats.v ===== *)
(** * Binary64 floating point (Rust's [f64])

  The values and operations of [f64] are those of the Standard Library's executable
  specification of IEEE 754 at precision 53: [SFadd] and the others compute the
  correctly rounded result, so that every definition that uses them evaluates to the
  bits the program computes; so do the reading of a decimal text and the printing with
  a precision.  [FloatFacts] is the theory. *)

From Stdlib Require Export SpecFloat.
From S2P Require Export Strs.

Abbreviation F64 := spec_float.
Definition f64_zero : F64 := S754_zero false.
(** [n as f64]. *)
Definition f64_of_Z (n : Z) : F64 := binary_normalize 53 1024 n 0 false.
Definition f64_of_nat (n : nat) : F64 := f64_of_Z (Z.of_nat n).
Definition f64_add : F64 -> F64 -> F64 := SFadd 53 1024.
Definition f64_sub : F64 -> F64 -> F64 := SFsub 53 1024.
Definition f64_mul : F64 -> F64 -> F64 := SFmul 53 1024.
Definition f64_div : F64 -> F64 -> F64 := SFdiv 53 1024.
(** The correctly rounded quotient of two integers: what a decimal literal denotes. *)
Definition f64_ratio (n d : N) : F64 :=
  match n, d with
  | N.pos m, N.pos k =>
      let '(q, e, l) := SFdiv_core_binary 53 1024 (Z.pos m) 0 (Z.pos k) 0 in binary_round_aux 53 1024 false q e l
  | _, _ => f64_zero
  end.
Definition f64_of_bool (b : bool) : F64 := f64_of_Z (if b then 1 else 0).
Definition f64_one : F64 := f64_of_Z 1.
(** [f64::min]: of a NaN and a number, the number. *)
Definition f64_min (x y : F64) : F64 :=
  match x, y with
  | S754_nan, _ => y
  | _, S754_nan => x
  | _, _ => if SFltb y x then y else x
  end.
(** [partial_cmp]. *)
Definition f64_cmp : F64 -> F64 -> option comparison := SFcompare.

(** [Duration::as_secs_f64], from nanoseconds. *)
Definition as_secs_f64 (nanos : Z) : F64 :=
  f64_add (f64_of_Z (nanos / 10 ^ 9)) (f64_div (f64_of_Z (nanos mod 10 ^ 9)) (f64_of_Z (10 ^ 9))).
(** [iter().sum::<f64>()], from the left, beginning with negative zero. *)
Definition f64_sum (l : list F64) : F64 := fold_left f64_add l (S754_zero true).

(** ** Reading and printing *)

(** A number's digits up to the first other byte, and how many there were. *)
Fixpoint read_digits (acc : N) (count : N) (s : string) : N * N * string :=
  match s with
  | String c s' => if is_ascii_digit c then read_digits (acc * 10 + (code c - 48)) (count + 1) s' else (acc, count, s)
  | EmptyString => (acc, count, s)
  end.
(** The exponent: nothing, or [e], a sign and digits to the end. *)
Definition read_exponent (s : string) : option Z :=
  match s with
  | EmptyString => Some 0%Z
  | String c s =>
      if is_byte 101 c || is_byte 69 c then
        let '(neg, s) := match s with
                         | String d t => if is_byte 45 d then (true, t) else if is_byte 43 d then (false, t) else (false, s)
                         | EmptyString => (false, s) end in
        let '(n, count, rest) := read_digits 0 0 s in
        if (count =? 0)%N || negb (is_empty rest) then None else Some (if neg then - Z.of_N n else Z.of_N n)%Z
      else None
  end.
(** [str::parse::<f64>()] after the sign: a name, or a decimal rounded correctly. *)
Definition parse_f64_abs (s : string) : option F64 :=
  let low := to_ascii_lowercase s in
  if String.eqb low "inf" || String.eqb low "infinity" then Some (S754_infinity false)
  else if String.eqb low "nan" then Some S754_nan
  else
    let '(i, ni, s) := read_digits 0 0 s in
    let '(m, nf, s) := match s with
                       | String c t => if is_byte 46 c then read_digits i 0 t else (i, 0%N, s)
                       | EmptyString => (i, 0%N, s) end in
    if (ni + nf =? 0)%N then None
    else match read_exponent s with
         | None => None
         | Some e => let k := (e - Z.of_N nf)%Z in
                     Some (if (0 <=? k)%Z then f64_ratio (m * 10 ^ Z.to_N k) 1 else f64_ratio m (10 ^ Z.to_N (- k)))
         end.
Definition parse_f64 (s : string) : option F64 :=
  match s with
  | String c t => if is_byte 45 c then SFopp <$> parse_f64_abs t else if is_byte 43 c then parse_f64_abs t
                  else parse_f64_abs s
  | EmptyString => None
  end.

(** [n / d] to the nearest integer, ties to even. *)
Definition div_even (n d : N) : N :=
  let q := (n / d)%N in
  match N.compare (2 * (n mod d)) d with Lt => q | Gt => q + 1 | Eq => if N.even q then q else q + 1 end%N.
Fixpoint zero_digits (n : nat) : string := match n with O => EmptyString | S n => String "0" (zero_digits n) end.
(** [{:.p}] of a finite number [m * 2^e]. *)
Definition fixed_abs (p : nat) (m : N) (e : Z) : string :=
  let scale := (10 ^ N.of_nat p)%N in
  let n := match e with
           | Z.neg k => div_even (m * scale) (2 ^ N.pos k)
           | _ => (m * scale * 2 ^ Z.to_N e)%N
           end in
  let frac := show_N (n mod scale) in
  show_N (n / scale) +:+ match p with
                         | O => EmptyString
                         | _ => "." +:+ zero_digits (p - String.length frac) +:+ frac end.
Definition f64_fixed (p : nat) (x : F64) : string :=
  match x with
  | S754_nan => "NaN"
  | S754_infinity s => if s then "-inf" else "inf"
  | S754_zero s => (if s then "-" else "") +:+ fixed_abs p 0 0
  | S754_finite s m e => (if s then "-" else "") +:+ fixed_abs p (N.pos m) e
  end.

Example parse_f64_ex :
  (f64_fixed 3 <$> parse_f64 "2.5e1", f64_fixed 1 <$> parse_f64 ".75", parse_f64 "1e", f64_fixed 0 <$> parse_f64 "-inf",
   f64_fixed 2 (f64_ratio 1 3), f64_fixed 20 (f64_ratio 1 10), f64_fixed 0 (f64_ratio 5 2), parse_f64 ".")
  = (Some "25.000", Some "0.8", None, Some "-inf", "0.33", "0.10000000000000000555", "2", None)%string.
Proof. vm_compute. reflexivity. Qed.
