(* ===== verification/FloatFacts.v ===== *)
(** * Facts on binary64

  Every operation on numbers that are not negative is a correct rounding of the exact
  result ([rounded]), and a correct rounding does not pass a representable number
  ([rounded_below], [rounded_above]), is exact where it can be ([rounded_exact]) and
  is close otherwise.  Bounds on a computation in [f64] follow from bounds on the
  exact one. *)

From Stdlib Require Import QArith Qpower Lqa.
From S2P Require Export Floats.

(** ** Powers of two *)

Local Open Scope Q_scope.

Definition pow2 (e : Z) : Q := 2 ^ e.
Definition scaled (m e : Z) : Q := inject_Z m * pow2 e.

Lemma pow2_pos (e : Z) : 0 < pow2 e.
Proof. apply Qpower_0_lt. reflexivity. Qed.

Lemma pow2_add (a b : Z) : pow2 (a + b) == pow2 a * pow2 b.
Proof. unfold pow2. apply Qpower_plus. discriminate. Qed.

Lemma pow2_Z (n : Z) : (0 <= n)%Z -> pow2 n == inject_Z (2 ^ n).
Proof. intros Hn. unfold pow2. rewrite Zpower_Qpower by done. reflexivity. Qed.

Lemma pow2_succ (e : Z) : pow2 (e + 1) == 2 * pow2 e.
Proof. rewrite pow2_add. rewrite Qmult_comm. reflexivity. Qed.

Lemma scaled_shift (m e n : Z) : (0 <= n)%Z -> scaled m (e + n) == scaled (m * 2 ^ n) e.
Proof. intros Hn. unfold scaled. rewrite pow2_add, inject_Z_mult, (pow2_Z n) by done. ring. Qed.

Lemma scaled_le (m m' e : Z) : (m <= m')%Z <-> scaled m e <= scaled m' e.
Proof. unfold scaled. rewrite Zle_Qle. symmetry. apply Qmult_le_r, pow2_pos. Qed.
Lemma scaled_lt (m m' e : Z) : (m < m')%Z <-> scaled m e < scaled m' e.
Proof. unfold scaled. rewrite Zlt_Qlt. symmetry. apply Qmult_lt_r, pow2_pos. Qed.

(** ** Rounding *)

Definition emin64 : Z := -1074.
Definition fexp64 (e : Z) : Z := Z.max (e - 53) emin64.
(** What a mantissa and an exponent can hold. *)
Definition rep (m e : Z) : Prop := (0 <= m < 2 ^ 53 /\ emin64 <= e <= 971)%Z.
(** The canonical ones: the mantissa is full unless the exponent is the least. *)
Definition canonical (m e : Z) : Prop := rep m e /\ (emin64 < e -> 2 ^ 52 <= m)%Z.

Lemma digits2_bounds (p : positive) :
  (2 ^ (Z.pos (digits2_pos p) - 1) <= Z.pos p < 2 ^ Z.pos (digits2_pos p))%Z.
Proof.
  induction p as [p IH|p IH|]; cbn [digits2_pos]; [| |by compute];
    rewrite Pos2Z.inj_succ; replace (Z.succ (Z.pos (digits2_pos p)) - 1)%Z with (Z.pos (digits2_pos p) - 1 + 1)%Z by lia;
    rewrite <-Z.add_1_r, !Z.pow_add_r by lia; lia.
Qed.

Lemma Zdigits2_bounds (m : Z) :
  (0 < m)%Z -> (1 <= Zdigits2 m /\ 2 ^ (Zdigits2 m - 1) <= m < 2 ^ Zdigits2 m)%Z.
Proof. intros Hm. destruct m as [|p|p]; try lia. split; [cbn; lia|]. apply digits2_bounds. Qed.

Lemma Zdigits2_le (m n : Z) : (0 < m -> m < 2 ^ n -> 0 <= n -> Zdigits2 m <= n)%Z.
Proof.
  intros Hm Hn H0. pose proof (Zdigits2_bounds m Hm) as (_ & Hd & _).
  destruct (Z.le_gt_cases (Zdigits2 m) n) as [|Hgt]; [done|]. exfalso.
  assert (2 ^ n <= 2 ^ (Zdigits2 m - 1))%Z by (apply Z.pow_le_mono_r; lia). lia.
Qed.

Lemma Zdigits2_ge (m n : Z) : (0 < m -> 2 ^ n <= m -> 0 <= n -> n + 1 <= Zdigits2 m)%Z.
Proof.
  intros Hm Hn H0. pose proof (Zdigits2_bounds m Hm) as (_ & _ & Hd).
  destruct (Z.le_gt_cases (n + 1) (Zdigits2 m)) as [|Hgt]; [done|]. exfalso.
  assert (2 ^ Zdigits2 m <= 2 ^ n)%Z by (apply Z.pow_le_mono_r; lia). lia.
Qed.

(** Halfway between [m] and [m + 1]. *)
Definition halfway (m e : Z) : Q := scaled (2 * m + 1) (e - 1).
(** A record of a truncation holds the number [q] at exponent [e]: its mantissa is
    the integer part, its two flags say where the rest lies. *)
Definition holds (r : shr_record) (e : Z) (q : Q) : Prop :=
  (0 <= shr_m r)%Z /\ scaled (shr_m r) e <= q /\ q < scaled (shr_m r + 1) e
  /\ match shr_r r, shr_s r with
     | false, false => q == scaled (shr_m r) e
     | false, true => scaled (shr_m r) e < q /\ q < halfway (shr_m r) e
     | true, false => q == halfway (shr_m r) e
     | true, true => halfway (shr_m r) e < q
     end.

Lemma scaled_half (m e : Z) : scaled (2 * m) e == scaled m (e + 1).
Proof. rewrite scaled_shift by lia. by rewrite Z.mul_comm. Qed.

Lemma halfway_above (m e : Z) : scaled m e < halfway m e.
Proof. unfold halfway. replace e with (e - 1 + 1)%Z at 1 by lia. rewrite <-scaled_half. apply scaled_lt. lia. Qed.
Lemma halfway_below (m e : Z) : halfway m e < scaled (m + 1) e.
Proof. unfold halfway. replace e with (e - 1 + 1)%Z at 2 by lia. rewrite <-scaled_half. apply scaled_lt. lia. Qed.

(** Cut off or not. *)
Lemma holds_exact_or (r : shr_record) (e : Z) (q : Q) :
  holds r e q -> if shr_r r || shr_s r then scaled (shr_m r) e < q else q == scaled (shr_m r) e.
Proof.
  intros (_ & _ & _ & Hx). pose proof (halfway_above (shr_m r) e). destruct (shr_r r), (shr_s r); cbn; try done; try lra.
Qed.

Lemma shr_1_holds (r : shr_record) (e : Z) (q : Q) : holds r e q -> holds (shr_1 r) (e + 1) q.
Proof.
  intros Hr. pose proof (holds_exact_or r e q Hr) as Hx. destruct Hr as (Hm & Hl & Hu & _).
  destruct r as [m r s]. cbn [shr_m shr_r shr_s] in *.
  assert (forall k, scaled k (e + 1) == scaled (2 * k) e) as Hk by (intros k; symmetry; apply scaled_half).
  assert (forall k, halfway k (e + 1) == scaled (2 * k + 1) e) as Hh.
  { intros k. unfold halfway. by replace (e + 1 - 1)%Z with e by lia. }
  assert (exists k b, m = (2 * k + Z.b2z b)%Z /\ (0 <= k)%Z /\ shr_1 (Build_shr_record m r s) = Build_shr_record k b (r || s))
    as (k & b & -> & Hk0 & ->).
  { destruct m as [|[p|p|]|p]; [exists 0%Z, false|exists (Z.pos p), true|exists (Z.pos p), false|exists 0%Z, true|lia];
      (split_and!; [cbn [Z.b2z]; lia|lia|done]). }
  assert (scaled (2 * k) e <= scaled (2 * k + Z.b2z b) e) by (apply scaled_le; destruct b; cbn [Z.b2z]; lia).
  assert (scaled (2 * k + Z.b2z b + 1) e <= scaled (2 * (k + 1)) e) by (apply scaled_le; destruct b; cbn [Z.b2z]; lia).
  unfold holds. cbn [shr_m shr_r shr_s]. split_and!; [done|rewrite Hk; lra|rewrite Hk; lra|].
  destruct b, (r || s); cbn [Z.b2z] in *; rewrite ?Z.add_0_r in *; rewrite ?Hk, ?Hh; done.
Qed.

Lemma iter_shr_holds (n : positive) : forall (r : shr_record) (e : Z) (q : Q),
  holds r e q -> holds (SpecFloat.iter_pos shr_1 n r) (e + Z.pos n) q.
Proof.
  induction n as [n IH|n IH|]; intros r e q Hr; cbn [SpecFloat.iter_pos].
  - apply shr_1_holds in Hr. apply IH in Hr. apply IH in Hr.
    by replace (e + Z.pos (xI n))%Z with (e + 1 + Z.pos n + Z.pos n)%Z by lia.
  - apply IH in Hr. apply IH in Hr. by replace (e + Z.pos (xO n))%Z with (e + Z.pos n + Z.pos n)%Z by lia.
  - by apply shr_1_holds.
Qed.

(** The exponent is at most the one the result will have, so nothing was lost yet. *)
Definition fits (mx ex : Z) : Prop := (ex <= fexp64 (Zdigits2 mx + ex))%Z.

Lemma shr_fexp_holds (mx ex : Z) (lx : location) (q : Q) :
  holds (shr_record_of_loc mx lx) ex q -> fits mx ex ->
  exists r, shr_fexp 53 1024 mx ex lx = (r, fexp64 (Zdigits2 mx + ex)) /\ holds r (fexp64 (Zdigits2 mx + ex)) q.
Proof.
  intros Hh Hf. unfold fits in Hf. unfold shr_fexp. change (fexp 53 1024) with fexp64.
  set (e' := fexp64 (Zdigits2 mx + ex)) in *. destruct (e' - ex)%Z as [|n|n] eqn:Hn; [..|lia]; cbn [shr].
  - replace e' with ex by lia. eauto.
  - replace e' with (ex + Z.pos n)%Z by lia. eexists. split; [done|]. by apply iter_shr_holds.
Qed.

Lemma pow2_le (a b : Z) : (a <= b)%Z -> pow2 a <= pow2 b.
Proof.
  intros Hab. replace b with (a + (b - a))%Z by lia. rewrite pow2_add, (pow2_Z (b - a)) by lia.
  pose proof (pow2_pos a). assert (1 <= inject_Z (2 ^ (b - a))); [|nra].
  change 1 with (inject_Z 1). rewrite <-Zle_Qle. pose proof (Z.pow_pos_nonneg 2 (b - a)). lia.
Qed.

Lemma scaled_pow (k e : Z) : (0 <= k)%Z -> scaled (2 ^ k) e == pow2 (k + e).
Proof. intros Hk. unfold scaled. by rewrite pow2_add, (pow2_Z k). Qed.

(** A mantissa below [2^53] at a smaller exponent is below a full one. *)
Lemma scaled_below (m e E : Z) : (m < 2 ^ 53)%Z -> (e < E)%Z -> scaled m e < scaled (2 ^ 52) E.
Proof.
  intros Hm He. apply (Qlt_le_trans _ (scaled (2 ^ 53) e)); [by apply scaled_lt|].
  rewrite !scaled_pow by lia. apply pow2_le. lia.
Qed.

Lemma truncated_size (mx ex : Z) (lx : location) (r : shr_record) (q : Q) :
  holds (shr_record_of_loc mx lx) ex q -> fits mx ex -> holds r (fexp64 (Zdigits2 mx + ex)) q ->
  (0 <= shr_m r < 2 ^ 53)%Z /\ (emin64 < fexp64 (Zdigits2 mx + ex) -> 2 ^ 52 <= shr_m r)%Z.
Proof.
  intros Hh Hf (Hr0 & Hrl & Hru & _). unfold fits in Hf. set (e' := fexp64 (Zdigits2 mx + ex)) in *.
  assert (shr_m (shr_record_of_loc mx lx) = mx) as Hmx by (by destruct lx as [|[]]).
  destruct Hh as (H0 & Hl & Hu & _). rewrite Hmx in *. split.
  - split; [done|]. apply (scaled_lt _ _ e'). apply (Qle_lt_trans _ q); [done|].
    apply (Qlt_le_trans _ (scaled (mx + 1) ex)); [done|].
    apply (Qle_trans _ (scaled (2 ^ Zdigits2 mx) ex)).
    + apply scaled_le. destruct (Z.eq_dec mx 0%Z) as [->|]; [done|]. pose proof (Zdigits2_bounds mx). lia.
    + rewrite !scaled_pow; [apply pow2_le; unfold e', fexp64; lia|lia|]. destruct mx; cbn; lia.
  - intros He. assert (e' = Zdigits2 mx + ex - 53)%Z as He' by (unfold e', fexp64 in *; lia).
    assert (0 < mx)%Z as Hpos. { destruct (Z.eq_dec mx 0%Z) as [->|]; [|lia]. cbn in He'. lia. }
    destruct (Zdigits2_bounds mx Hpos) as (Hd & Hdl & _).
    assert (2 ^ 52 < shr_m r + 1)%Z; [|lia]. apply (scaled_lt _ _ e'). apply (Qle_lt_trans _ q); [|done].
    apply (Qle_trans _ (scaled mx ex)); [|done].
    apply (Qle_trans _ (scaled (2 ^ (Zdigits2 mx - 1)) ex)); [|by apply scaled_le].
    rewrite !scaled_pow by lia. apply pow2_le. lia.
Qed.

Lemma nearest_cases (r : shr_record) :
  let n := round_nearest_even (shr_m r) (loc_of_shr_record r) in
  (n = shr_m r \/ n = shr_m r + 1)%Z /\ (shr_r r = false -> n = shr_m r)
  /\ (shr_s r = false -> Z.even (shr_m r) = true -> n = shr_m r).
Proof.
  destruct r as [m [] []]; cbn; try (split_and!; [auto; fail|done..]).
  destruct (Z.even m); split_and!; auto; done.
Qed.

(** What the last step makes of a mantissa and an exponent. *)
Definition finish (n e : Z) : F64 :=
  match n with
  | Z0 => S754_zero false
  | Zpos m => if (e <=? 971)%Z then S754_finite false m e else S754_infinity false
  | Zneg _ => S754_nan
  end.

Lemma renormalize (n e : Z) :
  (0 <= n <= 2 ^ 53)%Z -> (emin64 <= e)%Z ->
  exists n' e', (let '(r, e2) := shr_fexp 53 1024 n e loc_Exact in
                 match shr_m r with Z0 => S754_zero false
                 | Zpos m => if (e2 <=? 1024 - 53)%Z then S754_finite false m e2 else S754_infinity false
                 | Zneg _ => S754_nan end) = finish n' e'
    /\ scaled n' e' == scaled n e /\ (e <= e')%Z
    /\ ((n < 2 ^ 53 /\ n' = n /\ e' = e) \/ (n' = 2 ^ 52))%Z.
Proof.
  intros Hn He. destruct (Z.eq_dec n (2 ^ 53)%Z) as [->|Hne].
  - exists (2 ^ 52)%Z, (e + 1)%Z. split; [|split; [|split; [lia|by right]]].
    + unfold shr_fexp. change (fexp 53 1024) with fexp64. change (Zdigits2 (2 ^ 53)) with 54%Z.
      replace (fexp64 (54 + e) - e)%Z with 1%Z by (unfold fexp64; lia). reflexivity.
    + rewrite <-scaled_half. done.
  - exists n, e. split; [|split; [done|split; [lia|left; split; [lia|done]]]].
    unfold shr_fexp. change (fexp 53 1024) with fexp64.
    assert (fexp64 (Zdigits2 n + e) - e <= 0)%Z as Hz.
    { assert (Zdigits2 n <= 53)%Z; [|unfold fexp64; lia].
      destruct (Z.eq_dec n 0%Z) as [->|]; [done|]. apply Zdigits2_le; lia. }
    destruct (fexp64 (Zdigits2 n + e) - e)%Z; [..|]; try lia; done.
Qed.

(** [n * 2^e] is a rounding of [q]: it is within one unit in the last place, no
    representable number lies between the two, and what is no further than halfway
    to the next number, which goes to the even side, is not rounded up. *)
Record near (q : Q) (n e : Z) : Prop := {
  near_mantissa : (0 <= n < 2 ^ 53)%Z;
  near_exponent : (emin64 <= e)%Z;
  near_full : (emin64 < e -> 2 ^ 52 <= n)%Z;
  near_above : scaled n e <= q + pow2 e;
  near_below : q < scaled n e + pow2 e;
  near_upper : forall M E, (0 <= M < 2 ^ 53)%Z -> (emin64 <= E)%Z -> q <= scaled M E -> scaled n e <= scaled M E;
  near_lower : forall M E, (0 <= M < 2 ^ 53)%Z -> (emin64 <= E)%Z -> scaled M E <= q -> scaled M E <= scaled n e;
  near_half : forall M E, (0 <= M < 2 ^ 53)%Z -> (emin64 <= E)%Z -> (emin64 < E -> 2 ^ 52 <= M)%Z ->
    q < halfway M E \/ (q == halfway M E /\ Z.even M = true) -> scaled n e <= scaled M E;
}.

Lemma scaled_succ (m e : Z) : scaled (m + 1) e == scaled m e + pow2 e.
Proof. unfold scaled. rewrite inject_Z_plus. ring. Qed.

Lemma scaled_at (M E e : Z) : (e <= E)%Z -> scaled M E == scaled (M * 2 ^ (E - e)) e.
Proof. intros He. rewrite <-scaled_shift by lia. by replace (e + (E - e))%Z with E by lia. Qed.

(** The truncation decides: what is no further than halfway stays. *)
Lemma nearest_half (r : shr_record) (e : Z) (q : Q) (M E : Z) :
  holds r e q -> (0 <= shr_m r < 2 ^ 53)%Z -> (emin64 < e -> 2 ^ 52 <= shr_m r)%Z -> (emin64 <= e)%Z ->
  (0 <= M < 2 ^ 53)%Z -> (emin64 <= E)%Z -> (emin64 < E -> 2 ^ 52 <= M)%Z -> scaled M E < q ->
  q < halfway M E \/ (q == halfway M E /\ Z.even M = true) ->
  e = E /\ shr_m r = M /\ round_nearest_even (shr_m r) (loc_of_shr_record r) = M.
Proof.
  intros Hh Hm Hf He HM HE HfE Hgt Hle. pose proof (halfway_below M E) as Hb.
  assert (q < scaled (M + 1) E) as Hlt by (destruct Hle as [|[]]; lra). destruct Hh as (_ & Hl & Hu & Hx).
  assert (e = E) as ->.
  { destruct (Z.lt_trichotomy e E) as [Hlt'|[|Hgt']]; [|done|]; exfalso.
    - assert (scaled (shr_m r + 1) e <= scaled M E); [|lra].
      apply (Qle_trans _ (scaled (2 ^ 53) e)); [apply scaled_le; lia|].
      apply (Qle_trans _ (scaled (2 ^ 52) E)); [|apply scaled_le, HfE; lia].
      rewrite !scaled_pow by lia. apply pow2_le. lia.
    - assert (scaled (M + 1) E <= scaled (shr_m r) e); [|lra].
      apply (Qle_trans _ (scaled (2 ^ 53) E)); [apply scaled_le; lia|].
      apply (Qle_trans _ (scaled (2 ^ 52) e)); [|apply scaled_le, Hf; lia].
      rewrite !scaled_pow by lia. apply pow2_le. lia. }
  assert (shr_m r = M) as HMr.
  { assert (shr_m r < M + 1)%Z by (apply (scaled_lt _ _ E); lra).
    assert (M < shr_m r + 1)%Z by (apply (scaled_lt _ _ E); lra). lia. }
  split; [done|]. split; [done|]. destruct (nearest_cases r) as (_ & Hr & Hev). rewrite HMr in *.
  destruct (shr_r r) eqn:Hrr; [|by apply Hr]. destruct Hle as [Hlt'|[Heq Heven]].
  - exfalso. destruct (shr_s r); lra.
  - apply Hev; [|done]. destruct (shr_s r); [exfalso; lra|done].
Qed.

Lemma round_near (mx ex : Z) (lx : location) (q : Q) :
  holds (shr_record_of_loc mx lx) ex q -> fits mx ex ->
  exists n e, binary_round_aux 53 1024 false mx ex lx = finish n e /\ near q n e.
Proof.
  intros Hh Hf. destruct (shr_fexp_holds mx ex lx q Hh Hf) as (r & Hr & Hq).
  destruct (truncated_size mx ex lx r q Hh Hf Hq) as (Hsize & Hfull).
  set (e1 := fexp64 (Zdigits2 mx + ex)) in *. assert (emin64 <= e1)%Z as He1 by (unfold e1, fexp64; lia).
  set (n1 := round_nearest_even (shr_m r) (loc_of_shr_record r)).
  destruct (nearest_cases r) as (Hn1 & Hdown & _). fold n1 in Hn1, Hdown.
  destruct (renormalize n1 e1) as (n & e & Hres & Hval & Hee & Hcase); [lia|done|].
  exists n, e. split.
  { unfold binary_round_aux. rewrite Hr. fold n1. exact Hres. }
  pose proof (holds_exact_or _ _ _ Hq) as Hx. pose proof (nearest_half r e1 q) as Hhalf. fold n1 in Hhalf.
  specialize (Hhalf) with (1 := Hq) (2 := Hsize) (3 := Hfull) (4 := He1).
  destruct Hq as (_ & Hl & Hu & Hx').
  assert (scaled n1 e1 <= q + pow2 e1 /\ q < scaled n1 e1 + pow2 e1) as (Ha & Hb).
  { rewrite scaled_succ in Hu. pose proof (pow2_pos e1). destruct Hn1 as [->| ->]; rewrite ?scaled_succ; lra. }
  pose proof (pow2_le e1 e Hee) as Hp.
  assert (forall M E, (0 <= M < 2 ^ 53)%Z -> (emin64 <= E)%Z -> q <= scaled M E -> scaled n e <= scaled M E) as Hup.
  { intros M E HM HE Hle. rewrite Hval. destruct (Z.le_gt_cases e1 E) as [HeE|HeE].
    + rewrite (scaled_at M E e1 HeE) in *. apply scaled_le. destruct (shr_r r || shr_s r) eqn:Hrs.
      * assert (shr_m r < M * 2 ^ (E - e1))%Z; [|lia]. apply (scaled_lt _ _ e1). lra.
      * apply orb_false_iff in Hrs as [Hrr _]. rewrite (Hdown Hrr). apply (scaled_le _ _ e1). lra.
    + exfalso. assert (scaled (2 ^ 52) e1 <= scaled (shr_m r) e1) by (apply scaled_le, Hfull; lia).
      pose proof (scaled_below M E e1 ltac:(lia) HeE). lra. }
  split; try done; try lra.
  - destruct Hcase as [(? & -> & _)| ->]; lia.
  - lia.
  - intros Hgt. destruct Hcase as [(? & -> & ->)| ->]; [|lia]. specialize (Hfull Hgt). lia.
  - intros M E HM HE Hle. rewrite Hval. apply (Qle_trans _ (scaled (shr_m r) e1)); [|apply scaled_le; lia].
    destruct (Z.le_gt_cases e1 E) as [HeE|HeE].
    + rewrite (scaled_at M E e1 HeE) in *. apply scaled_le.
      assert (M * 2 ^ (E - e1) < shr_m r + 1)%Z; [|lia]. apply (scaled_lt _ _ e1). lra.
    + apply Qlt_le_weak, (Qlt_le_trans _ (scaled (2 ^ 52) e1)); [apply scaled_below; lia|].
      apply scaled_le, Hfull. lia.
  - intros M E HM HE HfE Hle. destruct (Qlt_le_dec (scaled M E) q) as [Hgt|]; [|by apply Hup].
    destruct (Hhalf M E HM HE HfE Hgt Hle) as (<- & _ & Hn). rewrite Hval, Hn. lra.
Qed.

(** ** Numbers that are not negative *)

Definition nonneg (x : F64) : Prop :=
  match x with S754_zero _ => True | S754_finite false m e => canonical (Z.pos m) e | _ => False end.
Definition val (x : F64) : Q := match x with S754_finite s m e => scaled (cond_Zopp s (Z.pos m)) e | _ => 0 end.
Definition is_zero (x : F64) : Prop := match x with S754_zero _ => True | _ => False end.
(** The mantissa and exponent of such a number. *)
Definition mant (x : F64) : Z := match x with S754_finite _ m _ => Z.pos m | _ => 0%Z end.
Definition expo (x : F64) : Z := match x with S754_finite _ _ e => e | _ => emin64 end.

(** [x] is a correct rounding of [q]. *)
Definition rounded (q : Q) (x : F64) : Prop :=
  exists n e, near q n e /\ (x = finish n e \/ n = 0%Z /\ is_zero x).

Lemma scaled_0 (e : Z) : scaled 0 e == 0.
Proof. unfold scaled. ring. Qed.

Lemma nonneg_parts (x : F64) : nonneg x -> canonical (mant x) (expo x) /\ val x == scaled (mant x) (expo x).
Proof. by destruct x as [s| | |[] m e]. Qed.

Lemma scaled_nonneg (m e : Z) : (0 <= m)%Z -> 0 <= scaled m e.
Proof. intros Hm. apply (scaled_le 0 m e) in Hm. by rewrite scaled_0 in Hm. Qed.

Lemma val_nonneg (x : F64) : nonneg x -> 0 <= val x.
Proof. intros ((((H & _) & _) & _) & ->)%nonneg_parts. by apply scaled_nonneg. Qed.

Lemma zero_val (x : F64) : is_zero x -> nonneg x /\ val x == 0.
Proof. by destruct x. Qed.

Lemma canonical_exp_le (n e M E : Z) :
  (emin64 < e -> 2 ^ 52 <= n)%Z -> (0 <= M < 2 ^ 53)%Z -> (emin64 <= E)%Z -> scaled n e <= scaled M E -> (e <= E)%Z.
Proof.
  intros Hn HM HE Hle. destruct (Z.le_gt_cases e E) as [|Hgt]; [done|]. exfalso.
  pose proof (scaled_below M E e ltac:(lia) ltac:(lia)).
  assert (scaled (2 ^ 52) e <= scaled n e) by (apply scaled_le, Hn; lia). lra.
Qed.

Lemma finish_nonneg (q : Q) (n e : Z) :
  near q n e -> (e <= 971)%Z -> nonneg (finish n e) /\ val (finish n e) == scaled n e.
Proof.
  intros Hn He. destruct Hn as [Hm Hmin Hfull _ _ _ _]. destruct n as [|m|m]; [|..|lia].
  - split; [done|]. by rewrite scaled_0.
  - cbn. rewrite (proj2 (Z.leb_le e 971) He). done.
Qed.

(** A rounding of what is at most a representable number is at most that number, and
    exceeds the exact value by less than a unit in its last place. *)
Lemma rounded_below (q : Q) (x b : F64) :
  rounded q x -> nonneg b -> q <= val b ->
  nonneg x /\ val x <= val b /\ val x <= q + pow2 (expo b) /\ q < val x + pow2 (expo b).
Proof.
  intros (n & e & Hn & Hx) Hb Hq. destruct (nonneg_parts b Hb) as (((HM & HE) & _) & Hv). rewrite Hv in *.
  assert (scaled n e <= scaled (mant b) (expo b)) as Hle by (apply (near_upper _ _ _ Hn); lia || done).
  assert (e <= expo b)%Z as Hee by (apply (canonical_exp_le n e (mant b)); [apply (near_full _ _ _ Hn)|lia|lia|done]).
  pose proof (pow2_le _ _ Hee). pose proof (near_above _ _ _ Hn). pose proof (near_below _ _ _ Hn).
  destruct (finish_nonneg q n e Hn ltac:(lia)) as (Hf & Hvf).
  destruct Hx as [->|[-> [Hz Hz']%zero_val]]; [rewrite Hvf; split_and!; [done|lra..]|].
  rewrite Hz'. rewrite scaled_0 in *. split_and!; [done|lra..].
Qed.

(** What is at most halfway to the next number, on the even side, is not rounded up. *)
Lemma rounded_half (q : Q) (x b : F64) :
  rounded q x -> nonneg b ->
  q < halfway (mant b) (expo b) \/ (q == halfway (mant b) (expo b) /\ Z.even (mant b) = true) ->
  nonneg x /\ val x <= val b.
Proof.
  intros (n & e & Hn & Hx) Hb Hq. destruct (nonneg_parts b Hb) as (((HM & HE) & Hf) & Hv).
  assert (scaled n e <= scaled (mant b) (expo b)) as Hle by (apply (near_half _ _ _ Hn); first [lia|done]).
  assert (e <= expo b)%Z by (apply (canonical_exp_le n e (mant b)); [apply (near_full _ _ _ Hn)|lia|lia|done]).
  destruct (finish_nonneg q n e Hn ltac:(lia)) as (Hfin & Hvf).
  destruct Hx as [->|[-> [Hz Hz']%zero_val]]; rewrite Hv; [split; [done|lra]|]. split; [done|].
  rewrite scaled_0 in Hle. lra.
Qed.

(** A rounding of what is at least a representable number is at least that number. *)
Lemma rounded_above (q : Q) (x b : F64) :
  rounded q x -> nonneg x -> nonneg b -> val b <= q -> val b <= val x.
Proof.
  intros (n & e & Hn & Hx) Hx0 Hb Hq. destruct (nonneg_parts b Hb) as (((HM & HE) & _) & Hv). rewrite Hv in *.
  assert (scaled (mant b) (expo b) <= scaled n e) as Hle by (apply (near_lower _ _ _ Hn); lia || done).
  destruct Hx as [->|[-> [Hz Hz']%zero_val]].
  - destruct n as [|m|m]; cbn in *; [by rewrite scaled_0 in Hle| |by destruct (near_mantissa _ _ _ Hn)].
    destruct (e <=? 971)%Z; done.
  - rewrite scaled_0 in Hle. lra.
Qed.

(** What is representable is its own rounding. *)
Lemma rounded_id (x : F64) : nonneg x -> rounded (val x) x.
Proof.
  intros Hx. destruct (nonneg_parts x Hx) as (((Hm & He) & Hf) & Hv). exists (mant x), (expo x). split.
  - pose proof (pow2_pos (expo x)). split; try (intros; rewrite ?Hv in *; first [done|lia|lra]).
    intros M E HM HE HfE Hle. destruct (Qlt_le_dec (scaled M E) (val x)) as [Hgt|]; [|by rewrite <-Hv].
    destruct (nearest_half (Build_shr_record (mant x) false false) (expo x) (val x) M E) as (He' & Hm' & _); try done; try lia.
    { split; [by apply Hm|]. cbn. rewrite Hv, scaled_succ. split_and!; [lra|lra|done]. }
    cbn in Hm'. subst M E. lra.
  - destruct x as [s| | |[] m e]; try done; [by right|left]. cbn in *. by rewrite (proj2 (Z.leb_le e 971)) by lia.
Qed.

Lemma rounded_proper (p q : Q) (x : F64) : p == q -> rounded p x -> rounded q x.
Proof.
  intros Hpq (n & e & [H1 H2 H3 H4 H5 H6 H7 H8] & Hx). exists n, e. split; [|done].
  split; try done; [by rewrite <-Hpq|by rewrite <-Hpq|intros M E..].
  - rewrite <-Hpq. apply H6.
  - rewrite <-Hpq. apply H7.
  - rewrite <-Hpq. apply H8.
Qed.

(** An exactly representable result is computed exactly. *)
Lemma rounded_exact (x b : F64) : rounded (val b) x -> nonneg b -> nonneg x /\ val x == val b.
Proof.
  intros Hx Hb. destruct (rounded_below _ x b Hx Hb ltac:(lra)) as (Hx0 & Hle & _).
  split; [done|]. pose proof (rounded_above _ x b Hx Hx0 Hb ltac:(lra)). lra.
Qed.

(** ** The operations *)

Lemma rounded_aux (mx ex : Z) (lx : location) (q : Q) :
  holds (shr_record_of_loc mx lx) ex q -> fits mx ex -> rounded q (binary_round_aux 53 1024 false mx ex lx).
Proof. intros Hh Hf. destruct (round_near mx ex lx q Hh Hf) as (n & e & -> & Hn). exists n, e. eauto. Qed.

Lemma holds_exact (m e : Z) : (0 <= m)%Z -> holds (shr_record_of_loc m loc_Exact) e (scaled m e).
Proof.
  intros Hm. split; [done|]. split_and!; cbn; [lra| |done]. rewrite scaled_succ. pose proof (pow2_pos e). lra.
Qed.

Lemma iter_xO (m d : positive) :
  (Z.pos (Pos.iter xO m d) = Z.pos m * 2 ^ Z.pos d)%Z
  /\ (Z.pos (digits2_pos (Pos.iter xO m d)) = Z.pos (digits2_pos m) + Z.pos d)%Z.
Proof.
  induction d as [|d [IH1 IH2]] using Pos.peano_ind; [cbn; lia|].
  rewrite Pos.iter_succ. rewrite Pos2Z.inj_succ, Z.pow_succ_r by lia. cbn [digits2_pos].
  rewrite Pos2Z.inj_succ. split; [|lia]. rewrite Pos2Z.inj_xO. lia.
Qed.

Lemma shl_align_value (m : positive) (e e' : Z) :
  let '(m', e'') := shl_align m e e' in
  (e'' <= e')%Z /\ (e' <= e -> e'' = e')%Z /\ scaled (Z.pos m') e'' == scaled (Z.pos m) e
  /\ (Z.pos (digits2_pos m') + e'' = Z.pos (digits2_pos m) + e)%Z.
Proof.
  unfold shl_align. destruct (e' - e)%Z as [|d|d] eqn:Hd; [split_and!; first [done|lia]..|].
  destruct (iter_xO m d) as [Hv Hg]. split_and!; [lia|done| |lia].
  rewrite Hv, <-scaled_shift by lia. by replace (e' + Z.pos d)%Z with e by lia.
Qed.

Lemma rounded_round (m : positive) (e : Z) : rounded (scaled (Z.pos m) e) (binary_round 53 1024 false m e).
Proof.
  unfold binary_round. change (fexp 53 1024) with fexp64.
  pose proof (shl_align_value m e (fexp64 (Z.pos (digits2_pos m) + e))) as Ha.
  destruct (shl_align m e _) as [m' e']. destruct Ha as (Hle & _ & Hv & Hd).
  apply (rounded_proper (scaled (Z.pos m') e')); [done|]. apply rounded_aux; [by apply holds_exact|].
  unfold fits. change (Zdigits2 (Z.pos m')) with (Z.pos (digits2_pos m')). by rewrite Hd.
Qed.

Lemma rounded_zero (q : Q) (x : F64) : q == 0 -> is_zero x -> rounded q x.
Proof. intros Hq Hx. destruct (zero_val x Hx). apply (rounded_proper (val x)); [lra|]. by apply rounded_id. Qed.

Lemma rounded_normalize (m e : Z) : (0 <= m)%Z -> rounded (scaled m e) (binary_normalize 53 1024 m e false).
Proof.
  intros Hm. destruct m as [|m|m]; [|apply rounded_round|lia]. by apply rounded_zero; [apply scaled_0|].
Qed.

Lemma f64_of_Z_rounded (n : Z) : (0 <= n)%Z -> rounded (inject_Z n) (f64_of_Z n).
Proof.
  intros Hn. apply (rounded_proper (scaled n 0)); [unfold scaled; change (pow2 0) with 1; ring|].
  by apply rounded_normalize.
Qed.

(** The two mantissas at the smaller exponent. *)
Lemma aligned_add (mx my : positive) (ex ey : Z) (op : Z -> Z -> Z) (qop : Q -> Q -> Q) :
  (forall a b e, scaled (op a b) e == qop (scaled a e) (scaled b e)) -> Proper (Qeq ==> Qeq ==> Qeq) qop ->
  scaled (op (Z.pos (shl_align mx ex (Z.min ex ey)).1) (Z.pos (shl_align my ey (Z.min ex ey)).1)) (Z.min ex ey)
  == qop (scaled (Z.pos mx) ex) (scaled (Z.pos my) ey).
Proof.
  intros Hop Hp. rewrite Hop.
  pose proof (shl_align_value mx ex (Z.min ex ey)) as Hx. pose proof (shl_align_value my ey (Z.min ex ey)) as Hy.
  destruct (shl_align mx ex _) as [mx' ex'], (shl_align my ey _) as [my' ey']. cbn [fst].
  destruct Hx as (_ & Hx & Hvx & _), Hy as (_ & Hy & Hvy & _).
  rewrite Hx in Hvx by lia. rewrite Hy in Hvy by lia. by rewrite Hvx, Hvy.
Qed.

Lemma scaled_plus (a b e : Z) : scaled (a + b) e == scaled a e + scaled b e.
Proof. unfold scaled. rewrite inject_Z_plus. ring. Qed.
Lemma scaled_minus (a b e : Z) : scaled (a - b) e == scaled a e - scaled b e.
Proof. unfold scaled. replace (a - b)%Z with (a + - b)%Z by lia. rewrite inject_Z_plus, inject_Z_opp. ring. Qed.

Lemma f64_add_rounded (x y : F64) : nonneg x -> nonneg y -> rounded (val x + val y) (f64_add x y).
Proof.
  intros Hx Hy. unfold f64_add.
  destruct x as [sx| | |[] mx ex], y as [sy| | |[] my ey]; try done; cbn [SFadd].
  - apply rounded_zero; [done|]. by destruct sx, sy.
  - apply (rounded_proper (val (S754_finite false my ey))); [cbn; ring|by apply rounded_id].
  - apply (rounded_proper (val (S754_finite false mx ex))); [cbn; ring|by apply rounded_id].
  - cbn [cond_Zopp val]. eapply rounded_proper; [apply (aligned_add mx my ex ey Z.add Qplus scaled_plus _)|].
    apply rounded_normalize. lia.
Qed.

Lemma f64_sub_rounded (x y : F64) : nonneg x -> nonneg y -> val y <= val x -> rounded (val x - val y) (f64_sub x y).
Proof.
  intros Hx Hy Hle. unfold f64_sub.
  destruct x as [sx| | |[] mx ex], y as [sy| | |[] my ey]; try done; cbn [SFsub].
  - apply rounded_zero; [done|]. by destruct sx, sy.
  - exfalso. cbn in Hle. assert (scaled 0 ey < scaled (Z.pos my) ey) as H by (apply scaled_lt; lia).
    rewrite scaled_0 in H. lra.
  - apply (rounded_proper (val (S754_finite false mx ex))); [cbn; ring|by apply rounded_id].
  - cbn [cond_Zopp val] in *. pose proof (aligned_add mx my ex ey Z.sub Qminus scaled_minus _) as Hv.
    eapply rounded_proper; [exact Hv|]. apply rounded_normalize. apply (scaled_le _ _ (Z.min ex ey)).
    rewrite Hv, scaled_0. lra.
Qed.

Lemma scaled_mult (a b e e' : Z) : scaled (a * b) (e + e') == scaled a e * scaled b e'.
Proof. unfold scaled. rewrite inject_Z_mult, pow2_add. ring. Qed.

Lemma f64_mul_rounded (x y : F64) : nonneg x -> nonneg y -> rounded (val x * val y) (f64_mul x y).
Proof.
  intros Hx Hy. unfold f64_mul.
  destruct x as [sx| | |[] mx ex], y as [sy| | |[] my ey]; try done; cbn [SFmul];
    try (apply rounded_zero; [cbn; ring|done]).
  cbn [xorb val cond_Zopp]. eapply rounded_proper; [apply scaled_mult|].
  change (Z.pos mx * Z.pos my)%Z with (Z.pos (mx * my)). apply rounded_aux; [apply holds_exact; lia|].
  destruct Hx as ((Hmx & Hex) & Hfx), Hy as ((Hmy & Hey) & Hfy).
  assert (emin64 < ex \/ emin64 < ey -> 53 <= Zdigits2 (Z.pos (mx * my)))%Z as Hd.
  { intros Hc. apply (Zdigits2_ge _ 52); [lia| |lia]. rewrite Pos2Z.inj_mul. destruct Hc as [Hc|Hc].
    - specialize (Hfx Hc). nia.
    - specialize (Hfy Hc). nia. }
  assert (0 < Zdigits2 (Z.pos (mx * my)))%Z by (cbn; lia).
  unfold fits, fexp64, emin64 in *. lia.
Qed.

Lemma quotient_cmp (m d k f : Z) (q : Q) :
  (0 < d)%Z -> q * inject_Z d == scaled m f ->
  (scaled k f < q <-> (k * d < m)%Z) /\ (q < scaled k f <-> (m < k * d)%Z).
Proof.
  intros Hd Hq. assert (0 < inject_Z d) as Hd' by (change 0 with (inject_Z 0); rewrite <-Zlt_Qlt; lia).
  assert (scaled k f * inject_Z d == scaled (k * d) f) as Hk by (unfold scaled; rewrite inject_Z_mult; ring).
  split; rewrite (scaled_lt _ _ f), <-Hq, <-Hk; symmetry; by apply Qmult_lt_r.
Qed.

(** The quotient of the aligned mantissas, with what its remainder says. *)
Lemma quotient_holds (m d e : Z) (q : Q) :
  (0 <= m)%Z -> (0 < d)%Z -> q * inject_Z d == scaled m e ->
  holds (shr_record_of_loc (m / d) (new_location d (m mod d))) e q.
Proof.
  intros Hm Hd Hq. pose proof (Z.div_mod m d ltac:(lia)) as Hdm. pose proof (Z.mod_pos_bound m d Hd) as Hr.
  pose proof (fun k => quotient_cmp m d k e q Hd Hq) as He.
  assert (q * inject_Z d == scaled (2 * m) (e - 1)) as Hq2.
  { rewrite Hq, scaled_half. by replace (e - 1 + 1)%Z with e by lia. }
  pose proof (fun k => quotient_cmp (2 * m) d k (e - 1) q Hd Hq2) as Hh.
  assert (scaled (m / d) e <= q) as Hl by (apply Qnot_lt_le; intros H; apply He in H; nia).
  assert (q < scaled (m / d + 1) e) as Hu by (apply He; nia).
  assert ((m mod d <> 0)%Z -> scaled (m / d) e < q) as Hpos by (intros H; apply He; nia).
  assert ((m mod d = 0)%Z -> q == scaled (m / d) e) as Hzero.
  { intros H. apply Qle_antisym; [|done]. apply Qnot_lt_le. intros Hlt. apply He in Hlt. nia. }
  assert ((2 * (m mod d) < d)%Z -> q < halfway (m / d) e) as Hlow by (intros H; apply Hh; nia).
  assert ((d < 2 * (m mod d))%Z -> halfway (m / d) e < q) as Hhigh by (intros H; apply Hh; nia).
  assert ((2 * (m mod d) = d)%Z -> q == halfway (m / d) e) as Hmid.
  { intros H. apply Qle_antisym; apply Qnot_lt_le; intros Hlt; apply Hh in Hlt; nia. }
  assert (0 <= m / d)%Z by (apply Z.div_pos; lia).
  unfold holds, new_location, new_location_even, new_location_odd.
  destruct (Z.even d) eqn:Hev; destruct (Z.eqb_spec (m mod d) 0%Z) as [Hz|Hz]; cbn;
    try (split_and!; [done..|by apply Hzero]).
  - destruct (Z.compare_spec (2 * (m mod d)) d); cbn; split_and!; auto.
  - assert (2 * (m mod d) <> d)%Z by (intros H2; rewrite <-H2 in Hev; by rewrite Z.even_mul in Hev).
    destruct (Z.compare_spec (2 * (m mod d) + 1) d); cbn; split_and!; auto; first [apply Hlow|apply Hhigh]; lia.
Qed.

(** The quotient of two mantissas, the first shifted by [s], has enough digits. *)
Lemma quotient_digits (m d s : Z) :
  (0 < m -> 0 < d -> 0 <= s -> Zdigits2 m + s - Zdigits2 d <= Zdigits2 (m * 2 ^ s / d))%Z.
Proof.
  intros Hm Hd Hs. pose proof (Z.pow_pos_nonneg 2 s ltac:(lia) Hs) as Hp.
  destruct (Zdigits2_bounds m Hm) as (Hm1 & Hml & _), (Zdigits2_bounds d Hd) as (Hd1 & Hdl & Hdu).
  assert (2 ^ (Zdigits2 m - 1 + s) <= m * 2 ^ s)%Z as Hms.
  { rewrite Z.pow_add_r by lia. apply Z.mul_le_mono_nonneg_r; lia. }
  destruct (Z.eq_dec (m * 2 ^ s / d)%Z 0%Z) as [Hz|Hz].
  - rewrite Hz. cbn [Zdigits2]. apply Z.div_small_iff in Hz; [|lia].
    assert (Zdigits2 m - 1 + s + 1 <= Zdigits2 d)%Z; [apply Zdigits2_ge; lia|lia].
  - assert (0 < m * 2 ^ s / d)%Z as Hq by (pose proof (Z.div_pos (m * 2 ^ s)%Z d); lia).
    destruct (Zdigits2_bounds _ Hq) as (Hq1 & _).
    destruct (Z.le_gt_cases 0 (Zdigits2 m - 1 + s - Zdigits2 d)) as [Hge|]; [|lia].
    pose proof (Zdigits2_ge (m * 2 ^ s / d) (Zdigits2 m - 1 + s - Zdigits2 d) Hq) as Hk.
    assert (2 ^ (Zdigits2 m - 1 + s - Zdigits2 d) <= m * 2 ^ s / d)%Z; [|lia].
    apply Z.div_le_lower_bound; [done|].
    apply (Z.le_trans _ (2 ^ Zdigits2 d * 2 ^ (Zdigits2 m - 1 + s - Zdigits2 d))%Z); [apply Z.mul_le_mono_nonneg_r; lia|].
    rewrite <-Z.pow_add_r by lia. by replace (Zdigits2 d + (Zdigits2 m - 1 + s - Zdigits2 d))%Z with (Zdigits2 m - 1 + s)%Z by lia.
Qed.

Lemma scaled_quotient (m d s e ex ey : Z) :
  (0 < d)%Z -> (0 <= s)%Z -> ex = (e + s + ey)%Z -> scaled m ex / scaled d ey * inject_Z d == scaled (m * 2 ^ s) e.
Proof.
  intros Hd Hs ->. rewrite <-scaled_shift by done. unfold scaled. rewrite (pow2_add (e + s) ey). pose proof (pow2_pos ey).
  assert (0 < inject_Z d) by (change 0 with (inject_Z 0); rewrite <-Zlt_Qlt; lia). field. split; lra.
Qed.

Lemma div_core_rounded (mx my : positive) (ex ey : Z) :
  rounded (scaled (Z.pos mx) ex / scaled (Z.pos my) ey)
    (let '(m, e, l) := SFdiv_core_binary 53 1024 (Z.pos mx) ex (Z.pos my) ey in binary_round_aux 53 1024 false m e l).
Proof.
  unfold SFdiv_core_binary. change (fexp 53 1024) with fexp64.
  set (e' := Z.min _ _). set (s := (ex - ey - e')%Z). assert (0 <= s)%Z as Hs by (unfold s, e'; lia).
  assert (match s with Z0 => Z.pos mx | Z.pos _ => Z.shiftl (Z.pos mx) s | Z.neg _ => 0 end = Z.pos mx * 2 ^ s)%Z as ->.
  { destruct s as [|p|p]; [lia| |lia]. by rewrite Z.shiftl_mul_pow2. }
  destruct (Z.div_eucl (Z.pos mx * 2 ^ s) (Z.pos my)) as [k r] eqn:Hdiv.
  assert (k = Z.pos mx * 2 ^ s / Z.pos my /\ r = (Z.pos mx * 2 ^ s) mod Z.pos my)%Z as [-> ->]
    by (unfold Z.div, Z.modulo; by rewrite Hdiv).
  apply rounded_aux.
  - apply quotient_holds; [lia|lia|]. apply scaled_quotient; [lia|done|unfold s; lia].
  - pose proof (quotient_digits (Z.pos mx) (Z.pos my) s ltac:(lia) ltac:(lia) Hs).
    unfold fits, e', s, fexp64 in *. lia.
Qed.

Lemma f64_ratio_rounded (m d : positive) :
  rounded (inject_Z (Z.pos m) / inject_Z (Z.pos d)) (f64_ratio (N.pos m) (N.pos d)).
Proof.
  apply (rounded_proper (scaled (Z.pos m) 0 / scaled (Z.pos d) 0)); [|apply div_core_rounded].
  unfold scaled. change (pow2 0) with 1. by rewrite !Qmult_1_r.
Qed.

Lemma f64_div_rounded (x y : F64) : nonneg x -> nonneg y -> 0 < val y -> rounded (val x / val y) (f64_div x y).
Proof.
  intros Hx Hy Hpos. unfold f64_div. destruct y as [sy| | |[] my ey]; try done.
  destruct x as [sx| | |[] mx ex]; try done; cbn [SFdiv].
  { apply rounded_zero; [cbn in *; field; lra|done]. }
  cbn [xorb val cond_Zopp]. apply div_core_rounded.
Qed.

(** ** Exact results and order *)

Lemma rounded_rep (q : Q) (x : F64) (M E : Z) :
  rounded q x -> rep M E -> q == scaled M E -> nonneg x /\ val x == q.
Proof.
  intros (n & e & Hn & Hx) (HM & HE) Hq.
  assert (scaled n e <= scaled M E) as Hu by (apply (near_upper _ _ _ Hn); first [lia|lra]).
  assert (scaled M E <= scaled n e) as Hl by (apply (near_lower _ _ _ Hn); first [lia|lra]).
  assert (e <= E)%Z as He by (apply (canonical_exp_le n e M); [apply (near_full _ _ _ Hn)|lia|lia|done]).
  destruct (finish_nonneg q n e Hn ltac:(lia)) as [Hf Hv].
  destruct Hx as [->|[-> [Hz Hz']%zero_val]]; [split; [done|lra]|]. split; [done|]. rewrite scaled_0 in *. lra.
Qed.

Lemma f64_of_Z_exact (n : Z) : (0 <= n <= 2 ^ 53)%Z -> nonneg (f64_of_Z n) /\ val (f64_of_Z n) == inject_Z n.
Proof.
  intros Hn. pose proof (f64_of_Z_rounded n ltac:(lia)) as Hr. destruct (Z.eq_dec n (2 ^ 53)%Z) as [->|Hne].
  - apply (rounded_rep _ _ (2 ^ 52) 1 Hr); [by split|reflexivity].
  - apply (rounded_rep _ _ n 0 Hr); [by split; [lia|]|]. unfold scaled. change (pow2 0) with 1. ring.
Qed.

Lemma canonical_cmp (m e m' e' : Z) :
  canonical m e -> canonical m' e' ->
  match Z.compare e e' with Lt => scaled m e < scaled m' e' \/ m = 0%Z
  | Gt => scaled m' e' < scaled m e \/ m' = 0%Z | Eq => scaled m e ?= scaled m' e' = (m ?= m')%Z end.
Proof.
  intros ((Hm & He) & Hf) ((Hm' & He') & Hf'). destruct (Z.compare_spec e e') as [->|Hlt|Hgt].
  - destruct (Z.compare_spec m m') as [->|H|H]; [by apply Qeq_alt|by apply Qlt_alt, scaled_lt|by apply Qgt_alt, scaled_lt].
  - left. apply (Qlt_le_trans _ (scaled (2 ^ 52) e')); [apply scaled_below; lia|apply scaled_le, Hf'; lia].
  - left. apply (Qlt_le_trans _ (scaled (2 ^ 52) e)); [apply scaled_below; lia|apply scaled_le, Hf; lia].
Qed.

Lemma scaled_pos (m : positive) (e : Z) : 0 < scaled (Z.pos m) e.
Proof. rewrite <-(scaled_0 e). by apply scaled_lt. Qed.

(** The comparison is that of the numbers. *)
Lemma f64_cmp_val (x y : F64) : nonneg x -> nonneg y -> f64_cmp x y = Some (val x ?= val y).
Proof.
  intros Hx Hy. unfold f64_cmp.
  destruct x as [sx| | |[] mx ex], y as [sy| | |[] my ey]; try done; cbn [SFcompare val cond_Zopp]; f_equal; symmetry.
  - apply Qlt_alt, scaled_pos.
  - apply Qgt_alt, scaled_pos.
  - pose proof (canonical_cmp _ _ _ _ Hx Hy) as H. destruct (Z.compare ex ey); [exact H| |].
    + apply Qlt_alt. destruct H as [|]; [done|lia].
    + apply Qgt_alt. destruct H as [|]; [done|lia].
Qed.

Lemma SFleb_val (x y : F64) : nonneg x -> nonneg y -> SFleb x y = true <-> val x <= val y.
Proof.
  intros Hx Hy. unfold SFleb. fold (f64_cmp x y). rewrite f64_cmp_val by done.
  destruct (Qcompare_spec (val x) (val y)); (split; intros; [lra||done|done||(exfalso; lra)]).
Qed.

Lemma SFltb_val (x y : F64) : nonneg x -> nonneg y -> SFltb x y = true <-> val x < val y.
Proof.
  intros Hx Hy. unfold SFltb. fold (f64_cmp x y). rewrite f64_cmp_val by done.
  destruct (Qcompare_spec (val x) (val y)); (split; intros; [lra||done|done||(exfalso; lra)]).
Qed.

Lemma f64_min_val (x y : F64) :
  nonneg x -> nonneg y ->
  nonneg (f64_min x y) /\ val (f64_min x y) <= val x /\ val (f64_min x y) <= val y
  /\ (f64_min x y = x \/ f64_min x y = y).
Proof.
  intros Hx Hy. assert (f64_min x y = if SFltb y x then y else x) as -> by (by destruct x, y).
  destruct (SFltb y x) eqn:Hl.
  - apply SFltb_val in Hl; [|done..]. split_and!; [done|lra|lra|by right].
  - assert (~ val y < val x) by (rewrite <-SFltb_val by done; by rewrite Hl). split_and!; [done|lra|lra|by left].
Qed.

(** A rounding is a number or, past the largest one, infinite. *)
Lemma rounded_cases (q : Q) (x : F64) : rounded q x -> nonneg x \/ x = S754_infinity false.
Proof.
  intros (n & e & Hn & [->|[-> Hz]]); [|left; by destruct (zero_val x Hz)].
  destruct (Z.le_gt_cases e 971) as [He|He]; [left; by destruct (finish_nonneg q n e Hn He)|].
  destruct n as [|m|m]; [by left| |by destruct (near_mantissa _ _ _ Hn)].
  right. cbn. by rewrite (proj2 (Z.leb_gt e 971)) by lia.
Qed.

(** The relative error, away from the subnormal numbers. *)
Lemma rounded_relative (q : Q) (x : F64) :
  rounded q x -> nonneg x -> q == 0 \/ pow2 (-1022) <= q -> val x <= q * (1 + pow2 (-51)).
Proof.
  intros Hr Hx [Hq|Hq].
  { destruct (rounded_exact x f64_zero) as [_ Hv]; [by apply (rounded_proper q)|done|]. rewrite Hv, Hq. done. }
  destruct Hr as (n & e & Hn & Hxe). pose proof (near_lower _ _ _ Hn (2 ^ 52) emin64 ltac:(lia) ltac:(lia)) as Hlow.
  assert (scaled (2 ^ 52) emin64 == pow2 (-1022)) as Hmin by (by rewrite scaled_pow).
  assert (2 ^ 52 <= n)%Z as Hfull.
  { destruct (Z.le_gt_cases e emin64) as [He|He]; [|by apply (near_full _ _ _ Hn)].
    replace e with emin64 in * by (pose proof (near_exponent _ _ _ Hn); lia).
    apply (scaled_le _ _ emin64), Hlow. by rewrite Hmin. }
  assert (val x == scaled n e) as Hv.
  { destruct Hxe as [->|[-> _]]; [|lia]. destruct n as [|m|m]; [lia| |lia]. cbn in *. by destruct (e <=? 971)%Z. }
  pose proof (near_above _ _ _ Hn) as Ha. rewrite Hv.
  assert (pow2 e * inject_Z (2 ^ 52) <= scaled n e) as Hulp.
  { unfold scaled. rewrite Qmult_comm. apply Qmult_le_compat_r; [by rewrite <-Zle_Qle|]. pose proof (pow2_pos e). lra. }
  change (pow2 (-51)) with (1 # 2251799813685248). change (inject_Z (2 ^ 52)) with (4503599627370496 # 1) in Hulp.
  pose proof (scaled_nonneg n e ltac:(lia)). lra.
Qed.

Lemma one_val : nonneg f64_one /\ val f64_one == 1.
Proof. apply (f64_of_Z_exact 1). lia. Qed.
