(* ===== verification/RateLimit.v ===== *)
(** * The rate limiter of the ingest ([TokenBucket] of [ravn-server/src/state.rs])

  The bucket computes in [f64], and so does this model.  Whatever the clock does, a
  bucket never holds more than its capacity; over any sequence of requests what it
  lets through is bounded by its capacity, the refill of the time that passed, and
  the drift of rounding. *)

From Stdlib Require Import QArith Lqa.
From S2P Require Export Floats.
From S2P Require Import FloatFacts.

(** [std::time::Instant], in nanoseconds. *)
Abbreviation Instant := Z.
(** [Instant::duration_since], which saturates. *)
Definition duration_since (now earlier : Instant) : Z := Z.max 0 (now - earlier).

Record TokenBucket := mkTokenBucket {
  tb_capacity : F64;
  tb_tokens : F64;
  tb_refill_rate : F64;
  tb_last_refill : Instant;
}.

(** [TokenBucket::new]. *)
Definition bucket_new (capacity refill_rate : F64) (now : Instant) : TokenBucket :=
  {| tb_capacity := capacity; tb_tokens := capacity; tb_refill_rate := refill_rate; tb_last_refill := now |}.

(** [TokenBucket::consume]. *)
Definition consume (amount : F64) (now : Instant) (b : TokenBucket) : bool * TokenBucket :=
  let elapsed := as_secs_f64 (duration_since now (tb_last_refill b)) in
  let tokens := f64_min (f64_add (tb_tokens b) (f64_mul elapsed (tb_refill_rate b))) (tb_capacity b) in
  if SFleb amount tokens
  then (true, mkTokenBucket (tb_capacity b) (f64_sub tokens amount) (tb_refill_rate b) now)
  else (false, mkTokenBucket (tb_capacity b) tokens (tb_refill_rate b) now).

(** Requests at the given instants, in the order they take the lock: how many are
    let through. *)
Fixpoint bucket_run (times : list Instant) (b : TokenBucket) : nat * TokenBucket :=
  match times with
  | [] => (0, b)
  | now :: times =>
      let '(allowed, b) := consume f64_one now b in
      let '(n, b) := bucket_run times b in
      (if allowed then S n else n, b)
  end.

Local Open Scope Q_scope.

(** A configuration whose numbers are numbers, and not negative. *)
Definition bucket_ok (b : TokenBucket) : Prop :=
  nonneg (tb_capacity b) /\ nonneg (tb_refill_rate b) /\ nonneg (tb_tokens b) /\ val (tb_tokens b) <= val (tb_capacity b).

(** What a product or a sum of such numbers can be. *)
Definition float_upper (x : F64) : Prop := nonneg x \/ x = S754_infinity false \/ x = S754_nan.

Lemma rounded_upper (q : Q) (x : F64) : rounded q x -> float_upper x.
Proof. intros [H|H]%rounded_cases; [by left|right; by left]. Qed.

Lemma add_upper (x y : F64) : nonneg x -> float_upper y -> float_upper (f64_add x y).
Proof.
  intros Hx [Hy|[->| ->]]; [by eapply rounded_upper, f64_add_rounded| |].
  - right; left. by destruct x.
  - right; right. by destruct x.
Qed.

Lemma mul_upper (x y : F64) : float_upper x -> nonneg y -> float_upper (f64_mul x y).
Proof.
  intros [Hx|[->| ->]] Hy; [by eapply rounded_upper, f64_mul_rounded| |].
  - destruct y as [s| | |[] m e]; try done; [right; by right|right; by left].
  - right; right. by destruct y.
Qed.

Lemma min_upper (x c : F64) :
  float_upper x -> nonneg c -> nonneg (f64_min x c) /\ val (f64_min x c) <= val c
  /\ (nonneg x -> val (f64_min x c) <= val x).
Proof.
  intros Hx Hc. destruct Hx as [Hx|[->| ->]].
  - destruct (f64_min_val x c Hx Hc) as (H1 & H2 & H3 & _). done.
  - assert (f64_min (S754_infinity false) c = c) as -> by (by destruct c as [| | |[]]). split_and!; [done|lra|done].
  - cbn. split_and!; [done|lra|done].
Qed.

(** A duration below [2^63] nanoseconds, in seconds. *)
Definition real_seconds (d : Z) : Q := inject_Z d / inject_Z (10 ^ 9).

Lemma Q_of_Z_le (a b : Z) : (a <= b)%Z -> inject_Z a <= inject_Z b.
Proof. by rewrite <-Zle_Qle. Qed.

Lemma nanos_val (n : Z) :
  (0 <= n < 10 ^ 9)%Z ->
  let f := f64_div (f64_of_Z n) (f64_of_Z (10 ^ 9)) in
  nonneg f /\ val f <= 1 /\ val f <= real_seconds n * (1 + pow2 (-51)) /\ (val f == 0 \/ pow2 (-30) <= val f).
Proof.
  intros Hn f. destruct (f64_of_Z_exact n) as [Hx Hxv]; [lia|].
  destruct (f64_of_Z_exact (10 ^ 9)) as [Hg Hgv]; [lia|]. destruct one_val as [H1 H1v].
  pose proof (Q_of_Z_le 0 n ltac:(lia)) as Hlo. pose proof (Q_of_Z_le n (10 ^ 9) ltac:(lia)) as Hhi.
  change (inject_Z 0) with 0 in Hlo. unfold real_seconds. change (inject_Z (10 ^ 9)) with (1000000000 # 1) in *.
  assert (rounded (inject_Z n / (1000000000 # 1)) f) as Hf.
  { apply (rounded_proper (val (f64_of_Z n) / val (f64_of_Z (10 ^ 9)))); [by rewrite Hxv, Hgv|].
    apply f64_div_rounded; [done|done|rewrite Hgv; lra]. }
  assert (inject_Z n / (1000000000 # 1) == inject_Z n * (1 # 1000000000)) as Hq by reflexivity.
  destruct (rounded_below _ f f64_one Hf H1) as (Hf0 & Hf1 & _); [rewrite H1v; lra|].
  assert (n = 0%Z \/ 1 <= n)%Z as [->|Hpos] by lia.
  { destruct (rounded_exact f f64_zero) as [_ Hv]; [by apply (rounded_proper (inject_Z 0 / (1000000000 # 1)))|done|]. cbn [val f64_zero] in Hv.
    split_and!; [done|lra|rewrite Hv; done|by left]. }
  pose proof (Q_of_Z_le 1 n Hpos) as Hn1. change (inject_Z 1) with 1 in Hn1.
  split_and!; [done|lra| |right].
  - apply rounded_relative; [done|done|right]. apply (Qle_trans _ (1 # 1000000000)); [by vm_compute|lra].
  - assert (nonneg (f64_ratio 1 1073741824) /\ val (f64_ratio 1 1073741824) == pow2 (-30)) as [Hb Hbv]
      by (split; by vm_compute).
    rewrite <-Hbv. apply (rounded_above _ f _ Hf Hf0 Hb). rewrite Hbv.
    apply (Qle_trans _ (1 # 1000000000)); [by vm_compute|lra].
Qed.

Lemma as_secs_val (d : Z) :
  (0 <= d < 2 ^ 63)%Z -> nonneg (as_secs_f64 d) /\ val (as_secs_f64 d) <= real_seconds d * (1 + pow2 (-49)).
Proof.
  intros Hd. unfold as_secs_f64. destruct (f64_of_Z_exact (d / 10 ^ 9)) as [Hs Hsv].
  { split; [by apply Z.div_pos; lia|]. apply Z.div_le_upper_bound; lia. }
  pose proof (Z.mod_pos_bound d (10 ^ 9) ltac:(lia)) as Hm.
  destruct (nanos_val (d mod 10 ^ 9) Hm) as (Hf & Hf1 & Hfv & Hfc). set (f := f64_div _ _) in *.
  pose proof (f64_add_rounded _ _ Hs Hf) as Hr. set (x := f64_add _ _) in *.
  assert (0 <= d / 10 ^ 9 <= 2 ^ 50)%Z as Hq.
  { split; [apply Z.div_pos; lia|]. apply Z.div_le_upper_bound; lia. }
  pose proof (Q_of_Z_le _ _ (proj1 Hq)) as Hq0. pose proof (Q_of_Z_le _ _ (proj2 Hq)) as Hq1.
  destruct (f64_of_Z_exact (2 ^ 51)) as [HB HBv]; [lia|].
  assert (val (f64_of_Z (d / 10 ^ 9)) + val f <= val (f64_of_Z (2 ^ 51))) as Hle.
  { rewrite Hsv, HBv. change (inject_Z (2 ^ 51)) with (2251799813685248 # 1).
    change (inject_Z (2 ^ 50)) with (1125899906842624 # 1) in Hq1. lra. }
  destruct (rounded_below _ x _ Hr HB Hle) as (Hx & _). split; [done|].
  assert (real_seconds d == inject_Z (d / 10 ^ 9) + real_seconds (d mod 10 ^ 9)) as Hsec.
  { unfold real_seconds. rewrite (Z.div_mod d (10 ^ 9)) at 1 by lia. rewrite inject_Z_plus, inject_Z_mult. field. done. }
  pose proof (val_nonneg f Hf) as Hf0. change (inject_Z 0) with 0 in Hq0.
  assert (val x <= (val (f64_of_Z (d / 10 ^ 9)) + val f) * (1 + pow2 (-51))) as Hrel.
  { apply rounded_relative; [done|done|]. rewrite Hsv. assert (d / 10 ^ 9 = 0 \/ 1 <= d / 10 ^ 9)%Z as [H0|H1] by lia.
    - rewrite H0. destruct Hfc as [Hz|Hge]; [left; rewrite Hz; done|right].
      apply (Qle_trans _ (pow2 (-30))); [by vm_compute|]. change (inject_Z 0) with 0. lra.
    - right. pose proof (Q_of_Z_le _ _ H1) as H. change (inject_Z 1) with 1 in H.
      apply (Qle_trans _ 1); [by vm_compute|lra]. }
  rewrite Hsv in Hrel. rewrite Hsec.
  change (pow2 (-51)) with (1 # 2251799813685248) in *. change (pow2 (-49)) with (1 # 562949953421312) in *. lra.
Qed.

Lemma as_secs_upper (d : Z) : (0 <= d)%Z -> float_upper (as_secs_f64 d).
Proof.
  intros Hd. unfold as_secs_f64. destruct (nanos_val (d mod 10 ^ 9)) as (Hf & _); [by apply Z.mod_pos_bound|].
  destruct (rounded_cases _ _ (f64_of_Z_rounded (d / 10 ^ 9) ltac:(by apply Z.div_pos))) as [Hs| ->].
  - apply add_upper; [done|by left].
  - right; left. by destruct (f64_div _ _).
Qed.

(** The tokens after the refill. *)
Definition refilled (now : Instant) (b : TokenBucket) : F64 :=
  f64_min (f64_add (tb_tokens b) (f64_mul (as_secs_f64 (duration_since now (tb_last_refill b))) (tb_refill_rate b)))
    (tb_capacity b).

Lemma refilled_ok (now : Instant) (b : TokenBucket) :
  bucket_ok b -> nonneg (refilled now b) /\ val (refilled now b) <= val (tb_capacity b).
Proof.
  intros (Hc & Hr & Ht & _). unfold refilled.
  assert (float_upper (f64_mul (as_secs_f64 (duration_since now (tb_last_refill b))) (tb_refill_rate b))) as Hm.
  { apply mul_upper; [|done]. apply as_secs_upper. unfold duration_since. lia. }
  by destruct (min_upper _ (tb_capacity b) (add_upper _ _ Ht Hm) Hc) as (H1 & H2 & _).
Qed.

Lemma consume_ok (now : Instant) (b : TokenBucket) : bucket_ok b -> bucket_ok (consume f64_one now b).2.
Proof.
  intros Hb. destruct (refilled_ok now b Hb) as [Ht Hle]. destruct one_val as [H1 H1v].
  destruct Hb as (Hc & Hr & _ & _). unfold consume. fold (refilled now b).
  destruct (SFleb f64_one (refilled now b)) eqn:Hl; unfold bucket_ok; cbn [snd tb_capacity tb_tokens tb_refill_rate];
    [|done]. apply SFleb_val in Hl; [|done..]. pose proof (f64_sub_rounded _ _ Ht H1 Hl) as Hs.
  destruct (rounded_below _ _ _ Hs Ht) as (Hs0 & Hs1 & _); [lra|]. split_and!; [done..|]. lra.
Qed.

(** What one request adds and takes, up to the unit in the last place of the
    capacity. *)
Lemma refill_inflow (now : Instant) (b : TokenBucket) :
  bucket_ok b -> (0 <= duration_since now (tb_last_refill b) < 2 ^ 63)%Z ->
  val (refilled now b) <= val (tb_tokens b)
    + val (tb_refill_rate b) * (real_seconds (duration_since now (tb_last_refill b)) * (1 + pow2 (-49)))
    + 2 * pow2 (expo (tb_capacity b)).
Proof.
  intros Hb Hd. pose proof (refilled_ok now b Hb) as [_ Hcap]. destruct Hb as (Hc & Hr & Ht & Htc).
  unfold refilled in *. set (d := duration_since now (tb_last_refill b)) in *.
  destruct (as_secs_val d Hd) as [He Hev]. pose proof (val_nonneg _ He). pose proof (val_nonneg _ Hr) as Hr0.
  pose proof (pow2_pos (expo (tb_capacity b))). pose proof (val_nonneg _ Ht).
  pose proof (f64_mul_rounded _ _ He Hr) as Hm. set (m := f64_mul _ _) in *. set (x := f64_add _ _) in *.
  assert (val (as_secs_f64 d) * val (tb_refill_rate b)
    <= val (tb_refill_rate b) * (real_seconds d * (1 + pow2 (-49)))) as Hflow.
  { rewrite (Qmult_comm (val (tb_refill_rate b))). by apply Qmult_le_compat_r. }
  destruct (Qlt_le_dec (val (tb_capacity b)) (val (as_secs_f64 d) * val (tb_refill_rate b))) as [Hbig|Hsmall]; [lra|].
  destruct (rounded_below _ m _ Hm Hc Hsmall) as (Hm0 & _ & Hmu & _).
  pose proof (f64_add_rounded _ _ Ht Hm0) as Hx. fold x in Hx.
  destruct (Qlt_le_dec (val (tb_capacity b)) (val (tb_tokens b) + val m)) as [Hover|Hfit]; [lra|].
  destruct (rounded_below _ x _ Hx Hc Hfit) as (Hx0 & _ & Hxu & _).
  destruct (f64_min_val x (tb_capacity b) Hx0 Hc) as (_ & Hmin & _). lra.
Qed.

Lemma consume_flow (now : Instant) (b : TokenBucket) :
  bucket_ok b -> (0 <= duration_since now (tb_last_refill b) < 2 ^ 63)%Z ->
  (if (consume f64_one now b).1 then 1 else 0) + val (tb_tokens (consume f64_one now b).2) <= val (tb_tokens b)
    + val (tb_refill_rate b) * (real_seconds (duration_since now (tb_last_refill b)) * (1 + pow2 (-49)))
    + 3 * pow2 (expo (tb_capacity b)).
Proof.
  intros Hb Hd. pose proof (refill_inflow now b Hb Hd) as Hin. destruct (refilled_ok now b Hb) as [Ht Hle].
  destruct one_val as [H1 H1v]. destruct Hb as (Hc & _). pose proof (pow2_pos (expo (tb_capacity b))).
  unfold consume. fold (refilled now b).
  destruct (SFleb f64_one (refilled now b)) eqn:Hl; cbn [fst snd tb_tokens]; [|lra].
  apply SFleb_val in Hl; [|done..]. pose proof (f64_sub_rounded _ _ Ht H1 Hl) as Hs.
  destruct (rounded_below _ _ _ Hs Hc) as (_ & _ & Hs2 & _); lra.
Qed.

(** The time the last of the instants is past the start. *)
Definition time_span (times : list Instant) (b : TokenBucket) : Z := (List.last times (tb_last_refill b) - tb_last_refill b)%Z.

(** The clock of a run does not go back and stays below [2^63]. *)
Fixpoint clock_ok (start : Instant) (times : list Instant) : Prop :=
  match times with [] => True | t :: l => (start <= t < 2 ^ 63)%Z /\ clock_ok t l end.

Lemma consume_same (amount : F64) (now : Instant) (b : TokenBucket) :
  tb_capacity (consume amount now b).2 = tb_capacity b /\ tb_refill_rate (consume amount now b).2 = tb_refill_rate b
  /\ tb_last_refill (consume amount now b).2 = now.
Proof. unfold consume. by destruct (SFleb _ _). Qed.

Lemma requests_capacity (times : list Instant) (b : TokenBucket) :
  tb_capacity (bucket_run times b).2 = tb_capacity b.
Proof.
  revert b. induction times as [|t times IH]; intros b; [done|]. cbn [bucket_run].
  pose proof (consume_same f64_one t b) as (H1 & _). destruct (consume f64_one t b) as [a b']. specialize (IH b').
  destruct (bucket_run times b') as [n b'']. cbn in *. by rewrite IH.
Qed.

Lemma seconds_plus (a b : Z) : real_seconds (a + b) == real_seconds a + real_seconds b.
Proof. unfold real_seconds. rewrite inject_Z_plus. field. done. Qed.

Lemma requests_flow (times : list Instant) (b : TokenBucket) :
  bucket_ok b -> (0 <= tb_last_refill b)%Z -> clock_ok (tb_last_refill b) times ->
  bucket_ok (bucket_run times b).2
  /\ inject_Z (Z.of_nat (bucket_run times b).1) + val (tb_tokens (bucket_run times b).2) <= val (tb_tokens b)
     + val (tb_refill_rate b) * (real_seconds (time_span times b) * (1 + pow2 (-49)))
     + inject_Z (Z.of_nat (length times)) * (3 * pow2 (expo (tb_capacity b))).
Proof.
  revert b. induction times as [|t times IH]; intros b Hb Hl Hc; cbn [bucket_run].
  - unfold time_span. cbn [List.last length]. rewrite Z.sub_diag. cbn [fst snd]. split; [done|].
    unfold real_seconds. change (inject_Z (Z.of_nat 0)) with 0. change (inject_Z 0) with 0. unfold Qdiv. lra.
  - destruct Hc as [Ht Hc]. pose proof (consume_ok t b Hb) as Hb'. pose proof (consume_same f64_one t b) as (H1 & H2 & H3).
    assert (duration_since t (tb_last_refill b) = t - tb_last_refill b)%Z as Hd by (unfold duration_since; lia).
    pose proof (consume_flow t b Hb ltac:(lia)) as Hf. rewrite Hd in Hf.
    destruct (consume f64_one t b) as [a b']. cbn [fst snd] in *.
    destruct (IH b' Hb' ltac:(lia) ltac:(by rewrite H3)) as (Hb'' & Hf').
    destruct (bucket_run times b') as [n b'']. cbn [fst snd] in *. split; [done|].
    rewrite H1, H2 in Hf'.
    assert (time_span (t :: times) b = (t - tb_last_refill b) + time_span times b')%Z as ->.
    { unfold time_span. rewrite H3. destruct times as [|u times]; [cbn; lia|].
      change (List.last (t :: u :: times) ?d) with (List.last (u :: times) d).
      assert (forall d d' : Z, List.last (u :: times) d = List.last (u :: times) d') as Hlast.
      { clear. intros d d'. revert u. induction times as [|v l IH]; intros u; [done|apply (IH v)]. }
      rewrite (Hlast (tb_last_refill b) t). lia. }
    rewrite seconds_plus. cbn [length]. rewrite Nat2Z.inj_succ, <-Z.add_1_l, inject_Z_plus. change (inject_Z 1) with 1.
    assert (inject_Z (Z.of_nat (if a then S n else n)) == (if a then 1 else 0) + inject_Z (Z.of_nat n)) as ->.
    { destruct a; [|ring]. rewrite Nat2Z.inj_succ, <-Z.add_1_l, inject_Z_plus. reflexivity. }
    nra.
Qed.

(** C33. The rate limiter limits: from a start with capacity [capacity] and rate [rate],
    both numbers that are not negative, any sequence of requests has let through at
    most the capacity, plus the rate times the seconds that have passed, plus three
    units in the last place of the capacity per request, which is what the rounding
    of binary64 can add; and the bucket still holds between nothing and its
    capacity. *)
Theorem rate_limit_bound (capacity rate : F64) (start : Instant) (times : list Instant) :
  nonneg capacity -> nonneg rate -> (0 <= start)%Z -> clock_ok start times ->
  let b := bucket_new capacity rate start in
  inject_Z (Z.of_nat (bucket_run times b).1)
  <= val capacity + val rate * (real_seconds (List.last times start - start) * (1 + pow2 (-49)))
     + inject_Z (Z.of_nat (length times)) * (3 * pow2 (expo capacity))
  /\ 0 <= val (tb_tokens (bucket_run times b).2) <= val capacity.
Proof.
  intros Hc Hr Hs Hk. cbv zeta. set (b := bucket_new capacity rate start).
  assert (bucket_ok b) as Hb by (split_and!; try done; cbn; lra).
  destruct (requests_flow times b Hb Hs Hk) as ((Hc' & _ & Ht & Htc) & Hf). cbn [b tb_tokens bucket_new tb_capacity] in Hf.
  pose proof (val_nonneg _ Ht). unfold time_span in Hf. cbn [b tb_last_refill tb_refill_rate bucket_new] in Hf.
  split; [lra|]. split; [done|].
  pose proof (requests_capacity times b) as Heq. cbn [b bucket_new tb_capacity] in Heq. by rewrite Heq in Htc.
Qed.

(** Ten tokens, five a second: twelve requests at once, then four after half a second. *)
Definition burst_times : list Instant := replicate 12 0%Z ++ replicate 4 500000000%Z.

Lemma rate_limit_bound_witness :
  (bucket_run burst_times (bucket_new (f64_of_Z 10) (f64_of_Z 5) 0)).1 = 12%nat
  /\ 0 <= val (tb_tokens (bucket_run burst_times (bucket_new (f64_of_Z 10) (f64_of_Z 5) 0)).2) <= val (f64_of_Z 10).
Proof.
  split; [vm_compute; reflexivity|].
  destruct (rate_limit_bound (f64_of_Z 10) (f64_of_Z 5) 0 burst_times) as [_ H];
    [by vm_compute|by vm_compute|lia|cbn; lia|exact H].
Defined.

(** A client that waited long enough for one token is served. *)
Theorem idle_is_served (now : Instant) (b : TokenBucket) :
  bucket_ok b -> 1 <= val (tb_capacity b) -> (0 <= duration_since now (tb_last_refill b) < 2 ^ 63)%Z ->
  1 <= val (as_secs_f64 (duration_since now (tb_last_refill b))) * val (tb_refill_rate b) ->
  (consume f64_one now b).1 = true.
Proof.
  intros Hb Hcap Hd Hwait. destruct (refilled_ok now b Hb) as [Hok _]. destruct Hb as (Hc & Hr & Ht & _).
  destruct one_val as [H1 H1v]. assert (1 <= val (refilled now b)) as Hge.
  { unfold refilled in *. destruct (as_secs_val _ Hd) as [He _]. pose proof (f64_mul_rounded _ _ He Hr) as Hm.
    set (m := f64_mul _ _) in *. set (x := f64_add _ _) in *. pose proof (val_nonneg _ Ht).
    assert (forall y, nonneg y -> 1 <= val y -> 1 <= val (f64_min y (tb_capacity b))) as Hmin.
    { intros y Hy Hy1. by destruct (f64_min_val y _ Hy Hc) as (_ & _ & _ & [-> | ->]). }
    assert (f64_min (S754_infinity false) (tb_capacity b) = tb_capacity b) as Hinf by (by destruct (tb_capacity b) as [| | |[]]).
    destruct (rounded_cases _ _ Hm) as [Hm0|Hm0].
    - assert (1 <= val m) by (rewrite <-H1v; apply (rounded_above _ m f64_one Hm Hm0 H1); rewrite H1v; lra).
      pose proof (f64_add_rounded _ _ Ht Hm0) as Hx. fold x in Hx.
      destruct (rounded_cases _ _ Hx) as [Hx0| ->]; [|by rewrite Hinf]. apply Hmin; [done|].
      rewrite <-H1v. apply (rounded_above _ x f64_one Hx Hx0 H1). rewrite H1v. lra.
    - assert (x = S754_infinity false) as -> by (unfold x; rewrite Hm0; by destruct (tb_tokens b)). by rewrite Hinf. }
  unfold consume. fold (refilled now b). rewrite <-H1v in Hge. apply SFleb_val in Hge; [|done..]. by rewrite Hge.
Qed.

(** A capacity that is not a number, which the configuration accepts, refuses every
    request for good. *)
Theorem nan_capacity_refuses (rate : F64) (start : Instant) (times : list Instant) :
  parse_f64 "nan" = Some S754_nan /\ (bucket_run times (bucket_new S754_nan rate start)).1 = 0%nat.
Proof.
  split; [reflexivity|]. revert start. induction times as [|t times IH]; intros start; [done|]. cbn [bucket_run].
  change (consume f64_one t (bucket_new S754_nan rate start)) with (false, bucket_new S754_nan rate t). cbv iota beta.
  specialize (IH t). by destruct (bucket_run times _).
Qed.
