(* ===== verification/ServerConfig.v ===== *)
(** * Start-up of the control plane ([ravn-server/src/config.rs], [main.rs])

  The configuration read from the environment, with the rules that make a partial
  configuration an error, and the loading of the JWKS documents, never over the
  network when air-gapped. [ServerBoot] starts the server on it.

  The environment is a function from names to values, a file read gives the text or
  the message of its error; the parser of socket addresses is a parameter. *)

From S2P Require Export Startup ApiAuth RateLimit.

(** ** Configuration *)

Inductive JwksSource := JwksUrl (url : string) | JwksFile (path : string).
Record PolicyConfig := mkPolicyConfig {
  pc_file : option string;
  pc_auto_enabled : bool;
  pc_auto_max : N;
  pc_auto_window_secs : N;
}.
Record OidcConfig := mkOidcConfig {
  oc_issuer : string;
  oc_jwks_source : JwksSource;
  oc_audience : string;
  oc_client_id : string;
  oc_groups_claim : string;
  oc_admin_group : option string;
  oc_viewer_group : option string;
  oc_scopes : string;
}.
Record InferenceConfig := mkInferenceConfig {
  ic_endpoint : string;
  ic_model : string;
  ic_api_key : option string;
  ic_timeout_secs : N;
}.
Record IngestAuthConfig := mkIngestAuthConfig {
  iac_issuer : string;
  iac_audience : string;
  iac_jwks_source : JwksSource;
}.
Record TokenReviewConfig := mkTokenReviewConfig {
  tr_api_url : string;
  tr_bearer : string;
  tr_ca_pem : option string;
  tr_audience : string;
}.
Record EnrollConfig := mkEnrollConfig {
  ec_bootstrap_token : string;
  ec_ca_cert_pem : string;
  ec_ca_key_pem : string;
  ec_cert_ttl_days : Z;
}.

Section Config.
Context {SocketAddr : Type}.
Variable parse_addr : string -> option SocketAddr.
Variable var : string -> option string.
Variable read_file : string -> result string string.

Record Config := mkConfig {
  cf_bind : SocketAddr;
  cf_log : string;
  cf_database_url : string;
  cf_nats_url : string;
  cf_admin_token : option string;
  cf_viewer_token : option string;
  cf_enroll : option EnrollConfig;
  cf_ingest_auth : option IngestAuthConfig;
  cf_ingest_token_review : option TokenReviewConfig;
  cf_inference : option InferenceConfig;
  cf_oidc : option OidcConfig;
  cf_command_key_path : option string;
  cf_command_previous_keys_dir : option string;
  cf_templates_dir : string;
  cf_command_ttl_secs : Z;
  cf_kb_dir : option string;
  cf_policy : PolicyConfig;
  cf_rate_limit_capacity : F64;
  cf_rate_limit_refill_rate : F64;
}.

#[local] Abbreviation token := (env_var var).
Definition fails {A} (msg : string) : result Chain A := Err [msg].
Definition read_context (what path : string) : result Chain string :=
  with_context ("reading " +:+ what +:+ " at " +:+ path) (map_err (fun e => [e]) (read_file path)).
(** A secret given inline or by the name of a file, whose text is trimmed. *)
Definition inline_or_file (inline file : string) : result Chain (option string) :=
  match token inline with
  | Some t => Ok (Some t)
  | None =>
      match token file with
      | Some path => (fun s => Some (trim s)) <$> read_context file path
      | None => Ok None
      end
  end.

Definition token_review_from_env : result Chain (option TokenReviewConfig) :=
  match token "RAVN_INGEST_TOKENREVIEW_URL" with
  | None => Ok None
  | Some api_url =>
      found ← inline_or_file "RAVN_INGEST_TOKENREVIEW_TOKEN" "RAVN_INGEST_TOKENREVIEW_TOKEN_FILE";
      bearer ← match found with
               | Some t => Ok t
               | None => fails "RAVN_INGEST_TOKENREVIEW_URL set but no credential — set RAVN_INGEST_TOKENREVIEW_TOKEN or _TOKEN_FILE"
               end;
      ca_pem ← match token "RAVN_INGEST_TOKENREVIEW_CA_FILE" with
               | Some path => Some <$> read_context "RAVN_INGEST_TOKENREVIEW_CA_FILE" path
               | None => Ok None
               end;
      Ok (Some {| tr_api_url := api_url; tr_bearer := bearer; tr_ca_pem := ca_pem;
                  tr_audience := default "ravn"%string (token "RAVN_INGEST_AUDIENCE") |})
  end.

Definition oidc_from_env : result Chain (option OidcConfig) :=
  match token "RAVN_OIDC_ISSUER" with
  | None => Ok None
  | Some issuer =>
      jwks_source ← match token "RAVN_OIDC_JWKS_URL", token "RAVN_OIDC_JWKS_FILE" with
                    | Some url, None => Ok (JwksUrl url)
                    | None, Some path => Ok (JwksFile path)
                    | Some _, Some _ => fails "set only one of RAVN_OIDC_JWKS_URL or RAVN_OIDC_JWKS_FILE"
                    | None, None => fails "RAVN_OIDC_ISSUER set but no JWKS source — set RAVN_OIDC_JWKS_URL or RAVN_OIDC_JWKS_FILE"
                    end;
      audience ← match token "RAVN_OIDC_AUDIENCE" with
                 | Some a => Ok a
                 | None => fails "RAVN_OIDC_ISSUER is set but RAVN_OIDC_AUDIENCE is not — set the expected token audience (the OIDC client id); audience validation must not be skipped"
                 end;
      Ok (Some {| oc_issuer := issuer; oc_jwks_source := jwks_source; oc_audience := audience;
                  oc_client_id := default audience (token "RAVN_OIDC_CLIENT_ID");
                  oc_groups_claim := default "groups"%string (token "RAVN_OIDC_GROUPS_CLAIM");
                  oc_admin_group := token "RAVN_OIDC_ADMIN_GROUP";
                  oc_viewer_group := token "RAVN_OIDC_VIEWER_GROUP";
                  oc_scopes := default "openid profile email groups"%string (token "RAVN_OIDC_SCOPES") |})
  end.

Definition inference_from_env : result Chain (option InferenceConfig) :=
  match token "RAVN_INFERENCE_ENDPOINT" with
  | None => Ok None
  | Some endpoint =>
      api_key ← inline_or_file "RAVN_INFERENCE_API_KEY" "RAVN_INFERENCE_API_KEY_FILE";
      Ok (Some {| ic_endpoint := endpoint; ic_model := default "default"%string (token "RAVN_INFERENCE_MODEL");
                  ic_api_key := api_key;
                  ic_timeout_secs := default 30%N (parsed parse_u64 (var "RAVN_INFERENCE_TIMEOUT_SECS")) |})
  end.

Definition ingest_auth_from_env : result Chain (option IngestAuthConfig) :=
  let issuer := token "RAVN_INGEST_OIDC_ISSUER" in
  jwks_source ← match token "RAVN_INGEST_OIDC_JWKS_URL", token "RAVN_INGEST_OIDC_JWKS_FILE" with
                | Some url, None => Ok (Some (JwksUrl url))
                | None, Some path => Ok (Some (JwksFile path))
                | Some _, Some _ => fails "set only one of RAVN_INGEST_OIDC_JWKS_URL or RAVN_INGEST_OIDC_JWKS_FILE"
                | None, None => Ok None
                end;
  match issuer, jwks_source with
  | None, None => Ok None
  | Some issuer, Some jwks_source =>
      Ok (Some {| iac_issuer := issuer; iac_audience := default "ravn"%string (token "RAVN_INGEST_AUDIENCE");
                  iac_jwks_source := jwks_source |})
  | _, _ => fails "incomplete ingest-auth config: set RAVN_INGEST_OIDC_ISSUER and one of RAVN_INGEST_OIDC_JWKS_URL / RAVN_INGEST_OIDC_JWKS_FILE (or none)"
  end.

Definition enroll_from_env : result Chain (option EnrollConfig) :=
  bootstrap ← inline_or_file "RAVN_ENROLL_TOKEN" "RAVN_ENROLL_TOKEN_FILE";
  match bootstrap, token "RAVN_CA_CERT", token "RAVN_CA_KEY" with
  | None, None, None => Ok None
  | Some bootstrap_token, Some cert_path, Some key_path =>
      ca_cert_pem ← read_context "RAVN_CA_CERT" cert_path;
      ca_key_pem ← read_context "RAVN_CA_KEY" key_path;
      Ok (Some {| ec_bootstrap_token := bootstrap_token; ec_ca_cert_pem := ca_cert_pem;
                  ec_ca_key_pem := ca_key_pem;
                  ec_cert_ttl_days := default 90%Z (parsed parse_i64 (var "RAVN_CERT_TTL_DAYS")) |})
  | _, _, _ => fails "incomplete enrollment config: set all of RAVN_ENROLL_TOKEN, RAVN_CA_CERT, RAVN_CA_KEY (or none)"
  end.

Definition policy_from_env : PolicyConfig :=
  {| pc_file := token "RAVN_POLICY_FILE";
     pc_auto_enabled := flag_set (var "RAVN_REMEDIATION_AUTO");
     pc_auto_max := N.max (default 5%N (parsed parse_u32 (var "RAVN_REMEDIATION_AUTO_MAX"))) 1;
     pc_auto_window_secs := N.max (default 300%N (parsed parse_u64 (var "RAVN_REMEDIATION_AUTO_WINDOW_SECS"))) 1 |}.

Definition from_env : result Chain Config :=
  let bind := default "0.0.0.0:8080"%string (var "RAVN_BIND") in
  bind ← with_context ("RAVN_BIND is not a valid socket address: " +:+ debug_str bind)
           (ok_or ["invalid socket address syntax"%string] (parse_addr bind));
  database_url ← ok_or ["DATABASE_URL must be set (PostgreSQL connection string)";
                        "environment variable not found"]%string (var "DATABASE_URL");
  enroll ← enroll_from_env;
  ingest_auth ← ingest_auth_from_env;
  ingest_token_review ← token_review_from_env;
  inference ← inference_from_env;
  oidc ← oidc_from_env;
  Ok {| cf_bind := bind; cf_log := default "info"%string (var "RAVN_LOG"); cf_database_url := database_url;
        cf_nats_url := default "nats://127.0.0.1:4222"%string (var "NATS_URL");
        cf_admin_token := token "RAVN_ADMIN_TOKEN"; cf_viewer_token := token "RAVN_VIEWER_TOKEN";
        cf_enroll := enroll; cf_ingest_auth := ingest_auth; cf_ingest_token_review := ingest_token_review;
        cf_inference := inference; cf_oidc := oidc;
        cf_command_key_path := token "RAVN_COMMAND_KEY";
        cf_command_previous_keys_dir := token "RAVN_COMMAND_PREVIOUS_KEYS_DIR";
        cf_templates_dir := default "templates"%string (token "RAVN_TEMPLATES_DIR");
        cf_command_ttl_secs := Z.max (default 300%Z (parsed parse_i64 (var "RAVN_COMMAND_TTL_SECS"))) 1;
        cf_kb_dir := token "RAVN_KB_DIR"; cf_policy := policy_from_env;
        cf_rate_limit_capacity := default (f64_of_Z 100) (parsed parse_f64 (var "RAVN_INGEST_RATE_LIMIT_CAPACITY"));
        cf_rate_limit_refill_rate := default (f64_of_Z 10) (parsed parse_f64 (var "RAVN_INGEST_RATE_LIMIT_REFILL_RATE")) |}.

Definition is_airgapped : bool := flag_set (var "RAVN_AIRGAPPED").
End Config.

(** ** Start-up ([main.rs]) *)

(** Decoding a JWKS document, its number of keys. *)
Class JwksJson `{Jwt} : Type := {
  jwks_from_str : string -> result string JwkSet;
  jwks_is_empty : JwkSet -> bool;
}.

Section Startup.
Context `{Jwt} `{!JwksJson}.
Variable var : string -> option string.
Variable read_file : string -> result string string.
(** The text at a URL, or the chain of the failure. *)
Variable http_get : string -> result Chain string.

(** [load_jwks], with the URLs it fetches. *)
Definition load_jwks (source : JwksSource) : result Chain string * list string :=
  match source with
  | JwksUrl url =>
      if is_airgapped var then
        (fails ("RAVN_AIRGAPPED=1 is set but JWKS source is a URL (" +:+ url
                +:+ "). In air-gapped mode all JWKS documents must be provided as local files (RAVN_OIDC_JWKS_FILE / RAVN_INGEST_OIDC_JWKS_FILE)."), [])
      else (http_get url, [url])
  | JwksFile path =>
      (with_context ("reading JWKS file " +:+ path) (map_err (fun e => [e]) (read_file path)), [])
  end.

(** The key set of [IngestAuth::new] and [UserAuth::new]. *)
Definition parse_jwks (json : string) : result Chain JwkSet :=
  jwks ← with_context "parsing OIDC JWKS" (map_err (fun e => [e]) (jwks_from_str json));
  if jwks_is_empty jwks then fails "OIDC JWKS contains no keys" else Ok jwks.

Definition build_ingest_auth (cfg : IngestAuthConfig) : result Chain IngestAuth * list string :=
  let (json, urls) := load_jwks (iac_jwks_source cfg) in
  (json ← json; jwks ← parse_jwks json;
   Ok {| ia_issuer := iac_issuer cfg; ia_audience := iac_audience cfg; ia_jwks := jwks |}, urls).
Definition build_user_auth (cfg : OidcConfig) : result Chain UserAuth * list string :=
  let (json, urls) := load_jwks (oc_jwks_source cfg) in
  (json ← json; jwks ← parse_jwks json;
   Ok {| ua_issuer := oc_issuer cfg; ua_audience := Some (oc_audience cfg); ua_jwks := jwks;
         ua_groups_claim := oc_groups_claim cfg; ua_admin_group := oc_admin_group cfg;
         ua_viewer_group := oc_viewer_group cfg |}, urls).
End Startup.

(** ** Facts *)

Section ConfigFacts.
Variable var : string -> option string.
Variable read_file : string -> result string string.
#[local] Abbreviation setting := (env_var var).

Lemma inline_or_file_spec inline file :
  match inline_or_file var read_file inline file with
  | Ok (Some s) => setting inline = Some s
      \/ setting inline = None /\ exists path txt, setting file = Some path /\ read_file path = Ok txt /\ s = trim txt
  | Ok None => setting inline = None /\ setting file = None
  | Err _ => setting inline = None /\ exists path e, setting file = Some path /\ read_file path = Err e
  end.
Proof.
  unfold inline_or_file, read_context. destruct (setting inline); [by left|].
  destruct (setting file) as [path|]; [|done]. destruct (read_file path) as [txt|e] eqn:Hr; cbn; [right|]; eauto 10.
Qed.

(** An unset name, a name set. *)
#[local] Abbreviation unset k := (setting k = None).
#[local] Abbreviation given k := (is_Some (setting k)).
#[local] Abbreviation unreadable k := (exists path e, setting k = Some path /\ read_file path = Err e).

Lemma enroll_from_env_spec :
  match enroll_from_env var read_file with
  | Ok (Some e) =>
      (exists cert key, setting "RAVN_CA_CERT" = Some cert /\ read_file cert = Ok (ec_ca_cert_pem e)
         /\ setting "RAVN_CA_KEY" = Some key /\ read_file key = Ok (ec_ca_key_pem e))
      /\ inline_or_file var read_file "RAVN_ENROLL_TOKEN" "RAVN_ENROLL_TOKEN_FILE" = Ok (Some (ec_bootstrap_token e))
  | Ok None => unset "RAVN_ENROLL_TOKEN" /\ unset "RAVN_ENROLL_TOKEN_FILE" /\ unset "RAVN_CA_CERT" /\ unset "RAVN_CA_KEY"
  | Err _ =>
      unreadable "RAVN_ENROLL_TOKEN_FILE" \/ unreadable "RAVN_CA_CERT" \/ unreadable "RAVN_CA_KEY"
      \/ ((given "RAVN_ENROLL_TOKEN" \/ given "RAVN_ENROLL_TOKEN_FILE" \/ given "RAVN_CA_CERT" \/ given "RAVN_CA_KEY")
          /\ ((unset "RAVN_ENROLL_TOKEN" /\ unset "RAVN_ENROLL_TOKEN_FILE") \/ unset "RAVN_CA_CERT" \/ unset "RAVN_CA_KEY"))
  end.
Proof.
  unfold enroll_from_env, read_context.
  pose proof (inline_or_file_spec "RAVN_ENROLL_TOKEN" "RAVN_ENROLL_TOKEN_FILE") as Hi.
  destruct (inline_or_file _ _ _ _) as [[t|]|e]; cbn.
  - assert (given "RAVN_ENROLL_TOKEN" \/ given "RAVN_ENROLL_TOKEN_FILE") as Hg by naive_solver.
    destruct (setting "RAVN_CA_CERT") as [cert|] eqn:Hc, (setting "RAVN_CA_KEY") as [key|] eqn:Hk; [|naive_solver..].
    destruct (read_file cert) as [cp|] eqn:Hrc; cbn; [|naive_solver].
    destruct (read_file key) as [kp|] eqn:Hrk; cbn; naive_solver.
  - destruct Hi as [Hi1 Hi2].
    destruct (setting "RAVN_CA_CERT") eqn:Hc, (setting "RAVN_CA_KEY") eqn:Hk; cbn; try (by split_and!);
      right; right; right; (split; [|by left]); rewrite ?Hc, ?Hk; eauto.
  - left. naive_solver.
Qed.

(** The two places a key set may come from. *)
Definition source_of (url file : string) (s : JwksSource) : Prop :=
  match s with
  | JwksUrl u => setting url = Some u /\ unset file
  | JwksFile p => setting file = Some p /\ unset url
  end.

Lemma ingest_auth_from_env_spec :
  match ingest_auth_from_env var with
  | Ok (Some c) => setting "RAVN_INGEST_OIDC_ISSUER" = Some (iac_issuer c)
      /\ source_of "RAVN_INGEST_OIDC_JWKS_URL" "RAVN_INGEST_OIDC_JWKS_FILE" (iac_jwks_source c)
  | Ok None => unset "RAVN_INGEST_OIDC_ISSUER" /\ unset "RAVN_INGEST_OIDC_JWKS_URL" /\ unset "RAVN_INGEST_OIDC_JWKS_FILE"
  | Err _ =>
      (given "RAVN_INGEST_OIDC_JWKS_URL" /\ given "RAVN_INGEST_OIDC_JWKS_FILE")
      \/ (given "RAVN_INGEST_OIDC_ISSUER" /\ unset "RAVN_INGEST_OIDC_JWKS_URL" /\ unset "RAVN_INGEST_OIDC_JWKS_FILE")
      \/ (unset "RAVN_INGEST_OIDC_ISSUER" /\ (given "RAVN_INGEST_OIDC_JWKS_URL" \/ given "RAVN_INGEST_OIDC_JWKS_FILE"))
  end.
Proof.
  unfold ingest_auth_from_env, source_of, fails.
  destruct (setting "RAVN_INGEST_OIDC_JWKS_URL") eqn:Hu, (setting "RAVN_INGEST_OIDC_JWKS_FILE") eqn:Hf,
    (setting "RAVN_INGEST_OIDC_ISSUER") eqn:Hi; cbn; rewrite ?Hu, ?Hf; naive_solver.
Qed.

Lemma oidc_from_env_spec :
  match oidc_from_env var with
  | Ok (Some c) => setting "RAVN_OIDC_ISSUER" = Some (oc_issuer c) /\ setting "RAVN_OIDC_AUDIENCE" = Some (oc_audience c)
      /\ source_of "RAVN_OIDC_JWKS_URL" "RAVN_OIDC_JWKS_FILE" (oc_jwks_source c)
  | Ok None => unset "RAVN_OIDC_ISSUER"
  | Err _ => given "RAVN_OIDC_ISSUER"
      /\ (unset "RAVN_OIDC_AUDIENCE" \/ (given "RAVN_OIDC_JWKS_URL" <-> given "RAVN_OIDC_JWKS_FILE"))
  end.
Proof.
  unfold oidc_from_env, source_of, fails. destruct (setting "RAVN_OIDC_ISSUER") eqn:Hi; [|done].
  destruct (setting "RAVN_OIDC_JWKS_URL") eqn:Hu, (setting "RAVN_OIDC_JWKS_FILE") eqn:Hf,
    (setting "RAVN_OIDC_AUDIENCE") eqn:Ha; cbn; rewrite ?Hu, ?Hf, ?is_Some_alt; naive_solver.
Qed.

Lemma policy_from_env_bounds :
  (1 <= pc_auto_max (policy_from_env var) < 2 ^ 32)%N
  /\ (1 <= pc_auto_window_secs (policy_from_env var) < 2 ^ 64)%N.
Proof.
  cbn. split.
  - assert (default 5 (parsed parse_u32 (var "RAVN_REMEDIATION_AUTO_MAX")) < 2 ^ 32)%N; [|lia].
    apply default_bounded; [done|]. unfold parsed. intros n Hn. case_match; [|done].
    apply parse_uint_bound in Hn. lia.
  - assert (default 300 (parsed parse_u64 (var "RAVN_REMEDIATION_AUTO_WINDOW_SECS")) < 2 ^ 64)%N; [|lia].
    apply default_bounded; [done|]. unfold parsed. intros n Hn. case_match; [|done].
    apply parse_uint_bound in Hn. lia.
Qed.

Lemma ttl_bounds :
  (1 <= Z.max (default 300 (parsed parse_i64 (var "RAVN_COMMAND_TTL_SECS"))) 1 < 2 ^ 63)%Z.
Proof.
  assert (default 300 (parsed parse_i64 (var "RAVN_COMMAND_TTL_SECS")) < 2 ^ 63)%Z; [|lia].
  apply default_bounded; [done|]. unfold parsed. intros n Hn. case_match; [|done].
  apply parse_i64_bound in Hn. lia.
Qed.

Context {SocketAddr : Type}.
Variable parse_addr : string -> option SocketAddr.

Lemma from_env_inv c :
  from_env parse_addr var read_file = Ok c ->
  enroll_from_env var read_file = Ok (cf_enroll c) /\ ingest_auth_from_env var = Ok (cf_ingest_auth c)
  /\ oidc_from_env var = Ok (cf_oidc c) /\ cf_policy c = policy_from_env var
  /\ cf_command_ttl_secs c = Z.max (default 300%Z (parsed parse_i64 (var "RAVN_COMMAND_TTL_SECS"))) 1
  /\ cf_admin_token c = setting "RAVN_ADMIN_TOKEN" /\ cf_viewer_token c = setting "RAVN_VIEWER_TOKEN".
Proof.
  unfold from_env. intros Hf. do 7 (apply bind_Ok_inv in Hf as (? & ? & Hf)). by injection Hf as <-.
Qed.

(** A partial configuration never starts the server: when the environment is
    accepted, enrollment is on exactly when its token, certificate and key are all
    given, authenticated ingest exactly when its issuer and one source of keys are,
    portal login exactly when its issuer is, and then with a non-empty audience and
    one source of keys; automation is on only when the kill switch says so; and the
    time to live, the cap and the window of the breaker are positive and fit their
    types. *)
Theorem config_all_or_nothing c :
  from_env parse_addr var read_file = Ok c ->
  (is_Some (cf_enroll c) <-> given "RAVN_ENROLL_TOKEN" \/ given "RAVN_ENROLL_TOKEN_FILE")
  /\ (is_Some (cf_enroll c) <-> given "RAVN_CA_CERT") /\ (is_Some (cf_enroll c) <-> given "RAVN_CA_KEY")
  /\ (is_Some (cf_ingest_auth c) <-> given "RAVN_INGEST_OIDC_ISSUER")
  /\ (forall i, cf_ingest_auth c = Some i ->
        source_of "RAVN_INGEST_OIDC_JWKS_URL" "RAVN_INGEST_OIDC_JWKS_FILE" (iac_jwks_source i))
  /\ (is_Some (cf_oidc c) <-> given "RAVN_OIDC_ISSUER")
  /\ (forall o, cf_oidc c = Some o -> setting "RAVN_OIDC_AUDIENCE" = Some (oc_audience o)
        /\ oc_audience o <> EmptyString
        /\ source_of "RAVN_OIDC_JWKS_URL" "RAVN_OIDC_JWKS_FILE" (oc_jwks_source o))
  /\ pc_auto_enabled (cf_policy c) = flag_set (var "RAVN_REMEDIATION_AUTO")
  /\ (1 <= cf_command_ttl_secs c < 2 ^ 63)%Z /\ (1 <= pc_auto_max (cf_policy c) < 2 ^ 32)%N
  /\ (1 <= pc_auto_window_secs (cf_policy c) < 2 ^ 64)%N.
Proof.
  intros (He & Hi & Ho & Hp & Ht & _)%from_env_inv.
  pose proof enroll_from_env_spec as Hes. rewrite He in Hes.
  pose proof (inline_or_file_spec "RAVN_ENROLL_TOKEN" "RAVN_ENROLL_TOKEN_FILE") as Htok.
  pose proof ingest_auth_from_env_spec as His. rewrite Hi in His.
  pose proof oidc_from_env_spec as Hos. rewrite Ho in Hos.
  pose proof policy_from_env_bounds as [Hb1 Hb2]. rewrite Hp, Ht.
  split_and!; try done; try apply ttl_bounds; try apply Hb1; try apply Hb2.
  1-3: destruct (cf_enroll c) as [e|].
  1,3,5: destruct Hes as [(? & ? & Hc & _ & Hk & _) Hin]; rewrite Hin in Htok; rewrite ?Hc, ?Hk;
    destruct Htok as [Ht'|[_ (? & ? & Ht' & _)]]; rewrite ?Ht'; split; eauto.
  1-3: destruct Hes as (H1 & H2 & H3 & H4); rewrite ?H1, ?H2, ?H3, ?H4; pose proof (@is_Some_None string);
    pose proof (@is_Some_None EnrollConfig); tauto.
  - destruct (cf_ingest_auth c); [destruct His as [-> _]; split; eauto|by destruct His as (-> & _); rewrite !is_Some_alt].
  - intros i Hc. rewrite Hc in His. apply His.
  - destruct (cf_oidc c); [destruct Hos as [-> _]; split; eauto|by rewrite Hos, !is_Some_alt].
  - intros o Hc. rewrite Hc in Hos. destruct Hos as (_ & Ha & Hs). split_and!; [done| |done].
    by apply env_var_Some in Ha as [_ Hne].
Qed.
End ConfigFacts.

Section StartupFacts.
Context `{Jwt} `{!JwksJson}.
Variable var : string -> option string.
Variable read_file : string -> result string string.
Variable http_get : string -> result Chain string.

Lemma load_jwks_airgapped source r l :
  is_airgapped var = true -> load_jwks var read_file http_get source = (r, l) -> l = [].
Proof. intros Ha. unfold load_jwks. destruct source; [rewrite Ha|]; by intros [= _ <-]. Qed.

Lemma build_user_auth_Ok cfg u l :
  build_user_auth var read_file http_get cfg = (Ok u, l) ->
  ua_issuer u = oc_issuer cfg /\ ua_audience u = Some (oc_audience cfg)
  /\ (is_airgapped var = true -> l = []).
Proof.
  unfold build_user_auth. destruct (load_jwks _ _ _ _) as [json l'] eqn:Hl. intros [= Hu <-].
  apply bind_Ok_inv in Hu as (? & _ & Hu). apply bind_Ok_inv in Hu as (? & _ & [= <-]).
  split_and!; [done..|]. intros Ha. by eapply load_jwks_airgapped.
Qed.

Lemma build_ingest_auth_Ok cfg u l :
  build_ingest_auth var read_file http_get cfg = (Ok u, l) -> is_airgapped var = true -> l = [].
Proof.
  unfold build_ingest_auth. destruct (load_jwks _ _ _ _) as [json l'] eqn:Hl. intros [= _ <-] Ha.
  by eapply load_jwks_airgapped.
Qed.

End StartupFacts.

(** ** Examples *)

Definition example_var (extra : list (string * string)) (k : string) : option string :=
  snd <$> find_first (fun p => String.eqb p.1 k)
    (extra ++ [("DATABASE_URL", "postgres://db"); ("RAVN_BIND", "127.0.0.1:1"); ("RAVN_CA_CERT", "ca.crt");
               ("RAVN_CA_KEY", "ca.key"); ("RAVN_OIDC_ISSUER", "https://idp"); ("RAVN_OIDC_AUDIENCE", "ravn");
               ("RAVN_OIDC_JWKS_FILE", "jwks.json"); ("RAVN_AIRGAPPED", "1")]%string).
Definition example_read (path : string) : result string string :=
  if String.eqb path "empty" then Ok newline else Ok path.
Definition example_env (extra : list (string * string)) : result Chain (@Config string) :=
  from_env (fun s => Some s) (example_var extra) example_read.

Lemma config_all_or_nothing_witness :
  exists c, example_env [("RAVN_ENROLL_TOKEN", "secret")]%string = Ok c
    /\ is_Some (cf_enroll c) /\ (1 <= cf_command_ttl_secs c < 2 ^ 63)%Z.
Proof.
  eexists. split; [reflexivity|]. split; [cbn; eauto|].
  apply (config_all_or_nothing (example_var [("RAVN_ENROLL_TOKEN", "secret")]%string) example_read
           (fun s => Some s)). reflexivity.
Defined.

(** A token file with nothing but white space enables enrollment with the empty
    token: the emptiness test is made on the name of the file, not on its text. *)
Theorem empty_token_file_enables_enrollment :
  exists c e, example_env [("RAVN_ENROLL_TOKEN_FILE", "empty")]%string = Ok c
    /\ cf_enroll c = Some e /\ ec_bootstrap_token e = EmptyString.
Proof. eexists _, _. split_and!; reflexivity. Qed.
