(* ===== verification/AgentConfig.v ===== *)
(** * Configuration of the agent ([ravn-agent/src/config.rs])

  The command line, the TOML file, the environment over it and the defaults below,
  with the bounds every value is put in; that remediation is opt-in and that no
  interval is zero.

  TOML parsing and UUID text are parameters, a path is its text; the nested tables of
  the file are one record here. *)

From S2P Require Export Startup AgentPull.

(** ** The file *)

Record FileDigest := mkFileDigest {
  fd_enable : option bool;
  fd_interval_secs : option N;
  fd_max_events : option N;
  fd_min_severity : option string;
}.
Record FileInference := mkFileInference {
  fi_enable : option bool;
  fi_endpoint : option string;
  fi_model : option string;
  fi_digest : FileDigest;
}.
Record FileDetection := mkFileDetection {
  fd_journald_enable : option bool;
  fd_journald_priority : option N;
  fd_auth_enable : option bool;
  fd_config_drift_paths : list string;
  fd_failed_units_enable : option bool;
  fd_failed_units_grace_secs : option N;
  fd_updates_enable : option bool;
}.
Record FileConfig := mkFileConfig {
  fc_server_url : option string;
  fc_log_level : option string;
  fc_detection : FileDetection;
  fc_inference : FileInference;
  fc_enrollment_endpoint : option string;
}.
Definition file_default : FileConfig :=
  {| fc_server_url := None; fc_log_level := None;
     fc_detection := {| fd_journald_enable := None; fd_journald_priority := None; fd_auth_enable := None;
                        fd_config_drift_paths := []; fd_failed_units_enable := None;
                        fd_failed_units_grace_secs := None; fd_updates_enable := None |};
     fc_inference := {| fi_enable := None; fi_endpoint := None; fi_model := None;
                        fi_digest := {| fd_enable := None; fd_interval_secs := None; fd_max_events := None;
                                        fd_min_severity := None |} |};
     fc_enrollment_endpoint := None |}.

(** ** The configuration *)

Record AgentConfig := mkAgentConfig {
  ac_server_url : string;
  ac_agent_id : Uuid;
  ac_host : string;
  ac_log : string;
  ac_journald_enable : bool;
  ac_journald_min_priority : N;
  ac_journald_skip_kernel : bool;
  ac_auth_enable : bool;
  ac_config_drift_paths : list string;
  ac_failed_units_enable : bool;
  ac_failed_units_grace_secs : N;
  ac_systemd_user_bus : bool;
  ac_updates_enable : bool;
  ac_nix_profile : string;
  ac_update_poll_secs : N;
  ac_inference_enable : bool;
  ac_inference_endpoint : string;
  ac_inference_model : string;
  ac_inference_timeout_secs : N;
  ac_digest_enable : bool;
  ac_digest_interval_secs : N;
  ac_digest_max_events : N;
  ac_digest_min_severity : Severity;
  ac_heartbeat_interval_secs : N;
  ac_buffer_path : string;
  ac_buffer_max : N;
  ac_enroll_endpoint : option string;
  ac_bootstrap_token : option string;
  ac_cred_dir : string;
  ac_remediation_enable : bool;
  ac_actuator_socket : string;
  ac_command_poll_secs : N;
  ac_api_token : option string;
}.

Fixpoint config_path_from_args (args : list string) : option string :=
  match args with
  | [] => None
  | arg :: rest =>
      if String.eqb arg "--config" then head rest
      else match strip_prefix "--config=" arg with
           | Some path => Some path
           | None => config_path_from_args rest
           end
  end.

Definition severity_from_str (s : string) : option Severity :=
  let s := to_ascii_lowercase (trim s) in
  if String.eqb s "info" then Some Info
  else if String.eqb s "notice" then Some Notice
  else if String.eqb s "warning" then Some Warning
  else if String.eqb s "error" then Some Error
  else if String.eqb s "critical" then Some Critical
  else None.

Definition is_path_sep (c : ascii) : bool := is_byte 44 c || is_byte 58 c.

Section Load.
Context `{UuidText}.
Variable var : string -> option string.
Variable read_file : string -> result string string.
Variable toml_from_str : string -> result string FileConfig.
(** [Uuid::now_v7], and the message of a failed [Uuid] parse. *)
Variable fresh_id : Uuid.
Variable uuid_error : string -> string.
#[local] Abbreviation env := (env_var var).

Definition env_bool (k : string) : option bool :=
  match env k with
  | Some v => let v := to_ascii_lowercase v in
              if truthy v then Some true else if falsy v then Some false else None
  | None => None
  end.

Definition bootstrap_token : option string :=
  match env "RAVN_BOOTSTRAP_TOKEN" with
  | Some tok => Some tok
  | None =>
      match env "CREDENTIALS_DIRECTORY" with
      | None => None
      | Some dir =>
          match read_file (dir +:+ "/bootstrap-token") with
          | Ok s => let s := trim s in if is_empty s then None else Some s
          | Err _ => None
          end
      end
  end.

Definition read_file_config (path : string) : result Chain FileConfig :=
  contents ← with_context ("reading config file " +:+ path) (map_err (fun e => [e]) (read_file path));
  with_context ("parsing config file " +:+ path) (map_err (fun e => [e]) (toml_from_str contents)).

(** A number from the environment, else from the file, else the default. *)
Definition number (parse : string -> option N) (k : string) (file : option N) (d : N) : N :=
  default d (or_else (parsed parse (env k)) file).
Definition boolean (k : string) (file : option bool) (d : bool) : bool := default d (or_else (env_bool k) file).
Definition text (k : string) (file : option string) (d : string) : string := default d (or_else (env k) file).

Definition load (args : list string) : result Chain AgentConfig :=
  file ← match config_path_from_args args with
         | Some path => read_file_config path
         | None => Ok file_default
         end;
  agent_id ← match env "RAVN_AGENT_ID" with
             | Some raw => with_context "RAVN_AGENT_ID is not a valid UUID"
                             (ok_or [uuid_error raw] (uuid_parse raw))
             | None => Ok fresh_id
             end;
  let det := fc_detection file in
  let inf := fc_inference file in
  let dig := fi_digest inf in
  Ok {|
    ac_server_url := text "RAVN_SERVER_URL" (fc_server_url file) "nats://127.0.0.1:14222";
    ac_agent_id := agent_id;
    ac_host := default "unknown"%string (or_else (env "RAVN_HOST") (env "HOSTNAME"));
    ac_log := text "RAVN_LOG" (fc_log_level file) "info";
    ac_journald_enable := boolean "RAVN_JOURNALD" (fd_journald_enable det) true;
    ac_journald_min_priority := N.min (number parse_u8 "RAVN_JOURNALD_PRIORITY" (fd_journald_priority det) 4) 7;
    ac_journald_skip_kernel := boolean "RAVN_JOURNALD_SKIP_KERNEL" None false;
    ac_auth_enable := boolean "RAVN_AUTH" (fd_auth_enable det) true;
    ac_config_drift_paths :=
      match env "RAVN_CONFIG_DRIFT_PATHS" with
      | Some raw => List.filter (fun s => negb (is_empty s)) (map trim (split_on is_path_sep raw))
      | None => fd_config_drift_paths det
      end;
    ac_failed_units_enable := boolean "RAVN_FAILED_UNITS" (fd_failed_units_enable det) true;
    ac_failed_units_grace_secs := number parse_u64 "RAVN_FAILED_UNITS_GRACE_SECS" (fd_failed_units_grace_secs det) 15;
    ac_systemd_user_bus := boolean "RAVN_SYSTEMD_USER_BUS" None false;
    ac_updates_enable := boolean "RAVN_UPDATES" (fd_updates_enable det) true;
    ac_nix_profile := text "RAVN_NIX_PROFILE" None "/nix/var/nix/profiles/system";
    ac_update_poll_secs := N.max (number parse_u64 "RAVN_UPDATE_POLL_SECS" None 30) 1;
    ac_inference_enable := boolean "RAVN_INFERENCE" (fi_enable inf) false;
    ac_inference_endpoint := text "RAVN_INFERENCE_ENDPOINT" (fi_endpoint inf) "http://127.0.0.1:18181";
    ac_inference_model := text "RAVN_INFERENCE_MODEL" (fi_model inf) "qwen3-1.7b-q4_k_m";
    ac_inference_timeout_secs := N.max (number parse_u64 "RAVN_INFERENCE_TIMEOUT_SECS" None 15) 1;
    ac_digest_enable := boolean "RAVN_DIGEST" (fd_enable dig) false;
    ac_digest_interval_secs := N.max (number parse_u64 "RAVN_DIGEST_INTERVAL_SECS" (fd_interval_secs dig) 3600) 1;
    ac_digest_max_events := N.max (number parse_u64 "RAVN_DIGEST_MAX_EVENTS" (fd_max_events dig) 100) 1;
    ac_digest_min_severity :=
      default Info (parsed severity_from_str (or_else (env "RAVN_DIGEST_MIN_SEVERITY") (fd_min_severity dig)));
    ac_heartbeat_interval_secs := N.max (number parse_u64 "RAVN_HEARTBEAT_SECS" None 15) 1;
    ac_buffer_path := text "RAVN_BUFFER_PATH" None
                        (match env "STATE_DIRECTORY" with
                         | Some dir => dir +:+ "/outbox.db" | None => "ravn-outbox.db" end);
    ac_buffer_max := number parse_u64 "RAVN_BUFFER_MAX" None 10000;
    ac_enroll_endpoint := or_else (env "RAVN_ENROLL_ENDPOINT") (fc_enrollment_endpoint file);
    ac_bootstrap_token := bootstrap_token;
    ac_cred_dir := default "ravn-credentials"%string
                     (or_else (env "RAVN_CRED_DIR") ((fun d => d +:+ "/credentials") <$> env "STATE_DIRECTORY"));
    ac_remediation_enable := boolean "RAVN_REMEDIATION" None false;
    ac_actuator_socket := text "RAVN_ACTUATOR_SOCKET" None "/run/ravn/actuator.sock";
    ac_command_poll_secs := N.max (number parse_u64 "RAVN_COMMAND_POLL_SECS" None 10) 1;
    ac_api_token := env "RAVN_API_TOKEN";
  |}.
End Load.

(** ** Facts *)

(** A file whose numbers fit the types they are decoded at. *)
Definition fits (max : N) (o : option N) : Prop := forall n, o = Some n -> (n <= max)%N.
Definition file_fits (f : FileConfig) : Prop :=
  fits (2 ^ 8 - 1) (fd_journald_priority (fc_detection f))
  /\ fits (2 ^ 64 - 1) (fd_failed_units_grace_secs (fc_detection f))
  /\ fits (2 ^ 64 - 1) (fd_interval_secs (fi_digest (fc_inference f)))
  /\ fits (2 ^ 64 - 1) (fd_max_events (fi_digest (fc_inference f))).

(** What every loaded configuration satisfies: intervals and batch sizes that are
    positive [u64]s, a syslog priority, no empty secret. *)
Definition positive_u64 (n : N) : Prop := (1 <= n < 2 ^ 64)%N.
Record config_ok (c : AgentConfig) : Prop := {
  ok_priority : (ac_journald_min_priority c <= 7)%N;
  ok_grace : (ac_failed_units_grace_secs c < 2 ^ 64)%N;
  ok_update_poll : positive_u64 (ac_update_poll_secs c);
  ok_inference_timeout : positive_u64 (ac_inference_timeout_secs c);
  ok_digest_interval : positive_u64 (ac_digest_interval_secs c);
  ok_digest_max : positive_u64 (ac_digest_max_events c);
  ok_heartbeat : positive_u64 (ac_heartbeat_interval_secs c);
  ok_command_poll : positive_u64 (ac_command_poll_secs c);
  ok_buffer_max : (ac_buffer_max c < 2 ^ 64)%N;
  ok_bootstrap : ac_bootstrap_token c <> Some EmptyString;
  ok_api_token : ac_api_token c <> Some EmptyString;
}.

Section LoadFacts.
Context `{UuidText}.
Variable var : string -> option string.
Variable read_file : string -> result string string.
Variable toml_from_str : string -> result string FileConfig.
Variable fresh_id : Uuid.
Variable uuid_error : string -> string.

Lemma number_u64 (k : string) (file : option N) (d : N) :
  (d < 2 ^ 64)%N -> fits (2 ^ 64 - 1) file -> (number var parse_u64 k file d < 2 ^ 64)%N.
Proof.
  intros Hd Hf. unfold number. apply (default_bounded (fun n => (n < 2 ^ 64)%N)); [done|].
  intros n [Hn|Hn]%or_else_Some.
  - unfold parsed in Hn. case_match; [|done]. apply parse_uint_bound in Hn. lia.
  - apply Hf in Hn. lia.
Qed.

Lemma number_clamped (k : string) (file : option N) (d : N) :
  (d < 2 ^ 64)%N -> fits (2 ^ 64 - 1) file -> positive_u64 (N.max (number var parse_u64 k file d) 1).
Proof. intros Hd Hf. pose proof (number_u64 k file d Hd Hf). unfold positive_u64. lia. Qed.

Lemma env_var_nonempty (k : string) : env_var var k <> Some EmptyString.
Proof. intros Hk%env_var_Some. naive_solver. Qed.

Lemma bootstrap_token_nonempty : bootstrap_token var read_file <> Some EmptyString.
Proof.
  unfold bootstrap_token. pose proof (env_var_nonempty "RAVN_BOOTSTRAP_TOKEN").
  destruct (env_var var "RAVN_BOOTSTRAP_TOKEN"); [done|]. destruct (env_var var _); [|done].
  destruct (read_file _) as [txt|]; [|done]. cbn. destruct (trim txt); done.
Qed.

Lemma fits_None (max : N) : fits max None.
Proof. done. Qed.
#[local] Hint Resolve number_clamped number_u64 fits_None : ravn.

Lemma env_bool_true (k : string) :
  env_bool var k = Some true <-> exists v, env_var var k = Some v /\ truthy (to_ascii_lowercase v) = true.
Proof.
  unfold env_bool. destruct (env_var var k) as [v|]; [|naive_solver].
  destruct (truthy (to_ascii_lowercase v)) eqn:Ht.
  - split; [|done]. by exists v.
  - split; [by destruct (falsy _)|]. intros (w & [= <-] & Hw). congruence.
Qed.

Lemma file_of_args args file :
  (forall txt f, toml_from_str txt = Ok f -> file_fits f) ->
  match config_path_from_args args with
  | Some path => read_file_config read_file toml_from_str path
  | None => Ok file_default
  end = Ok file -> file_fits file.
Proof.
  intros Ht. destruct (config_path_from_args args); [|by intros [= <-]].
  unfold read_file_config. destruct (read_file _) as [txt|]; [|done]. cbn.
  destruct (toml_from_str txt) eqn:Hf; [|done]. cbn. intros [= <-]. by eapply Ht.
Qed.

(** Loading the agent's configuration either fails, because the file named on the
    command line cannot be read or decoded or because [RAVN_AGENT_ID] is no UUID, or
    gives a configuration within its bounds: a syslog priority at most 7, every
    interval, timeout and digest size a positive [u64] whatever the environment and
    the file say, and no empty bootstrap or API token. Remediation is on exactly when
    [RAVN_REMEDIATION] is set to a spelling of true: neither the file nor a default
    enables it. *)
Theorem agent_config_bounded (args : list string)
    (Htoml : forall txt f, toml_from_str txt = Ok f -> file_fits f) :
  match load var read_file toml_from_str fresh_id uuid_error args with
  | Ok c => config_ok c
      /\ (ac_remediation_enable c = true
          <-> exists v, env_var var "RAVN_REMEDIATION" = Some v /\ truthy (to_ascii_lowercase v) = true)
  | Err _ =>
      (exists path, config_path_from_args args = Some path
         /\ forall txt, read_file path = Ok txt -> exists e, toml_from_str txt = Err e)
      \/ (exists raw, env_var var "RAVN_AGENT_ID" = Some raw /\ uuid_parse raw = None)
  end.
Proof.
  unfold load. set (r := match config_path_from_args args with Some _ => _ | None => _ end).
  destruct r as [file|e] eqn:Hr; subst r; cbn.
  - pose proof (file_of_args _ _ Htoml Hr) as (Hp & Hg & Hi & Hm).
    destruct (env_var var "RAVN_AGENT_ID") as [raw|] eqn:Hid; [destruct (uuid_parse raw) eqn:Hu|]; cbn;
      [|right; by eexists|]; (split; [split; cbn; auto using env_var_nonempty, bootstrap_token_nonempty with ravn; try lia|]).
    all: try (apply number_clamped; [done|auto with ravn]).
    all: try (apply number_u64; [done|auto with ravn]).
    all: unfold boolean; rewrite <- env_bool_true; destruct (env_bool var _) as [[]|]; cbn; naive_solver.
  - left. destruct (config_path_from_args args) as [path|]; [|done]. exists path. split; [done|].
    intros txt Hread. unfold read_file_config in Hr. rewrite Hread in Hr. cbn in Hr.
    destruct (toml_from_str txt) eqn:Ht; cbn in Hr; [done|]. by eexists.
Qed.
End LoadFacts.

(** ** Witness *)

(** A configuration read from an environment alone. *)
Definition load_env (var : string -> option string) : result Chain AgentConfig :=
  load var (fun _ => Err "not found"%string) (fun _ => Err "no TOML"%string) 7%N (fun _ => "bad UUID"%string)
    ["ravn-agent"]%string.
Definition config_of (var : string -> option string) (H : exists c, load_env var = Ok c) : AgentConfig :=
  match load_env var as r return (exists c, r = Ok c) -> AgentConfig with
  | Ok c => fun _ => c
  | Err e => fun H => match (let '(ex_intro _ c Hc) := H in eq_ind (Err e) (fun r => match r with Ok _ => False | Err _ => True end) I _ Hc) : False with end
  end H.


(** An environment that asks for remediation and for zero intervals. *)
Definition sample_env (k : string) : option string :=
  if String.eqb k "RAVN_REMEDIATION" then Some "Yes"%string
  else if one_of k ["RAVN_COMMAND_POLL_SECS"; "RAVN_HEARTBEAT_SECS"; "RAVN_DIGEST_MAX_EVENTS"]%string then Some "0"%string
  else if String.eqb k "RAVN_JOURNALD_PRIORITY" then Some "99"%string
  else None.
Definition sample_load : result Chain AgentConfig :=
  load sample_env (fun _ => Err "not found"%string) (fun _ => Err "no TOML"%string) 7%N (fun _ => "bad UUID"%string)
    ["ravn-agent"]%string.
Lemma sample_load_values :
  (fun c => (ac_remediation_enable c, ac_command_poll_secs c, ac_digest_max_events c, ac_journald_min_priority c))
    <$> sample_load = Ok (true, 1, 1, 7)%N.
Proof. vm_compute. reflexivity. Qed.

Lemma agent_config_bounded_witness :
  match sample_load with
  | Ok c => config_ok c
      /\ (ac_remediation_enable c = true
          <-> exists v, env_var sample_env "RAVN_REMEDIATION" = Some v /\ truthy (to_ascii_lowercase v) = true)
  | Err _ =>
      (exists path, config_path_from_args ["ravn-agent"]%string = Some path
         /\ forall txt, (Err "not found"%string : result string string) = Ok txt
             -> exists e, (Err "no TOML"%string : result string FileConfig) = Err e)
      \/ (exists raw, env_var sample_env "RAVN_AGENT_ID" = Some raw /\ uuid_parse raw = None)
  end.
Proof. apply agent_config_bounded. discriminate. Defined.
