(* ===== verification/Buffer.v ===== *)
(** * The agent's offline buffer ([ravn-agent/src/buffer.rs], [main.rs])

    The SQLite outbox: one row per event id with the time it was enqueued, pruned
    to a cap on every insertion, read back oldest first; and the flush that
    publishes what was read.  The abstract specification is a bounded first-in
    first-out queue; [buffer_refines_queue] is the refinement, for a clock that
    does not go back. *)

From stdpp Require Import sorting.
From S2P Require Export AgentPull Knowledge.

(** ** The table *)

Record OutboxRow := mkOutbox {
  ob_rowid : Z;
  ob_event_id : string;
  ob_message : string;
  ob_enqueued_at : Z;
}.
(** [serde_json] on messages. *)
Class MessageJson `{SerdeValue} : Type := {
  message_to_json : Message -> option string;
  message_from_json : string -> option Message;
}.

Section Outbox.
Context `{SerdeValue} `{!MessageJson} `{UuidText}.

(** The rows in insertion order, and the cap. *)
Record Buffer := mkBuffer { bf_rows : list OutboxRow; bf_max : N }.
Definition buffer_open (rows : list OutboxRow) (max : N) : Buffer := mkBuffer rows (N.max max 1).

(** SQLite gives a new row one more than the largest rowid. *)
Definition next_rowid (rows : list OutboxRow) : Z := 1 + foldr Z.max 0%Z (map ob_rowid rows).
(** [ORDER BY enqueued_at ASC, rowid ASC]. *)
Definition older (a b : OutboxRow) : bool :=
  (ob_enqueued_at a <? ob_enqueued_at b)%Z
  || ((ob_enqueued_at a =? ob_enqueued_at b)%Z && (ob_rowid a <=? ob_rowid b)%Z).
Fixpoint insert_by_age (r : OutboxRow) (l : list OutboxRow) : list OutboxRow :=
  match l with
  | [] => [r]
  | x :: l' => if older r x then r :: x :: l' else x :: insert_by_age r l'
  end.
Definition by_age (rows : list OutboxRow) : list OutboxRow := foldr insert_by_age [] rows.
(** [LIMIT]: a negative limit is no limit. *)
Definition sql_limit {A} (limit : Z) (l : list A) : list A :=
  if (limit <? 0)%Z then l else take (Z.to_nat limit) l.
Definition delete_ids (ids : list string) (rows : list OutboxRow) : list OutboxRow :=
  List.filter (fun r => negb (one_of (ob_event_id r) ids)) rows.

(** [INSERT OR IGNORE] on the primary key, then the pruning; the casts to [i64]
    wrap. *)
Definition insert_or_ignore (id json : string) (now : Z) (rows : list OutboxRow) : list OutboxRow :=
  if existsb (fun r => String.eqb (ob_event_id r) id) rows then rows
  else rows ++ [mkOutbox (next_rowid rows) id json now].
Definition prune (max : N) (rows : list OutboxRow) : list OutboxRow :=
  let excess := Z.max 0 (Z.of_nat (length rows) - wrap_i64 (Z.of_N max)) in
  delete_ids (map ob_event_id (sql_limit excess (by_age rows))) rows.
Definition buffer_enqueue (now : Z) (msg : Message) (b : Buffer) : result string Buffer :=
  match message_to_json msg with
  | None => Err "serializing message"%string
  | Some json =>
      let id := uuid_to_string (ev_id (msg_event msg)) in
      Ok (mkBuffer (prune (bf_max b) (insert_or_ignore id json now (bf_rows b))) (bf_max b))
  end.

(** The rows whose text parses are returned; the others are deleted. *)
Fixpoint parse_rows (rows : list OutboxRow) : list (string * Message) * list string :=
  match rows with
  | [] => ([], [])
  | r :: rows' =>
      let (out, bad) := parse_rows rows' in
      match message_from_json (ob_message r) with
      | Some m => ((ob_event_id r, m) :: out, bad)
      | None => (out, ob_event_id r :: bad)
      end
  end.
Definition drain_batch (n : N) (b : Buffer) : list (string * Message) * Buffer :=
  let (out, bad) := parse_rows (sql_limit (wrap_i64 (Z.of_N n)) (by_age (bf_rows b))) in
  (out, mkBuffer (delete_ids bad (bf_rows b)) (bf_max b)).
Definition buffer_delete (id : string) (b : Buffer) : Buffer :=
  mkBuffer (delete_ids [id] (bf_rows b)) (bf_max b).
Definition buffer_len (b : Buffer) : Z := Z.of_nat (length (bf_rows b)).

(** ** Delivery ([main.rs]) *)

(** The loop of [spawn_flush] over a drained batch, with the outcome of each
    publication; the first failure ends the batch. *)
Fixpoint flush_batch (batch : list (string * Message)) (publish : Message -> bool) (b : Buffer)
    : list Message * Buffer :=
  match batch with
  | [] => ([], b)
  | (id, m) :: batch' =>
      if publish m then
        let (sent, b) := flush_batch batch' publish (buffer_delete id b) in (m :: sent, b)
      else ([], b)
  end.
Definition flush (publish : Message -> bool) (b : Buffer) : list Message * Buffer :=
  let (batch, b) := drain_batch 100 b in flush_batch batch publish b.

(** A detected message: published, or buffered when the publication failed. *)
Definition deliver (publish : Message -> bool) (now : Z) (m : Message) (b : Buffer) : list Message * Buffer :=
  if publish m then ([m], b)
  else ([], match buffer_enqueue now m b with Ok b' => b' | Err _ => b end).
End Outbox.

(** ** The abstract queue *)

Abbreviation Queue := (list (string * string)).

Section QueueSpec.
Context `{SerdeValue} `{!MessageJson} `{UuidText}.

Definition fifo_enqueue (cap : nat) (id json : string) (q : Queue) : Queue :=
  let q := if bool_decide (id ∈ q.*1) then q else q ++ [(id, json)] in
  drop (length q - cap) q.
(** The first entries, those that parse; the others leave the queue. *)
Definition fifo_drain (n : nat) (q : Queue) : list (string * Message) * Queue :=
  (omap (fun e => m ← message_from_json e.2; Some (e.1, m)) (take n q),
   filter (fun e => is_Some (message_from_json e.2)) (take n q) ++ drop n q).
Definition fifo_delete (id : string) (q : Queue) : Queue := filter (fun e => e.1 <> id) q.

Inductive BufferOp :=
  | BEnqueue (now : Z) (m : Message)
  | BDrain (n : N)
  | BDelete (id : string).
Definition buffer_exec (op : BufferOp) (b : Buffer) : list (string * Message) * Buffer :=
  match op with
  | BEnqueue now m => ([], match buffer_enqueue now m b with Ok b' => b' | Err _ => b end)
  | BDrain n => drain_batch n b
  | BDelete id => ([], buffer_delete id b)
  end.
Definition fifo_exec (cap : nat) (op : BufferOp) (q : Queue) : list (string * Message) * Queue :=
  match op with
  | BEnqueue _ m =>
      ([], match message_to_json m with
           | Some json => fifo_enqueue cap (uuid_to_string (ev_id (msg_event m))) json q
           | None => q
           end)
  | BDrain n => fifo_drain (N.to_nat n) q
  | BDelete id => ([], fifo_delete id q)
  end.
Fixpoint buffer_run (ops : list BufferOp) (b : Buffer) : list (list (string * Message)) * Buffer :=
  match ops with
  | [] => ([], b)
  | op :: ops' =>
      let (out, b) := buffer_exec op b in
      let (outs, b) := buffer_run ops' b in (out :: outs, b)
  end.
Fixpoint fifo_run (cap : nat) (ops : list BufferOp) (q : Queue) : list (list (string * Message)) * Queue :=
  match ops with
  | [] => ([], q)
  | op :: ops' =>
      let (out, q) := fifo_exec cap op q in
      let (outs, q) := fifo_run cap ops' q in (out :: outs, q)
  end.
(** The clock does not go back, and a batch is asked for with an [i64]. *)
Fixpoint ops_ok (t : Z) (ops : list BufferOp) : Prop :=
  match ops with
  | [] => True
  | BEnqueue now _ :: ops' => (t <= now)%Z /\ ops_ok now ops'
  | BDrain n :: ops' => (n < 2 ^ 63)%N /\ ops_ok t ops'
  | BDelete _ :: ops' => ops_ok t ops'
  end.
End QueueSpec.

(** ** Refinement *)

Definition before (a b : OutboxRow) : Prop := (ob_enqueued_at a <= ob_enqueued_at b /\ ob_rowid a < ob_rowid b)%Z.
Definition rows_wf (t : Z) (rows : list OutboxRow) : Prop :=
  NoDup (map ob_event_id rows) /\ StronglySorted before rows /\ Forall (fun r => ob_enqueued_at r <= t)%Z rows.
Definition contents (rows : list OutboxRow) : Queue := map (fun r => (ob_event_id r, ob_message r)) rows.

Lemma contents_ids rows : (contents rows).*1 = map ob_event_id rows.
Proof. unfold contents. by rewrite <-list_fmap_compose. Qed.

Lemma by_age_sorted rows : StronglySorted before rows -> by_age rows = rows.
Proof.
  induction 1 as [|r rows Hs IH Hall]; [done|].
  change (by_age (r :: rows)) with (insert_by_age r (by_age rows)). rewrite IH.
  destruct rows as [|x rows]; [done|]. cbn. apply Forall_cons in Hall as [[Ht Hr] _].
  unfold older. destruct (Z.ltb_spec (ob_enqueued_at r) (ob_enqueued_at x)); [done|].
  rewrite (proj2 (Z.eqb_eq _ _)), (proj2 (Z.leb_le _ _)) by lia. done.
Qed.

Lemma delete_ids_elem ids rows r : r ∈ delete_ids ids rows <-> r ∈ rows /\ ob_event_id r ∉ ids.
Proof.
  unfold delete_ids. rewrite list_elem_of_In, filter_In, <-list_elem_of_In.
  by rewrite negb_true_iff, <-not_true_iff_false, one_of_elem.
Qed.

Lemma delete_ids_sublist ids rows : delete_ids ids rows `sublist_of` rows.
Proof.
  unfold delete_ids. induction rows as [|r rows IH]; cbn; [constructor|].
  destruct (negb _); [by apply sublist_skip|by apply sublist_cons].
Qed.

Lemma sublist_sorted rows rows' : rows' `sublist_of` rows -> StronglySorted before rows -> StronglySorted before rows'.
Proof.
  induction 1 as [|r k l Hsub IH|r k l Hsub IH]; intros Hs; [constructor| |].
  - apply StronglySorted_inv in Hs as [Hs Hall]. constructor; [auto|].
    rewrite Forall_forall in Hall |- *. intros x Hx. apply Hall. by eapply elem_of_sublist.
  - apply StronglySorted_inv in Hs as [Hs _]. auto.
Qed.

Lemma sublist_wf t rows rows' : rows' `sublist_of` rows -> rows_wf t rows -> rows_wf t rows'.
Proof.
  intros Hsub (Hnd & Hs & Hall). split_and!.
  - eapply sublist_NoDup; [exact Hnd|]. by apply fmap_sublist.
  - by eapply sublist_sorted.
  - rewrite Forall_forall in Hall |- *. intros r Hr. apply Hall. by eapply elem_of_sublist.
Qed.

Lemma delete_ids_cons_notin id ids rows :
  id ∉ map ob_event_id rows -> delete_ids (id :: ids) rows = delete_ids ids rows.
Proof.
  unfold delete_ids. induction rows as [|r rows IH]; [done|]. cbn [map].
  intros [Hne Hin]%not_elem_of_cons. cbn [List.filter]. rewrite (IH Hin). unfold one_of at 1. cbn.
  rewrite (proj2 (String.eqb_neq _ _)) by done. done.
Qed.

Lemma delete_oldest k rows :
  NoDup (map ob_event_id rows) -> delete_ids (map ob_event_id (take k rows)) rows = drop k rows.
Proof.
  revert k; induction rows as [|r rows IH]; intros [|k] Hnd; cbn [map take drop]; try done.
  - unfold delete_ids. clear. cbn. f_equal. induction rows as [|x rows IH]; cbn; [done|by rewrite IH].
  - apply NoDup_cons in Hnd as [Hr Hnd].
    trans (delete_ids (ob_event_id r :: map ob_event_id (take k rows)) rows).
    + unfold delete_ids, one_of. cbn [List.filter existsb]. by rewrite String.eqb_refl.
    + rewrite delete_ids_cons_notin by done. by apply IH.
Qed.

Lemma filter_eq_in {A} (P Q : A -> Prop) `{!forall x, base.Decision (P x), !forall x, base.Decision (Q x)} (l : list A) :
  (forall x, x ∈ l -> P x <-> Q x) -> filter P l = filter Q l.
Proof.
  induction l as [|x l IH]; intros Hpq; [done|]. rewrite !filter_cons.
  rewrite (decide_ext (P x) (Q x)) by (apply Hpq; set_solver). rewrite IH by set_solver. done.
Qed.

Lemma filter_all_in {A} (P : A -> Prop) `{!forall x, base.Decision (P x)} (l : list A) :
  (forall x, x ∈ l -> P x) -> filter P l = l.
Proof.
  induction l as [|x l IH]; intros Hp; [done|]. rewrite filter_cons_True by set_solver.
  by rewrite IH by set_solver.
Qed.

Lemma ids_inj {A B} (f : A -> B) (l : list A) (x y : A) :
  NoDup (map f l) -> x ∈ l -> y ∈ l -> f x = f y -> x = y.
Proof.
  induction l as [|z l IH]; cbn [map]; [set_solver|]. intros [Hz Hnd]%NoDup_cons.
  assert (forall w, w ∈ l -> f w ∈ map f l) as Hin by (intros w; apply list_elem_of_fmap_2).
  intros [->|Hx]%elem_of_cons [->|Hy]%elem_of_cons Heq; [done| | |by apply IH].
  - exfalso. apply Hz. rewrite Heq. auto.
  - exfalso. apply Hz. rewrite <-Heq. auto.
Qed.

Lemma contents_delete ids rows :
  contents (delete_ids ids rows) = filter (fun e => e.1 ∉ ids) (contents rows).
Proof.
  unfold delete_ids, contents. induction rows as [|r rows IH]; [done|]. cbn [List.filter map].
  rewrite filter_cons. cbn [fst]. destruct (one_of (ob_event_id r) ids) eqn:Ho; cbn [negb].
  - rewrite decide_False by (apply one_of_elem in Ho; tauto). exact IH.
  - rewrite decide_True by (rewrite <-one_of_elem, Ho; done). cbn [map]. by rewrite IH.
Qed.

Lemma wrap_i64_small z : (0 <= z < 2 ^ 63)%Z -> wrap_i64 z = z.
Proof. intros Hz. unfold wrap_i64. rewrite Z.mod_small by lia. lia. Qed.

Section Refinement.
Context `{SerdeValue} `{!MessageJson} `{UuidText}.

(** The buffer keeps its cap, with unique ids and the rows in the order of the
    clock. *)
Definition buffer_wf (t : Z) (b : Buffer) : Prop :=
  rows_wf t (bf_rows b) /\ (1 <= bf_max b < 2 ^ 63)%N /\ length (bf_rows b) <= N.to_nat (bf_max b).

Lemma outbox_insert_wf t now id json rows :
  (t <= now)%Z -> rows_wf t rows -> rows_wf now (insert_or_ignore id json now rows)
  /\ contents (insert_or_ignore id json now rows)
     = (if bool_decide (id ∈ (contents rows).*1) then contents rows else contents rows ++ [(id, json)]).
Proof.
  intros Ht (Hnd & Hs & Hall). unfold insert_or_ignore. rewrite contents_ids.
  assert (Forall (fun r => ob_enqueued_at r <= now)%Z rows) as Hall'
    by (eapply Forall_impl; [exact Hall|]; intros r; cbn; lia).
  destruct (existsb _ rows) eqn:He.
  - rewrite bool_decide_eq_true_2; [by split|]. apply existsb_elem_of in He as (r & Hr & Heq).
    apply String.eqb_eq in Heq as <-. apply list_elem_of_In, in_map, list_elem_of_In, Hr.
  - rewrite bool_decide_eq_false_2.
    2:{ intros Hin. apply not_true_iff_false in He. apply He, existsb_elem_of.
        apply list_elem_of_In, in_map_iff in Hin as (r & <- & Hr). exists r.
        rewrite list_elem_of_In, String.eqb_refl. done. }
    split; [|unfold contents; by rewrite map_app].
    split_and!.
    + rewrite map_app. apply NoDup_app. split_and!; [done| |apply NoDup_singleton].
      intros x Hx ->%list_elem_of_singleton. apply not_true_iff_false in He. apply He, existsb_elem_of.
      apply list_elem_of_In, in_map_iff in Hx as (r & Hr & Hin). exists r.
      cbn in Hr. rewrite list_elem_of_In, Hr, String.eqb_refl. done.
    + apply StronglySorted_app_2; [|done|by repeat constructor].
      intros x y Hx ->%list_elem_of_singleton. rewrite Forall_forall in Hall'. split; [by apply Hall'|].
      cbn. unfold next_rowid. assert (ob_rowid x <= foldr Z.max 0 (map ob_rowid rows))%Z; [|lia].
      clear -Hx. induction rows as [|r rows IH]; [set_solver|]. cbn.
      apply elem_of_cons in Hx as [->|Hx]; [lia|]. specialize (IH Hx). lia.
    + apply Forall_app_2; [done|]. by repeat constructor.
Qed.

Lemma prune_contents t max rows :
  rows_wf t rows -> (max < 2 ^ 63)%N ->
  prune max rows = drop (length rows - N.to_nat max) rows.
Proof.
  intros (Hnd & Hs & _) Hmax. unfold prune, sql_limit. rewrite by_age_sorted by done.
  rewrite wrap_i64_small by lia.
  destruct (Z.ltb_spec (Z.max 0 (Z.of_nat (length rows) - Z.of_N max)) 0); [lia|].
  rewrite delete_oldest by done. f_equal. lia.
Qed.

Lemma enqueue_refines t now m b :
  (t <= now)%Z -> buffer_wf t b ->
  let b' := (buffer_exec (BEnqueue now m) b).2 in
  buffer_wf now b' /\ bf_max b' = bf_max b
  /\ contents (bf_rows b') = (fifo_exec (N.to_nat (bf_max b)) (BEnqueue now m) (contents (bf_rows b))).2.
Proof.
  intros Ht (Hwf & Hmax & Hlen). cbn. unfold buffer_enqueue.
  destruct (message_to_json m) as [json|]; cbn.
  2:{ split_and!; [|done..]. split; [|done]. destruct Hwf as (? & ? & Hall). split_and!; [done..|].
      eapply Forall_impl; [exact Hall|]. intros r; cbn; lia. }
  set (id := uuid_to_string _).
  destruct (outbox_insert_wf t now id json (bf_rows b) Ht Hwf) as [Hwf' Hc].
  rewrite (prune_contents now) by (done || lia). split_and!; [|done|].
  - split; cbn; [eapply sublist_wf; [apply sublist_drop|done]|]. split; [done|]. rewrite length_drop. lia.
  - unfold fifo_enqueue. rewrite <-Hc. unfold contents. by rewrite length_map, <-skipn_map.
Qed.

Lemma parse_rows_spec rows :
  (parse_rows rows).1 = omap (fun e => m ← message_from_json e.2; Some (e.1, m)) (contents rows)
  /\ forall id, id ∈ (parse_rows rows).2 <->
       exists r, r ∈ rows /\ ob_event_id r = id /\ message_from_json (ob_message r) = None.
Proof.
  induction rows as [|r rows [IH1 IH2]]; [cbn; set_solver|]. cbn [parse_rows].
  destruct (parse_rows rows) as [out bad]. cbn in IH1, IH2. cbn [contents map].
  destruct (message_from_json (ob_message r)) as [m|] eqn:Hm; cbn; rewrite Hm; cbn.
  - split; [by rewrite IH1|]. intros id. rewrite IH2. set_solver.
  - split; [done|]. intros id. rewrite elem_of_cons, IH2. set_solver.
Qed.

Lemma drain_refines t n b :
  (n < 2 ^ 63)%N -> buffer_wf t b ->
  let r := buffer_exec (BDrain n) b in
  let q := fifo_exec (N.to_nat (bf_max b)) (BDrain n) (contents (bf_rows b)) in
  buffer_wf t r.2 /\ bf_max r.2 = bf_max b /\ r.1 = q.1 /\ contents (bf_rows r.2) = q.2.
Proof.
  intros Hn (Hwf & Hmax & Hlen). cbn. unfold drain_batch, sql_limit.
  rewrite by_age_sorted by apply Hwf. rewrite wrap_i64_small by lia.
  rewrite (proj2 (Z.ltb_ge _ _)) by lia.
  replace (Z.to_nat (Z.of_N n)) with (N.to_nat n) by lia.
  set (k := N.to_nat n). destruct (parse_rows_spec (take k (bf_rows b))) as [Hout Hbad].
  destruct (parse_rows (take k (bf_rows b))) as [out bad]. cbn in Hout, Hbad |- *. split_and!.
  - split_and!; cbn; [|apply Hmax..|].
    + eapply sublist_wf; [apply delete_ids_sublist|done].
    + eapply Nat.le_trans; [apply sublist_length, delete_ids_sublist|done].
  - done.
  - rewrite Hout. f_equal. unfold contents. symmetry. apply firstn_map.
  - rewrite contents_delete. rewrite <-(take_drop k (contents (bf_rows b))) at 1. rewrite filter_app.
    unfold contents. rewrite firstn_map, skipn_map. destruct Hwf as (Hnd & _). f_equal.
    + apply filter_eq_in. intros e (r & -> & Hr)%list_elem_of_fmap. cbn. rewrite Hbad.
      rewrite <-not_eq_None_Some. apply not_iff_compat. split; [|by eauto].
      intros (r' & Hr' & Hid & Hnone). assert (r' = r) as ->; [|done].
      eapply ids_inj; [exact Hnd|..|exact Hid]; eapply elem_of_sublist; eauto using sublist_take.
    + apply filter_all_in. intros e (r & -> & Hr)%list_elem_of_fmap. cbn. rewrite Hbad.
      intros (r' & Hr' & Hid & _). rewrite <-(take_drop k (bf_rows b)), map_app in Hnd.
      apply NoDup_app in Hnd as (_ & Hdisj & _). apply (Hdisj (ob_event_id r)).
      * rewrite <-Hid. by apply list_elem_of_fmap_2.
      * by apply list_elem_of_fmap_2.
Qed.

Lemma delete_refines t id b :
  buffer_wf t b ->
  let r := buffer_exec (BDelete id) b in
  let q := fifo_exec (N.to_nat (bf_max b)) (BDelete id) (contents (bf_rows b)) in
  buffer_wf t r.2 /\ bf_max r.2 = bf_max b /\ r.1 = q.1 /\ contents (bf_rows r.2) = q.2.
Proof.
  intros (Hwf & Hmax & Hlen). cbn. split_and!; [|done..|].
  - split_and!; cbn; [|apply Hmax..|].
    + eapply sublist_wf; [apply delete_ids_sublist|done].
    + eapply Nat.le_trans; [apply sublist_length, delete_ids_sublist|done].
  - rewrite contents_delete. apply filter_eq_in. intros e _. set_solver.
Qed.

Lemma run_refines t ops b :
  buffer_wf t b -> ops_ok t ops ->
  let r := buffer_run ops b in
  let q := fifo_run (N.to_nat (bf_max b)) ops (contents (bf_rows b)) in
  (exists t', buffer_wf t' r.2) /\ r.1 = q.1 /\ contents (bf_rows r.2) = q.2 /\ bf_max r.2 = bf_max b.
Proof.
  revert t b; induction ops as [|op ops IH]; intros t b Hwf Hok; cbn [buffer_run fifo_run].
  { split_and!; eauto. }
  assert (exists t', buffer_wf t' (buffer_exec op b).2 /\ ops_ok t' ops
    /\ bf_max (buffer_exec op b).2 = bf_max b
    /\ (buffer_exec op b).1 = (fifo_exec (N.to_nat (bf_max b)) op (contents (bf_rows b))).1
    /\ contents (bf_rows (buffer_exec op b).2)
       = (fifo_exec (N.to_nat (bf_max b)) op (contents (bf_rows b))).2) as (t' & Hwf' & Hok' & Hmax & Ho & Hc).
  { destruct op as [now m|n|id]; cbn [ops_ok] in Hok.
    - destruct (enqueue_refines t now m b) as (? & ? & ?); [tauto|done|]. exists now. split_and!; tauto.
    - destruct (drain_refines t n b) as (? & ? & ? & ?); [tauto|done|]. exists t. split_and!; tauto.
    - destruct (delete_refines t id b) as (? & ? & ? & ?); [done|]. exists t. split_and!; tauto. }
  specialize (IH t' _ Hwf' Hok'). rewrite Hmax, Hc in IH.
  destruct (buffer_exec op b) as [out b1], (fifo_exec _ op _) as [qout q1]. cbn in *.
  destruct (buffer_run ops b1) as [outs b2], (fifo_run _ ops q1) as [qouts q2]. cbn in *.
  destruct IH as (Ht & Hr & Hq & Hm). split_and!; [done|congruence|done|done].
Qed.

(** C29. The offline buffer is a bounded queue without duplicates: as long as the
    clock does not go back, any sequence of insertions, drains and deletions gives
    the answers of the abstract queue (a message already there is ignored, the
    oldest go when the cap is exceeded, a drain returns the first entries in order
    and drops those that do not parse) and ends with its contents, never more than
    the cap and no id twice. *)
Theorem buffer_refines_queue (t : Z) (ops : list BufferOp) (b : Buffer) :
  buffer_wf t b -> ops_ok t ops ->
  let r := buffer_run ops b in
  let q := fifo_run (N.to_nat (bf_max b)) ops (contents (bf_rows b)) in
  r.1 = q.1 /\ contents (bf_rows r.2) = q.2
  /\ length (bf_rows r.2) <= N.to_nat (bf_max b) /\ NoDup q.2.*1.
Proof.
  intros Hwf Hok. destruct (run_refines t ops b Hwf Hok) as ((t' & (Hnd & _) & _ & Hlen) & Ho & Hc & Hm).
  cbv zeta in *. rewrite Hm in Hlen. split_and!; [done..|]. by rewrite <-Hc, contents_ids.
Qed.
End Refinement.

(** ** The outbox drains *)

Section Drains.
Context `{SerdeValue} `{!MessageJson} `{UuidText}.

(** The messages that wait, oldest first. *)
Definition row_message (r : OutboxRow) : option Message := message_from_json (ob_message r).
Definition waiting (rows : list OutboxRow) : list Message := omap row_message rows.

(** A sequence of ticks of [spawn_flush], each with the outcomes of publication. *)
Fixpoint flush_run (ticks : list (Message -> bool)) (b : Buffer) : list Message * Buffer :=
  match ticks with
  | [] => ([], b)
  | publish :: ticks' =>
      let (sent, b) := flush publish b in
      let (sents, b) := flush_run ticks' b in (sent ++ sents, b)
  end.
(** The ticks at which the control plane is reachable throughout. *)
Inductive up_ticks : list (Message -> bool) -> nat -> Prop :=
  | up_nil : up_ticks [] 0
  | up_yes p ticks n : (forall m, p m = true) -> up_ticks ticks n -> up_ticks (p :: ticks) (S n)
  | up_any p ticks n : up_ticks ticks n -> up_ticks (p :: ticks) n.

Lemma delete_ids_app_rows ids rows1 rows2 :
  delete_ids ids (rows1 ++ rows2) = delete_ids ids rows1 ++ delete_ids ids rows2.
Proof. apply List.filter_app. Qed.

Lemma delete_ids_all ids rows : (forall r, r ∈ rows -> ob_event_id r ∉ ids) -> delete_ids ids rows = rows.
Proof.
  unfold delete_ids. induction rows as [|r rows IH]; intros Hn; [done|]. cbn [List.filter].
  rewrite IH by set_solver. destruct (one_of (ob_event_id r) ids) eqn:Ho; [|done].
  apply one_of_elem in Ho. exfalso. apply (Hn r); set_solver.
Qed.

Lemma parse_rows_good rows :
  NoDup (map ob_event_id rows) ->
  let good := filter (fun r => is_Some (row_message r)) rows in
  (parse_rows rows).1 = omap (fun r => m ← row_message r; Some (ob_event_id r, m)) good
  /\ delete_ids (parse_rows rows).2 rows = good.
Proof.
  intros Hnd. destruct (parse_rows_spec rows) as [Hout Hbad]. split.
  - rewrite Hout. clear. induction rows as [|r rows IH]; [done|]. unfold row_message in *. cbn [contents map omap list_omap].
    rewrite filter_cons. cbn [snd fst]. destruct (message_from_json (ob_message r)) as [m|] eqn:Hm; cbn.
    + rewrite decide_True by eauto. cbn. rewrite Hm. cbn. by rewrite <-IH.
    + rewrite decide_False by (intros []; done). exact IH.
  - remember (parse_rows rows).2 as bad eqn:Hb. clear Hb Hout.
    assert (forall r, r ∈ rows -> ob_event_id r ∈ bad <-> ~ is_Some (row_message r)) as Hin.
    { intros r Hr. rewrite Hbad, <-eq_None_not_Some. split; [|by eauto].
      intros (r' & Hr' & Hid & Hn). by rewrite <-(ids_inj ob_event_id rows r' r). }
    clear Hbad Hnd. unfold delete_ids. induction rows as [|r rows IH]; [done|]. cbn [List.filter].
    rewrite filter_cons, IH by set_solver. specialize (Hin r ltac:(set_solver)).
    destruct (one_of (ob_event_id r) bad) eqn:Ho; cbn [negb].
    + apply one_of_elem in Ho. by rewrite decide_False by tauto.
    + rewrite decide_True; [done|]. destruct (row_message r) eqn:Hm; [eauto|]. exfalso.
      apply not_true_iff_false in Ho. apply Ho, one_of_elem, Hin. intros []. done.
Qed.

(** The rows of a drained batch: those that parse, then the rest. *)
Definition drained (n : nat) (rows : list OutboxRow) : list OutboxRow :=
  filter (fun r => is_Some (row_message r)) (take n rows).

Lemma drain_rows t (n : N) b :
  (n < 2 ^ 63)%N -> buffer_wf t b ->
  drain_batch n b
  = (omap (fun r => m ← row_message r; Some (ob_event_id r, m)) (drained (N.to_nat n) (bf_rows b)),
     mkBuffer (drained (N.to_nat n) (bf_rows b) ++ drop (N.to_nat n) (bf_rows b)) (bf_max b)).
Proof.
  intros Hn ((Hnd & Hs & _) & _). unfold drain_batch, sql_limit. rewrite by_age_sorted by done.
  rewrite wrap_i64_small by lia. rewrite (proj2 (Z.ltb_ge _ _)) by lia.
  replace (Z.to_nat (Z.of_N n)) with (N.to_nat n) by lia. set (k := N.to_nat n).
  rewrite <-(take_drop k (bf_rows b)), map_app in Hnd. apply NoDup_app in Hnd as (Hnd & Hdisj & _).
  destruct (parse_rows_good (take k (bf_rows b)) Hnd) as [Ho Hd].
  destruct (parse_rows_spec (take k (bf_rows b))) as [_ Hbad].
  destruct (parse_rows (take k (bf_rows b))) as [out bad]. cbn in Ho, Hd, Hbad. subst out. f_equal. f_equal.
  rewrite <-(take_drop k (bf_rows b)) at 1. rewrite delete_ids_app_rows, Hd. f_equal.
  apply delete_ids_all. intros r Hr (r' & Hr' & Hid & _)%Hbad.
  apply (Hdisj (ob_event_id r)); [rewrite <-Hid|]; by apply list_elem_of_fmap_2.
Qed.

(** The loop sends a prefix of the batch and deletes its rows; the whole batch when
    every publication succeeds. *)
Lemma flush_batch_spec publish good rest max :
  Forall (fun r => is_Some (row_message r)) good -> NoDup (map ob_event_id (good ++ rest)) ->
  exists k, k <= length good
    /\ flush_batch (omap (fun r => m ← row_message r; Some (ob_event_id r, m)) good) publish (mkBuffer (good ++ rest) max)
       = (waiting (take k good), mkBuffer (drop k good ++ rest) max)
    /\ ((forall m, publish m = true) -> k = length good).
Proof.
  induction good as [|r good IH]; intros Hg Hnd; [by exists 0|].
  apply Forall_cons in Hg as [[m Hm] Hg]. cbn [map app] in Hnd. apply NoDup_cons in Hnd as [Hr Hnd].
  cbn [omap list_omap]. rewrite Hm. cbn [mbind option_bind]. cbn [flush_batch].
  destruct (publish m) eqn:Hp.
  - destruct (IH Hg Hnd) as (k & Hk & Hf & Hall). exists (S k). split; [cbn; lia|].
    unfold buffer_delete. cbn [bf_rows bf_max app].
    assert (delete_ids [ob_event_id r] (r :: good ++ rest) = good ++ rest) as ->.
    { apply (delete_oldest 1 (r :: good ++ rest)). cbn [map]. by apply NoDup_cons. }
    rewrite Hf. split; [|intros Ha; by rewrite Hall]. unfold waiting. cbn [take omap list_omap drop]. by rewrite Hm.
  - exists 0. split; [lia|]. split; [done|]. intros Ha. by rewrite Ha in Hp.
Qed.

Lemma drained_good n rows : Forall (fun r => is_Some (row_message r)) (drained n rows).
Proof. apply Forall_forall. intros r [Hr _]%list_elem_of_filter. exact Hr. Qed.

Lemma waiting_drained n rows : waiting (drained n rows) = waiting (take n rows).
Proof.
  unfold drained, waiting. induction (take n rows) as [|r l IH]; [done|]. rewrite filter_cons. cbn.
  destruct (row_message r) as [m|] eqn:Hm; [|rewrite decide_False by (intros []; done); exact IH].
  rewrite decide_True by eauto. cbn. by rewrite Hm, IH.
Qed.

Lemma flush_spec t publish b :
  buffer_wf t b ->
  buffer_wf t (flush publish b).2
  /\ waiting (bf_rows b) = (flush publish b).1 ++ waiting (bf_rows (flush publish b).2)
  /\ length (bf_rows (flush publish b).2) <= length (bf_rows b)
  /\ ((forall m, publish m = true) -> bf_rows (flush publish b).2 = drop 100 (bf_rows b)).
Proof.
  intros Hwf. unfold flush. rewrite (drain_rows t) by done. change (N.to_nat 100) with 100.
  set (good := drained 100 (bf_rows b)). set (rest := drop 100 (bf_rows b)).
  assert (good ++ rest `sublist_of` bf_rows b) as Hsub.
  { rewrite <-(take_drop 100 (bf_rows b)). apply sublist_app; [apply sublist_filter|done]. }
  destruct Hwf as (Hrows & Hmax & Hlen). pose proof (sublist_wf t _ _ Hsub Hrows) as (Hnd & _).
  destruct (flush_batch_spec publish good rest (bf_max b) (drained_good _ _) Hnd) as (k & Hk & -> & Hall).
  cbn [fst snd bf_rows bf_max].
  assert (drop k good ++ rest `sublist_of` bf_rows b) as Hsub'.
  { etrans; [|exact Hsub]. apply sublist_app; [apply sublist_drop|done]. }
  pose proof (sublist_length _ _ Hsub') as Hl.
  split; [split; [by eapply sublist_wf|split; [done|cbn; lia]]|]. split; [|split; [done|]].
  - assert (forall l1 l2, waiting (l1 ++ l2) = waiting l1 ++ waiting l2) as Happ by (intros; apply omap_app).
    rewrite Happ, app_assoc, <-Happ, take_drop. unfold good, rest. rewrite waiting_drained, <-Happ.
    by rewrite take_drop.
  - intros Ha. rewrite (Hall Ha), drop_all. done.
Qed.

Lemma flush_rows t publish b :
  buffer_wf t b ->
  map ob_event_id (bf_rows (flush publish b).2) ⊆ map ob_event_id (bf_rows b) /\ bf_max (flush publish b).2 = bf_max b.
Proof.
  intros Hwf. unfold flush. rewrite (drain_rows t) by done. change (N.to_nat 100) with 100.
  set (good := drained 100 (bf_rows b)). set (rest := drop 100 (bf_rows b)).
  assert (good ++ rest `sublist_of` bf_rows b) as Hsub.
  { rewrite <-(take_drop 100 (bf_rows b)). apply sublist_app; [apply sublist_filter|done]. }
  destruct Hwf as (Hrows & _). pose proof (sublist_wf t _ _ Hsub Hrows) as (Hnd & _).
  destruct (flush_batch_spec publish good rest (bf_max b) (drained_good _ _) Hnd) as (k & _ & -> & _).
  split; [|done]. cbn [snd bf_rows]. intros i (r & -> & Hr)%list_elem_of_fmap. apply list_elem_of_fmap_2.
  eapply elem_of_sublist; [exact Hr|]. etrans; [|exact Hsub]. apply sublist_app; [apply sublist_drop|done].
Qed.

(** The outbox drains: over any sequence of ticks of the flush task, whatever
    publications fail, what was published so far followed by what still waits is
    what waited at the start, so every message is published in order and at most
    once and none is lost; and once the control plane has been reachable for as many
    ticks as there were hundreds of rows, the outbox is empty and all of them have
    been published. *)
Theorem outbox_drains (t : Z) (ticks : list (Message -> bool)) (b : Buffer) (n : nat) :
  buffer_wf t b -> up_ticks ticks n -> length (bf_rows b) <= 100 * n ->
  waiting (bf_rows b) = (flush_run ticks b).1 ++ waiting (bf_rows (flush_run ticks b).2)
  /\ bf_rows (flush_run ticks b).2 = [] /\ (flush_run ticks b).1 = waiting (bf_rows b).
Proof.
  intros Hwf Hup Hlen.
  enough (waiting (bf_rows b) = (flush_run ticks b).1 ++ waiting (bf_rows (flush_run ticks b).2)
    /\ bf_rows (flush_run ticks b).2 = []) as [Hw He].
  { split_and!; [done..|]. by rewrite Hw, He, app_nil_r. }
  revert b Hwf Hlen. induction Hup as [|p ticks n Hp Hup IH|p ticks n Hup IH]; intros b Hwf Hlen; cbn [flush_run].
  - destruct (bf_rows b) eqn:E; [|cbn in Hlen; lia]. cbn. by rewrite E.
  - destruct (flush_spec t p b Hwf) as (Hwf' & Hw & _ & Hd).
    destruct (flush p b) as [sent b'] eqn:Hf. cbn [fst snd] in *.
    destruct (IH b' Hwf') as [Hw' He]; [rewrite (Hd Hp), length_drop; lia|].
    destruct (flush_run ticks b') as [sents b'']. cbn [fst snd] in *. by rewrite Hw, Hw', app_assoc.
  - destruct (flush_spec t p b Hwf) as (Hwf' & Hw & Hl & _).
    destruct (flush p b) as [sent b'] eqn:Hf. cbn [fst snd] in *.
    destruct (IH b' Hwf') as [Hw' He]; [lia|].
    destruct (flush_run ticks b') as [sents b'']. cbn [fst snd] in *. by rewrite Hw, Hw', app_assoc.
Qed.
End Drains.

(** ** A cap too large *)

Lemma insert_by_age_perm r l : insert_by_age r l ≡ₚ r :: l.
Proof.
  induction l as [|x l IH]; [done|]. cbn [insert_by_age]. destruct (older r x); [done|].
  rewrite IH. constructor.
Qed.

Lemma by_age_perm rows : by_age rows ≡ₚ rows.
Proof.
  induction rows as [|r rows IH]; [done|].
  change (by_age (r :: rows)) with (insert_by_age r (by_age rows)). by rewrite insert_by_age_perm, IH.
Qed.

(** A cap of [usize::MAX] is [-1] as an [i64]: every insertion empties the
    table. *)
Theorem huge_cap_drops_everything (rows : list OutboxRow) : prune (2 ^ 64 - 1) rows = [].
Proof.
  unfold prune, sql_limit. change (wrap_i64 _) with (-1)%Z. rewrite (proj2 (Z.ltb_ge _ _)) by lia.
  rewrite take_ge by (rewrite by_age_perm; lia).
  destruct (delete_ids _ rows) as [|r l] eqn:Hd; [done|]. exfalso.
  assert (r ∈ r :: l) as Hr by set_solver. rewrite <-Hd in Hr. apply delete_ids_elem in Hr as [Hr Hni].
  apply Hni. apply list_elem_of_fmap_2. by rewrite by_age_perm.
Qed.

(** ** Example *)

#[export] Instance toy_message_json : MessageJson :=
  {| message_to_json m := Some (ev_title (msg_event m));
     message_from_json s := if String.eqb s "CrashLoopBackOff" then Some (message_new example_event) else None |}.
Definition titled (id : Uuid) (title : string) : Message :=
  let e := example_event in
  message_new {| ev_id := id; ev_occurred_at := ev_occurred_at e; ev_observed_at := ev_observed_at e;
                 ev_agent_id := ev_agent_id e; ev_host := ev_host e; ev_severity := ev_severity e;
                 ev_title := title; ev_category_hints := []; ev_payload := ev_payload e |}.
Definition toy_ops : list BufferOp :=
  [BEnqueue 1 (titled 1 "CrashLoopBackOff"); BEnqueue 1 (titled 1 "CrashLoopBackOff");
   BEnqueue 2 (titled 2 "x"); BEnqueue 3 (titled 3 "CrashLoopBackOff"); BDrain 10]%string.

Lemma buffer_refines_queue_witness :
  (buffer_run toy_ops (buffer_open [] 2)).1 = (fifo_run 2 toy_ops []).1
  /\ map fst (default [] (last (buffer_run toy_ops (buffer_open [] 2)).1)) = [uuid_to_string 3].
Proof.
  split; [|vm_compute; reflexivity].
  assert (buffer_wf 0 (buffer_open [] 2)) as Hwf.
  { split; [split; [constructor|split; constructor]|]. cbn. split; [lia|lia]. }
  assert (ops_ok 0 toy_ops) as Hok by (cbn; lia).
  exact (proj1 (buffer_refines_queue 0 toy_ops (buffer_open [] 2) Hwf Hok)).
Defined.

Definition full_outbox : Buffer :=
  mkBuffer [mkOutbox 1 "a" "CrashLoopBackOff" 1; mkOutbox 2 "b" "CrashLoopBackOff" 2; mkOutbox 3 "c" "?" 2]%string 5.

Lemma outbox_drains_witness :
  let ticks := [(fun _ => false); (fun _ => true)] in
  bf_rows (flush_run ticks full_outbox).2 = [] /\ length (flush_run ticks full_outbox).1 = 2.
Proof.
  cbv zeta. assert (buffer_wf 2 full_outbox) as Hwf.
  { split; [split; [|split]|cbn; lia].
    - apply (bool_decide_unpack _). vm_compute. exact I.
    - cbn. repeat (apply SSorted_cons || apply SSorted_nil || constructor); cbn; lia.
    - cbn. repeat constructor; cbn; lia. }
  destruct (outbox_drains 2 [(fun _ => false); (fun _ => true)] full_outbox 1 Hwf) as (_ & He & Hs).
  - apply up_any, up_yes; [reflexivity|apply up_nil].
  - cbn. lia.
  - split; [exact He|]. rewrite Hs. vm_compute. reflexivity.
Defined.
