(* ===== verification/Fleet.v ===== *)
(** * The fleet: agent registry, ingest and enrollment
      ([ravn-server/src/db.rs], [ingest.rs], [ca.rs], [api.rs])

    The tables of agents, labels and events with the statements that change them;
    the listings, categories and topology computed from them; what persisting a
    message does and who may ask for it; and the enrollment that gives an agent
    its certificate.

    The database's [now()] and the order in which it returns rows that no
    [ORDER BY] fixes are inputs; the certificate library is the class [Rcgen]. *)

From stdpp Require Import sorting.
From S2P Require Export AgentPull ApiAuth.

(** ** The tables *)

Record AgentRow := mkAgentRow {
  ag_host : string;
  ag_first_seen : DateTime;
  ag_last_seen : DateTime;
  ag_last_heartbeat : option DateTime;
  ag_uptime_secs : option Z;
  ag_inference_enabled : option bool;
  ag_events_published : option Z;
  ag_enrolled_at : option DateTime;
  ag_cert_not_after : option DateTime;
}.
Definition new_agent (host : string) (now : DateTime) : AgentRow :=
  mkAgentRow host now now None None None None None None.

Section Tables.
Context `{SerdeValue}.

Record Fleet := mkFleet {
  fl_agents : gmap Uuid AgentRow;
  fl_labels : gmap (Uuid * string) string;
  fl_events : gmap (Uuid * DateTime) (Message * DateTime);
}.

(** The primary key of the events. *)
Definition event_key (m : Message) : Uuid * DateTime := (ev_id (msg_event m), ev_occurred_at (msg_event m)).
(** [INSERT ... ON CONFLICT (id, occurred_at) DO NOTHING]. *)
Definition insert_message (now : DateTime) (m : Message) (f : Fleet) : Fleet :=
  let key := (ev_id (msg_event m), ev_occurred_at (msg_event m)) in
  match fl_events f !! key with
  | Some _ => f
  | None => mkFleet (fl_agents f) (fl_labels f) (<[key := (m, now)]> (fl_events f))
  end.
Definition update_explanation (id : Uuid) (occurred_at : DateTime) (x : Explanation) (f : Fleet) : Fleet :=
  mkFleet (fl_agents f) (fl_labels f)
    (alter (fun r => ({| msg_event := msg_event r.1; msg_explanation := Some x |}, r.2)) (id, occurred_at) (fl_events f)).

Definition upsert (id : Uuid) (new : AgentRow) (update : AgentRow -> AgentRow) (f : Fleet) : Fleet :=
  mkFleet (<[id := match fl_agents f !! id with Some r => update r | None => new end]> (fl_agents f))
    (fl_labels f) (fl_events f).
Definition touch_agent (now : DateTime) (id : Uuid) (host : string) (f : Fleet) : Fleet :=
  upsert id (new_agent host now)
    (fun r => mkAgentRow host (ag_first_seen r) now (ag_last_heartbeat r) (ag_uptime_secs r)
                (ag_inference_enabled r) (ag_events_published r) (ag_enrolled_at r) (ag_cert_not_after r)) f.
Definition record_enrollment (now : DateTime) (id : Uuid) (host : string) (not_after : DateTime) (f : Fleet) : Fleet :=
  upsert id (mkAgentRow host now now None None None None (Some now) (Some not_after))
    (fun r => mkAgentRow host (ag_first_seen r) (ag_last_seen r) (ag_last_heartbeat r) (ag_uptime_secs r)
                (ag_inference_enabled r) (ag_events_published r) (Some now) (Some not_after)) f.
(** The counters of the heartbeat are cast to [i64]. *)
Definition record_heartbeat (now : DateTime) (hb : Heartbeat) (f : Fleet) : Fleet :=
  let up := Some (wrap_i64 (Z.of_N (hb_uptime_secs hb))) in
  let inf := Some (hb_inference_enabled hb) in
  let pub := Some (wrap_i64 (Z.of_N (hb_events_published hb))) in
  upsert (agent_uuid (hb_agent_id hb))
    (mkAgentRow (hb_host hb) now now (Some now) up inf pub None None)
    (fun r => mkAgentRow (hb_host hb) (ag_first_seen r) now (Some now) up inf pub
                (ag_enrolled_at r) (ag_cert_not_after r)) f.

Definition drop_labels (id : Uuid) (labels : gmap (Uuid * string) string) : gmap (Uuid * string) string :=
  filter (fun e => e.1.1 <> id) labels.
Definition replace_labels (id : Uuid) (labels : btree string) (f : Fleet) : bool * Fleet :=
  match fl_agents f !! id with
  | None => (false, f)
  | Some _ =>
      (true, mkFleet (fl_agents f)
               (foldl (fun t e => <[(id, e.1) := e.2]> t) (drop_labels id (fl_labels f)) labels)
               (fl_events f))
  end.
(** The foreign key of the labels cascades. *)
Definition delete_agent (id : Uuid) (f : Fleet) : bool * Fleet :=
  (bool_decide (is_Some (fl_agents f !! id)),
   mkFleet (delete id (fl_agents f)) (drop_labels id (fl_labels f)) (fl_events f)).

(** ** Listings *)

Definition agent_status (last_seen now : DateTime) : string :=
  let age := (now - last_seen)%Z in
  if (age <? 60 * 1000000000)%Z then "online"
  else if (age <? 300 * 1000000000)%Z then "stale" else "offline".

Record Agent := mkAgent {
  a_agent_id : Uuid;
  a_host : string;
  a_first_seen : DateTime;
  a_last_seen : DateTime;
  a_status : string;
  a_labels : btree string;
  a_last_heartbeat : option DateTime;
  a_uptime_secs : option Z;
  a_inference_enabled : option bool;
  a_events_published : option Z;
}.
Definition agent_of (now : DateTime) (id : Uuid) (r : AgentRow) (labels : btree string) : Agent :=
  mkAgent id (ag_host r) (ag_first_seen r) (ag_last_seen r) (agent_status (ag_last_seen r) now) labels
    (ag_last_heartbeat r) (ag_uptime_secs r) (ag_inference_enabled r) (ag_events_published r).

(** The rows of the two queries, the labels grouped by agent, and the pass that
    takes each agent's labels out of the groups. *)
Definition by_agent (labels : list (Uuid * string * string)) : gmap Uuid (btree string) :=
  foldl (fun m l => <[l.1.1 := bt_insert l.1.2 l.2 (default [] (m !! l.1.1))]> m) ∅ labels.
Fixpoint assemble (now : DateTime) (rows : list (Uuid * AgentRow)) (groups : gmap Uuid (btree string)) : list Agent :=
  match rows with
  | [] => []
  | (id, r) :: rows' => agent_of now id r (default [] (groups !! id)) :: assemble now rows' (delete id groups)
  end.
Definition list_agents (now : DateTime) (rows : list (Uuid * AgentRow)) (labels : list (Uuid * string * string))
    : list Agent := assemble now rows (by_agent labels).
Definition get_agent (now : DateTime) (id : Uuid) (label_rows : list (string * string)) (f : Fleet) : option Agent :=
  r ← fl_agents f !! id;
  Some (agent_of now id r (foldl (fun m l => bt_insert l.1 l.2 m) [] label_rows)).

(** [list_categories] on the rows (key, value, count) in the order of the keys. *)
Record CategoryDimension := mkDimension { cd_key : string; cd_values : list (string * Z) }.
Definition add_category (dims : list CategoryDimension) (row : string * string * Z) : list CategoryDimension :=
  let '(key, value, count) := row in
  match last dims with
  | Some d =>
      if String.eqb (cd_key d) key
      then take (length dims - 1) dims ++ [mkDimension key (cd_values d ++ [(value, count)])]
      else dims ++ [mkDimension key [(value, count)]]
  | None => [mkDimension key [(value, count)]]
  end.
Definition list_categories (rows : list (string * string * Z)) : list CategoryDimension :=
  foldl add_category [] rows.

Definition severity_from_rank (rank : Z) : string :=
  match rank with
  | 5 => "critical" | 4 => "error" | 3 => "warning" | 2 => "notice" | _ => "info"
  end%Z.

Record TopologyNode := mkTopologyNode {
  tn_agent_id : Uuid;
  tn_host : string;
  tn_status : string;
  tn_severity : option string;
  tn_labels : btree string;
}.
Record Topology := mkTopology {
  tp_group_by : option string;
  tp_dimensions : list string;
  tp_groups : list (string * list TopologyNode);
}.
Definition topology_key (group_by : option string) (a : Agent) : string :=
  match group_by with
  | Some k => default "ungrouped"%string (bt_get k (a_labels a))
  | None => "all"
  end.
Definition topology_node (worst : gmap Uuid string) (a : Agent) : TopologyNode :=
  mkTopologyNode (a_agent_id a) (a_host a) (a_status a) (worst !! a_agent_id a) (a_labels a).
Definition group_agent (worst : gmap Uuid string) (group_by : option string)
    (grouped : btree (list TopologyNode)) (a : Agent) : btree (list TopologyNode) :=
  let k := topology_key group_by a in
  bt_insert k (default [] (bt_get k grouped) ++ [topology_node worst a]) grouped.
Definition worst_severities (sev_rows : list (Uuid * Z)) : gmap Uuid string :=
  foldl (fun m r => <[r.1 := severity_from_rank r.2]> m) ∅ sev_rows.
(** [topology] on the listed agents and the rows of worst recent severities. *)
Definition topology (agents : list Agent) (sev_rows : list (Uuid * Z)) (group_by : option string) : Topology :=
  let worst := worst_severities sev_rows in
  let keys := foldl (fun m k => bt_insert k tt m) [] (flat_map (fun a => bt_keys (a_labels a)) agents) in
  mkTopology group_by (bt_keys keys) (foldl (group_agent worst group_by) [] agents).
End Tables.

(** ** Ingest ([ingest.rs], [api.rs]) *)

Section Ingest.
Context `{SerdeValue} `{Jwt}.

(** The state the ingestion writes; tasks it spawns are queued. *)
Record Ingestion := mkIngestion {
  ig_fleet : Fleet;
  ig_errors : N;
  ig_ingested : list string;
  ig_broadcast : list StoredEvent;
  ig_explain : list Event;
  ig_prepare : list Event;
}.
Record IngestInputs := mkIngestInputs {
  ii_now : DateTime;
  ii_insert_ok : bool;
  ii_touch_ok : bool;
}.

Definition wants_explanation (inference : bool) (m : Message) : bool :=
  inference && bool_decide (msg_explanation m = None)
  && match event_source (msg_event m) with SourceKubeWorkload | SourceKubeNode => true | _ => false end.
Definition maybe_explain (inference : bool) (m : Message) (g : Ingestion) : Ingestion :=
  if wants_explanation inference m
  then mkIngestion (ig_fleet g) (ig_errors g) (ig_ingested g) (ig_broadcast g) (ig_explain g ++ [msg_event m]) (ig_prepare g)
  else g.
Definition prepare (m : Message) (g : Ingestion) : Ingestion :=
  mkIngestion (ig_fleet g) (ig_errors g) (ig_ingested g) (ig_broadcast g) (ig_explain g) (ig_prepare g ++ [msg_event m]).

Definition persist_message (i : IngestInputs) (inference : bool) (m : Message) (g : Ingestion) : Ingestion :=
  if negb (ii_insert_ok i)
  then mkIngestion (ig_fleet g) (ig_errors g + 1) (ig_ingested g) (ig_broadcast g) (ig_explain g) (ig_prepare g)
  else
    let f := insert_message (ii_now i) m (ig_fleet g) in
    let f := if ii_touch_ok i
             then touch_agent (ii_now i) (agent_uuid (ev_agent_id (msg_event m))) (ev_host (msg_event m)) f
             else f in
    let g := mkIngestion f (ig_errors g) (ig_ingested g ++ [severity_str (ev_severity (msg_event m))])
               (ig_broadcast g ++ [message_to_stored m (ii_now i)]) (ig_explain g) (ig_prepare g) in
    prepare m (maybe_explain inference m g).

(** A status code and its body. *)
Abbreviation Status := (N * string)%type.
(** [ingest]: [allowed] is the rate limiter's answer, [review] the response of the
    cluster to a token review. *)
Definition ingest (i : IngestInputs) (inference allowed : bool) (ingest_auth : option IngestAuth)
    (token_review : option (string -> option TokenReviewStatus)) (authorization : option string)
    (m : Message) (g : Ingestion) : Status * Ingestion :=
  if negb allowed then ((429%N, "too many requests"%string), g)
  else
    match ingest_auth, token_review with
    | None, None => ((404%N, "authenticated ingest is not enabled"%string), g)
    | _, _ =>
        match authorization ≫= strip_prefix "Bearer " with
        | None => ((401%N, "missing bearer token"%string), g)
        | Some token =>
            let identity := match ingest_auth ≫= (fun a => ingest_validate a token) with
                            | Some sub => Some sub
                            | None => token_review ≫= (fun review => review_validate (review token))
                            end in
            match identity with
            | Some _ => ((202%N, "accepted"%string), persist_message i inference m g)
            | None => ((401%N, "invalid token"%string), g)
            end
        end
    end.
End Ingest.

(** ** The certificate authority ([ca.rs]) and enrollment *)

Inductive IsCa := NoCa | ExplicitNoCa | CaUnconstrained.
Class Rcgen : Type := {
  PublicKey : Type;
  IssuerKey : Type;
  dns_name_ok : string -> bool;
  OtherParams : Type;
}.

Section Enrollment.
Context `{SerdeValue} `{Rcgen} `{UuidText} `{Base64} `{Ed25519} `{SerdeJson}.

(** The parameters of a signing request: what it claims, and the key it is for. *)
Record CertParams := mkCertParams {
  cp_common_names : list string;
  cp_subject_alt_names : list string;
  cp_is_ca : IsCa;
  cp_key_usages : list string;
  cp_extended_key_usages : list string;
  cp_not_before : Z;
  cp_not_after : Z;
  cp_other : OtherParams;
  cp_public_key : PublicKey;
}.
Record Ca := mkCa {
  ca_key : IssuerKey;
  ca_cert_pem : string;
  ca_ttl_days : Z;
}.
Variable csr_from_pem : string -> option CertParams.
Variable signed_by : CertParams -> IssuerKey -> option string.

(** [Ca::sign]; times in seconds. *)
Definition certificate_params (csr : CertParams) (agent : Uuid) (ttl_days now : Z) : CertParams :=
  {| cp_common_names := [uuid_to_string agent];
     cp_subject_alt_names := [uuid_to_string agent +:+ ".agents.ravn"];
     cp_is_ca := ExplicitNoCa;
     cp_key_usages := ["DigitalSignature"%string];
     cp_extended_key_usages := ["ClientAuth"%string];
     cp_not_before := (now - 5 * 60)%Z;
     cp_not_after := (now + ttl_days * 86400)%Z;
     cp_other := cp_other csr;
     cp_public_key := cp_public_key csr |}.
Definition ca_sign (ca : Ca) (csr_pem : string) (agent : Uuid) (now : Z) : option (string * Z) :=
  csr ← csr_from_pem csr_pem;
  if dns_name_ok (uuid_to_string agent +:+ ".agents.ravn") then
    let params := certificate_params csr agent (ca_ttl_days ca) now in
    pem ← signed_by params (ca_key ca);
    Some (pem, cp_not_after params)
  else None.

(** [enroll]: [from_timestamp] is chrono's, [db_ok] the outcome of recording. *)
Variable from_timestamp : Z -> option DateTime.
Definition enroll (ca : option Ca) (enroll_token : option string) (signer : CommandSigner)
    (now : DateTime) (db_ok : bool) (req : EnrollRequest) (f : Fleet)
    : (N * string + EnrollResponse) * Fleet :=
  match ca, enroll_token with
  | Some ca, Some expected =>
      if negb (constant_time_eq (er_bootstrap_token req) expected) then (inl (401%N, "invalid bootstrap token"%string), f)
      else
        let agent := agent_uuid (er_agent_id req) in
        match ca_sign ca (er_csr_pem req) agent (now / 1000000000)%Z with
        | None => (inl (400%N, "could not sign CSR"%string), f)
        | Some (certificate_pem, not_after) =>
            let not_after := default now (from_timestamp not_after) in
            if negb db_ok then (inl (500%N, "could not record enrollment"%string), f)
            else
              (inr {| es_agent_id := er_agent_id req; es_certificate_pem := certificate_pem;
                      es_ca_certificate_pem := ca_cert_pem ca;
                      es_command_signing_pubkey := cs_pubkey_b64 signer;
                      es_command_keyring := cs_keyring_json signer; es_not_after := not_after |},
               record_enrollment now agent (er_host req) not_after f)
        end
  | _, _ => (inl (404%N, "enrollment is not enabled"%string), f)
  end.
End Enrollment.

(** ** Facts *)

Section FleetFacts.
Context `{SerdeValue}.

(** Every label belongs to a registered agent. *)
Definition fleet_wf (f : Fleet) : Prop :=
  forall id k v, fl_labels f !! (id, k) = Some v -> is_Some (fl_agents f !! id).

Lemma upsert_wf id new update f : fleet_wf f -> fleet_wf (upsert id new update f).
Proof.
  intros Hwf a k v Hl. cbn. destruct (decide (a = id)) as [->|Hne].
  - rewrite lookup_insert_eq. eauto.
  - rewrite lookup_insert_ne by done. by eapply Hwf.
Qed.

Lemma drop_labels_lookup id labels a k :
  drop_labels id labels !! (a, k) = if decide (a = id) then None else labels !! (a, k).
Proof.
  unfold drop_labels. destruct (decide (a = id)) as [->|Hne].
  - apply map_lookup_filter_None_2. right. intros v _ Hn. by apply Hn.
  - destruct (labels !! (a, k)) as [v|] eqn:Hl.
    + by apply map_lookup_filter_Some_2.
    + apply map_lookup_filter_None_2. by left.
Qed.

Lemma insert_labels_lookup (id : Uuid) (labels : btree string) (t : gmap (Uuid * string) string)
    (a : Uuid) (k : string) :
  bt_ordered labels ->
  foldl (fun t e => <[(id, e.1) := e.2]> t) t labels !! (a, k)
  = if decide (a = id) then match bt_get k labels with Some v => Some v | None => t !! (a, k) end
    else t !! (a, k).
Proof.
  revert t; induction labels as [|[k0 v0] labels IH]; intros t; cbn; [by case_decide|].
  intros [Hlt Ho]. rewrite IH by done. case_decide as Ha; [subst a|].
  2:{ by rewrite lookup_insert_ne by congruence. }
  destruct (String.eqb_spec k k0) as [->|Hne].
  - rewrite bt_get_below by done. by rewrite lookup_insert_eq.
  - rewrite lookup_insert_ne by congruence. done.
Qed.

(** What the statements on labels and agents promise. *)
Lemma replace_labels_spec id labels f :
  bt_ordered labels -> fleet_wf f ->
  let r := replace_labels id labels f in
  r.1 = bool_decide (is_Some (fl_agents f !! id))
  /\ fl_agents r.2 = fl_agents f /\ fleet_wf r.2
  /\ (forall a k, fl_labels r.2 !! (a, k)
        = if decide (a = id) then if r.1 then bt_get k labels else None else fl_labels f !! (a, k)).
Proof.
  intros Ho Hwf. unfold replace_labels. destruct (fl_agents f !! id) as [row|] eqn:Hid; cbn.
  - assert (forall a k, foldl (fun t e => <[(id, e.1) := e.2]> t) (drop_labels id (fl_labels f)) labels !! (a, k)
      = if decide (a = id) then bt_get k labels else fl_labels f !! (a, k)) as Hl.
    { intros a k. rewrite insert_labels_lookup, drop_labels_lookup by done.
      case_decide; [by destruct (bt_get k labels)|done]. }
    split_and!; [done|done| |exact Hl].
    intros a k v Ha. cbn in Ha. rewrite Hl in Ha. cbn. case_decide; [subst; by rewrite Hid|by eapply Hwf].
  - split_and!; [done|done|done|]. intros a k. case_decide as Ha; [subst a|done].
    destruct (fl_labels f !! (id, k)) as [v|] eqn:Hv; [|done].
    apply Hwf in Hv. rewrite Hid in Hv. by destruct Hv.
Qed.

Lemma delete_agent_wf id f : fleet_wf f -> fleet_wf (delete_agent id f).2.
Proof.
  intros Hwf a k v Hl. cbn in *. rewrite drop_labels_lookup in Hl. case_decide as Ha; [done|].
  rewrite lookup_delete_ne by done. by eapply Hwf.
Qed.

(** ** Topology *)

Lemma bt_ordered_sorted {V} (m : btree V) :
  bt_ordered m -> StronglySorted (fun a b => str_ltb a b = true) (bt_keys m).
Proof.
  unfold bt_keys. induction m as [|[k v] m IH]; cbn; [constructor|]. intros [Hlt Ho].
  constructor; [by apply IH|]. by rewrite Forall_fmap.
Qed.

Lemma bt_fold_keys (ks : list string) (m : btree unit) :
  bt_ordered m ->
  let r := foldl (fun m k => bt_insert k tt m) m ks in
  bt_ordered r /\ forall k, k ∈ bt_keys r <-> k ∈ bt_keys m \/ k ∈ ks.
Proof.
  revert m; induction ks as [|x ks IH]; intros m Ho; cbn; [set_solver|].
  destruct (IH (bt_insert x tt m)) as [Ho' Hk]; [by apply bt_ordered_insert|].
  split; [done|]. intros k. rewrite Hk, bt_keys_insert, elem_of_cons. tauto.
Qed.

(** The agents of a group, in the order of the listing. *)
Definition members (group_by : option string) (k : string) (agents : list Agent) : list Agent :=
  List.filter (fun a => String.eqb (topology_key group_by a) k) agents.

Lemma group_agents_spec worst group_by agents :
  let g := foldl (group_agent worst group_by) [] agents in
  bt_ordered g
  /\ forall k, bt_get k g = match members group_by k agents with
                            | [] => None
                            | l => Some (map (topology_node worst) l)
                            end.
Proof.
  induction agents as [|a agents [Ho Hg]] using rev_ind; [done|].
  rewrite foldl_app. cbn. unfold group_agent at 1 3. split; [by apply bt_ordered_insert|].
  intros k. rewrite bt_get_insert, !Hg. unfold members in *. rewrite List.filter_app. cbn [List.filter].
  rewrite (String.eqb_sym k). destruct (String.eqb_spec (topology_key group_by a) k) as [Hk|Hk].
  - rewrite Hk. destruct (List.filter _ agents) as [|x l]; [done|]. cbn. by rewrite map_app.
  - by rewrite app_nil_r.
Qed.

(** The topology partitions the fleet: for any listing of the agents and any
    grouping key, the groups come in strictly increasing key order; a group is
    listed exactly when it has a member, and its nodes are its members, all of them
    and in the order of the listing, where an agent belongs to the group of its
    label value (or to [ungrouped], or to [all] without a key); and the dimensions
    are the label keys in use, each once and in order. *)
Theorem topology_partitions (agents : list Agent) (sev_rows : list (Uuid * Z)) (group_by : option string) :
  let t := topology agents sev_rows group_by in
  bt_ordered (tp_groups t)
  /\ (forall k nodes, (k, nodes) ∈ tp_groups t <->
        members group_by k agents <> []
        /\ nodes = map (topology_node (worst_severities sev_rows)) (members group_by k agents))
  /\ StronglySorted (fun a b => str_ltb a b = true) (tp_dimensions t)
  /\ (forall k, k ∈ tp_dimensions t <-> exists a, a ∈ agents /\ k ∈ bt_keys (a_labels a)).
Proof.
  cbv zeta. unfold topology. cbn [tp_groups tp_dimensions].
  destruct (group_agents_spec (worst_severities sev_rows) group_by agents) as [Ho Hg].
  destruct (bt_fold_keys (flat_map (fun a => bt_keys (a_labels a)) agents) [] I) as [Hd Hk].
  split_and!; [done| |by apply bt_ordered_sorted|].
  - intros k nodes. split.
    + intros Hin. apply bt_ordered_get in Hin; [|done]. rewrite Hg in Hin.
      by destruct (members group_by k agents); [|injection Hin as <-].
    + intros [Hne ->]. apply bt_get_elem. rewrite Hg. by destruct (members group_by k agents).
  - intros k. rewrite Hk. split.
    + intros [Hin|Hin]; [by apply elem_of_nil in Hin|].
      apply list_elem_of_In, in_flat_map in Hin as (a & Ha & Hin). exists a.
      by rewrite !list_elem_of_In.
    + intros (a & Ha & Hin). right. apply list_elem_of_In, in_flat_map. exists a.
      by rewrite <-!list_elem_of_In.
Qed.

(** ** Categories *)

Definition category_rows (d : CategoryDimension) : list (string * string * Z) :=
  map (fun v => (cd_key d, v.1, v.2)) (cd_values d).

(** No row of the query is lost, merged or moved. *)
Lemma list_categories_flat (rows : list (string * string * Z)) :
  flat_map category_rows (list_categories rows) = rows.
Proof.
  unfold list_categories. induction rows as [|[[key value] count] rows IH] using rev_ind; [done|].
  rewrite foldl_app. cbn [foldl]. revert IH. generalize (foldl add_category [] rows) as dims.
  intros dims IH. unfold add_category. destruct (last dims) as [d|] eqn:Hl.
  - apply last_Some in Hl as [dims' ->].
    destruct (String.eqb_spec (cd_key d) key) as [<-|_]; [|by rewrite flat_map_app, IH].
    rewrite length_app. cbn. rewrite take_app_length' by lia.
    rewrite !flat_map_app in *. cbn in *. rewrite app_nil_r in *. rewrite <-IH, <-app_assoc. f_equal.
    unfold category_rows. cbn. by rewrite map_app.
  - apply last_None in Hl as ->. cbn in IH |- *. by rewrite <-IH.
Qed.
End FleetFacts.

(** ** Ingest *)

Section IngestFacts.
Context `{SerdeValue} `{Jwt}.

(** Whose token the ingest accepts. *)
Definition ingest_identity (ingest_auth : option IngestAuth)
    (token_review : option (string -> option TokenReviewStatus)) (token : string) : Prop :=
  (exists a claims, ingest_auth = Some a
     /\ verified (ia_jwks a) (ia_issuer a) (Some (ia_audience a)) token claims
     /\ is_Some (json_get "sub" claims ≫= as_str))
  \/ (exists review st, token_review = Some review /\ review token = Some st /\ tr_authenticated st = true).

Lemma ingest_validate_sound a token sub :
  ingest_validate a token = Some sub ->
  exists claims, verified (ia_jwks a) (ia_issuer a) (Some (ia_audience a)) token claims
    /\ json_get "sub" claims ≫= as_str = Some sub.
Proof.
  unfold ingest_validate. intros (claims & Hv & Hs)%bind_Some. exists claims.
  split; [by apply verify_Some|done].
Qed.

Lemma review_validate_sound r sub :
  review_validate r = Some sub -> exists st, r = Some st /\ tr_authenticated st = true.
Proof.
  unfold review_validate. intros (st & -> & Hs)%bind_Some. exists st. by destruct (tr_authenticated st).
Qed.

Lemma persist_events i inference m g :
  fl_events (ig_fleet (persist_message i inference m g))
  = if ii_insert_ok i then fl_events (insert_message (ii_now i) m (ig_fleet g)) else fl_events (ig_fleet g).
Proof.
  unfold persist_message. destruct (ii_insert_ok i); [|done]. unfold maybe_explain.
  by destruct (wants_explanation inference m), (ii_touch_ok i).
Qed.

Lemma insert_message_idempotent n1 n2 m f f' :
  fl_events f' = fl_events (insert_message n1 m f) ->
  fl_events (insert_message n2 m f') = fl_events f'.
Proof.
  intros Hf. unfold insert_message at 1. rewrite Hf.
  assert (is_Some (fl_events (insert_message n1 m f) !! (ev_id (msg_event m), ev_occurred_at (msg_event m))))
    as [x ->]; [|done].
  unfold insert_message. destruct (fl_events f !! _) as [r|] eqn:Hl; [by rewrite Hl|].
  cbn. rewrite lookup_insert_eq. eauto.
Qed.

Lemma ingest_spec (i : IngestInputs) (inference allowed : bool) (ingest_auth : option IngestAuth)
    (token_review : option (string -> option TokenReviewStatus)) (authorization : option string)
    (m : Message) (g : Ingestion) :
  let r := ingest i inference allowed ingest_auth token_review authorization m g in
  (r.1.1 <> 202%N -> r.2 = g)
  /\ (r.1.1 = 202%N -> allowed = true /\ r.2 = persist_message i inference m g
        /\ exists token, authorization = Some ("Bearer " +:+ token)
             /\ ingest_identity ingest_auth token_review token).
Proof.
  cbv zeta. unfold ingest. destruct allowed; cbn [negb]; [|cbn; split; intros Hc; done].
  assert (forall token sub, authorization ≫= strip_prefix "Bearer " = Some token ->
    (match ingest_auth ≫= (fun a => ingest_validate a token) with
     | Some sub => Some sub
     | None => token_review ≫= (fun review => review_validate (review token)) end) = Some sub ->
    authorization = Some ("Bearer " +:+ token) /\ ingest_identity ingest_auth token_review token) as Hid.
  { intros token sub (a & -> & Ha)%bind_Some Hs. apply strip_prefix_Some in Ha as ->. split; [done|].
    destruct (ingest_auth ≫= _) as [sub'|] eqn:Hi.
    - apply bind_Some in Hi as (x & -> & Hv). apply ingest_validate_sound in Hv as (claims & Hv & Hsub).
      left. exists x, claims. split_and!; [done..|]. by eexists.
    - apply bind_Some in Hs as (review & -> & Hv). apply review_validate_sound in Hv as (st & Hr & Ha).
      right. by exists review, st. }
  destruct (authorization ≫= strip_prefix "Bearer ") as [token|] eqn:Htok.
  2:{ destruct ingest_auth, token_review; cbn; split; intros Hc; done. }
  specialize (Hid token).
  destruct (match ingest_auth ≫= _ with Some _ => _ | None => _ end) as [sub|] eqn:Hm.
  - specialize (Hid sub eq_refl eq_refl).
    destruct ingest_auth, token_review; cbn; split; intros Hc; try done;
      (split_and!; [done|done|exists token; exact Hid]).
  - destruct ingest_auth, token_review; cbn; split; intros Hc; done.
Qed.

End IngestFacts.

(** ** Enrollment *)

Section EnrollFacts.
Context `{SerdeValue} `{Rcgen} `{UuidText} `{Base64} `{Ed25519} `{SerdeJson}.
Variable csr_from_pem : string -> option CertParams.
Variable signed_by : CertParams -> IssuerKey -> option string.
Variable from_timestamp : Z -> option DateTime.

(** Enrollment needs the bootstrap token and binds the certificate to the
    authenticated agent: a refused request changes nothing; an accepted one
    presented the configured token, and the certificate it returns is signed by the
    authority for parameters whose names are the agent's id and nothing the signing
    request claimed, that is no authority, is for client authentication only, and
    carries the key of the request; and the agent is registered as enrolled. *)
Theorem enroll_binds_identity (ca : option Ca) (enroll_token : option string) (signer : CommandSigner)
    (now : DateTime) (db_ok : bool) (req : EnrollRequest) (f : Fleet) :
  match enroll csr_from_pem signed_by from_timestamp ca enroll_token signer now db_ok req f with
  | (inl _, f') => f' = f
  | (inr resp, f') =>
      exists c csr params, ca = Some c /\ enroll_token = Some (er_bootstrap_token req)
        /\ csr_from_pem (er_csr_pem req) = Some csr
        /\ signed_by params (ca_key c) = Some (es_certificate_pem resp)
        /\ cp_common_names params = [uuid_to_string (agent_uuid (er_agent_id req))]
        /\ cp_subject_alt_names params = [uuid_to_string (agent_uuid (er_agent_id req)) +:+ ".agents.ravn"]
        /\ cp_is_ca params = ExplicitNoCa /\ cp_extended_key_usages params = ["ClientAuth"%string]
        /\ cp_public_key params = cp_public_key csr
        /\ cp_not_after params = (now / 1000000000 + ca_ttl_days c * 86400)%Z
        /\ es_agent_id resp = er_agent_id req
        /\ exists row, fl_agents f' !! agent_uuid (er_agent_id req) = Some row
             /\ ag_host row = er_host req /\ ag_enrolled_at row = Some now
  end.
Proof.
  unfold enroll. destruct ca as [c|], enroll_token as [expected|]; try done.
  destruct (constant_time_eq (er_bootstrap_token req) expected) eqn:Htok; cbn [negb]; [|done].
  apply constant_time_eq_spec in Htok.
  destruct (ca_sign csr_from_pem signed_by c (er_csr_pem req) _ _) as [[pem na]|] eqn:Hs; [|done].
  destruct db_ok; [|done]. cbn [negb].
  unfold ca_sign in Hs. apply bind_Some in Hs as (csr & Hcsr & Hs).
  destruct (dns_name_ok _); [|done]. apply bind_Some in Hs as (pem' & Hpem & [= -> <-]).
  eexists c, csr, _. split_and!; [done|by rewrite Htok|done|exact Hpem|done..|].
  eexists. cbn. rewrite lookup_insert_eq. split; [done|]. by destruct (fl_agents f !! _).
Qed.
End EnrollFacts.
