(* ===== verification/Queries.v ===== *)
(** * The registry of the fleet as its readers see it ([ravn-server/src/db.rs])

  The [SELECT]s of the registry as what they may return from the tables, and an
  abstract roster (one entry per agent, with its labels) that the tables implement.
  The theorems: any sequence of statements refines its effect on the roster; the
  listing, the single agent, the categories and the topology are those of the roster
  and agree with each other; the events shown are the newest ones.

  SQL fixes the order of rows only as far as [ORDER BY] does, and the comparison of
  texts is the database's collation: an answer is any list that satisfies the query. *)

From stdpp Require Import sorting.
From S2P Require Export Fleet.
From S2P Require Export Orchestrator.

(** The database's collation of texts: a total order (Postgres breaks ties bytewise). *)
Class Collation : Type := { collate : string -> string -> bool }.
Class CollationLaws `{Collation} : Prop := {
  collate_total a b : collate a b = true \/ collate b a = true;
  collate_trans a b c : collate a b = true -> collate b c = true -> collate a c = true;
  collate_antisym a b : collate a b = true -> collate b a = true -> a = b;
}.

(** ** The roster *)

Section Roster.
Context `{SerdeValue}.

Abbreviation Roster := (gmap Uuid (AgentRow * btree string)).

(** The statements that change the tables. *)
Inductive FleetOp :=
  | FoMessage (now : DateTime) (m : Message)
  | FoExplain (id : Uuid) (occurred_at : DateTime) (x : Explanation)
  | FoTouch (now : DateTime) (id : Uuid) (host : string)
  | FoEnroll (now : DateTime) (id : Uuid) (host : string) (not_after : DateTime)
  | FoBeat (now : DateTime) (hb : Heartbeat)
  | FoLabels (id : Uuid) (labels : btree string)
  | FoDelete (id : Uuid).
Definition fleet_exec (op : FleetOp) (f : Fleet) : Fleet :=
  match op with
  | FoMessage now m => insert_message now m f
  | FoExplain id at_ x => update_explanation id at_ x f
  | FoTouch now id host => touch_agent now id host f
  | FoEnroll now id host not_after => record_enrollment now id host not_after f
  | FoBeat now hb => record_heartbeat now hb f
  | FoLabels id labels => (replace_labels id labels f).2
  | FoDelete id => (delete_agent id f).2
  end.
Definition fleet_run (ops : list FleetOp) (f : Fleet) : Fleet := foldl (fun f op => fleet_exec op f) f ops.

(** An agent that is seen is entered without labels, or keeps those it has. *)
Definition enter (id : Uuid) (fresh : AgentRow) (seen : AgentRow -> AgentRow) (r : Roster) : Roster :=
  <[id := match r !! id with Some (row, labels) => (seen row, labels) | None => (fresh, []) end]> r.
Definition roster_exec (op : FleetOp) (r : Roster) : Roster :=
  match op with
  | FoMessage _ _ | FoExplain _ _ _ => r
  | FoTouch now id host =>
      enter id (new_agent host now)
        (fun a => mkAgentRow host (ag_first_seen a) now (ag_last_heartbeat a) (ag_uptime_secs a)
                    (ag_inference_enabled a) (ag_events_published a) (ag_enrolled_at a) (ag_cert_not_after a)) r
  | FoEnroll now id host not_after =>
      enter id (mkAgentRow host now now None None None None (Some now) (Some not_after))
        (fun a => mkAgentRow host (ag_first_seen a) (ag_last_seen a) (ag_last_heartbeat a) (ag_uptime_secs a)
                    (ag_inference_enabled a) (ag_events_published a) (Some now) (Some not_after)) r
  | FoBeat now hb =>
      let uptime := Some (wrap_i64 (Z.of_N (hb_uptime_secs hb))) in
      let published := Some (wrap_i64 (Z.of_N (hb_events_published hb))) in
      let inference := Some (hb_inference_enabled hb) in
      enter (agent_uuid (hb_agent_id hb)) (mkAgentRow (hb_host hb) now now (Some now) uptime inference published None None)
        (fun a => mkAgentRow (hb_host hb) (ag_first_seen a) now (Some now) uptime inference published
                    (ag_enrolled_at a) (ag_cert_not_after a)) r
  | FoLabels id labels => alter (fun a => (a.1, labels)) id r
  | FoDelete id => delete id r
  end.
Definition roster_run (ops : list FleetOp) (r : Roster) : Roster := foldl (fun r op => roster_exec op r) r ops.

(** The labels that come with a statement are a [BTreeMap]. *)
Definition op_ordered (op : FleetOp) : Prop := match op with FoLabels _ labels => bt_ordered labels | _ => True end.

(** *** The tables as a roster *)

Definition collect_labels (rows : list (string * string)) : btree string := foldl (fun m l => bt_insert l.1 l.2 m) [] rows.
Definition label_rows_of (id : Uuid) (f : Fleet) : list (string * string) :=
  omap (fun e => if N.eqb e.1.1 id then Some (e.1.2, e.2) else None) (map_to_list (fl_labels f)).
Definition labels_of (id : Uuid) (f : Fleet) : btree string := collect_labels (label_rows_of id f).
Definition roster (f : Fleet) : Roster := map_imap (fun id row => Some (row, labels_of id f)) (fl_agents f).

Lemma collect_acc rows m :
  bt_ordered m ->
  let r := foldl (fun m (l : string * string) => bt_insert l.1 l.2 m) m rows in
  bt_ordered r /\ (NoDup rows.*1 -> forall k v,
    bt_get k r = Some v <-> (k, v) ∈ rows \/ (k ∉ rows.*1 /\ bt_get k m = Some v)).
Proof.
  revert m. induction rows as [|[k0 v0] rows IH]; intros m Hm; cbn.
  { split; [done|]. intros _ k v. set_solver. }
  destruct (IH (bt_insert k0 v0 m)) as [Ho Hg]; [by apply bt_ordered_insert|]. split; [done|].
  intros [Hn Hnd]%NoDup_cons k v. rewrite (Hg Hnd), bt_get_insert. clear Hg Ho IH.
  assert ((k0, v) ∉ rows) as Hv by (intros Hin; apply Hn, (list_elem_of_fmap_2 fst _ _ Hin)).
  destruct (String.eqb_spec k k0) as [->|Hne]; set_solver.
Qed.
Lemma collect_ordered rows : bt_ordered (collect_labels rows).
Proof. by apply collect_acc. Qed.
Lemma collect_get rows k v : NoDup rows.*1 -> bt_get k (collect_labels rows) = Some v <-> (k, v) ∈ rows.
Proof. intros Hnd. destruct (collect_acc rows [] I) as [_ Hg]. unfold collect_labels. rewrite (Hg Hnd). cbn. set_solver. Qed.

Lemma label_rows_elem id f k v : (k, v) ∈ label_rows_of id f <-> fl_labels f !! (id, k) = Some v.
Proof.
  unfold label_rows_of. rewrite list_elem_of_omap. split.
  - intros ([[id' k'] v'] & Hin & He). apply elem_of_map_to_list in Hin. cbn in He.
    destruct (N.eqb_spec id' id) as [->|]; [|done]. by injection He as -> ->.
  - intros Hl. exists (id, k, v). split; [by apply elem_of_map_to_list|]. cbn. by rewrite N.eqb_refl.
Qed.
Lemma label_rows_nodup id f : NoDup (label_rows_of id f).*1.
Proof.
  unfold label_rows_of. pose proof (NoDup_fst_map_to_list (fl_labels f)) as Hnd.
  induction (map_to_list (fl_labels f)) as [|[[id' k] v] l IH]; cbn in *; [constructor|].
  apply NoDup_cons in Hnd as [Hn Hnd]. destruct (N.eqb_spec id' id) as [->|]; cbn; [|by apply IH].
  constructor; [|by apply IH]. intros Hin. apply Hn. apply list_elem_of_fmap in Hin as ([k' v'] & -> & Hin).
  apply list_elem_of_omap in Hin as ([[id'' k''] v''] & Hin & He). cbn in He.
  destruct (N.eqb_spec id'' id) as [->|]; [|done]. injection He as <- <-. by apply (list_elem_of_fmap_2 fst _ _ Hin).
Qed.
Lemma labels_of_get id f k : bt_get k (labels_of id f) = fl_labels f !! (id, k).
Proof.
  apply option_eq. intros v. unfold labels_of. by rewrite collect_get, label_rows_elem by apply label_rows_nodup.
Qed.
Lemma labels_of_ordered id f : bt_ordered (labels_of id f).
Proof. apply collect_ordered. Qed.
(** The labels are what the lookups say. *)
Lemma labels_of_eq id f m : bt_ordered m -> (forall k, bt_get k m = fl_labels f !! (id, k)) -> labels_of id f = m.
Proof. intros Hm Hk. apply bt_ext; [apply labels_of_ordered|done|]. intros k. by rewrite labels_of_get. Qed.
Lemma labels_of_same id f f' : (forall k, fl_labels f' !! (id, k) = fl_labels f !! (id, k)) -> labels_of id f' = labels_of id f.
Proof. intros Hl. apply labels_of_eq; [apply labels_of_ordered|]. intros k. by rewrite labels_of_get. Qed.

Lemma roster_lookup f id : roster f !! id = (fun row => (row, labels_of id f)) <$> fl_agents f !! id.
Proof. unfold roster. rewrite map_lookup_imap. by destruct (fl_agents f !! id). Qed.

(** *** Refinement *)

Lemma unregistered_labels f id : fleet_wf f -> fl_agents f !! id = None -> labels_of id f = [].
Proof.
  intros Hwf Hid. apply labels_of_eq; [done|]. intros k. cbn. destruct (fl_labels f !! (id, k)) as [v|] eqn:Hl; [|done].
  apply Hwf in Hl as [? Hl]. congruence.
Qed.
Lemma upsert_roster id fresh seen f :
  fleet_wf f -> roster (upsert id fresh seen f) = enter id fresh seen (roster f).
Proof.
  intros Hwf. apply map_eq. intros id'. unfold enter. rewrite roster_lookup. cbn [fl_agents upsert].
  assert (labels_of id' (upsert id fresh seen f) = labels_of id' f) as -> by by apply labels_of_same.
  destruct (decide (id' = id)) as [->|Hne].
  - rewrite !lookup_insert_eq, roster_lookup. cbn. destruct (fl_agents f !! id) as [row|] eqn:Hid; cbn; [done|].
    by rewrite unregistered_labels.
  - by rewrite !lookup_insert_ne, roster_lookup by done.
Qed.

Lemma fleet_exec_roster op f :
  fleet_wf f -> op_ordered op -> fleet_wf (fleet_exec op f) /\ roster (fleet_exec op f) = roster_exec op (roster f).
Proof.
  intros Hwf Hop. destruct op as [now m|id at_ x|now id host|now id host na|now hb|id labels|id]; cbn [fleet_exec roster_exec].
  - unfold insert_message. destruct (fl_events f !! _); by split.
  - by split.
  - split; [by apply upsert_wf|by apply upsert_roster].
  - split; [by apply upsert_wf|by apply upsert_roster].
  - split; [by apply upsert_wf|by apply upsert_roster].
  - destruct (replace_labels_spec id labels f Hop Hwf) as (Hfound & Hag & Hwf' & Hl). split; [done|].
    apply map_eq. intros id'. rewrite roster_lookup, Hag. destruct (decide (id' = id)) as [->|Hne].
    + rewrite lookup_alter_eq, roster_lookup. destruct (fl_agents f !! id) as [row|] eqn:Hid; cbn; [|done].
      f_equal. f_equal. apply labels_of_eq; [done|]. intros k. rewrite Hl, decide_True, Hfound by done. done.
    + rewrite lookup_alter_ne, roster_lookup by done. destruct (fl_agents f !! id') as [row|]; cbn; [|done]. f_equal. f_equal.
      apply labels_of_same. intros k. by rewrite Hl, decide_False.
  - split; [by apply delete_agent_wf|]. apply map_eq. intros id'. rewrite roster_lookup. cbn [fl_agents delete_agent snd].
    destruct (decide (id' = id)) as [->|Hne]; [by rewrite !lookup_delete_eq|].
    rewrite !lookup_delete_ne, roster_lookup by done. destruct (fl_agents f !! id') as [row|]; cbn; [|done]. f_equal. f_equal.
    apply labels_of_same. intros k. cbn. by rewrite drop_labels_lookup, decide_False.
Qed.
Lemma fleet_run_roster ops f :
  fleet_wf f -> Forall op_ordered ops ->
  fleet_wf (fleet_run ops f) /\ roster (fleet_run ops f) = roster_run ops (roster f).
Proof.
  revert f. induction ops as [|op ops IH]; intros f Hwf Hops; [done|]. apply Forall_cons in Hops as [Hop Hops].
  destruct (fleet_exec_roster op f Hwf Hop) as [Hwf' Hr]. cbn. rewrite <-Hr. by apply IH.
Qed.
End Roster.

(** ** What the queries may return *)

Section Answers.
Context `{SerdeValue} `{Collation}.
Implicit Types (f : Fleet).

(** [SELECT .. FROM agents ORDER BY host]. *)
Definition agents_answer f (rows : list (Uuid * AgentRow)) : Prop :=
  rows ≡ₚ map_to_list (fl_agents f) /\ StronglySorted (fun a b => collate (ag_host a.2) (ag_host b.2) = true) rows.
(** [SELECT agent_id, key, value FROM agent_labels], and with [WHERE agent_id = $1]. *)
Definition labels_answer f (rows : list (Uuid * string * string)) : Prop :=
  rows ≡ₚ map_to_list (fl_labels f).
Definition agent_labels_answer f (id : Uuid) (rows : list (string * string)) : Prop := rows ≡ₚ label_rows_of id f.
(** [SELECT key, value, count( * ) FROM agent_labels GROUP BY key, value ORDER BY key, value]. *)
Definition label_count f (k v : string) : nat :=
  length (List.filter (fun e => String.eqb e.1.2 k && String.eqb e.2 v) (map_to_list (fl_labels f))).
Definition pair_le (a b : string * string * Z) : Prop :=
  if String.eqb a.1.1 b.1.1 then collate a.1.2 b.1.2 = true else collate a.1.1 b.1.1 = true.
Definition categories_answer f (rows : list (string * string * Z)) : Prop :=
  NoDup rows.*1 /\ StronglySorted pair_le rows
  /\ forall k v n, (k, v, n) ∈ rows <-> n = Z.of_nat (label_count f k v) /\ (0 < n)%Z.
(** The events with their [received_at], and [SELECT .. ORDER BY occurred_at DESC LIMIT $1]. *)
Definition stored_rows f : list StoredEvent :=
  map (fun e => message_to_stored e.2.1 e.2.2) (map_to_list (fl_events f)).
Definition newest_first (rows : list StoredEvent) : Prop := StronglySorted (fun a b => (se_occurred_at b <= se_occurred_at a)%Z) rows.
Definition events_answer f (limit : Z) (rows : list StoredEvent) : Prop :=
  exists all, all ≡ₚ stored_rows f /\ newest_first all /\ rows = take (Z.to_nat limit) all.
(** The rank of the [CASE], and [SELECT agent_id, max(..) .. GROUP BY agent_id] over the
    last 24 hours. *)
Definition sql_rank (severity : string) : Z :=
  if String.eqb severity "critical" then 5 else if String.eqb severity "error" then 4
  else if String.eqb severity "warning" then 3 else if String.eqb severity "notice" then 2 else 1.
Definition within_day (now : DateTime) (e : StoredEvent) : bool := (now - 86400 * 10 ^ 9 <? se_occurred_at e)%Z.
Definition severities_answer f (now : DateTime) (rows : list (Uuid * Z)) : Prop :=
  NoDup rows.*1 /\ forall id rank, (id, rank) ∈ rows <->
    (exists e, e ∈ stored_rows f /\ within_day now e = true /\ se_agent_id e = id /\ sql_rank (se_severity e) = rank)
    /\ (forall e, e ∈ stored_rows f -> within_day now e = true -> se_agent_id e = id -> (sql_rank (se_severity e) <= rank)%Z).
End Answers.

(** ** The listing and the single agent *)

Section Listing.
Context `{SerdeValue} `{CL : CollationLaws}.
Implicit Types (f : Fleet) (now : DateTime).

(** The groups of the labels. *)
Lemma by_agent_lookup (rows : list (Uuid * string * string)) id :
  default [] (by_agent rows !! id) = collect_labels (omap (fun l => if N.eqb l.1.1 id then Some (l.1.2, l.2) else None) rows).
Proof.
  unfold by_agent, collect_labels.
  assert (forall m : gmap Uuid (btree string), default [] (foldl (fun m l => <[l.1.1 := bt_insert l.1.2 l.2 (default [] (m !! l.1.1))]> m) m rows !! id)
    = foldl (fun m l => bt_insert l.1 l.2 m) (default [] (m !! id))
        (omap (fun l => if N.eqb l.1.1 id then Some (l.1.2, l.2) else None) rows)) as Hacc; [|apply Hacc].
  induction rows as [|[[id' k] v] rows IH]; intros m; cbn; [done|].
  rewrite IH. destruct (N.eqb_spec id' id) as [->|Hne]; cbn; [by rewrite lookup_insert_eq|by rewrite lookup_insert_ne].
Qed.
Lemma collect_perm (rows rows' : list (string * string)) :
  NoDup rows.*1 -> rows ≡ₚ rows' -> collect_labels rows = collect_labels rows'.
Proof.
  intros Hnd Hp. apply bt_ext; [apply collect_ordered..|]. intros k. apply option_eq. intros v.
  assert (NoDup rows'.*1) as Hnd' by by rewrite <-Hp. by rewrite !collect_get, Hp.
Qed.
Lemma by_agent_labels f rows id : labels_answer f rows -> default [] (by_agent rows !! id) = labels_of id f.
Proof.
  intros Hrows. rewrite by_agent_lookup. symmetry. apply collect_perm; [apply label_rows_nodup|].
  unfold label_rows_of, labels_answer in *. by rewrite Hrows.
Qed.

Lemma assemble_spec now rows groups :
  NoDup rows.*1 -> assemble now rows groups = map (fun r => agent_of now r.1 r.2 (default [] (groups !! r.1))) rows.
Proof.
  revert groups. induction rows as [|[id row] rows IH]; intros groups; cbn; [done|]. intros [Hn Hnd]%NoDup_cons.
  f_equal. rewrite IH by done. apply map_ext_in. intros [id' row'] Hin%list_elem_of_In. cbn.
  rewrite lookup_delete_ne; [done|]. intros ->. apply Hn. by apply (list_elem_of_fmap_2 fst _ _ Hin).
Qed.
Lemma list_agents_map f now rows label_rows :
  agents_answer f rows -> labels_answer f label_rows ->
  list_agents now rows label_rows = map (fun r => agent_of now r.1 r.2 (labels_of r.1 f)) rows.
Proof.
  intros [Hp _] Hl. unfold list_agents. rewrite assemble_spec.
  - apply map_ext. intros r. by rewrite (by_agent_labels f).
  - rewrite Hp. apply NoDup_fst_map_to_list.
Qed.

(** An agent as the roster has it. *)
Definition on_roster f now (a : Agent) : Prop :=
  exists row labels, roster f !! a_agent_id a = Some (row, labels) /\ a = agent_of now (a_agent_id a) row labels.

(** The listing is the roster, ordered by host. *)
Lemma list_agents_roster f now rows label_rows :
  agents_answer f rows -> labels_answer f label_rows ->
  let l := list_agents now rows label_rows in
  (forall a, a ∈ l <-> on_roster f now a) /\ NoDup (map a_agent_id l)
  /\ StronglySorted (fun a b => collate (a_host a) (a_host b) = true) l.
Proof.
  intros Hrows Hl. cbv zeta. rewrite (list_agents_map f) by done. destruct Hrows as [Hp Hs]. split_and!.
  - intros a. rewrite list_elem_of_fmap. split.
    + intros ([id row] & -> & Hin). rewrite Hp in Hin. apply elem_of_map_to_list in Hin.
      exists row, (labels_of id f). cbn. by rewrite roster_lookup, Hin.
    + intros (row & labels & Hr & Ha). rewrite roster_lookup in Hr. apply fmap_Some in Hr as (row' & Hrow & [= -> ->]).
      exists (a_agent_id a, row'). split; [done|]. rewrite Hp. by apply elem_of_map_to_list.
  - rewrite map_map. cbn. change (NoDup rows.*1). rewrite Hp. apply NoDup_fst_map_to_list.
  - clear Hp. induction Hs as [|r rows Hs IH Hr]; cbn; [constructor|]. constructor; [done|].
    apply Forall_map. eapply Forall_impl; [exact Hr|]. done.
Qed.

(** The single agent is the roster's. *)
Lemma get_agent_roster f now id rows :
  agent_labels_answer f id rows ->
  get_agent now id rows f = (fun r => agent_of now id r.1 r.2) <$> roster f !! id.
Proof.
  intros Hrows. unfold get_agent. rewrite roster_lookup. destruct (fl_agents f !! id) as [row|]; cbn; [|done].
  f_equal. f_equal. symmetry. apply collect_perm; [apply label_rows_nodup|]. by symmetry.
Qed.
End Listing.

(** ** Categories *)

Section Categories.
Context `{SerdeValue} `{CL : CollationLaws}.
Implicit Types (f : Fleet) (now : DateTime).

Lemma categories_elem rows k v n :
  (k, v, n) ∈ rows <-> exists d, d ∈ list_categories rows /\ cd_key d = k /\ (v, n) ∈ cd_values d.
Proof.
  rewrite <-(list_categories_flat rows) at 1. rewrite list_elem_of_In, in_flat_map. setoid_rewrite <-list_elem_of_In.
  unfold category_rows. setoid_rewrite list_elem_of_fmap. split.
  - intros (d & Hd & ([v' n'] & [= -> -> ->] & Hin)). by exists d.
  - intros (d & Hd & <- & Hin). exists d. split; [done|]. by exists (v, n).
Qed.

Definition key_lt (a b : string) : Prop := collate a b = true /\ a <> b.
Lemma key_lt_trans a b c : key_lt a b -> key_lt b c -> key_lt a c.
Proof.
  intros [Hab Hne] [Hbc Hne']. split; [by eapply collate_trans|]. intros ->. by apply Hne, collate_antisym.
Qed.

Lemma strongly_snoc {A} (R : A -> A -> Prop) (l : list A) (x : A) :
  StronglySorted R (l ++ [x]) <-> StronglySorted R l /\ Forall (fun y => R y x) l.
Proof.
  induction l as [|y l IH]; cbn.
  - split; [by repeat constructor|by repeat constructor].
  - split.
    + intros Hs. apply StronglySorted_inv in Hs as [[Hs Hx]%IH Hy]. apply Forall_app in Hy as [Hy [Hyx _]%Forall_cons].
      by split; constructor.
    + intros [Hs [Hyx Hx]%Forall_cons]. apply StronglySorted_inv in Hs as [Hs Hy]. constructor; [by apply IH|].
      apply Forall_app. by repeat constructor.
Qed.

(** Equal keys are neighbours, so that no dimension is split. *)
Lemma categories_keys rows :
  StronglySorted (fun a b => collate a.1.1 b.1.1 = true) rows ->
  StronglySorted key_lt (map cd_key (list_categories rows)).
Proof.
  induction rows as [|[[k v] n] rows IH] using rev_ind; [constructor|]. intros [Hs Hx]%strongly_snoc. specialize (IH Hs).
  assert (forall d, d ∈ list_categories rows -> cd_values d <> [] -> collate (cd_key d) k = true) as Hle.
  { intros d Hd Hne. destruct (cd_values d) as [|[v' n'] l] eqn:Hv; [done|]. rewrite Forall_forall in Hx.
    apply (Hx (cd_key d, v', n')). apply categories_elem. exists d. split_and!; [done|done|]. rewrite Hv. by left. }
  assert (Forall (fun d => cd_values d <> []) (list_categories rows)) as Hvals.
  { clear. unfold list_categories. induction rows as [|[[k v] n] rows IH] using rev_ind; [constructor|].
    rewrite foldl_app. cbn. unfold add_category. destruct (last _) as [d|] eqn:Hl; [|by repeat constructor].
    destruct (String.eqb _ _); apply Forall_app; split; try (by repeat constructor); [by apply Forall_take|].
    constructor; [|constructor]. by destruct (cd_values d). }
  unfold list_categories in *. rewrite foldl_app. cbn [foldl]. set (dims := foldl add_category [] rows) in *. clearbody dims.
  unfold add_category. destruct (last dims) as [d|] eqn:Hl; [|by repeat constructor].
  apply last_Some in Hl as [dims' ->]. rewrite map_app in IH. cbn in IH.
  destruct (String.eqb_spec (cd_key d) k) as [<-|Hne].
  { rewrite length_app. cbn. rewrite take_app_length' by lia. by rewrite map_app. }
  rewrite !map_app. cbn. apply strongly_snoc. split; [done|].
  assert (key_lt (cd_key d) k) as Hdk.
  { split; [|done]. apply Hle; [set_solver|]. rewrite Forall_forall in Hvals. apply Hvals. set_solver. }
  apply strongly_snoc in IH as [_ IH]. apply Forall_app. split; [|by apply Forall_singleton].
  eapply Forall_impl; [exact IH|]. cbn. intros y Hy. by eapply key_lt_trans.
Qed.

(** A label is counted once for every agent that has it. *)
Definition has_label (k v : string) (a : Agent) : bool := bool_decide (bt_get k (a_labels a) = Some v).

Lemma label_owners_nodup f k v :
  NoDup (map (fun e => e.1.1) (List.filter (fun e => String.eqb e.1.2 k && String.eqb e.2 v) (map_to_list (fl_labels f)))).
Proof.
  pose proof (NoDup_fst_map_to_list (fl_labels f)) as Hnd. induction (map_to_list (fl_labels f)) as [|[[id k'] v'] l IH]; cbn in *.
  { constructor. }
  apply NoDup_cons in Hnd as [Hn Hnd]. destruct (String.eqb_spec k' k) as [->|]; cbn; [|by apply IH].
  destruct (String.eqb_spec v' v) as [->|]; cbn; [|by apply IH]. constructor; [|by apply IH].
  intros ([[id' k'] v'] & Hid & Hin)%list_elem_of_fmap. cbn in Hid. subst id'. apply list_elem_of_In, List.filter_In in Hin as [Hin Hk].
  apply andb_true_iff in Hk as [Hk _]. cbn in Hk. apply String.eqb_eq in Hk as ->. apply Hn.
  apply list_elem_of_In in Hin. by apply (list_elem_of_fmap_2 fst _ _ Hin).
Qed.

Lemma label_count_agents f now rows label_rows k v :
  fleet_wf f -> agents_answer f rows -> labels_answer f label_rows ->
  label_count f k v = length (List.filter (has_label k v) (list_agents now rows label_rows)).
Proof.
  intros Hwf Hrows Hl. destruct (list_agents_roster f now rows label_rows Hrows Hl) as (Helem & Hnd & _).
  unfold label_count. rewrite <-(length_map (fun e => e.1.1)), <-(length_map a_agent_id). apply Permutation_length, NoDup_Permutation.
  - apply label_owners_nodup.
  - clear -Hnd. induction (list_agents now rows label_rows) as [|a l IH]; cbn in *; [constructor|].
    apply NoDup_cons in Hnd as [Hn Hnd]. destruct (has_label k v a); cbn; [|by apply IH]. constructor; [|by apply IH].
    intros (a' & Ha & Hin)%list_elem_of_fmap. apply Hn. rewrite Ha. apply list_elem_of_fmap_2.
    apply list_elem_of_In, List.filter_In in Hin as [Hin _]. by apply list_elem_of_In.
  - intros id. rewrite !list_elem_of_fmap. setoid_rewrite list_elem_of_In. setoid_rewrite List.filter_In. setoid_rewrite <-list_elem_of_In.
    setoid_rewrite Helem. unfold has_label. split.
    + intros ([[id' k'] v'] & -> & Hin & [Hk Hv]%andb_true_iff). cbn in *. apply String.eqb_eq in Hk as ->, Hv as ->.
      apply elem_of_map_to_list in Hin. destruct (Hwf _ _ _ Hin) as [row Hrow].
      exists (agent_of now id' row (labels_of id' f)). split; [done|]. split.
      * exists row, (labels_of id' f). cbn. by rewrite roster_lookup, Hrow.
      * cbn. by rewrite bool_decide_eq_true, labels_of_get.
    + intros (a & -> & (row & labels & Hr & Ha) & Hlab%bool_decide_eq_true). rewrite roster_lookup in Hr.
      apply fmap_Some in Hr as (row' & _ & [= -> ->]). rewrite Ha in Hlab. cbn in Hlab. rewrite labels_of_get in Hlab.
      exists (a_agent_id a, k, v). split; [done|]. split; [by apply elem_of_map_to_list|]. cbn. by rewrite !String.eqb_refl.
Qed.

Lemma categories_roster f now rows label_rows cat_rows :
  fleet_wf f -> agents_answer f rows -> labels_answer f label_rows -> categories_answer f cat_rows ->
  let dims := list_categories cat_rows in
  let agents := list_agents now rows label_rows in
  StronglySorted key_lt (map cd_key dims)
  /\ forall k v n, (exists d, d ∈ dims /\ cd_key d = k /\ (v, n) ∈ cd_values d)
       <-> n = Z.of_nat (length (List.filter (has_label k v) agents)) /\ (0 < n)%Z.
Proof.
  intros Hwf Hrows Hl (_ & Hs & Hc). cbv zeta. split.
  - apply categories_keys. clear -Hs CL. induction Hs as [|r rows Hs IH Hr]; constructor; [done|].
    eapply Forall_impl; [exact Hr|]. intros [[k v] n]. unfold pair_le. destruct r as [[k' v'] n']. cbn.
    destruct (String.eqb_spec k' k) as [->|]; [|done]. intros _. by destruct (collate_total k k).
  - intros k v n. by rewrite <-categories_elem, Hc, (label_count_agents f now rows label_rows) by done.
Qed.
End Categories.

(** ** Severities and events *)

Section Events.
Context `{SerdeValue} `{CL : CollationLaws}.
Implicit Types (f : Fleet) (now : DateTime).

(** The worst severity of an agent's events of the last day. *)
Definition worst_recent f now (id : Uuid) (s : Severity) : Prop :=
  (exists k m t, fl_events f !! k = Some (m, t) /\ agent_uuid (ev_agent_id (msg_event m)) = id
     /\ (now - 86400 * 10 ^ 9 < ev_occurred_at (msg_event m))%Z /\ ev_severity (msg_event m) = s)
  /\ forall k m t, fl_events f !! k = Some (m, t) -> agent_uuid (ev_agent_id (msg_event m)) = id ->
       (now - 86400 * 10 ^ 9 < ev_occurred_at (msg_event m))%Z -> severity_leb (ev_severity (msg_event m)) s = true.

Lemma sql_rank_str s : sql_rank (severity_str s) = Z.of_nat (severity_rank s + 1).
Proof. by destruct s. Qed.
Lemma severity_of_rank s : severity_from_rank (Z.of_nat (severity_rank s + 1)) = severity_str s.
Proof. by destruct s. Qed.

Lemma stored_rows_elem f e :
  e ∈ stored_rows f <-> exists k m t, fl_events f !! k = Some (m, t) /\ e = message_to_stored m t.
Proof.
  unfold stored_rows. rewrite list_elem_of_fmap. split.
  - intros ([k [m t]] & -> & Hin%elem_of_map_to_list). by exists k, m, t.
  - intros (k & m & t & Hk & ->). exists (k, (m, t)). split; [done|]. by apply elem_of_map_to_list.
Qed.

Lemma worst_severities_lookup rows id :
  NoDup rows.*1 -> forall s, worst_severities rows !! id = Some s <-> exists rank, (id, rank) ∈ rows /\ s = severity_from_rank rank.
Proof.
  unfold worst_severities. induction rows as [|[id' r] rows IH] using rev_ind; [set_solver|].
  rewrite fmap_app, foldl_app. cbn. intros (Hnd & Hdis & _)%NoDup_app s. destruct (decide (id' = id)) as [->|Hne].
  - rewrite lookup_insert_eq. split; [intros [= <-]; exists r; set_solver|]. intros (rank & [Hin|Hin]%elem_of_app & ->).
    + destruct (Hdis id); [by apply (list_elem_of_fmap_2 fst _ _ Hin)|set_solver].
    + by apply list_elem_of_singleton in Hin as [= ->].
  - rewrite lookup_insert_ne, IH by done. set_solver.
Qed.

Lemma worst_severities_recent f now rows id s :
  severities_answer f now rows ->
  worst_severities rows !! id = Some s <-> exists sev, worst_recent f now id sev /\ s = severity_str sev.
Proof.
  intros [Hnd Hrows]. rewrite worst_severities_lookup by done. setoid_rewrite Hrows.
  assert (forall sev, worst_recent f now id sev <->
    (exists e, e ∈ stored_rows f /\ within_day now e = true /\ se_agent_id e = id /\ sql_rank (se_severity e) = Z.of_nat (severity_rank sev + 1))
    /\ (forall e, e ∈ stored_rows f -> within_day now e = true -> se_agent_id e = id ->
          (sql_rank (se_severity e) <= Z.of_nat (severity_rank sev + 1))%Z)) as Hw.
  { intros sev. unfold worst_recent, within_day, severity_leb. setoid_rewrite stored_rows_elem. split; intros [Hex Hall]; split.
    - destruct Hex as (k & m & t & Hk & Hid & Ht & <-). exists (message_to_stored m t). split_and!; [by exists k, m, t|by apply Z.ltb_lt|done|].
      apply sql_rank_str.
    - intros e (k & m & t & Hk & ->) Ht Hid. cbn in *. rewrite sql_rank_str. specialize (Hall k m t Hk Hid).
      apply Z.ltb_lt, Hall, Nat.leb_le in Ht. lia.
    - destruct Hex as (e & (k & m & t & Hk & ->) & Ht & Hid & Hr). exists k, m, t. cbn in *. rewrite sql_rank_str in Hr.
      split_and!; [done|done|by apply Z.ltb_lt|]. apply Nat2Z.inj in Hr. destruct (ev_severity (msg_event m)), sev; cbn in Hr; (done || lia).
    - intros k m t Hk Hid Ht. specialize (Hall (message_to_stored m t) (ex_intro _ k (ex_intro _ m (ex_intro _ t (conj Hk eq_refl))))).
      cbn in Hall. rewrite sql_rank_str in Hall. apply Nat.leb_le. specialize (Hall ltac:(by apply Z.ltb_lt) Hid). lia. }
  split.
  - intros (rank & (He & Hmax) & ->). destruct He as (e & Hin & Ht & Hid & <-).
    pose proof Hin as (k & m & t & Hk & ->)%stored_rows_elem. cbn in Hmax |- *. rewrite sql_rank_str in *.
    exists (ev_severity (msg_event m)). split; [|by rewrite severity_of_rank]. apply Hw. split; [|done].
    exists (message_to_stored m t). by rewrite <-sql_rank_str.
  - intros (sev & Hsev%Hw & ->). exists (Z.of_nat (severity_rank sev + 1)). by rewrite severity_of_rank.
Qed.

(** The shown events are stored ones, as many as the limit allows, and none that is
    left out is newer. *)
Lemma events_newest f limit rows :
  events_answer f limit rows ->
  newest_first rows
  /\ (forall e, e ∈ rows -> exists k m t, fl_events f !! k = Some (m, t) /\ e = message_to_stored m t)
  /\ length rows = Nat.min (Z.to_nat limit) (size (fl_events f))
  /\ exists rest, rows ++ rest ≡ₚ stored_rows f /\ forall e e', e ∈ rows -> e' ∈ rest -> (se_occurred_at e' <= se_occurred_at e)%Z.
Proof.
  intros (all & Hp & Hs & ->). unfold newest_first in *. rewrite <-(take_drop (Z.to_nat limit) all) in Hs.
  assert (forall (R : StoredEvent -> StoredEvent -> Prop) l1 l2, StronglySorted R (l1 ++ l2) ->
    StronglySorted R l1 /\ forall x y, x ∈ l1 -> y ∈ l2 -> R x y) as Happ.
  { clear. intros R l1 l2. induction l1 as [|x l1 IH]; cbn; [intros _; split; [constructor|set_solver]|].
    intros [Hs Hx]%StronglySorted_inv. destruct (IH Hs) as [Hs1 HR]. apply Forall_app in Hx as [Hx1 Hx2]. split; [by constructor|].
    intros y z [->|Hy]%elem_of_cons Hz; [|by apply HR]. rewrite Forall_forall in Hx2. by apply Hx2. }
  destruct (Happ _ _ _ Hs) as [Hs1 HR]. split_and!; [done| | |].
  - intros e He. apply stored_rows_elem. rewrite <-Hp. rewrite <-(take_drop (Z.to_nat limit) all). set_solver.
  - rewrite length_take, Hp. unfold stored_rows. by rewrite length_map, length_map_to_list.
  - exists (drop (Z.to_nat limit) all). rewrite take_drop. by split.
Qed.
End Events.

(** ** An evaluator

  Every query has an answer on every table: the rows sorted by the [ORDER BY], with the
  groups of the [GROUP BY]. *)

Section Evaluator.
Context `{SerdeValue} `{CL : CollationLaws}.
Implicit Types (f : Fleet) (now : DateTime).

Definition host_le (a b : Uuid * AgentRow) : Prop := collate (ag_host a.2) (ag_host b.2) = true.
Definition occurred_ge (a b : StoredEvent) : Prop := (se_occurred_at b <= se_occurred_at a)%Z.
#[export] Instance host_le_dec : RelDecision host_le.
Proof. intros a b. unfold host_le. apply _. Defined.
#[export] Instance pair_le_dec : RelDecision pair_le.
Proof. intros a b. unfold pair_le. destruct (String.eqb _ _); apply _. Defined.
#[export] Instance occurred_ge_dec : RelDecision occurred_ge.
Proof. intros a b. unfold occurred_ge. apply _. Defined.
#[export] Instance host_le_total : Total host_le.
Proof. intros a b. apply collate_total. Qed.
#[export] Instance host_le_trans : Transitive host_le.
Proof. intros a b c. apply collate_trans. Qed.
#[export] Instance occurred_ge_total : Total occurred_ge.
Proof. intros a b. unfold occurred_ge. lia. Qed.
#[export] Instance occurred_ge_trans : Transitive occurred_ge.
Proof. intros a b c. unfold occurred_ge. lia. Qed.
#[export] Instance pair_le_total : Total pair_le.
Proof.
  intros [[k v] n] [[k' v'] n']. unfold pair_le. cbn. rewrite (String.eqb_sym k' k).
  destruct (String.eqb k k'); apply collate_total.
Qed.
#[export] Instance pair_le_trans : Transitive pair_le.
Proof.
  intros [[k1 v1] n1] [[k2 v2] n2] [[k3 v3] n3]. unfold pair_le. cbn.
  destruct (String.eqb_spec k1 k2) as [->|Hne].
  - intros H1. destruct (String.eqb k2 k3); [by apply collate_trans|done].
  - intros H1. destruct (String.eqb_spec k2 k3) as [<-|Hne'].
    + by rewrite (proj2 (String.eqb_neq _ _) Hne).
    + intros H2. destruct (String.eqb_spec k1 k3) as [->|]; [|by eapply collate_trans].
      destruct Hne. by apply collate_antisym.
Qed.

Definition query_agents f : list (Uuid * AgentRow) := merge_sort host_le (map_to_list (fl_agents f)).
Definition query_labels f : list (Uuid * string * string) := map_to_list (fl_labels f).
Definition query_categories f : list (string * string * Z) :=
  merge_sort pair_le (map (fun kv => (kv, Z.of_nat (label_count f kv.1 kv.2)))
    (remove_dups (map (fun e => (e.1.2, e.2)) (map_to_list (fl_labels f))))).
Definition query_events f (limit : Z) : list StoredEvent := take (Z.to_nat limit) (merge_sort occurred_ge (stored_rows f)).
Definition recent_ranks f now (id : Uuid) : list Z :=
  map (fun e => sql_rank (se_severity e)) (List.filter (fun e => within_day now e && N.eqb (se_agent_id e) id) (stored_rows f)).
Definition query_severities f now : list (Uuid * Z) :=
  map (fun id => (id, foldr Z.max 0%Z (recent_ranks f now id)))
    (remove_dups (map se_agent_id (List.filter (within_day now) (stored_rows f)))).

Lemma query_agents_answer f : agents_answer f (query_agents f).
Proof. split; [apply merge_sort_Permutation|apply (StronglySorted_merge_sort host_le)]. Qed.
Lemma query_labels_answer f : labels_answer f (query_labels f).
Proof. unfold labels_answer, query_labels. reflexivity. Qed.
Lemma query_events_answer f limit : events_answer f limit (query_events f limit).
Proof.
  exists (merge_sort occurred_ge (stored_rows f)).
  split_and!; [apply merge_sort_Permutation|apply (StronglySorted_merge_sort occurred_ge)|done].
Qed.

Lemma label_count_pos f k v :
  (k, v) ∈ map (fun e : Uuid * string * string => (e.1.2, e.2)) (map_to_list (fl_labels f)) <-> 0 < label_count f k v.
Proof.
  unfold label_count. rewrite list_elem_of_fmap. split.
  - intros ([[id k'] v'] & [= <- <-] & Hin). assert ((id, k, v) ∈ List.filter (fun e : Uuid * string * string =>
      String.eqb e.1.2 k && String.eqb e.2 v) (map_to_list (fl_labels f))) as Hf.
    { apply list_elem_of_In, List.filter_In. cbn. rewrite !String.eqb_refl. by split; [apply list_elem_of_In|]. }
    destruct (List.filter _ _); [by apply elem_of_nil in Hf|cbn; lia].
  - intros Hc. destruct (List.filter _ _) as [|e l] eqn:Hf; [cbn in Hc; lia|].
    assert (In e (e :: l)) as Hin by by left. rewrite <-Hf in Hin. apply List.filter_In in Hin as [Hin [Hk Hv]%andb_true_iff].
    apply String.eqb_eq in Hk as <-, Hv as <-. exists e. split; [done|]. by apply list_elem_of_In.
Qed.
Lemma query_categories_answer f : categories_answer f (query_categories f).
Proof.
  unfold categories_answer, query_categories. split_and!.
  - rewrite merge_sort_Permutation, <-list_fmap_compose. cbn. unfold compose. cbn. rewrite list_fmap_id. apply NoDup_remove_dups.
  - apply (StronglySorted_merge_sort pair_le).
  - intros k v n. rewrite merge_sort_Permutation, list_elem_of_fmap. split.
    + intros ([k' v'] & [= -> -> ->] & Hin%elem_of_remove_dups%label_count_pos). cbn. lia.
    + intros [-> Hn]. exists (k, v). split; [done|]. apply elem_of_remove_dups, label_count_pos. lia.
Qed.

Lemma foldr_max_spec (l : list Z) :
  (forall x, x ∈ l -> (x <= foldr Z.max 0 l)%Z) /\ (l <> [] -> Forall (fun x => 0 < x)%Z l -> foldr Z.max 0%Z l ∈ l).
Proof.
  induction l as [|x l [IHle IHin]]; cbn; [split; [set_solver|done]|]. split.
  - intros y [->|Hy]%elem_of_cons; [lia|]. specialize (IHle y Hy). lia.
  - intros _ [Hx Hl]%Forall_cons. destruct l as [|y l]; [cbn; rewrite Z.max_l by lia; by left|].
    specialize (IHin ltac:(done) Hl). destruct (Z.max_spec x (foldr Z.max 0%Z (y :: l))) as [[_ ->]|[_ ->]]; set_solver.
Qed.
Lemma recent_ranks_elem f now id r :
  r ∈ recent_ranks f now id
  <-> exists e, e ∈ stored_rows f /\ within_day now e = true /\ se_agent_id e = id /\ sql_rank (se_severity e) = r.
Proof.
  unfold recent_ranks. rewrite list_elem_of_fmap. setoid_rewrite list_elem_of_In. setoid_rewrite List.filter_In.
  setoid_rewrite andb_true_iff. setoid_rewrite N.eqb_eq. split.
  - intros (e & -> & He & Ht & Hid). by exists e.
  - intros (e & He & Ht & Hid & <-). by exists e.
Qed.
Lemma sql_rank_pos s : (0 < sql_rank s)%Z.
Proof. unfold sql_rank. repeat case_match; lia. Qed.
Lemma query_severities_answer f now : severities_answer f now (query_severities f now).
Proof.
  unfold severities_answer, query_severities. split.
  { rewrite <-list_fmap_compose. unfold compose. cbn. rewrite list_fmap_id. apply NoDup_remove_dups. }
  intros id rank. setoid_rewrite <-recent_ranks_elem. rewrite list_elem_of_fmap.
  assert (Forall (fun x => 0 < x)%Z (recent_ranks f now id)) as Hpos.
  { apply Forall_forall. intros r (e & _ & _ & _ & <-)%recent_ranks_elem. apply sql_rank_pos. }
  destruct (foldr_max_spec (recent_ranks f now id)) as [Hle Hin].
  assert (id ∈ remove_dups (map se_agent_id (List.filter (within_day now) (stored_rows f))) <-> recent_ranks f now id <> []) as Hid.
  { rewrite elem_of_remove_dups, list_elem_of_fmap. setoid_rewrite list_elem_of_In. setoid_rewrite List.filter_In.
    setoid_rewrite <-list_elem_of_In. split.
    - intros (e & -> & He & Ht) Hnil. apply (not_elem_of_nil (sql_rank (se_severity e))). rewrite <-Hnil. apply recent_ranks_elem. by exists e.
    - intros Hne. destruct (recent_ranks f now id) as [|r l] eqn:Hr; [done|].
      assert (r ∈ recent_ranks f now id) as (e & He & Ht & <- & _)%recent_ranks_elem by (rewrite Hr; by left). by exists e. }
  split.
  - intros (? & [= <- ->] & Hd%Hid). split; [by apply Hin|]. intros e He Ht Ha. apply Hle, recent_ranks_elem. by exists e.
  - intros [Hr Hmax]. assert (recent_ranks f now id <> []) as Hne by (intros Hnil; rewrite Hnil in Hr; by apply elem_of_nil in Hr).
    exists id. split; [|by apply Hid]. f_equal. apply Z.le_antisymm; [by apply Hle|].
    specialize (Hin Hne Hpos). apply recent_ranks_elem in Hin as (e & He & Ht & Ha & <-). by apply Hmax.
Qed.
End Evaluator.

(** The bytewise collation (Postgres' [C]). *)
#[export] Instance bytewise : Collation := {| collate a b := negb (str_ltb b a) |}.
#[export] Instance bytewise_laws : CollationLaws.
Proof.
  assert (forall a b, collate a b = true <-> a = b \/ str_ltb a b = true) as Hle.
  { intros a b. cbn. destruct (str_ltb b a) eqn:Hba; cbn; split; try done.
    - intros [->|Hab]; [by rewrite str_ltb_irrefl in Hba|].
      pose proof (str_ltb_trans _ _ _ Hab Hba) as Hc. by rewrite str_ltb_irrefl in Hc.
    - intros _. destruct (str_ltb a b) eqn:Hab; [by right|left; by apply str_ltb_total]. }
  split.
  - intros a b. rewrite !Hle. destruct (str_ltb a b) eqn:Hab; [auto|].
    destruct (str_ltb b a) eqn:Hba; [auto|]. left. left. by apply str_ltb_total.
  - intros a b c. rewrite !Hle. intros [->|Hab] [->|Hbc]; auto. right. by eapply str_ltb_trans.
  - intros a b. rewrite !Hle. intros [->|Hab] [Hba|Hba]; auto.
    pose proof (str_ltb_trans _ _ _ Hab Hba) as Hc. by rewrite str_ltb_irrefl in Hc.
Qed.
