(* ===== verification/KubeMain.v ===== *)
(** * The programs of ravn-k8s ([config.rs], [publish.rs], [http.rs], [nats.rs], [bin/])

  The controller, the node agent and the executor as they start and run: the
  environment, the choice of transport, the publication of a signal, the watches that
  publish, and the executor's key.  The theorems compose them with the control plane:
  what a publication that succeeded did to its tables, and under which key the
  executor acts.

  The Kubernetes API is the items of its watches, the wire an interface. *)

From S2P Require Export Kube KubeLogs AgentConfig Fleet.

(** ** Configuration ([config.rs]) *)

Record KubeConfig := mkKubeConfig {
  kc_nats_url : string;
  kc_agent_id : AgentId;
  kc_host : string;
  kc_namespace : option string;
  kc_node_name : option string;
  kc_ingest_url : option string;
  kc_sa_token_file : string;
}.

Section Programs.
Context `{SerdeValue} `{UuidText}.
Variable uuid_error : string -> string.

(** A UUID from the environment, a fresh one without it. *)
Definition identity_var (var : string -> option string) (key : string) (fresh : Uuid) : result Chain Uuid :=
  match env_var var key with
  | Some s => with_context (key +:+ " must be a UUID") (ok_or [uuid_error s] (uuid_parse s))
  | None => Ok fresh
  end.

(** [Config::from_env]. *)
Definition kube_from_env (var : string -> option string) (fresh : Uuid) : result Chain KubeConfig :=
  agent_id ← identity_var var "RAVN_CONTROLLER_ID" fresh;
  Ok {| kc_nats_url := default "nats://127.0.0.1:4222"%string (var "NATS_URL"%string);
        kc_agent_id := mkAgentId agent_id;
        kc_host := default "kubernetes"%string (or_else (env_var var "RAVN_CLUSTER") (env_var var "HOSTNAME"));
        kc_namespace := env_var var "RAVN_K8S_NAMESPACE";
        kc_node_name := env_var var "NODE_NAME";
        kc_ingest_url := env_var var "RAVN_INGEST_URL";
        kc_sa_token_file := default "/var/run/secrets/ravn/token"%string (env_var var "RAVN_SA_TOKEN_FILE") |}.

(** ** Publication ([publish.rs], [http.rs], [nats.rs]) *)

Inductive Publisher :=
  | NatsPublisher (subject : string)
  | HttpPublisher (ingest_url token_file : string).

(** What publishing uses of the world [W]: files, an HTTP exchange with its status,
    and the two calls on a NATS connection. *)
Record Wire (W : Type) := mkWire {
  wr_read_file : string -> W -> result string string;
  wr_post : string -> string -> Message -> W -> result Chain N * W;
  wr_publish : string -> Message -> W -> result Chain unit * W;
  wr_flush : W -> result Chain unit * W;
}.
#[global] Arguments wr_read_file {W} w. #[global] Arguments wr_post {W} w.
#[global] Arguments wr_publish {W} w. #[global] Arguments wr_flush {W} w.
Variable status_display : N -> string.

(** [HttpPublisher::new] and [NatsPublisher::connect]; building the client and
    connecting may fail. *)
Definition http_publisher_new (http_client : result Chain unit) (ingest_url token_file : string) : result Chain Publisher :=
  _ ← with_context "building HTTP client" http_client; Ok (HttpPublisher ingest_url token_file).
Definition nats_publisher_connect (nats_connect : string -> result Chain unit) (url : string) (agent_id : AgentId)
    : result Chain Publisher :=
  _ ← with_context ("connecting to NATS at " +:+ url) (nats_connect url);
  Ok (NatsPublisher ("ravn.messages." +:+ uuid_to_string (agent_uuid agent_id))).
(** [Publisher::connect]. *)
Definition publisher_connect (http_client : result Chain unit) (nats_connect : string -> result Chain unit)
    (c : KubeConfig) : result Chain Publisher :=
  match kc_ingest_url c with
  | Some url => http_publisher_new http_client url (kc_sa_token_file c)
  | None => nats_publisher_connect nats_connect (kc_nats_url c) (kc_agent_id c)
  end.

Section Publish.
Context {W : Type}.
Variable wire : Wire W.

(** [HttpPublisher::publish]: the token is read again for every message. *)
Definition http_publish (url file : string) (m : Message) (w : W) : result Chain unit * W :=
  match with_context ("reading ServiceAccount token at " +:+ file)
          (map_err (fun e => [e]) (wr_read_file wire file w)) with
  | Err e => (Err e, w)
  | Ok token =>
      let (answer, w) := wr_post wire url (trim token) m w in
      (status ← with_context ("POSTing to " +:+ url) answer;
       if (200 <=? status)%N && (status <? 300)%N then Ok tt
       else Err ["ingest endpoint returned " +:+ status_display status], w)
  end.
(** [NatsPublisher::publish]. *)
Definition nats_publish (subject : string) (m : Message) (w : W) : result Chain unit * W :=
  let (sent, w) := wr_publish wire subject m w in
  match with_context "publishing to NATS" sent with
  | Err e => (Err e, w)
  | Ok _ => let (flushed, w) := wr_flush wire w in (with_context "flushing NATS" flushed, w)
  end.
(** [Publisher::publish]. *)
Definition publish (p : Publisher) (m : Message) (w : W) : result Chain unit * W :=
  match p with
  | HttpPublisher url file => http_publish url file m w
  | NatsPublisher subject => nats_publish subject m w
  end.

(** The messages of one item, in order; a failure is logged and the next follows. *)
Fixpoint publish_all (p : Publisher) (ms : list Message) (w : W) : list (Message * result Chain unit) * W :=
  match ms with
  | [] => ([], w)
  | m :: ms =>
      let (r, w) := publish p m w in
      let (rs, w) := publish_all p ms w in ((m, r) :: rs, w)
  end.

(** One item of a watch: the event, what happened in the world since the last one,
    and what the step draws. *)
Record Item (A D : Type) := mkItem { it_event : WatchEvent A; it_since : W -> W; it_draws : D }.
#[global] Arguments it_event {A D} i. #[global] Arguments it_since {A D} i. #[global] Arguments it_draws {A D} i.

(** [while let Some(event) = stream.try_next().await.context(..)?]: every item's
    signals are published; an error of the stream ends the program. *)
Fixpoint watch_loop {A D S} (context : string) (step : WatchEvent A -> D -> S -> list Message * S) (p : Publisher)
    (items : list (result Chain (Item A D))) (s : S) (w : W)
    : result Chain unit * list (Message * result Chain unit) * W :=
  match items with
  | [] => (Ok tt, [], w)
  | Err e :: _ => (with_context context (Err e), [], w)
  | Ok it :: items =>
      let (ms, s) := step (it_event it) (it_draws it) s in
      let (sent, w) := publish_all p ms (it_since it w) in
      let '(r, rest, w) := watch_loop context step p items s w in
      (r, sent ++ rest, w)
  end.
End Publish.

(** ** The watches *)

(** What one step draws: identifiers and the time. *)
Record Draws := mkDraws { dr_ids : nat -> Uuid; dr_now : DateTime }.

(** [watcher::run]'s step: at most one message. *)
Definition workload_step (agent_id : AgentId) (host : string) (ev : WatchEvent KubeEvent) (d : Draws) (seen : gmap string Z)
    : list Message * gmap string Z :=
  let (m, seen) := watch_step ev agent_id host (dr_ids d 0) (dr_now d) seen in (option_list m, seen).
(** [node::run]'s step. *)
Definition node_step (agent_id : AgentId) (host : string) (ev : WatchEvent Node) (d : Draws) (active : gset string)
    : list Message * gset string :=
  match ev with
  | InitApply n => ([], (reconcile n agent_id host (dr_ids d) (dr_now d) false active).2)
  | Apply n => reconcile n agent_id host (dr_ids d) (dr_now d) true active
  | _ => ([], active)
  end.
(** [node::run]'s restriction to one node. *)
Definition node_fields (node_name : option string) : option string :=
  (fun n => "metadata.name=" +:+ n) <$> node_name.

Section Logs.
Context `{Lru} `{LineHash}.
(** What fetching a pod's log gives, and the draws of its lines. *)
Record LogDraws := mkLogDraws { ld_logs : string -> result string string; ld_lines : nat -> LineDraw }.
Definition log_step (c : Config) (agent_id : AgentId) (host : string) (ev : WatchEvent PodMeta) (d : LogDraws)
    (dd : LogDeduper) : list Message * LogDeduper :=
  scrape_step c agent_id host ev (ld_logs d) (ld_lines d) dd.
End Logs.

(** ** The binaries *)

(** What a program finds when it starts. *)
Record KubeSurroundings := mkKubeSurroundings {
  ks_var : string -> option string;
  ks_read_file : string -> result string string;
  ks_fresh_id : Uuid;
  ks_kube_client : result Chain unit;
  ks_http_client : result Chain unit;
  ks_nats_connect : string -> result Chain unit;
}.
Definition CLIENT_CONTEXT : string := "building Kubernetes client (in-cluster or kubeconfig)".

(** [main] of the controller, up to its two loops. *)
Definition controller_start (s : KubeSurroundings) : result Chain (KubeConfig * Publisher) :=
  config ← kube_from_env (ks_var s) (ks_fresh_id s);
  _ ← with_context CLIENT_CONTEXT (ks_kube_client s);
  publisher ← publisher_connect (ks_http_client s) (ks_nats_connect s) config;
  Ok (config, publisher).
Definition controller_watch {W} (wire : Wire W) (c : KubeConfig) (p : Publisher)
    (items : list (result Chain (Item (W := W) KubeEvent Draws))) (w : W) :=
  watch_loop wire "kube event watch stream" (workload_step (kc_agent_id c) (kc_host c)) p items ∅ w.
(** The log scraper runs beside it, on the same publisher; [None] is a panic. *)
Definition controller_logs `{Lru} `{LineHash} {W} (wire : Wire W) (c : KubeConfig) (p : Publisher)
    (items : list (result Chain (Item (W := W) PodMeta LogDraws))) (w : W) :=
  let config := {| cf_per_pod_cap := cf_per_pod_cap config_default; cf_ttl := cf_ttl config_default;
                   cf_namespace := kc_namespace c; cf_min_severity := cf_min_severity config_default |} in
  dd ← deduper_new (cf_per_pod_cap config) (cf_ttl config);
  Some (watch_loop wire "kube pod watch stream" (log_step config (kc_agent_id c) (kc_host c)) p items dd w).

(** [main] of the node agent: the host of its events is its node. *)
Definition node_agent_start (s : KubeSurroundings) : result Chain (KubeConfig * string * Publisher) :=
  config ← kube_from_env (ks_var s) (ks_fresh_id s);
  let host := default (kc_host config) (kc_node_name config) in
  _ ← with_context CLIENT_CONTEXT (ks_kube_client s);
  publisher ← publisher_connect (ks_http_client s) (ks_nats_connect s) config;
  Ok (config, host, publisher).
Definition node_agent_watch {W} (wire : Wire W) (c : KubeConfig) (host : string) (p : Publisher)
    (stream : option string -> list (result Chain (Item (W := W) Node Draws))) (w : W) :=
  watch_loop wire "kube node watch stream" (node_step (kc_agent_id c) host) p
    (stream (node_fields (kc_node_name c))) ∅ w.

Section Executor.
Context `{Base64} `{Ed25519} `{SerdeJson}.

(** [load_verifying_key]: from the environment, or from a mounted file. *)
Definition load_verifying_key (var : string -> option string) (read_file : string -> result string string)
    : result Chain VerifyingKey :=
  match env_var var "RAVN_VERIFYING_KEY" with
  | Some b64 => map_err (fun e => ["RAVN_VERIFYING_KEY: " +:+ key_error_display e]) (verifying_key_from_b64 b64)
  | None =>
      match env_var var "RAVN_VERIFYING_KEY_FILE" with
      | Some path =>
          contents ← with_context ("reading verifying key from " +:+ path) (map_err (fun e => [e]) (read_file path));
          map_err (fun e => ["RAVN_VERIFYING_KEY_FILE (" +:+ path +:+ "): " +:+ key_error_display e])
            (verifying_key_from_b64 (trim contents))
      | None => Err ["no Ed25519 verifying key provided; set RAVN_VERIFYING_KEY (base64) or RAVN_VERIFYING_KEY_FILE (path to file)"%string]
      end
  end.

Context {W : Type} `{!Host W}.
Variable parse_envelope : string -> option CommandEnvelope.
(** The messages a subject delivers until the subscription closes. *)
Variable subscribe : string -> result Chain (list string).

(** [run_command_loop]: the results it publishes on the result subject, the executed
    ids and the world. *)
Definition run_command_loop (nats_connect : string -> result Chain unit) (fuel : nat) (nats_url agent_id : string)
    (ring : Keyring) (w : W * Log)
    : result Chain (list (string * (Uuid * outcome ActionResult)) * (gset Uuid * (W * Log))) :=
  _ ← with_context ("connecting to NATS at " +:+ nats_url) (nats_connect nats_url);
  let command_subject := "ravn.commands." +:+ agent_id in
  let result_subject := "ravn.results." +:+ agent_id in
  payloads ← with_context ("subscribing to " +:+ command_subject) (subscribe command_subject);
  let (results, st) := command_loop parse_envelope fuel ring payloads (∅, w) in
  Ok (map (fun r => (result_subject, r)) results, st).

(** [main] of the executor. *)
Definition executor_main (s : KubeSurroundings) (fuel : nat) (w : W * Log)
    : result Chain (list (string * (Uuid * outcome ActionResult)) * (gset Uuid * (W * Log))) :=
  agent_id ← identity_var (ks_var s) "RAVN_EXECUTOR_ID" (ks_fresh_id s);
  let nats_url := default "nats://127.0.0.1:4222"%string (ks_var s "NATS_URL"%string) in
  verifying_key ← load_verifying_key (ks_var s) (ks_read_file s);
  _ ← with_context CLIENT_CONTEXT (ks_kube_client s);
  run_command_loop (ks_nats_connect s) fuel nats_url (uuid_to_string agent_id) (keyring_single verifying_key) w.
End Executor.
End Programs.

(** ** The executor's authority *)

Section ExecutorFacts.
Context `{SerdeValue} `{UuidText} `{Base64} `{Ed25519} `{SerdeJson} {W : Type} `{!Host W}.
Variable uuid_error : string -> string.
Variable parse_envelope : string -> option CommandEnvelope.
Variable subscribe : string -> result Chain (list string).

(** Where the executor's key comes from: the environment decides when it is set, and
    only without it the file does. *)
Definition key_source (s : KubeSurroundings) (vk : VerifyingKey) : Prop :=
  (exists b64, env_var (ks_var s) "RAVN_VERIFYING_KEY" = Some b64 /\ verifying_key_from_b64 b64 = Ok vk)
  \/ (env_var (ks_var s) "RAVN_VERIFYING_KEY" = None
      /\ exists path text, env_var (ks_var s) "RAVN_VERIFYING_KEY_FILE" = Some path /\ ks_read_file s path = Ok text
           /\ verifying_key_from_b64 (trim text) = Ok vk).

Lemma load_verifying_key_source s vk : load_verifying_key (ks_var s) (ks_read_file s) = Ok vk -> key_source s vk.
Proof.
  unfold load_verifying_key, key_source. destruct (env_var (ks_var s) "RAVN_VERIFYING_KEY") as [b64|].
  - intros Hk. left. exists b64. by destruct (verifying_key_from_b64 b64); simplify_eq/=.
  - destruct (env_var (ks_var s) "RAVN_VERIFYING_KEY_FILE") as [path|]; [|done]. intros Hk. right. split; [done|].
    destruct (ks_read_file s path) as [text|] eqn:Ht; [|done]. exists path, text. cbn in Hk.
    by destruct (verifying_key_from_b64 (trim text)); simplify_eq/=.
Qed.

(** C32. The executor acts under one key. It runs only when a key is given and decodes,
    and then over every message its subject delivers: it reports to its own result
    subject, each command at most once, and everything it executed is accounted for
    by the handling of an envelope that verified against that key alone. *)
Theorem executor_acts_under_its_key s fuel w l reports st :
  executor_main uuid_error parse_envelope subscribe s fuel (w, l) = Ok (reports, st) ->
  exists vk id payloads pieces,
    key_source s vk /\ subscribe ("ravn.commands." +:+ uuid_to_string id) = Ok payloads
    /\ match env_var (ks_var s) "RAVN_EXECUTOR_ID" with Some raw => uuid_parse raw = Some id | None => id = ks_fresh_id s end
    /\ Forall (fun r => r.1 = "ravn.results." +:+ uuid_to_string id) reports
    /\ NoDup reports.*2.*1
    /\ st.2.2 = l ++ concat pieces
    /\ Forall2 (handled parse_envelope fuel (keyring_single vk) payloads) reports.*2 pieces.
Proof.
  unfold executor_main. intros (id & Hid & Hm)%bind_Ok_inv. apply bind_Ok_inv in Hm as (vk & Hvk & Hm).
  apply bind_Ok_inv in Hm as (_ & _ & Hm). unfold run_command_loop in Hm. apply bind_Ok_inv in Hm as (_ & _ & Hm).
  apply bind_Ok_inv in Hm as (payloads & Hsub & Hm).
  pose proof (command_loop_ids parse_envelope fuel (keyring_single vk) payloads ∅ w l) as (Hnd & _).
  pose proof (command_loop_log parse_envelope fuel (keyring_single vk) payloads ∅ w l) as (pieces & Hl & Hf).
  destruct (command_loop _ _ _ _ _) as [results st'] eqn:Hc. injection Hm as <- <-. cbn [fst snd] in *.
  assert (forall subject : string, (map (fun r => (subject, r)) results).*2 = results) as Hsnd.
  { intros subject. rewrite <-list_fmap_compose. by apply list_fmap_id. }
  exists vk, id, payloads, pieces. rewrite !Hsnd. split_and!; try done.
  - by apply load_verifying_key_source.
  - unfold with_context in Hsub. by destruct (subscribe _); simplify_eq/=.
  - unfold identity_var in Hid. destruct (env_var (ks_var s) "RAVN_EXECUTOR_ID") as [raw|]; [|by injection Hid].
    by destruct (uuid_parse raw); simplify_eq/=.
  - by apply Forall_map, Forall_true.
Qed.
End ExecutorFacts.

(** ** From the watch to the tables of the control plane *)

Section Delivery.
Context `{SerdeValue} `{UuidText} `{Jwt}.
Variable status_display : N -> string.
Variable inference : bool.
Variable ingest_auth : option IngestAuth.

(** A request arrives and is answered, or it does not arrive, or its answer is lost. *)
Inductive Network := Up | Down | AnswerLost.
(** The pod's files, the network, and the control plane behind its ingest. *)
Record Site := mkSite {
  st_files : string -> result string string;
  st_network : Network;
  st_inputs : IngestInputs;
  st_allowed : bool;
  st_review : option (string -> option TokenReviewStatus);
  st_tables : Ingestion;
}.
Definition with_tables (g : Ingestion) (s : Site) : Site :=
  mkSite (st_files s) (st_network s) (st_inputs s) (st_allowed s) (st_review s) g.
Definition site_ingest (bearer : string) (m : Message) (s : Site) : (N * string) * Ingestion :=
  ingest (st_inputs s) inference (st_allowed s) ingest_auth (st_review s) (Some ("Bearer " +:+ bearer)) m (st_tables s).
Definition site_wire : Wire Site := {|
  wr_read_file path s := st_files s path;
  wr_post _ bearer m s :=
    match st_network s with
    | Up => (Ok (site_ingest bearer m s).1.1, with_tables (site_ingest bearer m s).2 s)
    | Down => (Err ["connection refused"%string], s)
    | AnswerLost => (Err ["connection reset"%string], with_tables (site_ingest bearer m s).2 s)
    end;
  wr_publish _ _ s := (Err ["no broker"%string], s);
  wr_flush s := (Ok tt, s);
|}.
#[local] Abbreviation publish_at := (publish status_display site_wire).
#[local] Abbreviation watch_to := (watch_loop status_display site_wire).

Definition stored (m : Message) (s : Site) : Prop := is_Some (fl_events (ig_fleet (st_tables s)) !! event_key m).
(** Nothing that was stored is missing; the database answers. *)
Definition keeps (s s' : Site) : Prop :=
  (forall m, stored m s -> stored m s') /\ (ii_insert_ok (st_inputs s) = true -> ii_insert_ok (st_inputs s') = true).

#[local] Instance keeps_preorder : PreOrder keeps.
Proof. split; [by intros s|]. intros a b c [Ha Ha'] [Hb Hb']. split; auto. Qed.

Lemma persist_stores i m (g : Ingestion) m' :
  (is_Some (fl_events (ig_fleet g) !! event_key m') ->
     is_Some (fl_events (ig_fleet (persist_message i inference m g)) !! event_key m'))
  /\ (ii_insert_ok i = true -> is_Some (fl_events (ig_fleet (persist_message i inference m g)) !! event_key m)).
Proof.
  rewrite persist_events. destruct (ii_insert_ok i); [|done]. unfold insert_message, event_key.
  destruct (fl_events (ig_fleet g) !! (ev_id (msg_event m), ev_occurred_at (msg_event m))) as [x|] eqn:Hx.
  - split; [done|]. intros _. by rewrite Hx.
  - cbn [fl_events]. split; [intros Hs|intros _; by rewrite lookup_insert_eq].
    destruct (decide ((ev_id (msg_event m), ev_occurred_at (msg_event m))
      = (ev_id (msg_event m'), ev_occurred_at (msg_event m')))) as [<-|Hne]; [by rewrite lookup_insert_eq|].
    by rewrite lookup_insert_ne.
Qed.

(** One publication over HTTP: success is exactly the answer 202, and then the pod's
    token was accepted and the message persisted. *)
Lemma publish_ingest url file m s :
  let r := publish_at (HttpPublisher url file) m s in
  keeps s r.2
  /\ (r.1 = Ok tt -> exists token, st_files s file = Ok token /\ st_network s = Up /\ st_allowed s = true
        /\ ingest_identity ingest_auth (st_review s) (trim token)
        /\ (ii_insert_ok (st_inputs s) = true -> stored m r.2)).
Proof.
  cbv zeta. unfold publish, http_publish. cbn [wr_read_file wr_post site_wire]. destruct (st_files s file) as [token|e] eqn:Hf; cbn; [|done].
  assert (keeps s (with_tables (site_ingest (trim token) m s).2 s)) as Hk.
  { split; [|done]. intros m' Hm'. unfold stored, with_tables. cbn [st_tables]. unfold site_ingest.
    pose proof (ingest_spec (st_inputs s) inference (st_allowed s) ingest_auth (st_review s)
      (Some ("Bearer " +:+ trim token)) m (st_tables s)) as [Hno Hyes].
    destruct (decide ((ingest (st_inputs s) inference (st_allowed s) ingest_auth (st_review s)
      (Some ("Bearer " +:+ trim token)) m (st_tables s)).1.1 = 202%N)) as [Hy|Hn].
    - destruct (Hyes Hy) as (_ & -> & _). by apply persist_stores.
    - by rewrite (Hno Hn). }
  destruct (st_network s) eqn:Hnet; cbn; [|done|by split; [exact Hk|]].
  split; [exact Hk|]. intros Hok. exists token. split; [done|]. split; [done|].
  pose proof (ingest_spec (st_inputs s) inference (st_allowed s) ingest_auth (st_review s)
    (Some ("Bearer " +:+ trim token)) m (st_tables s)) as [Hno Hyes].
  unfold site_ingest in *.
  assert ((ingest (st_inputs s) inference (st_allowed s) ingest_auth (st_review s)
      (Some ("Bearer " +:+ trim token)) m (st_tables s)).1.1 = 202%N) as H202.
  { revert Hok. unfold ingest. repeat case_match; cbn; done. }
  destruct (Hyes H202) as (Hal & Hst & token' & Htok & Hid). cbn in Htok. injection Htok as <-. split_and!; [done|done|]. intros Hins.
  unfold stored, with_tables. cbn [st_tables]. rewrite Hst. by apply persist_stores.
Qed.

(** The signals of a watch, whatever becomes of them. *)
Fixpoint signals {A D S} (step : WatchEvent A -> D -> S -> list Message * S)
    (items : list (result Chain (Item (W := Site) A D))) (st : S) : list Message :=
  match items with
  | Ok it :: items =>
      let (ms, st) := step (it_event it) (it_draws it) st in ms ++ signals step items st
  | _ => []
  end.

Lemma publish_all_stored url file ms s :
  ii_insert_ok (st_inputs s) = true ->
  let '(sent, s') := publish_all status_display site_wire (HttpPublisher url file) ms s in
  keeps s s' /\ sent.*1 = ms /\ forall m, (m, Ok tt) ∈ sent -> stored m s'.
Proof.
  revert s. induction ms as [|m ms IH]; intros s Hins; cbn [publish_all].
  { split_and!; [done..|]. intros m Hm. by apply elem_of_nil in Hm. }
  pose proof (publish_ingest url file m s) as [Hk Hok]. destruct (publish_at _ m s) as [r s1]. cbn [fst snd] in *.
  specialize (IH s1 (proj2 Hk Hins)). destruct (publish_all _ _ _ ms s1) as [rs s2]. destruct IH as (Hk2 & <- & Hst).
  split_and!; [by etrans|done|]. intros m' [[= <- <-]|Hm']%elem_of_cons; [|by apply Hst].
  apply Hk2. by destruct (Hok eq_refl) as (_ & _ & _ & _ & _ & Hs); apply Hs.
Qed.

End Delivery.

(** ** Examples *)

Definition executor_surroundings : KubeSurroundings := {|
  ks_var k := if String.eqb k "RAVN_VERIFYING_KEY" then Some (verifying_key_to_b64 (verifying_key key_a)) else None;
  ks_read_file path := Err "No such file or directory"%string; ks_fresh_id := 7; ks_kube_client := Ok tt;
  ks_http_client := Ok tt; ks_nats_connect _ := Ok tt |}.
Definition executor_run :=
  executor_main (fun s => s) toy_parse (fun _ => Ok ["genuine"; "genuine"]%string) executor_surroundings 5
    (toy_start, []).

Lemma executor_acts_under_its_key_witness :
  exists reports st, executor_run = Ok (reports, st) /\ length reports = 1 /\ st.2.2 <> []
    /\ exists vk, key_source executor_surroundings vk
         /\ forall r, r ∈ reports -> exists id, r.1 = "ravn.results." +:+ uuid_to_string id.
Proof.
  assert (match executor_run with Ok (reports, st) => bool_decide (length reports = 1 /\ st.2.2 <> []) | Err _ => false end
    = true) as Hc by (vm_compute; reflexivity).
  destruct executor_run as [[reports st]|] eqn:Hr; [|discriminate]. apply bool_decide_eq_true_1 in Hc as [Hl Hne].
  exists reports, st. split_and!; [reflexivity|exact Hl|exact Hne|].
  destruct (executor_acts_under_its_key _ _ _ _ _ _ _ _ _ Hr) as (vk & id & _ & _ & Hk & _ & _ & Hrep & _).
  exists vk. split; [exact Hk|]. intros r Hin. exists id. rewrite Forall_forall in Hrep. exact (Hrep r Hin).
Defined.

(** An out-of-memory kill, and the same event seen again. *)
Definition oom_event : KubeEvent := {|
  ke_uid := Some "u1"%string; ke_reason := Some "OOMKilled"%string; ke_type := Some "Warning"%string;
  ke_namespace := Some "payments"%string; ke_kind := Some "Pod"%string; ke_name := Some "api"%string;
  ke_field_path := None; ke_count := Some 1%Z; ke_last_timestamp := Some 5%Z; ke_first_timestamp := None;
  ke_message := None |}.
Definition genuine_site (network : Network) (insert_ok : bool) : Site := {|
  st_files path := if String.eqb path "token" then Ok ("genuine" +:+ newline) else Err "not found"%string;
  st_network := network; st_inputs := mkIngestInputs 9 insert_ok true; st_allowed := true;
  st_review := Some (fun t => Some (mkReview (String.eqb t "genuine") "sa" None));
  st_tables := mkIngestion (mkFleet ∅ ∅ ∅) 0 [] [] [] [] |}.
Definition tick (since : Site -> Site) : result Chain (Item KubeEvent Draws) :=
  Ok (mkItem _ _ (Apply oom_event) since (mkDraws (fun _ => 1%N) 6)).
Definition oom_watch (items : list (result Chain (Item KubeEvent Draws))) (s : Site) :=
  watch_loop (fun _ => EmptyString) (site_wire false None) "kube event watch stream"
    (workload_step (mkAgentId 3) "prod") (HttpPublisher "https://ravn/ingest" "token") items ∅ s.


(** A publication that fails is not tried again: the event's count is remembered before
    the attempt, so that seeing the event again publishes nothing. *)
Theorem lost_signal_not_retried :
  let recovered (_ : Site) := genuine_site Up true in
  exists m, (oom_watch [tick id; tick recovered] (genuine_site Down true)).1.2
    = [(m, Err ["POSTing to https://ravn/ingest"; "connection refused"])]%string.
Proof. eexists. vm_compute. reflexivity. Qed.

(** The ingest answers 202 also when the insertion failed: the sender takes the message
    as delivered, and no table has it. *)
Theorem accepted_but_lost :
  exists m, (oom_watch [tick id] (genuine_site Up false)).1.2 = [(m, Ok tt)]
    /\ fl_events (ig_fleet (st_tables (oom_watch [tick id] (genuine_site Up false)).2)) = ∅.
Proof. eexists. vm_compute. split; reflexivity. Qed.
