(* ===== verification/Enrollment.v ===== *)
(** * The enrollment client ([ravn-agent/src/enrollment.rs])

  The exchange of the bootstrap token for a certificate, and the files it leaves in
  the credential directory, written one after the other with any of them failing or
  torn; composed with the control plane's [enroll] and the agent's pinned keyring:
  what enrollment pins is what the control plane signs with.

  Key generation, the signing request and HTTP are parameters. *)

From S2P Require Export AgentConfig Fleet.

(** The files of the agent, by path. *)
Abbreviation Files := (gmap string string).

Record Identity := mkIdentity { id_key_path : string; id_cert_path : string; id_ca_path : string }.
Definition identity_in_dir (dir : string) : Identity :=
  {| id_key_path := path_join dir "agent.key"; id_cert_path := path_join dir "agent.crt";
     id_ca_path := path_join dir "ca.crt" |}.
Definition identity_complete (fs : Files) (id : Identity) : bool :=
  bool_decide (is_Some (fs !! id_key_path id)) && bool_decide (is_Some (fs !! id_cert_path id))
  && bool_decide (is_Some (fs !! id_ca_path id)).
Definition pubkey_path (dir : string) : string := path_join dir "command_pubkey.b64".
Definition keyring_path (dir : string) : string := path_join dir "command_keyring.json".

(** One file written, with the context of a failure to open it and of a failure to
    write it. *)
Definition write_file (path contents : string) (ctx : string * string) (o : WriteOutcome) (fs : Files) : result Chain unit * Files :=
  match o with
  | Written => (Ok tt, <[path := contents]> fs)
  | NotOpened e => (Err [ctx.1; e], fs)
  | WriteTorn kept e => (Err [ctx.2; e], <[path := String.substring 0 kept contents]> fs)
  end.
Fixpoint write_all (files : list (string * string * (string * string))) (io : list WriteOutcome) (fs : Files)
    : result Chain unit * Files :=
  match files with
  | [] => (Ok tt, fs)
  | (path, contents, ctx) :: files' =>
      match write_file path contents ctx (default Written (head io)) fs with
      | (Ok _, fs) => write_all files' (tail io) fs
      | (Err e, fs) => (Err e, fs)
      end
  end.

(** What the endpoint answers. *)
Inductive EnrollReply :=
  | EnrollNoAnswer (e : Chain)
  | EnrollAnswered (status : N) (status_text body : string) (decoded : result Chain EnrollResponse).

Section Enrollment.
Context `{Base64} `{Ed25519} `{SerdeJson} `{UuidText}.

(** The files of a response, in the order they are written. *)
Definition credential_files (dir key_pem : string) (r : EnrollResponse)
    : list (string * string * (string * string)) :=
  let id := identity_in_dir dir in
  let both ctx : string * string := (ctx, ctx) in
  let writing p := both ("writing " +:+ p) in
  [(id_key_path id, key_pem, ("opening " +:+ id_key_path id, "writing " +:+ id_key_path id));
   (id_cert_path id, es_certificate_pem r, writing (id_cert_path id));
   (id_ca_path id, es_ca_certificate_pem r, writing (id_ca_path id));
   (pubkey_path dir, es_command_signing_pubkey r, both ("writing command_pubkey.b64 in " +:+ dir))]
  ++ (if is_empty (es_command_keyring r) then []
      else [(keyring_path dir, es_command_keyring r, both ("writing command_keyring.json in " +:+ dir))]).

(** [ensure_enrolled]: the identity, the files, and the request that was sent.
    [csr] is [generate_csr], [mkdir] the creation of the directory. *)
Definition ensure_enrolled (config : AgentConfig) (csr : result Chain (string * string))
    (http_client : result Chain unit) (post : string -> EnrollRequest -> EnrollReply) (mkdir : result string unit)
    (io : list WriteOutcome) (fs : Files) : result Chain (option Identity) * Files * list EnrollRequest :=
  let dir := ac_cred_dir config in
  let id := identity_in_dir dir in
  if identity_complete fs id then (Ok (Some id), fs, [])
  else
    match ac_enroll_endpoint config, ac_bootstrap_token config with
    | Some endpoint, Some token =>
        match csr, http_client with
        | Err e, _ => (Err e, fs, [])
        | _, Err e => (Err ("building enrollment HTTP client"%string :: e), fs, [])
        | Ok (csr_pem, key_pem), Ok _ =>
            let url := trim_end_matches (is_byte 47) endpoint +:+ "/enroll" in
            let request := {| er_bootstrap_token := token; er_agent_id := mkAgentId (ac_agent_id config);
                              er_host := ac_host config; er_csr_pem := csr_pem |} in
            match post url request with
            | EnrollNoAnswer e => (Err (("POST " +:+ url) :: e), fs, [request])
            | EnrollAnswered status status_text body decoded =>
                if negb ((200 <=? status)%N && (status <? 300)%N) then
                  (Err ["enrollment rejected (" +:+ status_text +:+ "): " +:+ body], fs, [request])
                else
                  match decoded, mkdir with
                  | Err e, _ => (Err ("decoding enrollment response"%string :: e), fs, [request])
                  | _, Err e => (Err ["creating credential dir " +:+ dir; e], fs, [request])
                  | Ok enrolled, Ok _ =>
                      match write_all (credential_files dir key_pem enrolled) io fs with
                      | (Ok _, fs) => (Ok (Some id), fs, [request])
                      | (Err e, fs) => (Err e, fs, [request])
                      end
                  end
            end
        end
    | _, _ => (Ok None, fs, [])
    end.

(** [load_pinned_keyring] on the files. *)
Definition pinned (config : AgentConfig) (fs : Files) : option Keyring :=
  load_pinned_keyring (fs !! keyring_path (ac_cred_dir config)) (fs !! pubkey_path (ac_cred_dir config)).

(** [spawn_remediation] ([main.rs]): the ring and the endpoint the pull loop starts
    with, or the reason it stays off. *)
Definition spawn_remediation (config : AgentConfig) (fs : Files) : result string (Keyring * string) :=
  match pinned config fs, ac_enroll_endpoint config with
  | None, _ => Err "remediation enabled but no pinned command key (enroll first); pull disabled"%string
  | Some _, None =>
      Err "remediation enabled but RAVN_ENROLL_ENDPOINT (HTTP control plane) is unset; pull disabled"%string
  | Some ring, Some base => Ok (ring, base)
  end.
End Enrollment.

(** ** The credential directory *)


(** Writing distinct files with nothing failing. *)
Lemma write_all_Ok files io fs fs' :
  write_all files io fs = (Ok tt, fs') ->
  forall path, NoDup (map (fun f => f.1.1) files) ->
    fs' !! path = match find_first (fun f => String.eqb f.1.1 path) files with
                  | Some f => Some f.1.2
                  | None => fs !! path
                  end.
Proof.
  revert io fs. induction files as [|[[p c] ctx] files IH]; intros io fs; cbn; [by intros [= <-]|].
  destruct (write_file p c ctx _ fs) as [[[]|e] fs1] eqn:Hw; [|done]. intros Hrest path [Hp Hnd]%NoDup_cons.
  assert (fs1 = <[p := c]> fs) as -> by (destruct (default Written (head io)); cbn in Hw; by simplify_eq).
  rewrite (IH _ _ Hrest path Hnd). destruct (String.eqb_spec p path) as [->|Hne].
  - destruct (find_first _ files) as [f|] eqn:Hf; [|by rewrite lookup_insert_eq].
    apply find_first_Some in Hf as (l1 & l2 & -> & He%String.eqb_eq & _). exfalso. apply Hp.
    apply list_elem_of_fmap. exists f. split; [done|set_solver].
  - cbn. fold (find_first (fun f : string * string * (string * string) => String.eqb f.1.1 path) files).
    destruct (find_first _ files) as [f|]; [done|]. by rewrite lookup_insert_ne.
Qed.

(** ** What enrollment leaves behind *)

Section EnrollmentFacts.
Context `{SerdeValue} `{Rcgen} `{UT : UuidText} `{CL : CryptoLaws} `{SJ : SerdeJson} `{!SerdeJsonLaws}.
Variable csr_from_pem : string -> option CertParams.
Variable signed_by : CertParams -> IssuerKey -> option string.
Variable from_timestamp : Z -> option DateTime.

(** The control plane at the other end of the exchange. *)
Definition served (ca : option Ca) (token : option string) (s : CommandSigner) (now : DateTime) (db_ok : bool)
    (f : Fleet) (url : string) (req : EnrollRequest) : EnrollReply :=
  match enroll csr_from_pem signed_by from_timestamp ca token s now db_ok req f with
  | (inl (status, msg), _) => EnrollAnswered status (show_N status) msg (Err ["not a response"%string])
  | (inr resp, _) => EnrollAnswered 200 "200 OK" EmptyString (Ok resp)
  end.

Lemma credential_paths_NoDup dir key r : NoDup (map (fun f => f.1.1) (credential_files dir key r)).
Proof.
  assert (forall l : list string, NoDup l -> NoDup (map (path_join dir) l)) as Hl.
  { intros l Hnd. apply NoDup_fmap_2; [|done]. intros x y. apply path_join_inj. }
  unfold credential_files. destruct (is_empty _); cbn.
  - apply (Hl ["agent.key"; "agent.crt"; "ca.crt"; "command_pubkey.b64"]%string).
    apply (bool_decide_unpack _). reflexivity.
  - apply (Hl ["agent.key"; "agent.crt"; "ca.crt"; "command_pubkey.b64"; "command_keyring.json"]%string).
    apply (bool_decide_unpack _). reflexivity.
Qed.

(** The files after a run in which nothing failed. *)
Lemma credentials_written dir key r io fs fs' :
  write_all (credential_files dir key r) io fs = (Ok tt, fs') ->
  let id := identity_in_dir dir in
  fs' !! id_key_path id = Some key /\ fs' !! id_cert_path id = Some (es_certificate_pem r)
  /\ fs' !! id_ca_path id = Some (es_ca_certificate_pem r)
  /\ fs' !! pubkey_path dir = Some (es_command_signing_pubkey r)
  /\ fs' !! keyring_path dir = if is_empty (es_command_keyring r) then fs !! keyring_path dir
                               else Some (es_command_keyring r).
Proof.
  intros Hw. pose proof (fun path => write_all_Ok _ _ _ _ Hw path (credential_paths_NoDup dir key r)) as Hl.
  cbv zeta. rewrite !Hl.
  assert (forall a b, String.eqb (path_join dir a) (path_join dir b) = String.eqb a b) as He.
  { intros a b. destruct (String.eqb_spec a b) as [->|Hne]; [apply String.eqb_refl|].
    by apply String.eqb_neq, path_join_ne. }
  unfold credential_files, pubkey_path, keyring_path, identity_in_dir, find_first. cbn [id_key_path id_cert_path id_ca_path].
  destruct (is_empty (es_command_keyring r)); cbn [List.find app fst snd]; rewrite !He; cbn; auto.
Qed.

Lemma identity_complete_written dir key r io fs fs' :
  write_all (credential_files dir key r) io fs = (Ok tt, fs') -> identity_complete fs' (identity_in_dir dir) = true.
Proof.
  intros (Hk & Hc & Ha & _)%credentials_written. unfold identity_complete. by rewrite Hk, Hc, Ha.
Qed.

Lemma signer_pubkey src fresh previous s :
  load_or_generate_with_previous src fresh previous = Ok s ->
  cs_pubkey_b64 s = verifying_key_to_b64 (verifying_key (cs_key s)).
Proof.
  unfold load_or_generate_with_previous. intros (key & _ & Hl)%bind_Ok_inv.
  apply bind_Ok_inv in Hl as (ring & _ & [= <-]). done.
Qed.

(** The files of a control plane's response pin a ring that accepts its commands. *)
Lemma pinned_accepts config src fresh previous s fs key resp io fs' :
  load_or_generate_with_previous src fresh previous = Ok s ->
  (forall files file b64 k, previous = Some (Ok files) -> (file, b64) ∈ files ->
     verifying_key_from_b64 b64 = Ok k -> key_id k = key_id (verifying_key (cs_key s)) ->
     k = verifying_key (cs_key s)) ->
  fs !! keyring_path (ac_cred_dir config) = None ->
  es_command_signing_pubkey resp = cs_pubkey_b64 s -> es_command_keyring resp = cs_keyring_json s ->
  write_all (credential_files (ac_cred_dir config) key resp) io fs = (Ok tt, fs') ->
  exists r, pinned config fs' = Some r
    /\ forall env now, (now <= ce_expires_at env)%Z -> verify_envelope_with r (signer_sign s env) now = Ok tt.
Proof.
  intros Hs Hsame Hnone Hpub Hring Hw. apply credentials_written in Hw as (_ & _ & _ & Hp & Hk).
  unfold pinned. rewrite Hp, Hk, Hpub, Hring, Hnone. destruct (is_empty (cs_keyring_json s)).
  - cbn. rewrite (signer_pubkey _ _ _ _ Hs), verifying_key_b64_roundtrip. eexists. split; [done|].
    intros env now Hnow. apply verify_with_signed; [|done]. cbn. by rewrite String.eqb_refl.
  - destruct (signer_keyring_accepts _ _ _ _ Hs Hsame) as (r & Hr & Hne & _ & Hv).
    exists r. cbn. rewrite Hr, Hne. done.
Qed.

(** C16. Enrollment establishes trust end to end: when the agent's enrollment client,
    run against the control plane's endpoint from a directory that holds no complete
    identity and no keyring, succeeds, it sent exactly one request, which carried
    the configured bootstrap token; the certificate of the response is on disk; the
    pull loop starts, with a pinned keyring that accepts every envelope the control
    plane signs until it expires; and enrolling again sends nothing and changes
    nothing, whatever the endpoint then answers. *)
Theorem enrollment_establishes_trust (config : AgentConfig) src fresh previous (s : CommandSigner)
    (ca : option Ca) (token : option string) (now : DateTime) (db_ok : bool) (f : Fleet)
    csr http_client mkdir io (fs fs' : Files) id reqs :
  load_or_generate_with_previous src fresh previous = Ok s ->
  (forall files file b64 k, previous = Some (Ok files) -> (file, b64) ∈ files ->
     verifying_key_from_b64 b64 = Ok k -> key_id k = key_id (verifying_key (cs_key s)) ->
     k = verifying_key (cs_key s)) ->
  fs !! keyring_path (ac_cred_dir config) = None ->
  identity_complete fs (identity_in_dir (ac_cred_dir config)) = false ->
  ensure_enrolled config csr http_client (served ca token s now db_ok f) mkdir io fs = (Ok (Some id), fs', reqs) ->
  (exists req resp f', reqs = [req] /\ token = Some (er_bootstrap_token req)
     /\ agent_uuid (er_agent_id req) = ac_agent_id config
     /\ enroll csr_from_pem signed_by from_timestamp ca token s now db_ok req f = (inr resp, f')
     /\ fs' !! id_cert_path id = Some (es_certificate_pem resp))
  /\ (exists r base, spawn_remediation config fs' = Ok (r, base)
        /\ forall env at_, (at_ <= ce_expires_at env)%Z -> verify_envelope_with r (signer_sign s env) at_ = Ok tt)
  /\ forall csr' client' post' mkdir' io',
       ensure_enrolled config csr' client' post' mkdir' io' fs' = (Ok (Some id), fs', []).
Proof.
  intros Hs Hsame Hnone Hinc. unfold ensure_enrolled at 1. rewrite Hinc.
  destruct (ac_enroll_endpoint config) as [endpoint|] eqn:Hend; [|done].
  destruct (ac_bootstrap_token config) as [tok|]; [|done].
  destruct csr as [[csr_pem key]|]; [|done]. destruct http_client; [|done].
  set (req := {| er_bootstrap_token := tok |}). unfold served.
  destruct (enroll _ _ _ ca token s now db_ok req f) as [[[status msg]|resp] f'] eqn:He.
  { destruct (negb _); done. }
  change (negb ((200 <=? 200)%N && (200 <? 300)%N)) with false.
  destruct mkdir; [|done].
  destruct (write_all (credential_files (ac_cred_dir config) key resp) io fs) as [[[]|e] fs1] eqn:Hw; [|done].
  intros [= <- <- <-].
  assert (token = Some tok /\ es_command_signing_pubkey resp = cs_pubkey_b64 s
    /\ es_command_keyring resp = cs_keyring_json s) as (Htok & Hpub & Hring).
  { unfold enroll in He. destruct ca as [c|], token as [expected|]; try done.
    destruct (constant_time_eq _ expected) eqn:Hc; cbn [negb] in He; [|done].
    apply constant_time_eq_spec in Hc. destruct (ca_sign _ _ _ _ _ _) as [[pem na]|]; [|done].
    destruct db_ok; [|done]. injection He as <- _. by rewrite <-Hc. }
  split_and!.
  - exists req, resp, f'. split_and!; [done..|exact He|]. by apply credentials_written in Hw as (_ & Hcert & _).
  - destruct (pinned_accepts config _ _ _ s fs key resp io fs1 Hs Hsame Hnone Hpub Hring Hw) as (r & Hr & Hv).
    exists r, endpoint. unfold spawn_remediation. by rewrite Hr, Hend.
  - intros. unfold ensure_enrolled. by rewrite (identity_complete_written _ _ _ _ _ _ Hw).
Qed.

(** A failure right after the certificates are written: the identity counts as
    complete, so every later start reuses it without a request, while no command key
    is pinned, so remediation stays off for good. *)
Theorem half_enrolled_stays_unpinned (config : AgentConfig) key resp fs e :
  let dir := ac_cred_dir config in
  fs !! pubkey_path dir = None -> fs !! keyring_path dir = None ->
  exists fs', write_all (credential_files dir key resp) [Written; Written; Written; NotOpened e] fs
      = (Err ["writing command_pubkey.b64 in " +:+ dir; e], fs')
    /\ pinned config fs' = None
    /\ forall csr client post mkdir io,
         ensure_enrolled config csr client post mkdir io fs' = (Ok (Some (identity_in_dir dir)), fs', []).
Proof.
  cbv zeta. intros Hpub Hring. eexists. split; [reflexivity|]. split.
  - unfold pinned, identity_in_dir. cbn [id_key_path id_cert_path id_ca_path].
    rewrite !lookup_insert_ne by (by apply path_join_ne). by rewrite Hpub, Hring.
  - intros. unfold ensure_enrolled, identity_complete. cbn [id_key_path id_cert_path id_ca_path identity_in_dir].
    rewrite lookup_insert_eq. rewrite !lookup_insert_ne by (by apply path_join_ne). rewrite !lookup_insert_eq.
    rewrite !lookup_insert_ne by (by apply path_join_ne). rewrite lookup_insert_eq. done.
Qed.
End EnrollmentFacts.

(** ** A concrete enrollment *)

#[local] Instance enroll_rcgen : Rcgen :=
  {| PublicKey := unit; IssuerKey := string; dns_name_ok _ := true; OtherParams := unit |}.
Definition enroll_env (k : string) : option string :=
  if String.eqb k "RAVN_ENROLL_ENDPOINT" then Some "http://cp/"%string
  else if String.eqb k "RAVN_BOOTSTRAP_TOKEN" then Some "secret"%string
  else if String.eqb k "RAVN_REMEDIATION" then Some "on"%string else None.
Definition enroll_config : result Chain AgentConfig :=
  load enroll_env (fun _ => Err "not found"%string) (fun _ => Err "no TOML"%string) 7%N (fun _ => "bad UUID"%string)
    ["ravn-agent"]%string.
Definition toy_csr : string -> option CertParams := fun _ => Some (mkCertParams [] [] ExplicitNoCa [] [] 0 0 tt tt).
Definition toy_signed : CertParams -> IssuerKey -> option string := fun _ _ => Some "cert"%string.
Definition toy_ca : Ca := {| ca_key := "key"%string; ca_cert_pem := "ca"%string; ca_ttl_days := 90 |}.
Definition enroll_from (s : CommandSigner) (config : AgentConfig) :=
  ensure_enrolled config (Ok ("csr", "key")%string) (Ok tt)
    (served toy_csr toy_signed (fun _ => None) (Some toy_ca) (Some "secret"%string) s 5 true (mkFleet ∅ ∅ ∅))
    (Ok tt) [] (∅ : Files).

(** The whole exchange, evaluated. *)
Definition enrolled : result Chain (option Identity) * Files * list EnrollRequest :=
  match enroll_config, load_or_generate_with_previous NoPath key_b toy_previous with
  | Ok config, Ok s => enroll_from s config
  | _, _ => (Err [], ∅, [])
  end.
(** The previous key of the start is not the signer's. *)
Definition previous_differs (b64 : string) : bool :=
  match load_or_generate_with_previous NoPath key_b toy_previous, verifying_key_from_b64 b64 with
  | Ok s, Ok k => negb (String.eqb (key_id k) (key_id (verifying_key (cs_key s))))
  | _, _ => false
  end.

Lemma enrollment_establishes_trust_witness :
  match enroll_config, load_or_generate_with_previous NoPath key_b toy_previous with
  | Ok config, Ok s =>
      exists id fs' reqs, enroll_from s config = (Ok (Some id), fs', reqs)
      /\ exists r base, spawn_remediation config fs' = Ok (r, base)
           /\ verify_envelope_with r (signer_sign s example_envelope) 10 = Ok tt
  | _, _ => False
  end.
Proof.
  assert (match enrolled with (Ok (Some _), _, _) => true | _ => false end = true) as Hrun by (vm_compute; reflexivity).
  assert (previous_differs (verifying_key_to_b64 (verifying_key key_a)) = true) as Hdiff by (vm_compute; reflexivity).
  unfold enrolled in Hrun. unfold previous_differs in Hdiff.
  destruct enroll_config as [config|]; [|discriminate].
  destruct (load_or_generate_with_previous NoPath key_b toy_previous) as [s|] eqn:Hs; [|discriminate].
  destruct (enroll_from s config) as [[[[id|]|e] fs'] reqs] eqn:He; [|discriminate..].
  exists id, fs', reqs. split; [reflexivity|].
  destruct (enrollment_establishes_trust toy_csr toy_signed (fun _ => None) config NoPath key_b toy_previous s
    (Some toy_ca) (Some "secret"%string) 5 true (mkFleet ∅ ∅ ∅) (Ok ("csr", "key")%string) (Ok tt) (Ok tt) []
    ∅ fs' id reqs Hs) as (_ & (r & base & Hr & Hv) & _).
  - intros files file b64 k Hf Hin Hk Hid.
    assert (b64 = verifying_key_to_b64 (verifying_key key_a)) as ->.
    { injection Hf as <-. apply list_elem_of_singleton in Hin. injection Hin as _ ->. reflexivity. }
    rewrite Hk, Hid, String.eqb_refl in Hdiff. discriminate.
  - reflexivity.
  - reflexivity.
  - exact He.
  - exists r, base. split; [exact Hr|]. apply Hv. apply Z.leb_le. reflexivity.
Defined.
