(* ===== verification/AgentMain.v ===== *)
(** * The agent's main loop ([ravn-agent/src/main.rs], [transport.rs])

  What happens to a detected message: the optional explanation or its collection for
  the next digest, the publication, the buffer when it fails, the counters of the
  heartbeat; the digest of a window; the choice of transport. A model that is slow,
  down or wrong only changes the wording of an alarm.

  Publication is an outcome per message, the model's endpoint a parameter; a state
  is [None] where a prompt panics, which ends the loop. *)

From S2P Require Export Inference Buffer Enrollment.

Section AgentMain.
Context `{SerdeValue} `{!MessageJson} `{UuidText}.

(** ** Messages the agent makes itself *)

(** [max_by] on severities: the last of the greatest. *)
Definition severity_max (a b : Severity) : Severity := if severity_leb a b then b else a.
Definition max_severity (l : list Severity) : option Severity :=
  match l with [] => None | s :: l' => Some (foldl severity_max s l') end.

(** The counts of the digest, by the [Debug] name of the source. *)
Definition count_source (counts : btree N) (e : Event) : btree N :=
  let k := source_debug (event_source e) in bt_insert k (default 0%N (bt_get k counts) + 1)%N counts.
Definition source_counts (events : list Event) : btree N := foldl count_source [] events.
Definition digest_summary (events : list Event) : string :=
  join ", " (map (fun p => p.1 +:+ "=" +:+ show_N p.2) (source_counts events)).
Definition build_digest_message (id : Uuid) (now : DateTime) (agent : Uuid) (host : string) (events : list Event)
    (explanation : option Explanation) : Message :=
  let n := show_N (N.of_nat (length events)) in
  let summary := digest_summary events in
  {| msg_event :=
       {| ev_id := id; ev_occurred_at := now; ev_observed_at := now; ev_agent_id := mkAgentId agent; ev_host := host;
          ev_severity := default Notice (max_severity (map ev_severity events));
          ev_title := "Digest: " +:+ n +:+ " events (" +:+ summary +:+ ")";
          ev_category_hints := ["digest"%string];
          ev_payload := Journald {| jd_unit := Some "ravn-digest"%string; jd_priority := None;
                                    jd_message := "Periodic digest of " +:+ n +:+ " events — " +:+ summary;
                                    jd_extra := [] |} |};
     msg_explanation := explanation |}.
Definition startup_message (id : Uuid) (now : DateTime) (config : AgentConfig) : Message :=
  message_new
    {| ev_id := id; ev_occurred_at := now; ev_observed_at := now; ev_agent_id := mkAgentId (ac_agent_id config);
       ev_host := ac_host config; ev_severity := Info; ev_title := "ravnd " +:+ VERSION +:+ " started";
       ev_category_hints := [];
       ev_payload := Journald {| jd_unit := Some "ravnd.service"%string; jd_priority := Some 6%N;
                                 jd_message := "ravnd " +:+ VERSION +:+ " started on " +:+ ac_host config;
                                 jd_extra := [] |} |}.

(** ** The loop *)

(** The outbox, the window of the digest when it is on, and the health counters. *)
Record AgentState := mkAgentState {
  ma_buffer : option Buffer;
  ma_window : option (list Event);
  ma_published : N;
  ma_last_detection : option DateTime;
}.
Variable json_from_str : string -> option Json.

(** The client of [run_detection], and whether the digest is on. *)
Definition agent_inference (config : AgentConfig) : option InferenceClient :=
  if ac_inference_enable config
  then Some (inference_new (ac_inference_endpoint config) (ac_inference_model config) None) else None.
Definition digest_on (config : AgentConfig) : bool := ac_inference_enable config && ac_digest_enable config.
Definition agent_new (config : AgentConfig) (buffer : option Buffer) : AgentState :=
  {| ma_buffer := buffer; ma_window := if digest_on config then Some [] else None;
     ma_published := 0; ma_last_detection := None |}.

(** [push] of an event into the window, scoped by severity and bounded. *)
Definition collect (config : AgentConfig) (e : Event) (window : list Event) : list Event :=
  if severity_leb (ac_digest_min_severity config) (ev_severity e)
     && (N.of_nat (length window) <? ac_digest_max_events config)%N
  then window ++ [e] else window.
(** The explanation attached before publishing; [send] is the endpoint. *)
Definition enrich (config : AgentConfig) (send : ChatRequest -> ChatReply) (now : DateTime) (st : AgentState) (m : Message)
    : option Message :=
  match ma_window st, agent_inference config, msg_explanation m with
  | None, Some client, None =>
      e ← explain json_from_str client send now (msg_event m);
      Some {| msg_event := msg_event m; msg_explanation := e |}
  | _, _, _ => Some m
  end.
(** [transport.publish] and what follows; [detection] updates the time of the last
    detection too. *)
Definition publish_or_buffer (published detection : bool) (now : DateTime) (m : Message) (st : AgentState)
    : list Message * AgentState :=
  if published then
    ([m], {| ma_buffer := ma_buffer st; ma_window := ma_window st;
             ma_published := (ma_published st + 1) mod 2 ^ 64;
             ma_last_detection := if detection then Some now else ma_last_detection st |})
  else
    ([], {| ma_buffer := (fun b => match buffer_enqueue now m b with Ok b' => b' | Err _ => b end) <$> ma_buffer st;
            ma_window := ma_window st; ma_published := ma_published st;
            ma_last_detection := ma_last_detection st |}).
(** One message of the channel. *)
Definition on_message (config : AgentConfig) (send : ChatRequest -> ChatReply) (published : Message -> bool)
    (now : DateTime) (m : Message) (st : AgentState) : option (list Message * AgentState) :=
  m' ← enrich config send now st m;
  let st := {| ma_buffer := ma_buffer st; ma_window := collect config (msg_event m) <$> ma_window st;
               ma_published := ma_published st; ma_last_detection := ma_last_detection st |} in
  Some (publish_or_buffer (published m') true now m' st).
(** One tick of [spawn_digest]; [id] is the fresh identifier. *)
Definition on_digest (config : AgentConfig) (send : ChatRequest -> ChatReply) (published : Message -> bool)
    (id : Uuid) (now : DateTime) (st : AgentState) : list Message * AgentState :=
  match ma_window st, agent_inference config with
  | Some (e :: es), Some client =>
      let batch := e :: es in
      let st := {| ma_buffer := ma_buffer st; ma_window := Some []; ma_published := ma_published st;
                   ma_last_detection := ma_last_detection st |} in
      let m := build_digest_message id now (ac_agent_id config) (ac_host config) batch
                 (digest json_from_str client send now batch) in
      publish_or_buffer (published m) false now m st
  | _, _ => ([], st)
  end.
Definition on_flush (publish : Message -> bool) (st : AgentState) : list Message * AgentState :=
  match ma_buffer st with
  | Some b =>
      let (sent, b) := flush publish b in
      (sent, {| ma_buffer := Some b; ma_window := ma_window st; ma_published := ma_published st;
                ma_last_detection := ma_last_detection st |})
  | None => ([], st)
  end.
(** The heartbeat ([spawn_heartbeat]). *)
Definition heartbeat (config : AgentConfig) (now : DateTime) (uptime : N) (st : AgentState) : Heartbeat :=
  {| hb_agent_id := mkAgentId (ac_agent_id config); hb_host := ac_host config; hb_sent_at := now;
     hb_uptime_secs := uptime; hb_last_detection := ma_last_detection st;
     hb_inference_enabled := ac_inference_enable config; hb_events_published := ma_published st |}.

Inductive AgentStep :=
  | Detected (send : ChatRequest -> ChatReply) (published : Message -> bool) (now : DateTime) (m : Message)
  | DigestTick (send : ChatRequest -> ChatReply) (published : Message -> bool) (id : Uuid) (now : DateTime)
  | FlushTick (publish : Message -> bool).
Definition agent_step (config : AgentConfig) (s : AgentStep) (st : AgentState) : option (list Message * AgentState) :=
  match s with
  | Detected send published now m => on_message config send published now m st
  | DigestTick send published id now => Some (on_digest config send published id now st)
  | FlushTick publish => Some (on_flush publish st)
  end.
(** The messages that left the host over a run. *)
Fixpoint agent_steps (config : AgentConfig) (steps : list AgentStep) (st : AgentState) : option (list Message * AgentState) :=
  match steps with
  | [] => Some ([], st)
  | s :: steps' =>
      r ← agent_step config s st;
      rs ← agent_steps config steps' r.2;
      Some (r.1 ++ rs.1, rs.2)
  end.
End AgentMain.

(** ** Transport *)

(** The scheme of the server URL ([Transport::connect]). *)
Inductive TransportKind := Nats | Ws.
Definition transport_kind (url : string) : result string TransportKind :=
  if starts_with "nats://" url || starts_with "tls://" url then Ok Nats
  else if starts_with "ws://" url || starts_with "wss://" url then Ok Ws
  else Err ("unsupported transport URL scheme: " +:+ url).

(** [connect_with_backoff] of the WebSocket transport: the outcome of each attempt,
    and the pauses in milliseconds before the next one. *)
Definition WS_MAX_ATTEMPTS : nat := 5.
Fixpoint ws_attempts {A} (url : string) (left : nat) (delay : N) (outcomes : list (result string A))
    : result Chain A * list N :=
  match left, outcomes with
  | S left', o :: outcomes' =>
      match o with
      | Ok stream => (Ok stream, [])
      | Err e =>
          match left' with
          | O => (Err ["connecting to " +:+ url +:+ " after " +:+ show_N (N.of_nat WS_MAX_ATTEMPTS) +:+ " attempts"; e], [])
          | _ => let (r, ps) := ws_attempts url left' (N.min (delay * 2) 5000) outcomes' in (r, delay :: ps)
          end
      end
  | _, _ => (Err ["unreachable"%string], [])
  end.
Definition connect_with_backoff {A} (url : string) (outcomes : list (result string A)) : result Chain A * list N :=
  ws_attempts url WS_MAX_ATTEMPTS 200 outcomes.
(** [send_json]: one reconnection and one resend when the first send fails. *)
Definition ws_send (url : string) (first : result string unit) (attempts : list (result string unit))
    (resend : result string unit) : result Chain unit :=
  match first with
  | Ok _ => Ok tt
  | Err _ =>
      _ ← (connect_with_backoff url attempts).1;
      map_err (fun e => ["WebSocket resend after reconnect"%string; e]) resend
  end.

(** The connection is tried at most five times, with at most 3 seconds of pauses. *)
Lemma connect_with_backoff_bounds {A} (url : string) (outcomes : list (result string A)) :
  5 <= length outcomes ->
  let (r, pauses) := connect_with_backoff url outcomes in
  (foldr N.add 0 pauses <= 3000)%N /\ length pauses <= 4
  /\ match r with Ok s => Ok s ∈ outcomes | Err e => forall o, o ∈ take 5 outcomes -> exists e', o = Err e' end.
Proof.
  intros Hl. destruct outcomes as [|o1 [|o2 [|o3 [|o4 [|o5 rest]]]]]; cbn in Hl; try lia.
  destruct o1; [cbn; split_and!; [lia|lia|set_solver]|]. destruct o2; [cbn; split_and!; [lia|lia|set_solver]|].
  destruct o3; [cbn; split_and!; [lia|lia|set_solver]|]. destruct o4; [cbn; split_and!; [lia|lia|set_solver]|].
  destruct o5; cbn; split_and!; try lia; [set_solver|]. intros o. rewrite !elem_of_cons.
  intros [->|[->|[->|[->|[->|Ho]]]]]; eauto. by apply elem_of_nil in Ho.
Qed.

(** ** Start-up *)

Section AgentStart.
Context `{SerdeValue} `{!MessageJson} `{UuidText} `{Base64} `{Ed25519} `{SerdeJson}.

(** The first connection: the NATS client retries by itself, the WebSocket transport
    as above. *)
Definition transport_connect (url : string) (nats : result string unit) (attempts : list (result string unit))
    : result Chain unit :=
  match transport_kind url with
  | Ok Nats => map_err (fun e => ["connecting to NATS at " +:+ url; e]) nats
  | Ok Ws => (connect_with_backoff url attempts).1
  | Err e => Err [e]
  end.
Definition any_tap (config : AgentConfig) : bool :=
  ac_journald_enable config || negb (bool_decide (ac_config_drift_paths config = []))
  || ac_failed_units_enable config || ac_updates_enable config.

(** What the daemon finds around it when it starts. *)
Record AgentSurroundings := mkAgentSurroundings {
  su_csr : result Chain (string * string);
  su_http_client : result Chain unit;
  su_enroll : string -> EnrollRequest -> EnrollReply;
  su_mkdir : result string unit;
  su_writes : list WriteOutcome;
  su_files : Files;
  su_nats : result string unit;
  su_ws : list (result string unit);
  su_outbox : result string (list OutboxRow);
  su_published : Message -> bool;
  su_id : Uuid;
  su_now : DateTime;
}.
(** What runs after it: the state of the loop, the files, the command pull when it is
    enabled, and whether the detection loop runs at all. *)
Record Started := mkStarted {
  sd_agent : AgentState;
  sd_files : Files;
  sd_pull : option (result string (Keyring * string));
  sd_detecting : bool;
}.

(** The announcement: published, or kept for later. *)
Definition announce (published : bool) (now : DateTime) (m : Message) (buffer : option Buffer)
    : list Message * option Buffer :=
  if published then ([m], buffer)
  else ([], (fun b => match buffer_enqueue now m b with Ok b' => b' | Err _ => b end) <$> buffer).
(** [main] up to its loops. Only the transport can end it. *)
Definition agent_main (u : AgentSurroundings) (config : AgentConfig) : result Chain (list Message * Started) :=
  let '(_, fs, _) := ensure_enrolled config (su_csr u) (su_http_client u) (su_enroll u) (su_mkdir u) (su_writes u)
                       (su_files u) in
  _ ← transport_connect (ac_server_url config) (su_nats u) (su_ws u);
  let buffer := match su_outbox u with Ok rows => Some (buffer_open rows (ac_buffer_max config)) | Err _ => None end in
  let m := startup_message (su_id u) (su_now u) config in
  let (sent, buffer) := announce (su_published u m) (su_now u) m buffer in
  Ok (sent, {| sd_agent := agent_new config buffer; sd_files := fs;
               sd_pull := if ac_remediation_enable config then Some (spawn_remediation config fs) else None;
               sd_detecting := any_tap config |}).

(** Enrollment and the outbox are best effort: whatever they do, the agent starts
    exactly when its transport connects, its announcement has left or waits in the
    outbox, and it pulls commands only when told to and with a key pinned in the
    files that enrollment left. *)
Theorem agent_start (u : AgentSurroundings) (config : AgentConfig) :
  let m := startup_message (su_id u) (su_now u) config in
  match transport_connect (ac_server_url config) (su_nats u) (su_ws u) with
  | Err e => agent_main u config = Err e
  | Ok _ =>
      exists sent st, agent_main u config = Ok (sent, st)
        /\ (forall r base, sd_pull st = Some (Ok (r, base)) ->
              ac_remediation_enable config = true /\ pinned config (sd_files st) = Some r)
        /\ (forall rows, su_outbox u = Ok rows -> sent = [m] \/
              exists b, ma_buffer (sd_agent st) = Some b
                /\ (message_to_json m <> None -> buffer_enqueue (su_now u) m (buffer_open rows (ac_buffer_max config)) = Ok b))
  end.
Proof.
  cbv zeta. unfold agent_main. destruct (ensure_enrolled _ _ _ _ _ _ _) as [[r0 fs] reqs].
  destruct (transport_connect _ _ _); [|done]. cbn.
  set (m := startup_message _ _ _). destruct (announce _ _ m _) as [sent buffer] eqn:Ha.
  eexists sent, _. split; [done|]. cbn. split.
  - intros r base. destruct (ac_remediation_enable config); [|done]. unfold spawn_remediation.
    destruct (pinned config fs), (ac_enroll_endpoint config); by intros [= <- _].
  - intros rows Hrows. rewrite Hrows in Ha. unfold announce in Ha. destruct (su_published u m); [left; by injection Ha as <- _|].
    right. injection Ha as <- <-. eexists. split; [done|]. unfold buffer_enqueue. by destruct (message_to_json m).
Qed.
End AgentStart.

(** ** No alarm is lost *)

Section Alarms.
Context `{SerdeValue} `{!MessageJson} `{UuidText}.
Variable json_from_str : string -> option Json.
Implicit Types (st : AgentState) (m : Message).

(** What a model can do to a message: give it an explanation it did not have. *)
Lemma enrich_sound config send now st m m' :
  enrich json_from_str config send now st m = Some m' ->
  msg_event m' = msg_event m /\ (msg_explanation m <> None -> m' = m) /\ (ma_window st <> None -> m' = m).
Proof.
  unfold enrich. destruct (ma_window st); [by intros [= <-]|].
  destruct (agent_inference config); [|by intros [= <-]].
  destruct (msg_explanation m) eqn:He; [by intros [= <-]|].
  intros (e & _ & [= <-])%bind_Some. done.
Qed.

Definition message_id m : string := uuid_to_string (ev_id (msg_event m)).
Definition step_id (s : AgentStep) : option string :=
  match s with
  | Detected _ _ _ m => Some (message_id m)
  | DigestTick _ _ id _ => Some (uuid_to_string id)
  | FlushTick _ => None
  end.
Definition detected (steps : list AgentStep) : list Message :=
  omap (fun s => match s with Detected _ _ _ m => Some m | _ => None end) steps.
(** The clock does not go back. *)
Fixpoint clock_ok (t : Z) (steps : list AgentStep) : Prop :=
  match steps with
  | [] => True
  | Detected _ _ now _ :: steps' | DigestTick _ _ _ now :: steps' => (t <= now)%Z /\ clock_ok now steps'
  | FlushTick _ :: steps' => clock_ok t steps'
  end.
Definition step_time (t : Z) (s : AgentStep) : Z :=
  match s with Detected _ _ now _ | DigestTick _ _ _ now => now | FlushTick _ => t end.
(** The serialized form of a message gives its event back. *)
Definition keeps_event (e : Event) : Prop :=
  forall m, msg_event m = e ->
    exists json m', message_to_json m = Some json /\ message_from_json json = Some m' /\ msg_event m' = e.

Definition row_ids (b : Buffer) : list string := map ob_event_id (bf_rows b).
(** How one step may change the outbox. *)
Record outbox_step (id : option string) (out : list Message) (t : Z) (b b' : Buffer) : Prop := {
  os_wf : buffer_wf t b';
  os_max : bf_max b' = bf_max b;
  os_len : length (bf_rows b') <= S (length (bf_rows b));
  os_ids : forall i, i ∈ row_ids b' -> i ∈ row_ids b \/ Some i = id;
  os_kept : forall w, w ∈ waiting (bf_rows b) -> w ∈ out \/ w ∈ waiting (bf_rows b');
}.

Lemma waiting_app l1 l2 : waiting (l1 ++ l2) = waiting l1 ++ waiting l2.
Proof. apply omap_app. Qed.

Lemma enqueue_step t now m b b' :
  buffer_enqueue now m b = Ok b' -> buffer_wf t b -> (t <= now)%Z ->
  message_id m ∉ row_ids b -> length (bf_rows b) < N.to_nat (bf_max b) ->
  outbox_step (Some (message_id m)) [] now b b'
  /\ (forall json m', message_to_json m = Some json -> message_from_json json = Some m' -> m' ∈ waiting (bf_rows b')).
Proof.
  intros He Hwf Ht Hid Hlen.
  destruct (enqueue_refines t now m b Ht Hwf) as (Hwf' & Hmax & _). cbn in Hwf', Hmax. rewrite He in Hwf', Hmax.
  unfold buffer_enqueue in He. destruct (message_to_json m) as [json|] eqn:Hj; [|done]. injection He as <-.
  destruct Hwf as (Hrows & Hbounds & _). fold (message_id m).
  assert (bf_rows (mkBuffer (prune (bf_max b) (insert_or_ignore (message_id m) json now (bf_rows b))) (bf_max b))
    = bf_rows b ++ [mkOutbox (next_rowid (bf_rows b)) (message_id m) json now]) as Hr.
  { cbn [bf_rows]. rewrite (prune_contents now).
    - unfold insert_or_ignore. destruct (existsb _ _) eqn:Hx.
      + exfalso. apply Hid. apply existsb_elem_of in Hx as (r & Hr & Heq%String.eqb_eq). unfold row_ids.
        rewrite <-Heq. by apply list_elem_of_fmap_2.
      + rewrite length_app. cbn [length]. replace (_ - _) with 0 by lia. apply drop_0.
    - eapply (proj1 (outbox_insert_wf t now (message_id m) json (bf_rows b) Ht Hrows)).
    - lia. }
  split; [split; [exact Hwf'|done|..]|].
  - rewrite Hr, length_app. cbn. lia.
  - intros i. unfold row_ids. rewrite Hr, map_app, elem_of_app. intros [Hi| ->%list_elem_of_singleton]; auto.
  - intros w Hw. right. rewrite Hr, waiting_app, elem_of_app. by left.
  - intros json' m' [= <-] Hm. rewrite Hr, waiting_app, elem_of_app. right. unfold waiting, row_message. cbn.
    rewrite Hm. by left.
Qed.

Lemma outbox_same id t t' b : buffer_wf t b -> (t <= t')%Z -> outbox_step id [] t' b b.
Proof.
  intros ((Hnd & Hs & Ha) & Hwf) Ht. split; [|done|lia|auto|auto].
  split; [|done]. split_and!; [done..|]. eapply Forall_impl; [exact Ha|]. intros r; cbn; lia.
Qed.

(** Publishing or buffering: the message leaves, or it waits. *)
Lemma publish_step t now published det m st b :
  ma_buffer st = Some b -> buffer_wf t b -> (t <= now)%Z -> message_id m ∉ row_ids b ->
  length (bf_rows b) < N.to_nat (bf_max b) ->
  let r := publish_or_buffer published det now m st in
  exists b', ma_buffer r.2 = Some b' /\ outbox_step (Some (message_id m)) r.1 now b b'
    /\ (keeps_event (msg_event m) -> msg_event m ∈ map msg_event r.1 \/ msg_event m ∈ map msg_event (waiting (bf_rows b'))).
Proof.
  intros Hb Hwf Ht Hid Hlen. cbv zeta. unfold publish_or_buffer. destruct published; cbn.
  - exists b. split; [done|]. destruct (outbox_same (Some (message_id m)) t now b Hwf Ht) as [Hw Hm Hl Hi _].
    split; [split; auto|]. intros _. left. by left.
  - rewrite Hb. cbn. eexists. split; [done|]. destruct (buffer_enqueue now m b) as [b'|e] eqn:He.
    + destruct (enqueue_step t now m b b' He Hwf Ht Hid Hlen) as [Ho Hw]. split; [exact Ho|].
      intros Hk. right. destruct (Hk m eq_refl) as (json & m' & Hj & Hm & <-). apply list_elem_of_fmap_2. by eapply Hw.
    + split; [by eapply outbox_same|]. intros Hk. destruct (Hk m eq_refl) as (json & m' & Hj & _).
      unfold buffer_enqueue in He. by rewrite Hj in He.
Qed.

Lemma digest_id id now agent host events e : message_id (build_digest_message id now agent host events e) = uuid_to_string id.
Proof. done. Qed.

Lemma agent_step_outbox config s t st st' out b :
  agent_step json_from_str config s st = Some (out, st') ->
  ma_buffer st = Some b -> buffer_wf t b -> (t <= step_time t s)%Z ->
  (forall i, step_id s = Some i -> i ∉ row_ids b) -> length (bf_rows b) < N.to_nat (bf_max b) ->
  exists b', ma_buffer st' = Some b' /\ outbox_step (step_id s) out (step_time t s) b b'
    /\ forall m, m ∈ detected [s] -> keeps_event (msg_event m) ->
         msg_event m ∈ map msg_event out \/ msg_event m ∈ map msg_event (waiting (bf_rows b')).
Proof.
  intros Hs Hb Hwf Ht Hid Hlen. destruct s as [send published now m|send published id now|publish]; cbn in Hs, Ht, Hid.
  - unfold on_message in Hs. apply bind_Some in Hs as (m' & Hm & Hs).
    apply enrich_sound in Hm as (He & _). set (st1 := {| ma_buffer := ma_buffer st |}) in Hs.
    assert (message_id m' = message_id m) as Hmid by (unfold message_id; by rewrite He).
    destruct (publish_step t now (published m') true m' st1 b) as (b' & Hb' & Ho & Hk);
      [done|done|done|rewrite Hmid; by apply Hid|done|].
    injection Hs as Hs. rewrite Hs in Hb', Ho, Hk. cbn in Hb', Ho, Hk. exists b'.
    split; [done|]. split; [by rewrite Hmid in Ho|]. intros x. cbn. intros ->%list_elem_of_singleton. by rewrite <-He.
  - assert (exists b', ma_buffer st' = Some b' /\ outbox_step (Some (uuid_to_string id)) out now b b') as (b' & Hb' & Ho).
    { unfold on_digest in Hs. destruct (ma_window st) as [[|e es]|]; destruct (agent_inference config) as [client|];
        try (injection Hs as <- <-; exists b; split; [done|by eapply outbox_same]).
      set (m := build_digest_message _ _ _ _ _ _) in Hs. set (st1 := {| ma_buffer := ma_buffer st |}) in Hs.
      destruct (publish_step t now (published m) false m st1 b) as (b' & Hb' & Ho & _);
        [done|done|done|by apply Hid|done|].
      injection Hs as Hs. rewrite Hs in Hb', Ho. by exists b'. }
    exists b'. split; [done|]. split; [done|]. intros m Hm. by apply elem_of_nil in Hm.
  - injection Hs as Hs. unfold on_flush in Hs. rewrite Hb in Hs.
    destruct (flush_spec t publish b Hwf) as (Hwf' & Hw & Hl & _).
    assert (row_ids (flush publish b).2 ⊆ row_ids b /\ bf_max (flush publish b).2 = bf_max b) as [Hids Hmax].
    { apply (flush_rows t publish b Hwf). }
    destruct (flush publish b) as [sent b']. injection Hs as <- <-. cbn in *. exists b'. split; [done|]. split.
    + split; [done|done|lia|auto|]. intros w. rewrite Hw, elem_of_app. tauto.
    + intros m Hm. by apply elem_of_nil in Hm.
Qed.

End Alarms.

(** ** Digests *)

Section Digests.
Context `{SerdeValue} `{!MessageJson} `{UuidText}.
Variable json_from_str : string -> option Json.

Lemma severity_max_spec (a b : Severity) :
  (severity_max a b = a \/ severity_max a b = b)
  /\ severity_leb a (severity_max a b) = true /\ severity_leb b (severity_max a b) = true.
Proof. destruct a, b; cbn; auto. Qed.

Lemma severity_leb_trans (a b c : Severity) :
  severity_leb a b = true -> severity_leb b c = true -> severity_leb a c = true.
Proof. unfold severity_leb. rewrite !Nat.leb_le. lia. Qed.

Lemma max_severity_spec (l : list Severity) (s : Severity) :
  max_severity l = Some s -> s ∈ l /\ forall x, x ∈ l -> severity_leb x s = true.
Proof.
  destruct l as [|a l]; [done|]. cbn. intros [= <-]. revert a. induction l as [|b l IH]; intros a; cbn.
  - split; [set_solver|]. intros x ->%list_elem_of_singleton. by destruct a.
  - destruct (IH (severity_max a b)) as [Hin Hall]. destruct (severity_max_spec a b) as (Hor & Ha & Hb). split.
    + apply elem_of_cons in Hin as [Heq|Hin]; [|set_solver]. rewrite Heq. destruct Hor as [->| ->]; set_solver.
    + assert (severity_leb (severity_max a b) (foldl severity_max (severity_max a b) l) = true) as Hm
        by (apply Hall; set_solver).
      intros x [->|[->|Hx]%elem_of_cons]%elem_of_cons; [by eapply severity_leb_trans..|apply Hall; set_solver].
Qed.

Lemma source_counts_get (events : list Event) (k : string) :
  default 0%N (bt_get k (source_counts events))
  = N.of_nat (length (List.filter (fun e => String.eqb (source_debug (event_source e)) k) events)).
Proof.
  unfold source_counts.
  enough (forall counts, default 0%N (bt_get k (foldl count_source counts events))
    = (default 0 (bt_get k counts)
       + N.of_nat (length (List.filter (fun e => String.eqb (source_debug (event_source e)) k) events)))%N) as Hg
    by (by rewrite Hg).
  induction events as [|e events IH]; intros counts; cbn; [lia|]. rewrite IH. unfold count_source.
  rewrite bt_get_insert. destruct (String.eqb_spec (source_debug (event_source e)) k) as [->|Hne].
  - rewrite String.eqb_refl. cbn [length]. unfold from_option, id. lia.
  - rewrite (proj2 (String.eqb_neq _ _)) by done. lia.
Qed.

(** The window keeps to its bound and its scope, and exists exactly in digest mode. *)
Definition window_ok (config : AgentConfig) (st : AgentState) : Prop :=
  match ma_window st with
  | Some w => digest_on config = true /\ (N.of_nat (length w) <= ac_digest_max_events config)%N
              /\ Forall (fun e => severity_leb (ac_digest_min_severity config) (ev_severity e) = true) w
  | None => digest_on config = false
  end.

Lemma window_ok_step config s st st' out :
  agent_step json_from_str config s st = Some (out, st') -> window_ok config st -> window_ok config st'.
Proof.
  unfold window_ok. destruct s as [send published now m|send published id now|publish]; cbn.
  - unfold on_message. intros (m' & _ & Hs)%bind_Some Hw.
    assert (ma_window st' = collect config (msg_event m) <$> ma_window st) as ->.
    { unfold publish_or_buffer in Hs. by destruct (published m'); injection Hs as _ <-. }
    destruct (ma_window st) as [w|]; [|done]. cbn. destruct Hw as (Hd & Hl & Hf). split; [done|]. unfold collect.
    destruct (severity_leb _ (ev_severity _)) eqn:Hsev; cbn; [|done].
    destruct (N.ltb_spec (N.of_nat (length w)) (ac_digest_max_events config)); [|done].
    split; [rewrite length_app; cbn; lia|]. apply Forall_app_2; [done|by repeat constructor].
  - unfold on_digest. intros [= Hs] Hw. destruct (ma_window st) as [[|e es]|] eqn:Hst;
      destruct (agent_inference config) as [client|]; try (injection Hs as _ <-; by rewrite Hst).
    unfold publish_or_buffer in Hs. destruct Hw as (Hd & _).
    assert (ma_window st' = Some []) as -> by (destruct (published _); by injection Hs as _ <-).
    split; [done|]. split; [cbn; lia|constructor].
  - unfold on_flush. intros [= Hs]. assert (ma_window st' = ma_window st) as ->; [|done].
    destruct (ma_buffer st) as [b|]; [|by injection Hs as _ <-]. destruct (flush publish b). by injection Hs as _ <-.
Qed.

Lemma window_ok_run config steps st st' out :
  agent_steps json_from_str config steps st = Some (out, st') -> window_ok config st -> window_ok config st'.
Proof.
  revert st out. induction steps as [|s steps IH]; intros st out; cbn; [by intros [= _ <-]|].
  intros ((o & st1) & Hs & Hr)%bind_Some Hw. apply bind_Some in Hr as ((os & st2) & Hr & [= _ <-]).
  eapply IH; [exact Hr|]. by eapply window_ok_step.
Qed.

(** Digests are bounded and faithful: from start-up, over any run, the window
    exists exactly in digest mode, holds at most the configured number of events and
    none below the configured severity; and the digest of a window has its greatest
    severity (a notice when it is empty), and counts under each source exactly the
    events of that source. *)
Theorem digest_faithful (config : AgentConfig) (steps : list AgentStep) (buffer : option Buffer) (st : AgentState)
    (sent : list Message) (id : Uuid) (now : DateTime) (events : list Event) (explanation : option Explanation) :
  agent_steps json_from_str config steps (agent_new config buffer) = Some (sent, st) ->
  window_ok config st
  /\ let e := msg_event (build_digest_message id now (ac_agent_id config) (ac_host config) events explanation) in
     match events with
     | [] => ev_severity e = Notice
     | _ => ev_severity e ∈ map ev_severity events
            /\ forall x, x ∈ events -> severity_leb (ev_severity x) (ev_severity e) = true
     end
     /\ forall k, default 0%N (bt_get k (source_counts events))
          = N.of_nat (length (List.filter (fun x => String.eqb (source_debug (event_source x)) k) events)).
Proof.
  intros Hr. split.
  { eapply window_ok_run; [exact Hr|]. unfold window_ok, agent_new. cbn. destruct (digest_on config) eqn:Hd; [|done].
    split; [done|]. split; [cbn; lia|constructor]. }
  cbv zeta. split; [|apply source_counts_get]. destruct events as [|e events]; [done|].
  cbn [build_digest_message msg_event ev_severity]. set (l := e :: events).
  destruct (max_severity (map ev_severity l)) as [s|] eqn:Hs; [|done]. cbn [default].
  destruct (max_severity_spec _ _ Hs) as [Hin Hall]. split; [done|]. intros x Hx. apply Hall.
  by apply list_elem_of_fmap_2.
Qed.
End Digests.

(** ** Examples *)

Definition digest_env (k : string) : option string :=
  if one_of k ["RAVN_INFERENCE"; "RAVN_DIGEST"]%string then Some "1"%string
  else if String.eqb k "RAVN_DIGEST_MAX_EVENTS" then Some "1"%string else None.
Definition digest_config : AgentConfig := config_of digest_env (ex_intro _ _ eq_refl).
Definition alarm : Message := message_new example_event.
(** Detected while the control plane is down; flushed once it is up. *)
Definition outage : list AgentStep :=
  [Detected (fun _ => NoAnswer []) (fun _ => false) 5 alarm; FlushTick (fun _ => false); FlushTick (fun _ => true)].


Lemma digest_faithful_witness :
  exists sent st, agent_steps (fun _ => None) digest_config [Detected (fun _ => NoAnswer []) (fun _ => true) 5 alarm;
      Detected (fun _ => NoAnswer []) (fun _ => true) 6 alarm] (agent_new digest_config None) = Some (sent, st)
    /\ window_ok digest_config st /\ option_map (@length Event) (ma_window st) = Some 1.
Proof.
  destruct (agent_steps (fun _ => None) digest_config [Detected (fun _ => NoAnswer []) (fun _ => true) 5 alarm;
      Detected (fun _ => NoAnswer []) (fun _ => true) 6 alarm] (agent_new digest_config None))
    as [[sent st]|] eqn:Hs; [|vm_compute in Hs; discriminate].
  exists sent, st. split; [reflexivity|].
  split; [exact (proj1 (digest_faithful _ _ _ _ _ _ 1 2 [] None Hs))|].
  clear -Hs. vm_compute in Hs. injection Hs as _ <-. reflexivity.
Defined.

(** With inference on, a drift whose diff is cut inside a character ends the loop
    before the alarm is published or buffered. *)
Definition inference_config : AgentConfig :=
  config_of (fun k => if String.eqb k "RAVN_INFERENCE" then Some "1"%string else None) (ex_intro _ _ eq_refl).
Fixpoint pad (n : nat) (s : string) : string := match n with O => s | S n => String "a" (pad n s) end.
Definition panicking_drift : Event :=
  {| ev_id := 1; ev_occurred_at := 5; ev_observed_at := 6; ev_agent_id := mkAgentId 9; ev_host := "h"; ev_severity := Notice;
     ev_title := "changed"; ev_category_hints := [];
     ev_payload := ConfigDrift {| cd_path := "/etc/motd"; cd_old_hash := None; cd_new_hash := "h";
                                  cd_diff := Some (pad 1499 "é"); cd_extra := [] |} |}.
Theorem drift_panics_the_loop (send : ChatRequest -> ChatReply) (b : Buffer) :
  agent_steps (fun _ => None) inference_config [Detected send (fun _ => true) 5 (message_new panicking_drift)]
    (agent_new inference_config (Some b)) = None.
Proof. vm_compute. reflexivity. Qed.
