(* ===== verification/TapLoops.v ===== *)
(** * The taps as they run ([ravn-agent/src/detection], [run_detection])

  The loops of the four detection taps around the classifiers and state machines of
  [Taps]: what each poll, file notification, journal line or profile link makes the
  tap send, and when it stops; and which taps a configuration starts.  The theorems
  are about whole runs: a failure that persists raises one alarm, the reports on a
  file and on the system's generation form chains without a gap.

  A run is the list of what the tap finds at each turn.  The processes it starts are
  answers to their argument lists, D-Bus, inotify and the clock are inputs; a send
  fails once the receiver is gone. *)

From S2P Require Export Taps AgentMain.

(** A loop still runs, returned, returned with an error, or panicked. *)
Inductive Ended := StillRunning | Returned | Failed (e : Chain) | Panicked.

Section TapLoops.
Context `{SerdeValue} `{TapEnv}.
Variable utf8_lossy : string -> string.

(** ** Failed units ([failed_unit.rs]) *)

Record UnitStatus := mkUnitStatus {
  us_name : string;
  us_description : string;
  us_load_state : string;
  us_active_state : string;
  us_sub_state : string;
  us_followed : string;
  us_unit_path : string;
  us_job_id : N;
  us_job_type : string;
  us_job_path : string;
}.
Record FailedUnitTap := mkFailedUnitTap {
  ft_agent_id : Uuid;
  ft_host : string;
  ft_user_bus : bool;
  ft_poll_interval : Z;
  ft_grace : Z;
}.
(** One turn: the listing, the iteration order of the set of failed units, the time,
    the [Result] property at a path, what [journalctl] prints, and the sends. *)
Record FailedTick := mkFailedTick {
  fk_closed : bool;
  fk_units : result Chain (list UnitStatus);
  fk_order : gset string -> list string;
  fk_now : Z;
  fk_result : string -> option string;
  fk_journalctl : list string -> result string string;
  fk_draw : string -> Draw;
  fk_accepts : string -> bool;
}.

Definition recent_log_args (unit_ : string) (user : bool) : list string :=
  (if user then ["--user"%string] else []) ++ ["-u"; unit_; "-n"; "12"; "-o"; "cat"; "--no-pager"]%string.
Definition recent_log (journalctl : list string -> result string string) (unit_ : string) (user : bool) : list string :=
  match journalctl (recent_log_args unit_ user) with Ok out => lines (utf8_lossy out) | Err _ => [] end.

Definition current_failed (units : list UnitStatus) : gset string :=
  list_to_set (map us_name (List.filter (fun u => String.eqb (us_active_state u) "failed") units)).
(** The map by name: the last row with it. *)
Definition unit_by_name (units : list UnitStatus) (name : string) : option UnitStatus :=
  last (List.filter (fun u => String.eqb (us_name u) name) units).
Definition failed_unit_message (t : FailedUnitTap) (k : FailedTick) (u : UnitStatus) : Message :=
  let result := default (us_sub_state u) (fk_result k (us_unit_path u)) in
  let log := recent_log (fk_journalctl k) (us_name u) (ft_user_bus t) in
  message_new (failed_unit_event (ft_agent_id t) (ft_host t) (us_name u) result log (us_active_state u) (fk_draw k (us_name u))).
(** The events of one turn; [false] when a send failed. *)
Fixpoint emit_failed (t : FailedUnitTap) (k : FailedTick) (units : list UnitStatus) (names : list string) : list Message * bool :=
  match names with
  | [] => ([], true)
  | name :: names =>
      match unit_by_name units name with
      | None => emit_failed t k units names
      | Some u =>
          if fk_accepts k name then
            let (sent, go) := emit_failed t k units names in (failed_unit_message t k u :: sent, go)
          else ([], false)
      end
  end.
(** The loop: the messages of each turn. *)
Fixpoint failed_unit_loop (t : FailedUnitTap) (ticks : list FailedTick) (g : GraceTracker)
    : list (list Message) * GraceTracker * Ended :=
  match ticks with
  | [] => ([], g, StillRunning)
  | k :: ticks =>
      if fk_closed k then ([], g, Returned)
      else
        match fk_units k with
        | Err _ => let '(rest, g, e) := failed_unit_loop t ticks g in ([] :: rest, g, e)
        | Ok units =>
            let (to_emit, g) := observe (fk_order k (current_failed units)) (fk_now k) (ft_grace t) g in
            let (sent, go) := emit_failed t k units to_emit in
            if go then let '(rest, g, e) := failed_unit_loop t ticks g in (sent :: rest, g, e)
            else ([sent], g, Returned)
        end
  end.
Definition failed_unit_run (t : FailedUnitTap) (connect : bool -> result Chain unit) (proxy : result Chain unit)
    (ticks : list FailedTick) : list (list Message) * Ended :=
  match with_context "connecting to D-Bus" (connect (ft_user_bus t)) with
  | Err e => ([], Failed e)
  | Ok _ =>
      match with_context "systemd manager proxy" proxy with
      | Err e => ([], Failed e)
      | Ok _ => let '(sent, _, e) := failed_unit_loop t ticks tracker_new in (sent, e)
      end
  end.

(** ** Config drift ([config_drift.rs]) *)

Record ConfigDriftTap := mkConfigDriftTap {
  dt_agent_id : Uuid;
  dt_host : string;
  dt_paths : list string;
}.
(** A configured path when the tap starts: whether it can be watched, and a plain
    file's contents. *)
Record WatchPath := mkWatchPath {
  wp_path : string;
  wp_watched : result string unit;
  wp_is_file : bool;
  wp_contents : option string;
}.
Inductive EventKind := KindAny | KindAccess | KindCreate | KindModify | KindRemove | KindOther.
(** A path of a notification when the tap gets to it. *)
Record ChangedPath := mkChangedPath {
  cp_path : string;
  cp_is_dir : bool;
  cp_contents : option string;
  cp_draw : Draw;
  cp_accepts : bool;
}.
Inductive WatchItem :=
  | Notified (kind : EventKind) (paths : list ChangedPath)
  | WatchError
  | WatchTimeout (closed : bool)
  | WatchDisconnected.

(** The remembered state of the explicit files. *)
Fixpoint seed_baseline (paths : list WatchPath) (baseline : gmap string FileState) : option (gmap string FileState) :=
  match paths with
  | [] => Some baseline
  | p :: paths =>
      match wp_watched p, wp_is_file p, wp_contents p with
      | Ok _, true, Some bytes =>
          r ← drift_evaluate (wp_path p) None bytes;
          seed_baseline paths (match r with Some (_, state) => <[wp_path p := state]> baseline | None => baseline end)
      | _, _, _ => seed_baseline paths baseline
      end
  end.
Definition relevant_kind (k : EventKind) : bool :=
  match k with KindModify | KindCreate | KindRemove => true | _ => false end.
(** The paths of one notification. *)
Fixpoint drift_paths (t : ConfigDriftTap) (paths : list ChangedPath) (baseline : gmap string FileState)
    : list Message * gmap string FileState * Ended :=
  match paths with
  | [] => ([], baseline, StillRunning)
  | p :: paths =>
      if cp_is_dir p then drift_paths t paths baseline
      else
        match drift_process (cp_path p) (cp_contents p) (dt_agent_id t) (dt_host t) (cp_draw p) baseline with
        | None => ([], baseline, Panicked)
        | Some (None, baseline) => drift_paths t paths baseline
        | Some (Some ev, baseline) =>
            if cp_accepts p then
              let '(sent, baseline, e) := drift_paths t paths baseline in (message_new ev :: sent, baseline, e)
            else ([], baseline, Returned)
        end
  end.
Fixpoint drift_loop (t : ConfigDriftTap) (items : list WatchItem) (baseline : gmap string FileState)
    : list Message * gmap string FileState * Ended :=
  match items with
  | [] => ([], baseline, StillRunning)
  | Notified kind paths :: items =>
      if relevant_kind kind then
        match drift_paths t paths baseline with
        | (sent, baseline, StillRunning) =>
            let '(rest, baseline, e) := drift_loop t items baseline in (sent ++ rest, baseline, e)
        | stopped => stopped
        end
      else drift_loop t items baseline
  | WatchError :: items => drift_loop t items baseline
  | WatchTimeout closed :: items => if closed : bool then ([], baseline, Returned) else drift_loop t items baseline
  | WatchDisconnected :: _ => ([], baseline, Returned)
  end.
(** [watch], and [run] around it: a panic of the task is an error of the tap. *)
Definition drift_watch (t : ConfigDriftTap) (watcher : result Chain unit) (seeds : list WatchPath) (items : list WatchItem)
    : list Message * Ended :=
  match watcher with
  | Err e => ([], Failed e)
  | Ok _ =>
      match seed_baseline seeds ∅ with
      | None => ([], Panicked)
      | Some baseline => let '(sent, _, e) := drift_loop t items baseline in (sent, e)
      end
  end.
Definition drift_run (t : ConfigDriftTap) (join_error : string) (watcher : result Chain unit) (seeds : list WatchPath)
    (items : list WatchItem) : list Message * Ended :=
  match drift_watch t watcher seeds items with
  | (sent, Panicked) => (sent, Failed ["config-drift task panicked: " +:+ join_error])
  | r => r
  end.

(** ** Updates ([update.rs]) *)

(** The components of a path, [Path::file_name] and [Path::parent]; the parent is written
    with single separators. *)
Definition path_segments (p : string) : list string :=
  let named := List.filter (fun s => negb (one_of s [EmptyString; "."%string])) in
  match split_on (is_byte 47) p with
  | first :: rest => if String.eqb first "." then first :: named rest else named (first :: rest)
  | [] => []
  end.
Definition path_file_name (p : string) : option string :=
  name ← last (path_segments p); if one_of name [".."; "."]%string then None else Some name.
Definition path_parent (p : string) : option string :=
  let root := starts_with "/" p in
  match path_segments p with
  | [] => None
  | segs => Some ((if root then "/" else "") +:+ join "/" (removelast segs))
  end.

Record UpdateTap := mkUpdateTap {
  ut_agent_id : Uuid;
  ut_host : string;
  ut_profile : string;
  ut_poll_interval : Z;
}.
(** One turn: where the profile links to, what [nix] prints, and the send. *)
Record UpdateTick := mkUpdateTick {
  uk_closed : bool;
  uk_link : option string;
  uk_nix : list string -> option (bool * string);
  uk_draw : Draw;
  uk_accepts : bool;
}.
Definition read_generation (link : option string) : option N :=
  target ← link; name ← path_file_name target; parse_generation name.
Definition generation_link (dir : string) (n : N) : string := path_join dir ("system-" +:+ show_N n +:+ "-link").
Definition closure_diff_args (dir : string) (from to : N) : list string :=
  ["--extra-experimental-features"; "nix-command"; "store"; "diff-closures"]%string
  ++ [generation_link dir from; generation_link dir to].
Definition closure_diff (nix : list string -> option (bool * string)) (dir : string) (from to : N) : list string :=
  match nix (closure_diff_args dir from to) with
  | Some (true, out) => take 50 (List.filter (fun l => negb (is_empty (trim l))) (lines (utf8_lossy out)))
  | _ => []
  end.
(** The loop: the messages, the generation last reported, and the end. *)
Fixpoint update_loop (t : UpdateTap) (dir : string) (ticks : list UpdateTick) (current : N) : list Message * N * Ended :=
  match ticks with
  | [] => ([], current, StillRunning)
  | k :: ticks =>
      if uk_closed k then ([], current, Returned)
      else
        match update_turn current (read_generation (uk_link k)) with
        | (None, current) => update_loop t dir ticks current
        | (Some (from, to), latest) =>
            let changes := closure_diff (uk_nix k) dir from to in
            let m := message_new (update_event (ut_agent_id t) (ut_host t) from to changes (uk_draw k)) in
            if uk_accepts k then
              let '(sent, g, e) := update_loop t dir ticks latest in (m :: sent, g, e)
            else ([], current, Returned)
        end
  end.
Definition update_run (t : UpdateTap) (link : option string) (ticks : list UpdateTick) : list Message * Ended :=
  match read_generation link with
  | None => ([], Returned)
  | Some current =>
      let dir := default "."%string (path_parent (ut_profile t)) in
      let '(sent, _, e) := update_loop t dir ticks current in (sent, e)
  end.

(** ** The journal ([journald.rs]) *)

Variable record_from_str : string -> option JournalRecord.
(** One line of [journalctl], or the error of reading it; and the send. *)
Record JournalLine := mkJournalLine {
  jl_line : result Chain string;
  jl_draw : Draw;
  jl_accepts : bool;
}.
Definition journal_args (t : JournaldTap) : list string :=
  ["--follow"; "--lines=0"; "--output=json"; "--priority=" +:+ show_N (stream_priority t)]%string.
Definition line_event (t : JournaldTap) (line : string) (x : Draw) : option Event :=
  if is_empty line then None else rec ← record_from_str line; classify t rec x.
Fixpoint journal_loop (t : JournaldTap) (ls : list JournalLine) : list Message * Ended :=
  match ls with
  | [] => ([], Returned)
  | l :: ls =>
      match jl_line l with
      | Err e => ([], Failed e)
      | Ok line =>
          match line_event t line (jl_draw l) with
          | None => journal_loop t ls
          | Some ev => if jl_accepts l then let (sent, e) := journal_loop t ls in (message_new ev :: sent, e)
                       else ([], Returned)
          end
      end
  end.
(** [spawn] is what starting [journalctl] gives: whether its output could be taken,
    and its lines until it ends. *)
Definition journald_run (t : JournaldTap) (spawn : list string -> result Chain (bool * list JournalLine)) : list Message * Ended :=
  match with_context "spawning journalctl (is systemd-journald available?)" (spawn (journal_args t)) with
  | Err e => ([], Failed e)
  | Ok (false, _) => ([], Failed ["capturing journalctl stdout"%string])
  | Ok (true, ls) => journal_loop t ls
  end.

(** ** Which taps run ([run_detection]) *)

Record RunningTaps := mkRunningTaps {
  rt_journald : option JournaldTap;
  rt_drift : option ConfigDriftTap;
  rt_failed : option FailedUnitTap;
  rt_updates : option UpdateTap;
}.
Definition seconds (n : Z) : Z := n * 10 ^ 9.
Definition running_taps (c : AgentConfig) : RunningTaps := {|
  rt_journald :=
    if ac_journald_enable c then
      Some {| jt_agent_id := ac_agent_id c; jt_host := ac_host c; jt_min_priority := ac_journald_min_priority c;
              jt_auth_enable := ac_auth_enable c; jt_skip_kernel := ac_journald_skip_kernel c |}
    else None;
  rt_drift :=
    match ac_config_drift_paths c with
    | [] => None
    | paths => Some {| dt_agent_id := ac_agent_id c; dt_host := ac_host c; dt_paths := paths |}
    end;
  rt_failed :=
    if ac_failed_units_enable c then
      Some {| ft_agent_id := ac_agent_id c; ft_host := ac_host c; ft_user_bus := ac_systemd_user_bus c;
              ft_poll_interval := seconds 5; ft_grace := seconds (Z.of_N (ac_failed_units_grace_secs c)) |}
    else None;
  rt_updates :=
    if ac_updates_enable c then
      Some {| ut_agent_id := ac_agent_id c; ut_host := ac_host c; ut_profile := ac_nix_profile c;
              ut_poll_interval := seconds (Z.of_N (ac_update_poll_secs c)) |}
    else None |}.
End TapLoops.

(** ** A failure that persists raises one alarm *)

Section FailedUnits.
Context `{SerdeValue} `{TapEnv}.
Variable utf8_lossy : string -> string.
Variable t : FailedUnitTap.

(** A turn with the receiver there; the set is iterated in some order. *)
Definition attended (k : FailedTick) : Prop :=
  fk_closed k = false /\ (forall n, fk_accepts k n = true) /\ forall s, fk_order k s ≡ₚ elements s.
Definition tick_poll (k : FailedTick) : Poll :=
  match fk_units k with Ok units => Some (fk_order k (current_failed units), fk_now k) | Err _ => None end.
Definition message_unit (m : Message) : option string :=
  match ev_payload (msg_event m) with FailedUnit p => Some (fu_unit p) | _ => None end.

Lemma unit_by_name_Some (units : list UnitStatus) (name : string) (u : UnitStatus) :
  unit_by_name units name = Some u -> u ∈ units /\ us_name u = name.
Proof.
  unfold unit_by_name. intros Hu%last_Some_elem_of%list_elem_of_In. apply filter_In in Hu as [Hin Hn].
  apply String.eqb_eq in Hn. by apply list_elem_of_In in Hin.
Qed.

Lemma unit_by_name_failed (units : list UnitStatus) (name : string) :
  name ∈ current_failed units -> is_Some (unit_by_name units name).
Proof.
  unfold current_failed, unit_by_name. rewrite elem_of_list_to_set. intros (u & -> & Hu)%list_elem_of_fmap.
  apply list_elem_of_In, filter_In in Hu as [Hu _]. destruct (last _) eqn:Hl; [done|]. apply last_None in Hl.
  exfalso. assert (In u (List.filter (fun v => String.eqb (us_name v) (us_name u)) units)) as Hin.
  { apply filter_In. by rewrite String.eqb_refl. }
  by rewrite Hl in Hin.
Qed.

Lemma emit_failed_spec (k : FailedTick) (units : list UnitStatus) (names : list string) :
  (forall n, fk_accepts k n = true) -> (forall n, n ∈ names -> n ∈ current_failed units) ->
  exists us, emit_failed utf8_lossy t k units names = (map (failed_unit_message utf8_lossy t k) us, true)
    /\ map us_name us = names /\ forall u, u ∈ us -> u ∈ units.
Proof.
  intros Hacc. induction names as [|n names IH]; intros Hn; cbn [emit_failed]; [by exists []; split_and!; [..|set_solver]|].
  destruct IH as (us & -> & <- & Hus); [set_solver|].
  destruct (unit_by_name_failed units n) as [u Hu]; [set_solver|]. rewrite Hu, Hacc.
  apply unit_by_name_Some in Hu as [Hin <-]. exists (u :: us). split_and!; [done|done|set_solver].
Qed.

(** The loop is the tracker's run over the polls. *)
Lemma failed_unit_loop_run (ticks : list FailedTick) (g : GraceTracker) :
  Forall attended ticks ->
  let '(out, g', e) := failed_unit_loop utf8_lossy t ticks g in
  e = StillRunning /\ (map (omap message_unit) out, g') = observe_run (ft_grace t) (map tick_poll ticks) g
  /\ Forall2 (fun k ms => forall m, m ∈ ms -> exists units u, fk_units k = Ok units /\ u ∈ units /\ m = failed_unit_message utf8_lossy t k u)
       ticks out.
Proof.
  intros Hall. revert g. induction Hall as [|k ticks (Hc & Hacc & Hord) Hall IH]; intros g; cbn [failed_unit_loop map observe_run]; [done|].
  rewrite Hc. unfold tick_poll at 1. destruct (fk_units k) as [units|e] eqn:Hu.
  - destruct (observe _ _ _ g) as [names g1] eqn:Ho.
    destruct (emit_failed_spec k units names Hacc) as (us & -> & Hnames & Hus).
    { intros n Hn. destruct (decide (n ∈ current_failed units)) as [|Hnot]; [done|]. exfalso.
      assert (NoDup (fk_order k (current_failed units))) as Hnd by (rewrite Hord; apply NoDup_elements).
      assert (n ∉ fk_order k (current_failed units)) as Hno by (by rewrite Hord, elem_of_elements).
      pose proof (observe_unit _ (fk_now k) (ft_grace t) n g Hnd) as [Hout _]. rewrite Ho in Hout. by apply Hout in Hno as [? _]. }
    specialize (IH g1). destruct (failed_unit_loop _ _ ticks g1) as [[rest g2] e]. destruct IH as (-> & Hrun & Hf).
    destruct (observe_run _ _ g1) as [outs g3]. injection Hrun as <- <-. split_and!; [done| |].
    + f_equal. cbn [map]. f_equal. rewrite <-Hnames. clear. induction us as [|u us IH]; cbn; [done|]. by rewrite IH.
    + constructor; [|done]. intros m (u & -> & Hin)%list_elem_of_fmap. exists units, u. auto.
  - specialize (IH g). destruct (failed_unit_loop _ _ ticks g) as [[rest g2] e']. destruct IH as (-> & Hrun & Hf).
    destruct (observe_run _ _ g) as [outs g3]. injection Hrun as <- <-. split_and!; [done|done|].
    constructor; [|done]. intros m Hm. by apply elem_of_nil in Hm.
Qed.

(** C30. A unit that stays failed raises exactly one alarm. Over any turns of the tap in
    which the listing fails or shows the unit failed, whatever other units do and in
    whatever order sets are iterated, the tap sends an event for the unit at the
    first successful turn at least the grace period after the first one, and at no
    other turn; every event it sends is about a unit of that turn's listing, with the
    unit's result and state; and the tap goes on. *)
Theorem failed_unit_alarm (ticks : list FailedTick) (u : string) (first : Z) :
  Forall attended ticks -> Forall (fun k => sees u (tick_poll k)) ticks ->
  head (omap (fun k => snd <$> tick_poll k) ticks) = Some first ->
  let '(out, _, e) := failed_unit_loop utf8_lossy t ticks tracker_new in
  e = StillRunning /\ length out = length ticks
  /\ forall i k ms, ticks !! i = Some k -> out !! i = Some ms ->
       ((exists m, m ∈ ms /\ message_unit m = Some u) <-> first_ripe (ft_grace t) first (map tick_poll ticks) i)
       /\ forall m, m ∈ ms -> exists units v, fk_units k = Ok units /\ v ∈ units /\ m = failed_unit_message utf8_lossy t k v.
Proof.
  intros Hall Hsees Hfirst. pose proof (failed_unit_loop_run ticks tracker_new Hall) as Hloop.
  destruct (failed_unit_loop _ _ ticks tracker_new) as [[out g] e]. destruct Hloop as (-> & Hrun & Hf).
  split_and!; [done|symmetry; by eapply Forall2_length|]. intros i k ms Hk Hms. split.
  - assert ((exists m, m ∈ ms /\ message_unit m = Some u) <-> u ∈ omap message_unit ms) as ->.
    { rewrite list_elem_of_omap. split; intros (m & ? & ?); eauto. }
    apply (episode_pending _ u (map tick_poll ticks) tracker_new).
    + by apply Forall_map.
    + right. split; [done|]. rewrite <-Hfirst. f_equal. clear. induction ticks as [|k ticks IH]; cbn; [done|].
      destruct (tick_poll k); cbn; by rewrite IH.
    + rewrite <-Hrun. cbn [fst]. rewrite list_lookup_fmap, Hms. done.
  - exact (Forall2_lookup_lr _ _ _ _ _ _ Hf Hk Hms).
Qed.
End FailedUnits.

(** ** Reports on a file form a chain *)

Section DriftChain.
Context `{SerdeValue} `{TapEnv}.
(** A digest is not the marker of a removed file. *)
Hypothesis sha256_not_removed : forall bytes, sha256_hex bytes <> "(removed)"%string.

Definition drift_payload (p : string) (m : Message) : option ConfigDriftPayload :=
  match ev_payload (msg_event m) with ConfigDrift d => if String.eqb (cd_path d) p then Some d else None | _ => None end.
(** The hash a reader of the reports believes the file has, none after a removal. *)
Definition reported_hash (d : ConfigDriftPayload) : option string :=
  if String.eqb (cd_new_hash d) "(removed)" then None else Some (cd_new_hash d).
Fixpoint drift_chain (known : option string) (l : list ConfigDriftPayload) : Prop :=
  match l with
  | [] => True
  | d :: l => cd_old_hash d = known /\ reported_hash d <> known /\ drift_chain (reported_hash d) l
  end.
Definition hash_after (known : option string) (l : list ConfigDriftPayload) : option string :=
  fold_left (fun _ d => reported_hash d) l known.

Lemma drift_chain_app known l l' : drift_chain known (l ++ l') <-> drift_chain known l /\ drift_chain (hash_after known l) l'.
Proof. revert known; induction l as [|d l IH]; intros known; cbn; [by split; [|intros [_ ?]]|]. rewrite IH. unfold hash_after. naive_solver. Qed.
Lemma hash_after_app known l l' : hash_after known (l ++ l') = hash_after (hash_after known l) l'.
Proof. unfold hash_after. apply fold_left_app. Qed.

(** What a run sent about [p] continues the chain of its baseline. *)
Definition continues (p : string) (b b' : gmap string FileState) (sent : list Message) : Prop :=
  let l := omap (drift_payload p) sent in
  drift_chain (fs_hash <$> b !! p) l /\ hash_after (fs_hash <$> b !! p) l = fs_hash <$> b' !! p.
Lemma continues_nil p b : continues p b b [].
Proof. done. Qed.
Lemma continues_app p b1 b2 b3 s1 s2 : continues p b1 b2 s1 -> continues p b2 b3 s2 -> continues p b1 b3 (s1 ++ s2).
Proof.
  intros [H1 H2] [H3 H4]. unfold continues. cbv zeta. rewrite omap_app, drift_chain_app, hash_after_app, H2. done.
Qed.

(** One path: its event, if any, continues the chain of every path; what is
    remembered of it is what was read, and other paths are left alone. *)
Lemma drift_process_chain (path : string) (contents : option string) (agent : Uuid) (host : string) (x : Draw)
    (b b' : gmap string FileState) (ev : option Event) (p : string) :
  drift_process path contents agent host x b = Some (ev, b') ->
  continues p b b' (option_list (message_new <$> ev))
  /\ fs_hash <$> b' !! p = if String.eqb path p then sha256_hex <$> contents else fs_hash <$> b !! p.
Proof.
  unfold continues. destruct contents as [bytes|]; cbn [drift_process].
  - unfold drift_evaluate.
    destruct (match b !! path with Some q => String.eqb (fs_hash q) (sha256_hex bytes) | None => false end) eqn:Heq.
    { destruct (b !! path) as [q|] eqn:Hq; [|done]. apply String.eqb_eq in Heq. intros [= <- <-]. cbn.
      split; [done|]. destruct (String.eqb_spec path p) as [->|]; [|done]. rewrite Hq. cbn. by rewrite Heq. }
    destruct (match b !! path ≫= fs_text with Some _ => _ | None => _ end) as [diff|]; [|done].
    cbn. intros [= <- <-]. unfold drift_payload. cbn. destruct (String.eqb_spec path p) as [->|Hne]; cbn.
    + rewrite lookup_insert_eq. unfold reported_hash. cbn.
      destruct (String.eqb_spec (sha256_hex bytes) "(removed)") as [Hr|_]; [by destruct (sha256_not_removed bytes)|].
      split_and!; try done. destruct (b !! p) as [q|]; [|done]. intros [= Hq]. by rewrite Hq, String.eqb_refl in Heq.
    + by rewrite lookup_insert_ne.
  - destruct (b !! path) as [q|] eqn:Hq; intros [= <- <-]; cbn; unfold drift_payload; cbn;
      (destruct (String.eqb_spec path p) as [->|Hne]; cbn).
    + by rewrite lookup_delete_eq, Hq.
    + by rewrite lookup_delete_ne.
    + by rewrite Hq.
    + done.
Qed.

(** What was read of [p] last, or what was known before. *)
Fixpoint last_known (p : string) (known : option string) (paths : list ChangedPath) : option string :=
  match paths with
  | [] => known
  | c :: paths =>
      last_known p (if negb (cp_is_dir c) && String.eqb (cp_path c) p then sha256_hex <$> cp_contents c else known) paths
  end.

Lemma drift_paths_chain (t : ConfigDriftTap) (p : string) (paths : list ChangedPath) (b : gmap string FileState) :
  Forall (fun c => cp_accepts c = true) paths ->
  let '(sent, b', e) := drift_paths t paths b in
  continues p b b' sent
  /\ (e = StillRunning -> fs_hash <$> b' !! p = last_known p (fs_hash <$> b !! p) paths)
  /\ (e = StillRunning \/ e = Panicked).
Proof.
  intros Hall. revert b. induction Hall as [|c paths Hc Hall IH]; intros b; cbn [drift_paths last_known]; [by split_and!; [..|left]|].
  destruct (cp_is_dir c) eqn:Hd; cbn [negb andb]; [apply IH|].
  destruct (drift_process _ _ _ _ _ _) as [[ev b1]|] eqn:Hp; [|by split_and!; [..|right]].
  destruct (drift_process_chain _ _ _ _ _ _ _ _ p Hp) as [Hcont <-]. specialize (IH b1).
  destruct ev as [ev|]; [rewrite Hc|]; destruct (drift_paths t paths b1) as [[sent b'] e]; destruct IH as (H1 & H2 & H3);
    (split_and!; [eapply continues_app in H1; [|exact Hcont]; exact H1|done|done]).
Qed.

(** The paths a run looks at. *)
Definition noticed (items : list WatchItem) : list ChangedPath :=
  concat (map (fun i => match i with Notified kind paths => if relevant_kind kind then paths else [] | _ => [] end) items).

Lemma last_known_app p known l l' : last_known p known (l ++ l') = last_known p (last_known p known l) l'.
Proof. revert known; induction l as [|c l IH]; intros known; cbn; [done|]. by rewrite IH. Qed.

Lemma drift_loop_chain (t : ConfigDriftTap) (p : string) (items : list WatchItem) (b : gmap string FileState) :
  Forall (fun c => cp_accepts c = true) (noticed items) ->
  let '(sent, b', e) := drift_loop t items b in
  continues p b b' sent
  /\ (e = StillRunning -> fs_hash <$> b' !! p = last_known p (fs_hash <$> b !! p) (noticed items)).
Proof.
  revert b. induction items as [|[kind paths| |closed|] items IH]; intros b Hacc; cbn [drift_loop]; [done| | | |].
  - unfold noticed in *. cbn [map concat] in *. destruct (relevant_kind kind); [|by apply IH].
    apply Forall_app in Hacc as [Hp Hacc]. pose proof (drift_paths_chain t p paths b Hp) as Hc.
    destruct (drift_paths t paths b) as [[sent b1] e1]. destruct Hc as (Hc & Hk & [-> | ->]); [|by split].
    specialize (IH b1 Hacc). destruct (drift_loop t items b1) as [[rest b2] e2]. destruct IH as [Hc2 Hk2].
    split; [by eapply continues_app|]. intros He. by rewrite last_known_app, <-(Hk eq_refl), (Hk2 He).
  - by apply IH.
  - destruct closed; [by split|]. by apply IH.
  - by split.
Qed.

(** No drift goes unreported. Over any run of the tap, the reports about a file
    form a chain: each gives as the old hash the hash the previous one left (the first
    one that of the file at the start, when it was read then), reports a change, and
    the chain ends at what was read of the file last: a reader of the reports knows
    the hash of the file as the tap last saw it, or that it is gone. *)
Theorem drift_reports_chain (t : ConfigDriftTap) (p : string) (seeds : list WatchPath) (items : list WatchItem)
    (b : gmap string FileState) :
  seed_baseline seeds ∅ = Some b -> Forall (fun c => cp_accepts c = true) (noticed items) ->
  let '(sent, e) := drift_watch t (Ok tt) seeds items in
  drift_chain (fs_hash <$> b !! p) (omap (drift_payload p) sent)
  /\ (e = StillRunning ->
        hash_after (fs_hash <$> b !! p) (omap (drift_payload p) sent) = last_known p (fs_hash <$> b !! p) (noticed items)).
Proof.
  intros Hseed Hacc. unfold drift_watch. rewrite Hseed. pose proof (drift_loop_chain t p items b Hacc) as Hl.
  destruct (drift_loop t items b) as [[sent b'] e]. destruct Hl as [[Hc Hh] Hk]. split; [done|]. intros He. by rewrite Hh, Hk.
Qed.
End DriftChain.

(** ** Reports on the system's generation form a chain *)

Section UpdateChain.
Context `{SerdeValue}.
Variable utf8_lossy : string -> string.

Definition update_numbers (m : Message) : option (string * string) :=
  match ev_payload (msg_event m) with Update u => from ← up_from u; to ← up_to u; Some (from, to) | _ => None end.
Fixpoint generation_chain (known : N) (l : list (string * string)) (final : N) : Prop :=
  match l with
  | [] => known = final
  | (from, to) :: l => from = show_N known /\ exists n, to = show_N n /\ n <> known /\ generation_chain n l final
  end.
(** The generation the profile was last seen at. *)
Definition last_generation (known : N) (ticks : list UpdateTick) : N :=
  fold_left (fun g k => default g (read_generation (uk_link k))) ticks known.

(** Every change of generation is reported once, from the one reported before, and the
    reports end at the generation last seen. *)
Theorem update_reports_chain (t : UpdateTap) (dir : string) (ticks : list UpdateTick) (current : N) :
  Forall (fun k => uk_closed k = false /\ uk_accepts k = true) ticks ->
  let '(sent, g, e) := update_loop utf8_lossy t dir ticks current in
  e = StillRunning /\ g = last_generation current ticks
  /\ generation_chain current (omap update_numbers sent) g /\ length (omap update_numbers sent) = length sent.
Proof.
  intros Hall. revert current. induction Hall as [|k ticks [Hc Ha] Hall IH]; intros current; cbn [update_loop]; [done|].
  rewrite Hc. unfold last_generation. cbn [fold_left]. unfold update_turn. destruct (read_generation (uk_link k)) as [l|]; cbn [default]; [|apply IH].
  destruct (N.eqb_spec l current) as [->|Hne]; [apply IH|]. rewrite Ha. specialize (IH l).
  destruct (update_loop _ t dir ticks l) as [[sent g] e]. destruct IH as (-> & -> & Hch & Hl).
  split_and!; [done|done|cbn; eauto|cbn; by rewrite Hl].
Qed.
End UpdateChain.

(** ** The journal *)

Section JournalFacts.
Context `{SerdeValue} `{TapEnv}.
Variable record_from_str : string -> option JournalRecord.

(** Every line that carries an event is sent, in order, until the journal ends. *)
Theorem journal_reports (t : JournaldTap) (ls : list (string * Draw)) :
  journald_run record_from_str t (fun _ => Ok (true, map (fun l => mkJournalLine (Ok l.1) l.2 true) ls))
  = (omap (fun l => message_new <$> line_event record_from_str t l.1 l.2) ls, Returned).
Proof.
  unfold journald_run. cbn. induction ls as [|[line x] ls IH]; cbn; [done|].
  destruct (line_event record_from_str t line x); cbn; by rewrite IH.
Qed.

(** An access event is recognised at any priority, but those of priority debug are not
    in the stream. *)
Theorem debug_access_not_streamed (t : JournaldTap) (msg : string) (d : Taps.Detected) (x : Draw) :
  jt_auth_enable t = true -> (jt_min_priority t < 7)%N -> classify_ssh msg = Some d ->
  let rec := bt_insert "PRIORITY" (value_from_str "7") (bt_insert "MESSAGE" (value_from_str msg)
               (bt_insert "SYSLOG_IDENTIFIER" (value_from_str "sshd") [])) in
  value_as_str (value_from_str "sshd") = Some "sshd"%string -> value_as_str (value_from_str msg) = Some msg ->
  is_Some (classify t rec x) /\ (stream_priority t < 7)%N.
Proof.
  intros Ha Hm Hd rec Hs Hmsg. unfold classify, stream_priority. rewrite Ha. split; [|lia].
  assert (field rec "MESSAGE" = Some msg) as Hf by exact Hmsg.
  assert (field rec "SYSLOG_IDENTIFIER" = Some "sshd"%string) as Hi by exact Hs.
  unfold auth_classify. rewrite Hf. cbn [mbind option_bind]. unfold auth_detect. rewrite Hi. cbn [default].
  change (String.eqb "sshd" "sshd") with true. cbn iota. rewrite Hd. cbn [mbind option_bind]. by eexists.
Qed.
End JournalFacts.

(** A tap runs exactly when [main] starts the detection loop. *)
Lemma running_taps_any (c : AgentConfig) :
  any_tap c = true <->
  is_Some (rt_journald (running_taps c)) \/ is_Some (rt_drift (running_taps c))
  \/ is_Some (rt_failed (running_taps c)) \/ is_Some (rt_updates (running_taps c)).
Proof.
  unfold any_tap, running_taps. cbn. rewrite !orb_true_iff, negb_true_iff, bool_decide_eq_false, !is_Some_alt.
  destruct (ac_journald_enable c), (ac_config_drift_paths c), (ac_failed_units_enable c), (ac_updates_enable c); cbn;
    intuition (done || congruence).
Qed.

(** ** Examples *)

#[local] Existing Instance string_value.
#[local] Instance demo_tap : TapEnv :=
  {| sha256_hex s := "sha256:" +:+ s; text_diff p a b := a +:+ b; timestamp_micros us := Some (us * 1000)%Z |}.

Definition demo_unit (name state : string) : UnitStatus := mkUnitStatus name "" "loaded" state state "" ("/" +:+ name) 0 "" "/".
Definition demo_tick (now : Z) (units : result Chain (list UnitStatus)) : FailedTick := {|
  fk_closed := false; fk_units := units; fk_order := elements; fk_now := now; fk_result := fun _ => Some "exit-code"%string;
  fk_journalctl := fun _ => Ok ("started" +:+ newline +:+ "died" +:+ newline); fk_draw := fun _ => mkDraw 1 now; fk_accepts := fun _ => true |}.
Definition failing_ticks : list FailedTick :=
  [demo_tick 0 (Ok [demo_unit "a" "failed"; demo_unit "b" "active"]); demo_tick 5 (Err ["timed out"%string]);
   demo_tick 10 (Ok [demo_unit "a" "failed"; demo_unit "b" "failed"]); demo_tick 15 (Ok [demo_unit "a" "failed"])].
Definition demo_failed_tap : FailedUnitTap := mkFailedUnitTap 7 "web-01" false 5 10.
Lemma failed_unit_alarm_witness :
  map (omap message_unit) (failed_unit_loop (fun s => s) demo_failed_tap failing_ticks tracker_new).1.1 = [[]; []; ["a"]; []]%string
  /\ (failed_unit_loop (fun s => s) demo_failed_tap failing_ticks tracker_new).2 = StillRunning.
Proof.
  assert (Forall attended failing_ticks) as Hall.
  { do 4 (apply Forall_cons; split; [split_and!; done|]). constructor. }
  assert (Forall (fun k => sees "a" (tick_poll k)) failing_ticks) as Hsees.
  { do 4 (apply Forall_cons; split; [cbn; first [done|split; [apply NoDup_elements|apply elem_of_elements; unfold current_failed; cbn; set_solver]]|]).
    constructor. }
  pose proof (failed_unit_alarm (fun s => s) demo_failed_tap failing_ticks "a" 0 Hall Hsees eq_refl) as Halarm.
  split; [vm_compute; reflexivity|].
  destruct (failed_unit_loop _ _ failing_ticks tracker_new) as [[out g] e]. destruct Halarm as [He _]. exact He.
Defined.

Definition demo_drift_tap : ConfigDriftTap := mkConfigDriftTap 7 "web-01" ["/etc/hosts"%string].
Definition demo_seed : list WatchPath := [mkWatchPath "/etc/hosts" (Ok tt) true (Some "one"%string)].
Definition demo_change (contents : option string) : WatchItem :=
  Notified KindModify [mkChangedPath "/etc/hosts" false contents (mkDraw 1 1) true].
Definition demo_changes : list WatchItem :=
  [demo_change (Some "two"%string); WatchTimeout false; demo_change (Some "two"%string); demo_change None; demo_change (Some "one"%string)].
Lemma drift_reports_chain_witness :
  map reported_hash (omap (drift_payload "/etc/hosts") (drift_watch demo_drift_tap (Ok tt) demo_seed demo_changes).1)
    = [Some "sha256:two"%string; None; Some "sha256:one"%string]
  /\ hash_after (Some "sha256:one"%string)
       (omap (drift_payload "/etc/hosts") (drift_watch demo_drift_tap (Ok tt) demo_seed demo_changes).1) = Some "sha256:one"%string.
Proof.
  destruct (seed_baseline demo_seed ∅) as [b|] eqn:Hb; [|vm_compute in Hb; discriminate].
  assert (forall bytes, sha256_hex bytes <> "(removed)"%string) as Hsha by (intros bytes Hx; cbn in Hx; discriminate).
  pose proof (drift_reports_chain Hsha demo_drift_tap "/etc/hosts" demo_seed demo_changes b Hb
    ltac:(repeat constructor)) as Hc.
  assert ((drift_watch demo_drift_tap (Ok tt) demo_seed demo_changes).2 = StillRunning) as He by (vm_compute; reflexivity).
  split; [vm_compute; reflexivity|]. destruct (drift_watch _ _ _ _) as [sent e]. cbn [fst snd] in *. destruct Hc as [_ Hend].
  specialize (Hend He). assert (fs_hash <$> b !! "/etc/hosts"%string = Some "sha256:one"%string) as Hk.
  { assert ((fun b => fs_hash <$> b !! "/etc/hosts"%string) <$> seed_baseline demo_seed ∅ = Some (Some "sha256:one"%string)) as Hf
      by (vm_compute; reflexivity). rewrite Hb in Hf. by injection Hf. }
  rewrite Hk in Hend. exact Hend.
Defined.

Definition demo_generation (n : N) : UpdateTick := {|
  uk_closed := false; uk_link := Some ("system-" +:+ show_N n +:+ "-link"); uk_nix := fun _ => Some (true, "vim: 9.0 → 9.1"%string);
  uk_draw := mkDraw 1 1; uk_accepts := true |}.
Example update_chain_ex :
  omap update_numbers (update_run (fun s => s) (mkUpdateTap 7 "web-01" "/nix/var/nix/profiles/system" 60) (Some "system-41-link"%string)
    [demo_generation 41; demo_generation 42; demo_generation 42; demo_generation 40]).1 = [("41", "42"); ("42", "40")]%string
  /\ closure_diff_args "/nix/var/nix/profiles" 41 42
     = ["--extra-experimental-features"; "nix-command"; "store"; "diff-closures";
        "/nix/var/nix/profiles/system-41-link"; "/nix/var/nix/profiles/system-42-link"]%string
  /\ path_parent "/nix/var/nix/profiles/system" = Some "/nix/var/nix/profiles"%string.
Proof. vm_compute. split_and!; reflexivity. Qed.
