(* ===== verification/ServerBoot.v ===== *)
(** * Start-up of the control plane ([main] of [ravn-server/src/main.rs])

  The state the server starts with, built from its configuration and from what it
  finds: the database, the key and template directories, the knowledge base, the
  JWKS documents. Any failure ends start-up. The theorem composes start-up with the
  remediation loop: it fails closed, and what the environment said about automation
  binds every command of every later run.

  Connecting to PostgreSQL and NATS, the HTTP clients, certificate and key decoding
  and the TOML of a policy are parameters; serving is [Orchestrator]'s runs. *)

From S2P Require Export ServerConfig Fleet Inference.

(** A computation that records the URLs it fetches. *)
Definition Logged (A : Type) : Type := result Chain A * list string.
Definition quiet {A} (r : result Chain A) : Logged A := (r, []).
#[export] Instance logged_ret : MRet Logged := fun _ a => (Ok a, []).
#[export] Instance logged_bind : MBind Logged := fun _ _ f r =>
  match r with
  | (Ok a, l) => let (b, l') := f a in (b, l ++ l')
  | (Err e, l) => (Err e, l)
  end.
Definition logged_context {A} (msg : string) (r : Logged A) : Logged A := (with_context msg r.1, r.2).
(** [match o { Some(a) => Some(f(a)?), None => None }]. *)
Definition logged_opt {A B} (f : A -> Logged B) (o : option A) : Logged (option B) :=
  match o with
  | Some a => b ← f a; mret (Some b)
  | None => mret None
  end.

Record OidcPublic := mkOidcPublic { op_issuer : string; op_client_id : string; op_scopes : string }.
Record TokenReviewValidator := mkTokenReviewValidator {
  tv_url : string; tv_bearer : string; tv_audience : string }.

Section Boot.
Context `{SerdeValue} `{Base64} `{Ed25519} `{SerdeJson} `{Rfc3339} `{Jwt} `{!JwksJson} `{Rcgen}.
Context {SocketAddr : Type}.

(** What start-up finds outside the process. *)
Record Surroundings := mkSurroundings {
  sr_var : string -> option string;
  sr_read_file : string -> result string string;
  sr_http_get : string -> result Chain string;
  sr_db_connect : string -> result Chain unit;
  sr_db_migrate : result Chain unit;
  sr_nats_connect : string -> result Chain unit;
  sr_issuer_from_pem : string -> string -> result Chain IssuerKey;
  sr_http_client : option string -> result Chain unit;
  sr_key_source : option string -> KeySource;
  sr_fresh_key : SigningKey;
  sr_previous_keys : string -> result string (list (string * string));
  sr_template_dir : string -> result string (option (list DirEntry));
  sr_template_parse : string -> result string Template;
  sr_table : Table;
  sr_table_readable : bool;
  sr_kb_dir : string -> result string (gmap string string);
  sr_policy : string -> result Chain Policy;
  sr_now : Instant;
}.

(** [AppState], with what [Orchestrator] uses of it as one field. *)
Record ServerState := mkServer {
  sv_app : AppState;
  sv_credentials : Credentials;
  sv_ca : option Ca;
  sv_enroll_token : option string;
  sv_ingest_auth : option IngestAuth;
  sv_ingest_token_review : option TokenReviewValidator;
  sv_inference : option InferenceClient;
  sv_oidc_public : option OidcPublic;
  sv_kill_switch_active : N;
  sv_rate_limit : TokenBucket;
}.

(** [Ca::load] and [TokenReviewValidator::new]. *)
Definition ca_load (issuer_from_pem : string -> string -> result Chain IssuerKey)
    (cert_pem key_pem : string) (ttl_days : Z) : result Chain Ca :=
  issuer ← issuer_from_pem cert_pem key_pem;
  Ok {| ca_key := issuer; ca_cert_pem := trim cert_pem; ca_ttl_days := ttl_days |}.
Definition token_review_new (http_client : option string -> result Chain unit) (cfg : TokenReviewConfig)
    : result Chain TokenReviewValidator :=
  _ ← http_client (tr_ca_pem cfg);
  Ok {| tv_url := trim_end_matches (is_byte 47) (tr_api_url cfg) +:+ "/apis/authentication.k8s.io/v1/tokenreviews";
        tv_bearer := tr_bearer cfg; tv_audience := tr_audience cfg |}.

Definition chain_of {A} (r : result string A) : result Chain A := map_err (fun e => [e]) r.

(** [main], from the configuration to the state that is served. *)
Definition boot (w : Surroundings) (config : @Config SocketAddr) : Logged ServerState :=
  _ ← quiet (sr_db_connect w (cf_database_url config));
  _ ← quiet (sr_db_migrate w);
  _ ← quiet (with_context ("connecting to NATS at " +:+ cf_nats_url config) (sr_nats_connect w (cf_nats_url config)));
  ca ← logged_opt (fun e => quiet (with_context "loading enrollment CA"
         (ca_load (sr_issuer_from_pem w) (ec_ca_cert_pem e) (ec_ca_key_pem e) (ec_cert_ttl_days e))))
       (cf_enroll config);
  ingest_auth ← logged_opt (fun c => logged_context "initializing ingest auth"
                  (build_ingest_auth (sr_var w) (sr_read_file w) (sr_http_get w) c)) (cf_ingest_auth config);
  user_auth ← logged_opt (fun c => logged_context "initializing user OIDC auth"
                (build_user_auth (sr_var w) (sr_read_file w) (sr_http_get w) c)) (cf_oidc config);
  review ← logged_opt (fun c => quiet (with_context "initializing TokenReview validator"
             (token_review_new (sr_http_client w) c))) (cf_ingest_token_review config);
  signer ← quiet (with_context "initializing the remediation command signing key"
             (chain_of (load_or_generate_with_previous (sr_key_source w (cf_command_key_path config)) (sr_fresh_key w)
                (sr_previous_keys w <$> cf_command_previous_keys_dir config))));
  templates ← quiet (with_context "loading remediation templates"
                (chain_of (load_dir (sr_template_parse w) (sr_template_dir w (cf_templates_dir config)))));
  remediations ← quiet (with_context "initialising the remediation audit store"
                   (map_err (fun _ => ["listing remediation records"%string]) (store_new (sr_table_readable w) (sr_table w))));
  knowledge ← quiet (with_context "opening the remediation knowledge base"
                (chain_of (kb_open (sr_kb_dir w <$> cf_kb_dir config))));
  policy_doc ← match pc_file (cf_policy config) with
               | Some path => quiet (with_context "loading remediation policy" (sr_policy w path))
               | None => mret []
               end;
  let auto_enabled := pc_auto_enabled (cf_policy config) in
  mret {|
    sv_app := {| as_templates := templates; as_signer := signer; as_ttl_secs := cf_command_ttl_secs config;
                 as_policy := engine_new policy_doc auto_enabled (pc_auto_max (cf_policy config))
                                (Z.of_N (pc_auto_window_secs (cf_policy config)) * 1000000000);
                 as_store := remediations; as_queue := queue_new; as_knowledge := knowledge;
                 as_events_tx := []; as_proposed := []; as_outcomes := [];
                 as_breaker_trips := 0; as_channel_errors := 0 |};
    sv_credentials := {| cr_admin_token := cf_admin_token config; cr_viewer_token := cf_viewer_token config;
                         cr_user_auth := user_auth |};
    sv_ca := ca; sv_enroll_token := ec_bootstrap_token <$> cf_enroll config;
    sv_ingest_auth := ingest_auth; sv_ingest_token_review := review;
    sv_inference := (fun c => inference_new (ic_endpoint c) (ic_model c) (ic_api_key c)) <$> cf_inference config;
    sv_oidc_public := (fun c => {| op_issuer := oc_issuer c; op_client_id := oc_client_id c;
                                   op_scopes := oc_scopes c |}) <$> cf_oidc config;
    sv_kill_switch_active := if auto_enabled then 0 else 1;
    sv_rate_limit := bucket_new (cf_rate_limit_capacity config) (cf_rate_limit_refill_rate config) (sr_now w) |}.
End Boot.

(** ** Facts *)

Section LoggedFacts.

Lemma logged_bind_Ok {A B} (r : Logged A) (f : A -> Logged B) b l :
  (r ≫= f) = (Ok b, l) -> exists a l1 l2, r = (Ok a, l1) /\ f a = (Ok b, l2) /\ l = l1 ++ l2.
Proof.
  unfold mbind, logged_bind. destruct r as [[a|e] l1]; [|done]. destruct (f a) as [b' l2] eqn:Hf.
  intros [= -> <-]. eauto 10.
Qed.

Lemma quiet_Ok {A} (r : result Chain A) a l : quiet r = (Ok a, l) -> r = Ok a /\ l = [].
Proof. by intros [= -> <-]. Qed.

Lemma logged_opt_Ok {A B} (f : A -> Logged B) (o : option A) r l :
  logged_opt f o = (Ok r, l) ->
  match o with
  | Some a => exists b, f a = (Ok b, l) /\ r = Some b
  | None => r = None /\ l = []
  end.
Proof.
  destruct o as [a|]; cbn; [|by intros [= <- <-]]. intros (b & l1 & l2 & Hf & [= <- <-] & ->)%logged_bind_Ok.
  exists b. by rewrite app_nil_r.
Qed.

Lemma logged_context_Ok {A} msg (r : Logged A) a l : logged_context msg r = (Ok a, l) -> r = (Ok a, l).
Proof. unfold logged_context. destruct r as [[x|e] l']; cbn; congruence. Qed.

Lemma with_context_Ok {A} msg (r : result Chain A) a : with_context msg r = Ok a -> r = Ok a.
Proof. by destruct r. Qed.
End LoggedFacts.

Section BootFacts.
Context `{SerdeValue} `{Base64} `{Ed25519} `{SerdeJson} `{Rfc3339} `{Jwt} `{!JwksJson} `{Rcgen}.
Context {SocketAddr : Type}.
Implicit Types (w : Surroundings) (c : @Config SocketAddr).

Lemma boot_inv w c sv urls :
  boot w c = (Ok sv, urls) ->
  exists l1 l2 doc,
    urls = l1 ++ l2
    /\ logged_opt (fun i => logged_context "initializing ingest auth"
         (build_ingest_auth (sr_var w) (sr_read_file w) (sr_http_get w) i)) (cf_ingest_auth c)
       = (Ok (sv_ingest_auth sv), l1)
    /\ logged_opt (fun u => logged_context "initializing user OIDC auth"
         (build_user_auth (sr_var w) (sr_read_file w) (sr_http_get w) u)) (cf_oidc c)
       = (Ok (cr_user_auth (sv_credentials sv)), l2)
    /\ load_dir (sr_template_parse w) (sr_template_dir w (cf_templates_dir c)) = Ok (as_templates (sv_app sv))
    /\ store_new (sr_table_readable w) (sr_table w) = Ok (as_store (sv_app sv))
    /\ as_policy (sv_app sv) = engine_new doc (pc_auto_enabled (cf_policy c)) (pc_auto_max (cf_policy c))
                                 (Z.of_N (pc_auto_window_secs (cf_policy c)) * 1000000000)
    /\ (pc_file (cf_policy c) = None -> doc = [])
    /\ as_queue (sv_app sv) = queue_new /\ as_ttl_secs (sv_app sv) = cf_command_ttl_secs c
    /\ cr_admin_token (sv_credentials sv) = cf_admin_token c
    /\ cr_viewer_token (sv_credentials sv) = cf_viewer_token c
    /\ (is_Some (sv_ca sv) <-> is_Some (cf_enroll c))
    /\ sv_enroll_token sv = ec_bootstrap_token <$> cf_enroll c
    /\ sv_kill_switch_active sv = if pc_auto_enabled (cf_policy c) then 0%N else 1%N.
Proof.
  unfold boot. intros Hb.
  apply logged_bind_Ok in Hb as (? & ? & ? & [_ ->]%quiet_Ok & Hb & ->).
  apply logged_bind_Ok in Hb as (? & ? & ? & [_ ->]%quiet_Ok & Hb & ->).
  apply logged_bind_Ok in Hb as (? & ? & ? & [_ ->]%quiet_Ok & Hb & ->).
  apply logged_bind_Ok in Hb as (ca & l0 & ? & Hca & Hb & ->).
  apply logged_bind_Ok in Hb as (ia & l1 & ? & Hia & Hb & ->).
  apply logged_bind_Ok in Hb as (ua & l2 & ? & Hua & Hb & ->).
  apply logged_bind_Ok in Hb as (rv & l3 & ? & Hrv & Hb & ->).
  apply logged_bind_Ok in Hb as (sg & ? & ? & [_ ->]%quiet_Ok & Hb & ->).
  apply logged_bind_Ok in Hb as (ts & ? & ? & [Hts ->]%quiet_Ok & Hb & ->).
  apply logged_bind_Ok in Hb as (st & ? & ? & [Hst ->]%quiet_Ok & Hb & ->).
  apply logged_bind_Ok in Hb as (kb & ? & ? & [_ ->]%quiet_Ok & Hb & ->).
  apply logged_bind_Ok in Hb as (doc & l4 & ? & Hdoc & [= <- <-] & ->).
  assert (l0 = [] /\ (is_Some ca <-> is_Some (cf_enroll c))) as [-> Hsome].
  { apply logged_opt_Ok in Hca. destruct (cf_enroll c) as [e|].
    - destruct Hca as (b & [_ ->]%quiet_Ok & ->). by rewrite !is_Some_alt.
    - by destruct Hca as [-> ->]. }
  assert (l3 = []) as ->.
  { apply logged_opt_Ok in Hrv. destruct (cf_ingest_token_review c); [|by destruct Hrv].
    by destruct Hrv as (b & [_ ->]%quiet_Ok & _). }
  assert (l4 = [] /\ (pc_file (cf_policy c) = None -> doc = [])) as [-> Hnone].
  { destruct (pc_file (cf_policy c)); [by apply quiet_Ok in Hdoc as [_ ->]|by injection Hdoc as <- <-]. }
  apply with_context_Ok in Hts, Hst.
  exists l1, l2, doc. cbn [app]. rewrite !app_nil_r. split_and!; try done.
  - unfold chain_of in Hts. by destruct (load_dir _ _); cbn in Hts; simplify_eq.
  - by destruct (store_new _ _); cbn in Hst; simplify_eq.
Qed.

Variable parse_addr : string -> option SocketAddr.

Lemma boot_airgapped w c sv urls :
  boot w c = (Ok sv, urls) -> is_airgapped (sr_var w) = true -> urls = [].
Proof.
  intros (l1 & l2 & doc & -> & Hi & Hu & _)%boot_inv Ha. apply logged_opt_Ok in Hi, Hu.
  assert (l1 = []) as ->.
  { destruct (cf_ingest_auth c); [|by destruct Hi]. destruct Hi as (? & Hi%logged_context_Ok & _).
    by eapply build_ingest_auth_Ok. }
  destruct (cf_oidc c); [|by destruct Hu]. destruct Hu as (? & Hu%logged_context_Ok & _).
  apply build_user_auth_Ok in Hu as (_ & _ & Hu). auto.
Qed.

(** C38. Start-up fails closed, for as long as the server runs. A server that starts
    on the configuration of its environment fetched no key set over the network when
    it is air-gapped; checks user tokens exactly when an issuer is given, and then
    for that issuer and a non-empty audience; holds a bootstrap token exactly when it
    holds a certificate authority; and over every later sequence of faults, pulls,
    approvals, rejections and results, a command no one approved reaches the queue
    only if the kill switch was released, a policy file was given, and its tier is
    not dangerous. *)
Theorem startup_fail_closed w c sv urls (ops : list ServerOp) :
  from_env parse_addr (sr_var w) (sr_read_file w) = Ok c ->
  boot w c = (Ok sv, urls) ->
  (is_airgapped (sr_var w) = true -> urls = [])
  /\ match cr_user_auth (sv_credentials sv) with
     | Some u => env_var (sr_var w) "RAVN_OIDC_ISSUER" = Some (ua_issuer u)
         /\ exists aud, ua_audience u = Some aud /\ aud <> EmptyString
              /\ env_var (sr_var w) "RAVN_OIDC_AUDIENCE" = Some aud
     | None => env_var (sr_var w) "RAVN_OIDC_ISSUER" = None
     end
  /\ cr_admin_token (sv_credentials sv) = env_var (sr_var w) "RAVN_ADMIN_TOKEN"
  /\ cr_viewer_token (sv_credentials sv) = env_var (sr_var w) "RAVN_VIEWER_TOKEN"
  /\ (is_Some (sv_ca sv) <-> is_Some (sv_enroll_token sv))
  /\ (sv_kill_switch_active sv = 0%N <-> flag_set (sr_var w "RAVN_REMEDIATION_AUTO") = true)
  /\ forall a env, env ∈ pending_for a (as_queue (server_run ops (sv_app sv))) -> ce_approval_ref env = PolicyAuto ->
       flag_set (sr_var w "RAVN_REMEDIATION_AUTO") = true /\ is_Some (env_var (sr_var w) "RAVN_POLICY_FILE")
       /\ ce_risk_tier env <> Dangerous.
Proof.
  intros (_ & _ & Ho & Hp & _ & Hadm & Hview)%from_env_inv Hb. pose proof (boot_airgapped _ _ _ _ Hb) as Hair.
  pose proof (oidc_from_env_spec (sr_var w) (sr_read_file w)) as Hos. rewrite Ho in Hos.
  apply boot_inv in Hb as (_ & l2 & doc & _ & _ & Hu & _ & _ & Hpol & Hnone & Hq & _ & Ha & Hv & Hca & Htok & Hg).
  apply logged_opt_Ok in Hu. split_and!; [done| |congruence..| | |].
  - destruct (cf_oidc c) as [o|]; [|by destruct Hu as [-> _]]. destruct Hu as (u & Hu%logged_context_Ok & ->).
    apply build_user_auth_Ok in Hu as (-> & -> & _). destruct Hos as (-> & Haud & _). split; [done|].
    exists (oc_audience o). split_and!; [done| |done]. by apply env_var_Some in Haud as [_ Hne].
  - rewrite Htok, Hca. by rewrite fmap_is_Some.
  - rewrite Hg, Hp. cbn. by destruct (flag_set _).
  - intros a env Hin Hauto. destruct (server_run_autos ops (sv_app sv)) as [Hr [He Hd]].
    { intros a' e Hin'. rewrite Hq in Hin'. by apply elem_of_nil in Hin'. }
    destruct (Hr a env Hin Hauto) as (Hon & Ht & host & Hdec). rewrite He, Hpol in Hon. rewrite Hd, Hpol in Hdec.
    rewrite Hp in Hon, Hnone. cbn in Hon, Hdec, Hnone. split_and!; [done| |done].
    destruct (env_var (sr_var w) "RAVN_POLICY_FILE"); [eauto|]. by rewrite Hnone in Hdec.
Qed.

End BootFacts.

(** ** A concrete start *)

#[local] Instance boot_jwks : JwksJson := {| jwks_from_str s := Ok [s]; jwks_is_empty js := bool_decide (js = []) |}.
#[local] Instance boot_rcgen : Rcgen :=
  {| PublicKey := unit; IssuerKey := string; dns_name_ok _ := true; OtherParams := unit |}.

(** Automation is on, with a policy file; the platform is air-gapped. *)
Definition boot_var : string -> option string :=
  example_var [("RAVN_ENROLL_TOKEN", "secret"); ("RAVN_REMEDIATION_AUTO", "on"); ("RAVN_POLICY_FILE", "policy.toml")]%string.
Definition boot_surroundings : Surroundings := {|
  sr_var := boot_var; sr_read_file := example_read; sr_http_get url := Err ["no network"%string];
  sr_db_connect _ := Ok tt; sr_db_migrate := Ok tt; sr_nats_connect _ := Ok tt;
  sr_issuer_from_pem c k := Ok k; sr_http_client _ := Ok tt;
  sr_key_source _ := NoPath; sr_fresh_key := key_b; sr_previous_keys _ := Ok [];
  sr_template_dir _ := Ok (Some [Ok ("restart.toml", Ok "")])%string; sr_template_parse _ := Ok example_template;
  sr_table := []; sr_table_readable := true; sr_kb_dir _ := Ok ∅; sr_policy _ := Ok auto_k8s; sr_now := 0;
|}.
Definition boot_config : result Chain (@Config string) :=
  from_env (fun s => Some s) boot_var example_read.
Definition booted : Logged ServerState :=
  match boot_config with Ok c => boot boot_surroundings c | Err e => (Err e, []) end.

Definition boot_ops : list ServerOp := [DoPrepare (example_inputs 1) example_event].
(** What the witnesses read off the evaluated start. *)
Definition boots (check : ServerState -> list string -> bool) : bool :=
  match boot_config, booted with Ok _, (Ok sv, urls) => check sv urls | _, _ => false end.
Definition auto_issued (sv : ServerState) : bool :=
  match pending_for 9 (as_queue (server_run boot_ops (sv_app sv))) with
  | env :: _ => match ce_approval_ref env with PolicyAuto => true | _ => false end
  | [] => false
  end.

Lemma startup_fail_closed_witness :
  match boot_config, booted with
  | Ok c, (Ok sv, urls) =>
      is_airgapped boot_var = true /\ urls = [] /\ is_Some (cr_user_auth (sv_credentials sv))
      /\ exists env, env ∈ pending_for 9 (as_queue (server_run boot_ops (sv_app sv)))
           /\ ce_approval_ref env = PolicyAuto /\ ce_risk_tier env <> Dangerous
           /\ is_Some (env_var boot_var "RAVN_POLICY_FILE")
  | _, _ => False
  end.
Proof.
  assert (boots (fun sv _ => auto_issued sv) = true) as Hauto by (vm_compute; reflexivity).
  unfold boots in Hauto. destruct boot_config as [c|] eqn:Hc; [|discriminate].
  destruct booted as [[sv|] urls] eqn:Hb; [|discriminate].
  assert (boot boot_surroundings c = (Ok sv, urls)) as Hboot by (unfold booted in Hb; by rewrite Hc in Hb).
  destruct (startup_fail_closed _ boot_surroundings c sv urls boot_ops Hc Hboot)
    as (Hair & Huser & _ & _ & _ & _ & Hguard).
  split; [reflexivity|]. split; [exact (Hair eq_refl)|]. split.
  - destruct (cr_user_auth (sv_credentials sv)); [eauto|discriminate].
  - unfold auto_issued in Hauto. destruct (pending_for 9 _) as [|env envs] eqn:Hp; [discriminate|].
    destruct (ce_approval_ref env) eqn:Href; try discriminate. exists env.
    destruct (Hguard 9%N env) as (_ & Hf & Ht); [rewrite Hp; by left|exact Href|].
    split; [by left|]. split; [exact Href|]. auto.
Defined.

