(* ===== verification/Settings.v ===== *)
(** * The settings document ([ravn-server/src/api.rs])

    The file the portal's settings page reads and writes: its shape as JSON with the
    defaults of every field, and the two endpoints on the file, whose write may fail
    or tear.

    The JSON text is [serde_json]'s: parsing (which also refuses a repeated field) and
    pretty printing are parameters. *)

From S2P Require Export JsonValue Startup.

Record KnowledgeSettings := mkKnowledgeSettings {
  ks_local_runbooks_dir : string;
  ks_github_wiki_dir : string;
  ks_backstage_enabled : bool;
  ks_backstage_url : string;
  ks_backstage_token : string;
  ks_confluence_enabled : bool;
  ks_confluence_url : string;
  ks_confluence_user : string;
  ks_confluence_token : string;
  ks_notion_enabled : bool;
  ks_notion_api_key : string;
}.
Record SystemSettings := mkSystemSettings {
  ss_auto_remediation : bool;
  ss_risk_tier : string;
  ss_inference_enabled : bool;
  ss_inference_endpoint : string;
  ss_inference_model : string;
  ss_knowledge : option KnowledgeSettings;
}.
Definition default_risk_tier : string := "safe".
Definition default_inference_endpoint : string := "http://127.0.0.1:15000".
Definition default_inference_model : string := "default".

(** ** The document *)

(** [Serialize]. *)
Definition knowledge_json (k : KnowledgeSettings) : Json :=
  JObject [("local_runbooks_dir", JString (ks_local_runbooks_dir k)); ("github_wiki_dir", JString (ks_github_wiki_dir k));
           ("backstage_enabled", JBool (ks_backstage_enabled k)); ("backstage_url", JString (ks_backstage_url k));
           ("backstage_token", JString (ks_backstage_token k));
           ("confluence_enabled", JBool (ks_confluence_enabled k)); ("confluence_url", JString (ks_confluence_url k));
           ("confluence_user", JString (ks_confluence_user k)); ("confluence_token", JString (ks_confluence_token k));
           ("notion_enabled", JBool (ks_notion_enabled k)); ("notion_api_key", JString (ks_notion_api_key k))]%string.
Definition settings_json (s : SystemSettings) : Json :=
  JObject [("auto_remediation", JBool (ss_auto_remediation s)); ("risk_tier", JString (ss_risk_tier s));
           ("inference_enabled", JBool (ss_inference_enabled s));
           ("inference_endpoint", JString (ss_inference_endpoint s));
           ("inference_model", JString (ss_inference_model s));
           ("knowledge", json_opt knowledge_json (ss_knowledge s))]%string.

(** [Deserialize] of a struct: its members by name, or by position in an array that
    is not too long. *)
Fixpoint position_of (k : string) (names : list string) : option nat :=
  match names with
  | [] => None
  | n :: names' => if String.eqb n k then Some 0 else S <$> position_of k names'
  end.
Definition struct_members (names : list string) (v : Json) : option (string -> option Json) :=
  match v with
  | JObject _ => Some (fun k => json_get k v)
  | JArray l => if length l <=? length names then Some (fun k => i ← position_of k names; l !! i) else None
  | _ => None
  end.
(** A member with [#[serde(default)]]. *)
Definition member {A} (dflt : A) (read : Json -> option A) (o : option Json) : option A :=
  match o with Some v => read v | None => Some dflt end.
Definition member_bool := member false as_bool.
Definition member_str := member EmptyString as_str.

Definition knowledge_names : list string :=
  ["local_runbooks_dir"; "github_wiki_dir"; "backstage_enabled"; "backstage_url"; "backstage_token";
   "confluence_enabled"; "confluence_url"; "confluence_user"; "confluence_token"; "notion_enabled"; "notion_api_key"].
Definition knowledge_of_json (v : Json) : option KnowledgeSettings :=
  f ← struct_members knowledge_names v;
  local_runbooks_dir ← member_str (f "local_runbooks_dir"%string);
  github_wiki_dir ← member_str (f "github_wiki_dir"%string);
  backstage_enabled ← member_bool (f "backstage_enabled"%string);
  backstage_url ← member_str (f "backstage_url"%string);
  backstage_token ← member_str (f "backstage_token"%string);
  confluence_enabled ← member_bool (f "confluence_enabled"%string);
  confluence_url ← member_str (f "confluence_url"%string);
  confluence_user ← member_str (f "confluence_user"%string);
  confluence_token ← member_str (f "confluence_token"%string);
  notion_enabled ← member_bool (f "notion_enabled"%string);
  notion_api_key ← member_str (f "notion_api_key"%string);
  Some (mkKnowledgeSettings local_runbooks_dir github_wiki_dir backstage_enabled backstage_url backstage_token
          confluence_enabled confluence_url confluence_user confluence_token notion_enabled notion_api_key).
Definition settings_names : list string :=
  ["auto_remediation"; "risk_tier"; "inference_enabled"; "inference_endpoint"; "inference_model"; "knowledge"].
Definition settings_of_json (v : Json) : option SystemSettings :=
  f ← struct_members settings_names v;
  auto_remediation ← member_bool (f "auto_remediation"%string);
  risk_tier ← member default_risk_tier as_str (f "risk_tier"%string);
  inference_enabled ← member_bool (f "inference_enabled"%string);
  inference_endpoint ← member default_inference_endpoint as_str (f "inference_endpoint"%string);
  inference_model ← member default_inference_model as_str (f "inference_model"%string);
  knowledge ← member None (fun j => match j with JNull => Some None | _ => Some <$> knowledge_of_json j end)
                (f "knowledge"%string);
  Some (mkSystemSettings auto_remediation risk_tier inference_enabled inference_endpoint inference_model knowledge).

(** ** The endpoints *)

(** What is answered when there is no file. *)
Definition default_settings : SystemSettings := {|
  ss_auto_remediation := false;
  ss_risk_tier := default_risk_tier;
  ss_inference_enabled := true;
  ss_inference_endpoint := default_inference_endpoint;
  ss_inference_model := default_inference_model;
  ss_knowledge := Some {|
    ks_local_runbooks_dir := "/home/olafkfreund/Source/GitHub/ravn-agents/runbooks";
    ks_github_wiki_dir := "/home/olafkfreund/Source/GitHub/ravn-agents/wiki";
    ks_backstage_enabled := false; ks_backstage_url := ""; ks_backstage_token := "";
    ks_confluence_enabled := false; ks_confluence_url := ""; ks_confluence_user := ""; ks_confluence_token := "";
    ks_notion_enabled := false; ks_notion_api_key := "" |};
|}.

Section Settings.
(** [serde_json]: a document's value, its pretty text, and the message of a value of
    the wrong shape. *)
Variable json_parse : string -> result string Json.
Variable json_pretty : Json -> string.
Variable shape_error : Json -> string.

Definition settings_from_str (data : string) : result string SystemSettings :=
  v ← json_parse data;
  match settings_of_json v with Some s => Ok s | None => Err (shape_error v) end.

(** [file] is the contents of [settings.json] when it exists, [io] whether it can be
    read. *)
Definition get_settings (file : option string) (io : result string unit) : result (N * string) SystemSettings :=
  match file with
  | None => Ok default_settings
  | Some data =>
      match io with
      | Err e => Err (500%N, "failed to read settings file: " +:+ e)
      | Ok _ => map_err (fun e => (500%N, "failed to parse settings: " +:+ e)) (settings_from_str data)
      end
  end.
Definition put_settings (s : SystemSettings) (io : WriteOutcome) (file : option string)
    : result (N * string) N * option string :=
  let data := json_pretty (settings_json s) in
  match io with
  | Written => (Ok 200%N, Some data)
  | NotOpened e => (Err (500%N, "failed to write settings file: " +:+ e), file)
  | WriteTorn kept e => (Err (500%N, "failed to write settings file: " +:+ e), Some (String.substring 0 kept data))
  end.

(** ** Facts *)

Lemma knowledge_json_roundtrip (k : KnowledgeSettings) : knowledge_of_json (knowledge_json k) = Some k.
Proof. by destruct k. Qed.

Lemma settings_json_roundtrip (s : SystemSettings) : settings_of_json (settings_json s) = Some s.
Proof. by destruct s as [a r i e m [[]|]]. Qed.

(** Settings read back as they were written: after a [PUT] that succeeds, a [GET]
    that can read the file answers the very settings, whatever was there before; a
    [PUT] whose file could not be opened leaves what a [GET] answers unchanged; and
    a document that lacks fields is completed with their defaults: the empty object
    is the safe tier with automation and inference off. *)
Theorem settings_read_back (s : SystemSettings) (file : option string) :
  json_parse (json_pretty (settings_json s)) = Ok (settings_json s) ->
  (forall file', put_settings s Written file = (Ok 200%N, file') -> get_settings file' (Ok tt) = Ok s)
  /\ (forall e r file', put_settings s (NotOpened e) file = (r, file') ->
        (exists err, r = Err err) /\ get_settings file' (Ok tt) = get_settings file (Ok tt))
  /\ settings_of_json (JObject []) = Some {|
       ss_auto_remediation := false; ss_risk_tier := "safe"; ss_inference_enabled := false;
       ss_inference_endpoint := default_inference_endpoint; ss_inference_model := default_inference_model;
       ss_knowledge := None |}.
Proof.
  intros Hparse. split; [|split; [|done]].
  - intros file' [= <-]. unfold get_settings, settings_from_str. rewrite Hparse.
    pose proof (settings_json_roundtrip s) as Hs. revert Hs. generalize (settings_json s). intros v Hs. cbn. by rewrite Hs.
  - intros e r file' [= <- <-]. split; [by eexists|done].
Qed.
End Settings.

(** ** A concrete document *)

Definition stored_settings : SystemSettings := {|
  ss_auto_remediation := true; ss_risk_tier := "moderate"; ss_inference_enabled := false;
  ss_inference_endpoint := "http://model"; ss_inference_model := "m"; ss_knowledge := None |}.
Definition stored_parse (data : string) : result string Json :=
  if String.eqb data "{...}" then Ok (settings_json stored_settings) else Err "expected value"%string.

Lemma settings_read_back_witness :
  get_settings stored_parse (fun _ => "invalid type"%string)
    (put_settings (fun _ => "{...}"%string) stored_settings Written None).2 (Ok tt) = Ok stored_settings.
Proof.
  destruct (settings_read_back stored_parse (fun _ => "{...}"%string) (fun _ => "invalid type"%string) stored_settings
    None eq_refl) as (Hread & _).
  apply Hread. reflexivity.
Defined.
