(* ===== verification/Api.v ===== *)
(** * The HTTP interface of the control plane ([ravn-server/src/api.rs])

    The router with its table of routes, the bearer middleware in front of it, and
    every handler: those of the other components, composed over the whole state of
    the server, and the ones that only this file has (probes, listings, settings,
    the live feed). The theorem is the reference monitor: what a request can change,
    and what it can read, follows from the credentials it presents.

    Reading a path parameter, a query and a body is axum's, the OpenAPI document
    utoipa's and the exposition text the prometheus crate's; they are parameters. *)

From S2P Require Export ServerBoot Settings.

(** ** Routes *)

(** The handlers, and the segments a path is matched on: a segment in braces
    captures any segment that is not empty. *)
Inductive RouteHandler :=
  | HHealth | HOpenapiJson | HReady | HListEvents | HListAgents | HGetAgent | HDeleteAgent | HPutLabels
  | HListCategories | HTopology | HWsEvents | HMetrics | HEnroll | HIngest | HGetCommands | HPostCommandResult
  | HGetCommandKeys | HListRemediations | HApproveRemediation | HRejectRemediation | HAuthConfig | HMe
  | HGetSettings | HPutSettings | HSystemHealth.
Fixpoint match_segments (pattern path : list string) : option (list string) :=
  match pattern, path with
  | [], [] => Some []
  | p :: pattern', s :: path' =>
      if starts_with "{" p then
        if is_empty s then None else (fun captured => s :: captured) <$> match_segments pattern' path'
      else if String.eqb p s then match_segments pattern' path' else None
  | _, _ => None
  end.
Definition match_path (pattern path : string) : option (list string) :=
  match_segments (split_on (is_byte 47) pattern) (split_on (is_byte 47) path).

Section Routes.
Context `{Http} `{!EqDecision Method}.

Definition Routes : Type := list (string * list (Method * RouteHandler)).
Definition system_router : Routes :=
  [("/health", [(GET, HHealth)]);
   ("/openapi.json", [(GET, HOpenapiJson)])]%string.
(** The routes behind the middleware. *)
Definition stateful_router : Routes :=
  [("/ready", [(GET, HReady)]);
   ("/api/events", [(GET, HListEvents)]);
   ("/api/agents", [(GET, HListAgents)]);
   ("/api/agents/{id}", [(GET, HGetAgent); (DELETE, HDeleteAgent)]);
   ("/api/agents/{id}/labels", [(PUT, HPutLabels)]);
   ("/api/categories", [(GET, HListCategories)]);
   ("/api/topology", [(GET, HTopology)]);
   ("/ws/events", [(GET, HWsEvents)]);
   ("/metrics", [(GET, HMetrics)]);
   ("/enroll", [(POST, HEnroll)]);
   ("/ingest", [(POST, HIngest)]);
   ("/agents/{id}/commands", [(GET, HGetCommands)]);
   ("/agents/{id}/commands/{cmd}/result", [(POST, HPostCommandResult)]);
   ("/command-keys", [(GET, HGetCommandKeys)]);
   ("/api/remediations", [(GET, HListRemediations)]);
   ("/api/remediations/{id}/approve", [(POST, HApproveRemediation)]);
   ("/api/remediations/{id}/reject", [(POST, HRejectRemediation)]);
   ("/auth/config", [(GET, HAuthConfig)]);
   ("/api/me", [(GET, HMe)]);
   ("/api/settings", [(GET, HGetSettings); (PUT, HPutSettings)]);
   ("/api/system/health", [(GET, HSystemHealth)])]%string.
(** The routed path: its methods and what it captured. *)
Definition find_route (routes : Routes) (path : string) : option (list (Method * RouteHandler) * list string) :=
  find_map (fun r => (fun captured => (r.2, captured)) <$> match_path r.1 path) routes.
(** The handler of a method; a [get] answers HEAD too. *)
Definition method_handler (methods : list (Method * RouteHandler)) (m : Method) : option RouteHandler :=
  let on m := snd <$> find_first (fun mh => bool_decide (mh.1 = m)) methods in
  match on m with
  | Some h => Some h
  | None => if bool_decide (m = HEAD) then on GET else None
  end.
End Routes.

(** ** The state behind the handlers *)

Section Api.
Context `{SerdeValue} `{Base64} `{Ed25519} `{SerdeJson} `{Rfc3339} `{Jwt} `{Rcgen} `{UuidText} `{Http}
  `{!EqDecision Method}.

(** Counters of [Metrics] that only the ingestion loops move. *)
Record IngestCounters := mkIngestCounters {
  mc_heartbeats : N;
  mc_generated : N;
  mc_explanation_errors : N;
  mc_timeouts : N;
  mc_latencies : list F64;
}.
(** The server, the tables and the broadcast of the ingest, the settings file, the
    gauge of agents (online, stale, offline) once it is set. *)
Record World := mkWorld {
  wl_server : ServerState;
  wl_ingest : Ingestion;
  wl_settings : option string;
  wl_gauge : option (Z * Z * Z);
  wl_counters : IngestCounters;
}.
Definition wl_app (w : World) : AppState := sv_app (wl_server w).
Definition wl_fleet (w : World) : Fleet := ig_fleet (wl_ingest w).
Definition with_app (s : AppState) (w : World) : World :=
  let v := wl_server w in
  {| wl_server := {| sv_app := s; sv_credentials := sv_credentials v; sv_ca := sv_ca v;
                     sv_enroll_token := sv_enroll_token v; sv_ingest_auth := sv_ingest_auth v;
                     sv_ingest_token_review := sv_ingest_token_review v; sv_inference := sv_inference v;
                     sv_oidc_public := sv_oidc_public v; sv_kill_switch_active := sv_kill_switch_active v;
                     sv_rate_limit := sv_rate_limit v |};
     wl_ingest := wl_ingest w; wl_settings := wl_settings w; wl_gauge := wl_gauge w; wl_counters := wl_counters w |}.
Definition with_ingest (g : Ingestion) (w : World) : World :=
  {| wl_server := wl_server w; wl_ingest := g; wl_settings := wl_settings w; wl_gauge := wl_gauge w;
     wl_counters := wl_counters w |}.
Definition with_fleet (f : Fleet) (w : World) : World :=
  let g := wl_ingest w in
  with_ingest (mkIngestion f (ig_errors g) (ig_ingested g) (ig_broadcast g) (ig_explain g) (ig_prepare g)) w.
Definition with_settings (file : option string) (w : World) : World :=
  {| wl_server := wl_server w; wl_ingest := wl_ingest w; wl_settings := file; wl_gauge := wl_gauge w;
     wl_counters := wl_counters w |}.
Definition with_bucket (b : TokenBucket) (w : World) : World :=
  let v := wl_server w in
  {| wl_server := {| sv_app := sv_app v; sv_credentials := sv_credentials v; sv_ca := sv_ca v;
                     sv_enroll_token := sv_enroll_token v; sv_ingest_auth := sv_ingest_auth v;
                     sv_ingest_token_review := sv_ingest_token_review v; sv_inference := sv_inference v;
                     sv_oidc_public := sv_oidc_public v; sv_kill_switch_active := sv_kill_switch_active v;
                     sv_rate_limit := b |};
     wl_ingest := wl_ingest w; wl_settings := wl_settings w; wl_gauge := wl_gauge w; wl_counters := wl_counters w |}.
Definition with_gauge (n : Z * Z * Z) (w : World) : World :=
  {| wl_server := wl_server w; wl_ingest := wl_ingest w; wl_settings := wl_settings w; wl_gauge := Some n;
     wl_counters := wl_counters w |}.

(** What a handler draws from outside: the clock and fresh identifiers, the answers
    of the database and of the cluster, the settings file. *)
Record ApiInputs := mkApiInputs {
  ai_inputs : Inputs;
  ai_ingest : IngestInputs;
  ai_instant : Instant;
  ai_review : TokenReviewValidator -> string -> option TokenReviewStatus;
  ai_ping : bool;
  ai_nats_connected : bool;
  ai_write_ok : bool;
  ai_read_ok : bool;
  ai_agent_rows : list (Uuid * AgentRow);
  ai_label_rows : list (Uuid * string * string);
  ai_agent_labels : list (string * string);
  ai_category_rows : list (string * string * Z);
  ai_severity_rows : list (Uuid * Z);
  ai_event_rows : Z -> list StoredEvent;
  ai_settings_read : result string unit;
  ai_settings_write : WriteOutcome;
}.

(** ** Extractors *)

(** A failed extractor answers with its own status and text. *)
Class Extractors : Type := {
  Body : Type;
  path_uuid : string -> result (N * string) Uuid;
  query_limit : option string -> result (N * string) (option Z);
  query_group_by : option string -> result (N * string) (option string);
  json_labels : Body -> result (N * string) (btree string);
  json_enroll : Body -> result (N * string) EnrollRequest;
  json_message : Body -> result (N * string) Message;
  json_action_result : Body -> result (N * string) ActionResult;
  json_settings : Body -> result (N * string) SystemSettings;
  ws_upgrade : HttpRequest -> result (N * string) unit;
}.
Context `{!Extractors}.

Inductive HttpReply :=
  | Text (status : N) (body : string)
  | JsonReply (j : Json)
  | EventsReply (l : list StoredEvent)
  | AgentsReply (l : list Agent)
  | AgentReply (a : Agent)
  | CategoriesReply (l : list CategoryDimension)
  | TopologyReply (t : Topology)
  | RecordsReply (l : list RemediationRecord)
  | EnrolledReply (r : EnrollResponse)
  | RemediationReply (r : Response)
  | SettingsReply (s : SystemSettings)
  | DocumentReply (content_type body : string)
  | Upgraded
  | Headers (r : HttpReply).

Variable csr_from_pem : string -> option CertParams.
Variable signed_by : CertParams -> IssuerKey -> option string.
Variable from_timestamp : Z -> option DateTime.
Variable json_parse : string -> result string Json.
Variable json_pretty : Json -> string.
Variable shape_error : Json -> string.
Variable openapi_document : Json.
Variable encode_metrics : World -> string.
Variable unrouted : HttpRequest -> N * string.

(** ** Handlers *)

Definition internal_error : HttpReply := Text 500 "internal error".
Definition health : HttpReply := JsonReply (JObject [("status", JString "ok"); ("version", JString VERSION)])%string.
Definition ready (i : ApiInputs) : HttpReply :=
  JsonReply (JObject [("ready", JBool (ai_ping i && ai_nats_connected i));
                      ("checks", JObject [("database", JBool (ai_ping i)); ("nats", JBool (ai_nats_connected i))])])%string.

Definition MAX_LIMIT : Z := 500.
Definition DEFAULT_LIMIT : Z := 50.
Definition clamp_limit (limit : option Z) : Z := Z.min (Z.max (default DEFAULT_LIMIT limit) 1) MAX_LIMIT.
Definition api_list_events (i : ApiInputs) (limit : option Z) : HttpReply :=
  if ai_read_ok i then EventsReply (ai_event_rows i (clamp_limit limit)) else internal_error.

Definition db_list_agents (i : ApiInputs) : option (list Agent) :=
  if ai_read_ok i then Some (list_agents (in_now (ai_inputs i)) (ai_agent_rows i) (ai_label_rows i)) else None.
Definition api_list_agents (i : ApiInputs) : HttpReply :=
  match db_list_agents i with Some l => AgentsReply l | None => internal_error end.
Definition api_get_agent (i : ApiInputs) (id : Uuid) (w : World) : HttpReply :=
  if ai_read_ok i then
    match get_agent (in_now (ai_inputs i)) id (ai_agent_labels i) (wl_fleet w) with
    | Some a => AgentReply a
    | None => Text 404 "agent not found"
    end
  else internal_error.
Definition put_labels (i : ApiInputs) (id : Uuid) (labels : btree string) (w : World) : HttpReply * World :=
  if ai_write_ok i then
    let (found, f) := replace_labels id labels (wl_fleet w) in
    if found then let w := with_fleet f w in (api_get_agent i id w, w)
    else (Text 404 "agent not found", w)
  else (internal_error, w).
Definition api_delete_agent (i : ApiInputs) (id : Uuid) (w : World) : HttpReply * World :=
  if ai_write_ok i then
    let (found, f) := delete_agent id (wl_fleet w) in
    (if found then Text 204 EmptyString else Text 404 "agent not found", with_fleet f w)
  else (internal_error, w).
Definition api_list_categories (i : ApiInputs) : HttpReply :=
  if ai_read_ok i then CategoriesReply (list_categories (ai_category_rows i)) else internal_error.
Definition api_topology (i : ApiInputs) (group_by : option string) : HttpReply :=
  match db_list_agents i with
  | Some l => TopologyReply (topology l (ai_severity_rows i) group_by)
  | None => internal_error
  end.

(** [metrics]: the liveness gauge is set from the listing, if it succeeds. *)
Definition count_status (l : list Agent) : Z * Z * Z :=
  foldl (fun n a => let '(online, stale, offline) := n in
           if String.eqb (a_status a) "online" then (online + 1, stale, offline)%Z
           else if String.eqb (a_status a) "stale" then (online, stale + 1, offline)%Z
           else (online, stale, offline + 1)%Z) (0, 0, 0)%Z l.
Definition metrics (i : ApiInputs) (w : World) : HttpReply * World :=
  let w := match db_list_agents i with Some l => with_gauge (count_status l) w | None => w end in
  (DocumentReply "text/plain; version=0.0.4; charset=utf-8" (encode_metrics w), w).
(** The counter of each label, by label. *)
Definition outcome_counts (labels : list string) : btree N :=
  foldl (fun m l => bt_insert l (default 0%N (bt_get l m) + 1)%N m) [] labels.
Definition system_health (w : World) : HttpReply :=
  JsonReply (JObject
    [("kill_switch_active", JBool (sv_kill_switch_active (wl_server w) =? 1)%N);
     ("inference_configured", JBool (bool_decide (is_Some (sv_inference (wl_server w)))));
     ("circuit_breaker_trips_total", json_N (as_breaker_trips (wl_app w)));
     ("remediation_outcomes", JObject (map (fun e => (e.1, json_N e.2)) (outcome_counts (as_outcomes (wl_app w)))));
     ("inference_timeouts_total", json_N (mc_timeouts (wl_counters w)));
     ("command_channel_errors_total", json_N (as_channel_errors (wl_app w)))])%string.

Definition api_enroll (i : ApiInputs) (req : EnrollRequest) (w : World) : HttpReply * World :=
  let v := wl_server w in
  match enroll csr_from_pem signed_by from_timestamp (sv_ca v) (sv_enroll_token v) (as_signer (wl_app w))
          (in_now (ai_inputs i)) (ai_write_ok i) req (wl_fleet w) with
  | (inl (status, msg), f) => (Text status msg, with_fleet f w)
  | (inr r, f) => (EnrolledReply r, with_fleet f w)
  end.
Definition api_ingest (i : ApiInputs) (authorization : option string) (m : Message) (w : World) : HttpReply * World :=
  let v := wl_server w in
  let '(allowed, bucket) := consume f64_one (ai_instant i) (sv_rate_limit v) in
  let '((status, msg), g) := ingest (ai_ingest i) (bool_decide (is_Some (sv_inference v))) allowed
                               (sv_ingest_auth v) (ai_review i <$> sv_ingest_token_review v) authorization m
                               (wl_ingest w) in
  (Text status msg, with_bucket bucket (with_ingest g w)).

Definition on_app (run : AppState -> Response * AppState) (w : World) : HttpReply * World :=
  let (r, s) := run (wl_app w) in (RemediationReply r, with_app s w).
Definition auth_config (w : World) : HttpReply :=
  JsonReply match sv_oidc_public (wl_server w) with
            | Some o => JObject [("enabled", JBool true); ("issuer", JString (op_issuer o));
                                 ("clientId", JString (op_client_id o)); ("scopes", JString (op_scopes o))]
            | None => JObject [("enabled", JBool false)]
            end%string.
Definition me (role : option Role) : HttpReply := JsonReply (JObject [("role", JString (role_user role))])%string.
Definition api_get_settings (i : ApiInputs) (w : World) : HttpReply :=
  match get_settings json_parse shape_error (wl_settings w) (ai_settings_read i) with
  | Ok s => SettingsReply s
  | Err (status, msg) => Text status msg
  end.
Definition api_put_settings (i : ApiInputs) (s : SystemSettings) (w : World) : HttpReply * World :=
  let (r, file) := put_settings json_pretty s (ai_settings_write i) (wl_settings w) in
  (match r with Ok status => Text status EmptyString | Err (status, msg) => Text status msg end, with_settings file w).

(** An extractor, and the handler on what it extracted. *)
Definition extracting {A} (r : result (N * string) A) (w : World) (k : A -> HttpReply * World) : HttpReply * World :=
  match r with Ok a => k a | Err (status, msg) => (Text status msg, w) end.
Definition run_handler (h : RouteHandler) (i : ApiInputs) (req : HttpRequest) (body : Body) (captured : list string)
    (role : option Role) (w : World) : HttpReply * World :=
  let id (k : Uuid -> HttpReply * World) := extracting (path_uuid (default EmptyString (head captured))) w k in
  match h with
  | HHealth => (health, w)
  | HOpenapiJson => (JsonReply openapi_document, w)
  | HReady => (ready i, w)
  | HListEvents => extracting (query_limit (rq_query req)) w (fun limit => (api_list_events i limit, w))
  | HListAgents => (api_list_agents i, w)
  | HGetAgent => id (fun id => (api_get_agent i id w, w))
  | HDeleteAgent => id (fun id => api_delete_agent i id w)
  | HPutLabels => id (fun id => extracting (json_labels body) w (fun labels => put_labels i id labels w))
  | HListCategories => (api_list_categories i, w)
  | HTopology => extracting (query_group_by (rq_query req)) w (fun group_by => (api_topology i group_by, w))
  | HWsEvents => extracting (ws_upgrade req) w (fun _ => (Upgraded, w))
  | HMetrics => metrics i w
  | HEnroll => extracting (json_enroll body) w (fun e => api_enroll i e w)
  | HIngest => extracting (json_message body) w (fun m => api_ingest i (rq_authorization req) m w)
  | HGetCommands => id (fun id => on_app (get_commands id) w)
  | HPostCommandResult =>
      id (fun _ => extracting (path_uuid (default EmptyString (captured !! 1))) w (fun _ =>
        extracting (json_action_result body) w (fun res => on_app (post_command_result (ai_inputs i) res) w)))
  | HGetCommandKeys => (DocumentReply "application/json" (cs_keyring_json (as_signer (wl_app w))), w)
  | HListRemediations => (RecordsReply (store_list (in_read_ok (ai_inputs i)) (as_store (wl_app w))), w)
  | HApproveRemediation => id (fun id => on_app (api_approve_remediation (ai_inputs i) id role) w)
  | HRejectRemediation => id (fun id => on_app (api_reject_remediation (ai_inputs i) id role) w)
  | HAuthConfig => (auth_config w, w)
  | HMe => (me role, w)
  | HGetSettings => (api_get_settings i w, w)
  | HPutSettings => extracting (json_settings body) w (fun s => api_put_settings i s w)
  | HSystemHealth => (system_health w, w)
  end.

(** ** The router *)

Definition dispatch_route (methods : list (Method * RouteHandler)) (captured : list string) (i : ApiInputs) (req : HttpRequest)
    (body : Body) (role : option Role) (w : World) : HttpReply * World :=
  match method_handler methods (rq_method req) with
  | None => (Text 405 EmptyString, w)
  | Some h =>
      let (r, w) := run_handler h i req body captured role w in
      (if bool_decide (rq_method req = HEAD) then Headers r else r, w)
  end.
(** [router]: a request that is not a CORS preflight. *)
Definition serve (i : ApiInputs) (req : HttpRequest) (body : Body) (w : World) : HttpReply * World :=
  match find_route system_router (rq_path req) with
  | Some (methods, captured) => dispatch_route methods captured i req body None w
  | None =>
      match find_route stateful_router (rq_path req) with
      | None => (Text (unrouted req).1 (unrouted req).2, w)
      | Some (methods, captured) =>
          match auth_mw (sv_credentials (wl_server w)) req with
          | Unauthorized msg => (Text 401 msg, w)
          | Forbidden msg => (Text 403 msg, w)
          | Next role => dispatch_route methods captured i req body role w
          end
      end
  end.

(** ** The live feed *)

(** What [select!] sees: a broadcast event, and whether sending it succeeded; lost
    events; the end of the broadcast; a frame of the client, or its end. *)
Inductive FeedItem := Received (e : StoredEvent) (sent : bool) | Lagged | FeedClosed | ClientFrame | ClientGone.
Variable event_to_json : StoredEvent -> option string.
(** [stream_events]: the frames the client gets. *)
Fixpoint stream_events (items : list FeedItem) : list string :=
  match items with
  | [] | FeedClosed :: _ | ClientGone :: _ => []
  | Lagged :: items' | ClientFrame :: items' => stream_events items'
  | Received e sent :: items' =>
      match event_to_json e with
      | None => stream_events items'
      | Some json => if sent then json :: stream_events items' else []
      end
  end.
End Api.

(** ** Routing *)

Lemma find_map_Some {A B} (f : A -> option B) (l : list A) (b : B) :
  find_map f l = Some b -> exists a, a ∈ l /\ f a = Some b.
Proof.
  induction l as [|a l IH]; cbn; [done|]. destruct (f a) eqn:Hf.
  - intros [= <-]. exists a. split; [by left|done].
  - intros (a' & Hin & Ha)%IH. exists a'. split; [by right|done].
Qed.

(** The handlers that change what the fleet relies on, and those that answer without
    the bearer. *)
Definition changes_fleet (h : RouteHandler) : bool :=
  match h with
  | HDeleteAgent | HPutLabels | HPostCommandResult | HApproveRemediation | HRejectRemediation | HPutSettings => true
  | _ => false
  end.
Definition public_handler (h : RouteHandler) : bool :=
  match h with
  | HHealth | HOpenapiJson | HReady | HMetrics | HEnroll | HIngest | HAuthConfig | HSystemHealth => true
  | _ => false
  end.

Section RouteFacts.
Context `{HL : HttpLaws} `{!EqDecision Method}.

Lemma find_route_Some (routes : Routes) path methods captured :
  find_route routes path = Some (methods, captured) -> exists pattern, (pattern, methods) ∈ routes.
Proof.
  unfold find_route. intros ([pattern ms] & Hin & Hm)%find_map_Some.
  apply fmap_Some in Hm as (c & _ & Hc). injection Hc as -> _. eauto.
Qed.

Lemma method_handler_Some methods m h :
  method_handler methods m = Some h -> exists m', (m', h) ∈ methods /\ (m' = m \/ (m = HEAD /\ m' = GET)).
Proof.
  assert (forall m0, snd <$> find_first (fun mh => bool_decide (mh.1 = m0)) methods = Some h ->
    (m0, h) ∈ methods) as Hon.
  { intros m0 Hf. destruct (find_first _ methods) as [[m1 h1]|] eqn:E; [|done]. injection Hf as ->.
    apply find_first_Some in E as (l1 & l2 & -> & He%bool_decide_eq_true & _). cbn in He. subst m1. set_solver. }
  unfold method_handler. destruct (snd <$> _) as [h'|] eqn:E.
  - intros [= ->]. exists m. split; [by apply Hon|by left].
  - case_bool_decide as Hm; [|done]. intros He. exists GET. split; [by apply Hon|by right].
Qed.

(** A handler that changes something is only reached by a method that is not safe. *)
Lemma mutating_unsafe path methods captured m h :
  find_route stateful_router path = Some (methods, captured) -> method_handler methods m = Some h ->
  changes_fleet h = true -> is_safe m = false.
Proof.
  intros (pattern & Hin)%find_route_Some (m' & Hh & Hm)%method_handler_Some Hmut.
  assert (Forall (fun r => Forall (fun mh => changes_fleet mh.2 = true -> is_safe mh.1 = false) r.2) stateful_router) as Hall.
  { repeat constructor; cbn; intros Hc; try done; apply post_unsafe || apply put_unsafe || apply delete_unsafe. }
  rewrite Forall_forall in Hall. specialize (Hall _ Hin). cbn in Hall. rewrite Forall_forall in Hall.
  specialize (Hall _ Hh Hmut). cbn in Hall. destruct Hm as [<-|[_ ->]]; [done|]. by rewrite get_safe in Hall.
Qed.

Lemma public_path_handler path methods captured m h :
  is_public path = true -> find_route stateful_router path = Some (methods, captured) ->
  method_handler methods m = Some h -> public_handler h = true.
Proof.
  intros Hpub Hr (m' & Hh & _)%method_handler_Some. apply one_of_elem in Hpub.
  rewrite !elem_of_cons in Hpub.
  destruct Hpub as [->|[->|[->|[->|[->|[->|Hnil]]]]]]; [..|by apply elem_of_nil in Hnil];
    vm_compute in Hr; injection Hr as <- _; apply list_elem_of_singleton in Hh; by injection Hh as _ ->.
Qed.

Lemma system_handler path methods captured m h :
  find_route system_router path = Some (methods, captured) -> method_handler methods m = Some h ->
  public_handler h = true.
Proof.
  intros (pattern & Hin)%find_route_Some (m' & Hh & _)%method_handler_Some.
  unfold system_router in Hin. rewrite !elem_of_cons in Hin. destruct Hin as [[= _ ->]|[[= _ ->]|Hnil]]; [..|by apply elem_of_nil in Hnil];
    apply list_elem_of_singleton in Hh; by injection Hh as _ ->.
Qed.
End RouteFacts.

(** ** The reference monitor *)

Section Access.
Context `{SerdeValue} `{Base64} `{Ed25519} `{SerdeJson} `{Rfc3339} `{Jwt} `{Rcgen} `{UuidText} `{HL : HttpLaws}
  `{!EqDecision Method} `{!Extractors}.
Variable csr_from_pem : string -> option CertParams.
Variable signed_by : CertParams -> IssuerKey -> option string.
Variable from_timestamp : Z -> option DateTime.
Variable json_parse : string -> result string Json.
Variable json_pretty : Json -> string.
Variable shape_error : Json -> string.
Variable openapi_document : Json.
Variable encode_metrics : World -> string.
Variable unrouted : HttpRequest -> N * string.
#[local] Abbreviation run_h := (run_handler csr_from_pem signed_by from_timestamp json_parse json_pretty shape_error
  openapi_document encode_metrics).
#[local] Abbreviation served := (serve csr_from_pem signed_by from_timestamp json_parse json_pretty shape_error
  openapi_document encode_metrics unrouted).
Implicit Types (w : World) (i : ApiInputs) (h : RouteHandler).

(** What no request changes: who may do what, with which keys, templates and rules. *)
Definition same_authority w w' : Prop :=
  sv_credentials (wl_server w') = sv_credentials (wl_server w) /\ sv_ca (wl_server w') = sv_ca (wl_server w)
  /\ sv_enroll_token (wl_server w') = sv_enroll_token (wl_server w)
  /\ sv_ingest_auth (wl_server w') = sv_ingest_auth (wl_server w)
  /\ as_signer (wl_app w') = as_signer (wl_app w) /\ as_templates (wl_app w') = as_templates (wl_app w)
  /\ as_policy (wl_app w') = as_policy (wl_app w) /\ as_ttl_secs (wl_app w') = as_ttl_secs (wl_app w).

(** What a request changes without a role: nothing but the gauge of the metrics, a
    token of the ingest's bucket, the row of an agent that presents the bootstrap token, and the tables of the ingest
    for a verified identity. *)
Inductive public_effect i (req : HttpRequest) (body : Body) w : World -> Prop :=
  | pe_nothing : public_effect i req body w w
  | pe_gauge n : public_effect i req body w (with_gauge n w)
  | pe_enrolled e ca r f :
      json_enroll body = Ok e -> sv_ca (wl_server w) = Some ca ->
      sv_enroll_token (wl_server w) = Some (er_bootstrap_token e) ->
      enroll csr_from_pem signed_by from_timestamp (Some ca) (sv_enroll_token (wl_server w)) (as_signer (wl_app w))
        (in_now (ai_inputs i)) (ai_write_ok i) e (wl_fleet w) = (inr r, f) ->
      public_effect i req body w (with_fleet f w)
  | pe_bucket : public_effect i req body w (with_bucket (consume f64_one (ai_instant i) (sv_rate_limit (wl_server w))).2 w)
  | pe_ingested m token :
      json_message body = Ok m -> (consume f64_one (ai_instant i) (sv_rate_limit (wl_server w))).1 = true -> rq_authorization req = Some ("Bearer " +:+ token) ->
      ingest_identity (sv_ingest_auth (wl_server w)) (ai_review i <$> sv_ingest_token_review (wl_server w)) token ->
      public_effect i req body w
        (with_bucket (consume f64_one (ai_instant i) (sv_rate_limit (wl_server w))).2
          (with_ingest (persist_message (ai_ingest i) (bool_decide (is_Some (sv_inference (wl_server w)))) m (wl_ingest w)) w)).

(** Replies that carry data of the fleet. *)
Fixpoint protected (r : HttpReply) : bool :=
  match r with
  | EventsReply _ | AgentsReply _ | AgentReply _ | CategoriesReply _ | TopologyReply _ | RecordsReply _
  | RemediationReply _ | SettingsReply _ | Upgraded => true
  | Text _ _ | JsonReply _ | EnrolledReply _ | DocumentReply _ _ => false
  | Headers r => protected r
  end.

Lemma with_fleet_same w : with_fleet (wl_fleet w) w = w.
Proof. by destruct w as [sv [] ? ? ?]. Qed.
Lemma with_ingest_same w : with_ingest (wl_ingest w) w = w.
Proof. by destruct w. Qed.

Lemma extracting_cases {A} (r : result (N * string) A) w k (P : HttpReply * World -> Prop) :
  (forall status msg, P (Text status msg, w)) -> (forall a, r = Ok a -> P (k a)) -> P (extracting r w k).
Proof. intros Hno Hyes. destruct r as [a|[status msg]]; [by apply Hyes|apply Hno]. Qed.
Ltac extract := match goal with |- context [extracting ?r ?w ?k] => pattern (extracting r w k); apply extracting_cases end.

Lemma enroll_effect i e w req body :
  json_enroll body = Ok e ->
  let r := api_enroll csr_from_pem signed_by from_timestamp i e w in
  public_effect i req body w r.2 /\ protected r.1 = false.
Proof.
  intros He. cbv zeta. unfold api_enroll.
  destruct (enroll _ _ _ _ _ _ _ _ e (wl_fleet w)) as [[[status msg]|resp] f] eqn:Hr; split; try done; cbn [snd].
  - assert (f = wl_fleet w) as ->; [|rewrite with_fleet_same; constructor].
    unfold enroll in Hr. repeat case_match; by simplify_eq.
  - assert (exists ca, sv_ca (wl_server w) = Some ca /\ sv_enroll_token (wl_server w) = Some (er_bootstrap_token e))
      as (ca & Hca & Htok).
    { unfold enroll in Hr. destruct (sv_ca (wl_server w)) as [ca|], (sv_enroll_token (wl_server w)) as [t|]; try done.
      destruct (constant_time_eq (er_bootstrap_token e) t) eqn:Hc; [|done]. apply constant_time_eq_spec in Hc as <-.
      by exists ca. }
    rewrite Hca in Hr. by eapply pe_enrolled.
Qed.

Lemma ingest_effect i m w req body :
  json_message body = Ok m ->
  let r := api_ingest i (rq_authorization req) m w in
  public_effect i req body w r.2 /\ protected r.1 = false.
Proof.
  intros Hm. cbv zeta. unfold api_ingest.
  pose proof (pe_bucket i req body w) as Hbucket. pose proof (pe_ingested i req body w m) as Hstored.
  destruct (consume f64_one (ai_instant i) (sv_rate_limit (wl_server w))) as [allowed bucket].
  pose proof (ingest_spec (ai_ingest i) (bool_decide (is_Some (sv_inference (wl_server w)))) allowed
    (sv_ingest_auth (wl_server w)) (ai_review i <$> sv_ingest_token_review (wl_server w)) (rq_authorization req) m
    (wl_ingest w)) as Hs.
  destruct (ingest _ _ _ _ _ _ m (wl_ingest w)) as [[status msg] g]. cbn in Hs. destruct Hs as [Hno Hyes].
  split; [|done]. cbn [snd fst] in *. destruct (decide (status = 202%N)) as [->|Hne].
  - destruct (Hyes eq_refl) as (Hal & -> & token & Hb & Hid). exact (Hstored token Hm Hal Hb Hid).
  - by rewrite (Hno Hne), with_ingest_same.
Qed.

(** Handlers that answer without the bearer. *)
Lemma public_handler_effect h i req body captured role w :
  public_handler h = true ->
  let r := run_h h i req body captured role w in public_effect i req body w r.2 /\ protected r.1 = false.
Proof.
  intros Hp. destruct h; try done; cbn [run_handler]; try (split; [constructor|done]).
  - unfold metrics. split; [|done]. destruct (db_list_agents i); constructor.
  - extract; [split; [constructor|done]|]. intros e He. by apply enroll_effect.
  - extract; [split; [constructor|done]|]. intros m Hm. by apply ingest_effect.
Qed.

(** The others, when they are not for administrators only. *)
Lemma reading_handler_effect h i req body captured role w :
  changes_fleet h = false -> public_handler h = false ->
  let w' := (run_h h i req body captured role w).2 in
  w' = w \/ exists a, w' = with_app (get_commands a (wl_app w)).2 w.
Proof.
  intros Hm Hp. destruct h; try done; cbn [run_handler]; try (by left);
    extract; intros; try (by left).
  match goal with |- context [get_commands ?a] => right; exists a end.
  unfold on_app. by destruct (get_commands _ _).
Qed.

Lemma on_app_authority (f : AppState -> Response * AppState) w :
  (forall s, as_signer (f s).2 = as_signer s /\ as_templates (f s).2 = as_templates s
     /\ as_policy (f s).2 = as_policy s /\ as_ttl_secs (f s).2 = as_ttl_secs s) ->
  same_authority w (on_app f w).2.
Proof.
  intros Hf. specialize (Hf (wl_app w)). unfold on_app. destruct (f (wl_app w)) as [r s]. by split_and!; cbn; try apply Hf.
Qed.

Lemma authority_refl w : same_authority w w.
Proof. done. Qed.

Lemma handler_authority h i req body captured role w :
  same_authority w (run_h h i req body captured role w).2.
Proof.
  destruct h; cbn [run_handler]; try apply authority_refl;
    repeat (extract; [intros; apply authority_refl|intros]); try apply authority_refl.
  - unfold api_delete_agent. destruct (ai_write_ok i); [|done]. by destruct (delete_agent _ _).
  - unfold put_labels. destruct (ai_write_ok i); [|done]. by destruct (replace_labels _ _ _) as [[] f].
  - unfold metrics. by destruct (db_list_agents i).
  - unfold api_enroll. by destruct (enroll _ _ _ _ _ _ _ _ _ _) as [[[]|] f].
  - unfold api_ingest. destruct (consume _ _ _) as [allowed bucket].
    by destruct (ingest (ai_ingest i) _ allowed _ _ _ a _) as [[] g].
  - apply on_app_authority. intros s. unfold get_commands. by destruct (take_for _ _).
  - apply on_app_authority. intros s. unfold post_command_result. by repeat case_match.
  - apply on_app_authority. intros s. unfold api_approve_remediation. by repeat case_match.
  - apply on_app_authority. intros s. unfold api_reject_remediation. by repeat case_match.
  - unfold api_put_settings. by destruct (put_settings _ _ _ _).
Qed.

(** Authentication is on. *)
Definition auth_enabled (s : Credentials) : Prop :=
  is_Some (cr_admin_token s) \/ is_Some (cr_viewer_token s) \/ is_Some (cr_user_auth s).

(** How a request gets to a handler, and in which role. *)
Lemma served_by i req body w :
  auth_enabled (sv_credentials (wl_server w)) ->
  (exists status msg, served i req body w = (Text status msg, w))
  \/ exists h captured role,
       (served i req body w).2 = (run_h h i req body captured role w).2
       /\ protected (served i req body w).1 = protected (run_h h i req body captured role w).1
       /\ match role with
          | Some r => (exists token, presents req token /\ holds (sv_credentials (wl_server w)) token r)
                      /\ (changes_fleet h = true -> r = Admin)
          | None => public_handler h = true
          end.
Proof.
  intros Hen. unfold serve. destruct (find_route system_router (rq_path req)) as [[methods captured]|] eqn:Hsys.
  - unfold dispatch_route. destruct (method_handler methods (rq_method req)) as [h|] eqn:Hh; [right|left; eauto].
    exists h, captured, None. destruct (run_h h i req body captured None w) as [r w'].
    split; [done|]. split; [by case_bool_decide|]. by eapply system_handler.
  - destruct (find_route stateful_router (rq_path req)) as [[methods captured]|] eqn:Hr; [|left; eauto].
    pose proof (auth_mw_next (sv_credentials (wl_server w)) req) as Hmw.
    destruct (auth_mw (sv_credentials (wl_server w)) req) as [role|msg|msg]; [|left; eauto..].
    specialize (Hmw role eq_refl). unfold dispatch_route.
    destruct (method_handler methods (rq_method req)) as [h|] eqn:Hh; [right|left; eauto].
    exists h, captured, role. destruct (run_h h i req body captured role w) as [r w'].
    split; [done|]. split; [by case_bool_decide|]. destruct role as [r0|].
    + destruct Hmw as (_ & Hp & Hsafe). split; [done|]. intros Hmut. apply Hsafe. by eapply mutating_unsafe.
    + destruct Hmw as [(Hc1 & Hc2 & Hc3)|Hpub]; [|by eapply public_path_handler].
      exfalso. destruct Hen as [[? Hc]|[[? Hc]|[? Hc]]]; congruence.
Qed.

(** What a served request did, and who asked for it. *)
Lemma serve_effect i req body w :
  auth_enabled (sv_credentials (wl_server w)) ->
  let holder role := exists token, presents req token /\ holds (sv_credentials (wl_server w)) token role in
  public_effect i req body w (served i req body w).2
  \/ (exists role a, holder role /\ (served i req body w).2 = with_app (get_commands a (wl_app w)).2 w)
  \/ holder Admin.
Proof.
  intros Hen. destruct (served_by i req body w Hen) as [(status & msg & ->)|(h & captured & role & -> & _ & Hrole)];
    [left; apply pe_nothing|]. cbv zeta. destruct (public_handler h) eqn:Hpub.
  { left. by apply public_handler_effect. }
  destruct role as [role|]; [|congruence]. destruct Hrole as [Hheld Hadm].
  destruct (changes_fleet h) eqn:Hmut; [rewrite (Hadm eq_refl) in Hheld; auto|].
  destruct (reading_handler_effect h i req body captured (Some role) w Hmut Hpub) as [->|[a ->]].
  - left. apply pe_nothing.
  - right. left. eauto.
Qed.

Lemma serve_authority i req body w :
  auth_enabled (sv_credentials (wl_server w)) -> same_authority w (served i req body w).2.
Proof.
  intros Hen. destruct (served_by i req body w Hen) as [(status & msg & ->)|(h & captured & role & -> & _)]; [done|].
  apply handler_authority.
Qed.

End Access.

(** What the client of the feed gets are the first of the events it was sent, in
    order. *)
Lemma stream_events_prefix `{SerdeValue} (event_to_json : StoredEvent -> option string) (items : list FeedItem) :
  stream_events event_to_json items
    `prefix_of` omap (fun it => match it with Received e _ => event_to_json e | _ => None end) items.
Proof.
  induction items as [|it items IH]; cbn; [done|]. destruct it as [e sent| | | |]; cbn; try done; try apply prefix_nil.
  destruct (event_to_json e) as [json|]; [|done]. destruct sent; [by apply prefix_cons|apply prefix_nil].
Qed.

(** ** A concrete server *)

#[export] Instance toy_rcgen : Rcgen :=
  {| PublicKey := unit; IssuerKey := string; dns_name_ok _ := true; OtherParams := unit |}.
#[export] Instance toy_method_eq : EqDecision (@Method toy_http).
Proof. unfold Method, toy_http. solve_decision. Defined.
(** Identifiers are numbers; the settings are the only body that is read. *)
#[export] Instance toy_extractors : Extractors := {|
  Body := string;
  path_uuid s := match parse_uint (2 ^ 128 - 1) s with Some n => Ok n | None => Err (400%N, "invalid UUID"%string) end;
  query_limit _ := Ok None; query_group_by _ := Ok None;
  json_labels _ := Ok []; json_enroll _ := Err (422%N, "missing field"%string);
  json_message _ := Err (422%N, "missing field"%string); json_action_result _ := Err (422%N, "missing field"%string);
  json_settings _ := Ok stored_settings;
  ws_upgrade _ := Ok tt;
|}.
(** Settings with a token of a third party. *)
Definition secret_settings : SystemSettings := {|
  ss_auto_remediation := false; ss_risk_tier := "safe"; ss_inference_enabled := false;
  ss_inference_endpoint := "http://model"; ss_inference_model := "m";
  ss_knowledge := Some {|
    ks_local_runbooks_dir := ""; ks_github_wiki_dir := ""; ks_backstage_enabled := true;
    ks_backstage_url := "http://backstage"; ks_backstage_token := "hunter2"; ks_confluence_enabled := false;
    ks_confluence_url := ""; ks_confluence_user := ""; ks_confluence_token := ""; ks_notion_enabled := false;
    ks_notion_api_key := "" |} |}.
Definition secret_parse (data : string) : result string Json := Ok (settings_json secret_settings).

Definition example_world (app : AppState) : World := {|
  wl_server := {| sv_app := app; sv_credentials := toy_credentials; sv_ca := None; sv_enroll_token := None;
                  sv_ingest_auth := None; sv_ingest_token_review := None; sv_inference := None;
                  sv_oidc_public := None; sv_kill_switch_active := 0; sv_rate_limit := bucket_new (f64_of_Z 100) (f64_of_Z 10) 0 |};
  wl_ingest := mkIngestion (mkFleet ∅ ∅ ∅) 0 [] [] [] [];
  wl_settings := Some "{...}"%string; wl_gauge := None; wl_counters := mkIngestCounters 0 0 0 0 [] |}.
Definition example_api (n : N) : ApiInputs := {|
  ai_inputs := example_inputs n; ai_ingest := mkIngestInputs (Z.of_N n) true true; ai_instant := 0;
  ai_review _ _ := None; ai_ping := true; ai_nats_connected := true; ai_write_ok := true; ai_read_ok := true;
  ai_agent_rows := []; ai_label_rows := []; ai_agent_labels := []; ai_category_rows := []; ai_severity_rows := [];
  ai_event_rows _ := []; ai_settings_read := Ok tt; ai_settings_write := Written |}.
Definition example_serve (req : HttpRequest) (w : World) : HttpReply * World :=
  serve (fun _ => None) (fun _ _ => None) (fun _ => None) secret_parse (fun _ => "{...}"%string)
    (fun _ => "invalid type"%string) JNull (fun _ => EmptyString) (fun _ => (404%N, EmptyString)) (example_api 2) req
    EmptyString w.
Definition settings_request (authorization : option string) : HttpRequest :=
  mkRequest ToyGet "/api/settings" None authorization.


(** The settings are behind the viewer role only: a viewer reads the tokens of the
    other systems in them. *)
Theorem viewer_reads_secrets :
  exists w' s k, example_serve (settings_request (Some "Bearer look"%string)) (example_world (example_state [] true))
      = (SettingsReply s, w')
    /\ ss_knowledge s = Some k /\ ks_backstage_token k = "hunter2"%string.
Proof. eexists _, _, _. split; [vm_compute; reflexivity|]. split; reflexivity. Qed.

(** The bucket is charged before the caller is known: requests without a token, each
    of them refused, leave none for an agent whose token the cluster accepts. *)
Definition ingest_world : World :=
  let w := example_world (example_state [] true) in
  let v := wl_server w in
  {| wl_server := {| sv_app := sv_app v; sv_credentials := sv_credentials v; sv_ca := None; sv_enroll_token := None;
                     sv_ingest_auth := None;
                     sv_ingest_token_review := Some (mkTokenReviewValidator "https://cluster" "sa" "ravn");
                     sv_inference := None; sv_oidc_public := None; sv_kill_switch_active := 0;
                     sv_rate_limit := sv_rate_limit v |};
     wl_ingest := wl_ingest w; wl_settings := None; wl_gauge := wl_gauge w; wl_counters := wl_counters w |}.
Definition ingest_inputs : ApiInputs :=
  let i := example_api 2 in
  mkApiInputs (ai_inputs i) (ai_ingest i) (ai_instant i)
    (fun _ token => Some (mkReview (String.eqb token "genuine") "system:serviceaccount:ravn:agent" None))
    true true true true [] [] [] [] [] (fun _ => []) (Ok tt) Written.
Definition anonymous (w : World) : World := (api_ingest ingest_inputs None (message_new example_event) w).2.
Theorem anonymous_requests_starve :
  let genuine w := (api_ingest ingest_inputs (Some "Bearer genuine"%string) (message_new example_event) w).1 in
  genuine ingest_world = Text 202 "accepted"
  /\ genuine (Nat.iter 100 anonymous ingest_world) = Text 429 "too many requests".
Proof. vm_compute. split; reflexivity. Qed.
