(* ===== verification/ControlPlane.v ===== *)
(** * Runs of the whole control plane ([ravn-server/src/api.rs], [ingest.rs])

    The HTTP interface together with what runs beside it: the two NATS subscriptions
    and the tasks that the ingest spawns (preparing a remediation, explaining an
    event), as steps on one state, in any order. The theorem follows every command
    in the queue back to who had the authority to put it there.

    A step is one message or one task, whole; the broker's deliveries, the model's
    answers and the database's are its inputs. *)

From S2P Require Export Api.

Section ControlPlane.
Context `{SerdeValue} `{Base64} `{Ed25519} `{SerdeJson} `{Rfc3339} `{Jwt} `{Rcgen} `{UuidText} `{Http}
  `{!EqDecision Method} `{!Extractors}.
Variable csr_from_pem : string -> option CertParams.
Variable signed_by : CertParams -> IssuerKey -> option string.
Variable from_timestamp : Z -> option DateTime.
Variable json_parse : string -> result string Json.
Variable json_pretty : Json -> string.
Variable shape_error : Json -> string.
Variable openapi_document : Json.
Variable encode_metrics : World -> string.
Variable unrouted : HttpRequest -> N * string.

(** ** The loops of [ingest.rs] *)

Definition count_ingest_error (g : Ingestion) : Ingestion :=
  mkIngestion (ig_fleet g) (ig_errors g + 1) (ig_ingested g) (ig_broadcast g) (ig_explain g) (ig_prepare g).
Definition with_counters (c : IngestCounters) (w : World) : World :=
  {| wl_server := wl_server w; wl_ingest := wl_ingest w; wl_settings := wl_settings w; wl_gauge := wl_gauge w;
     wl_counters := c |}.
(** One message of [run]: its payload, when it parses. *)
Definition on_nats_message (i : IngestInputs) (payload : option Message) (w : World) : World :=
  with_ingest match payload with
              | Some m => persist_message i (bool_decide (is_Some (sv_inference (wl_server w)))) m (wl_ingest w)
              | None => count_ingest_error (wl_ingest w)
              end w.
(** One message of [run_heartbeats]. *)
Definition on_nats_heartbeat (now : DateTime) (db_ok : bool) (payload : option Heartbeat) (w : World) : World :=
  match payload with
  | Some hb =>
      let c := wl_counters w in
      let w := with_counters {| mc_heartbeats := mc_heartbeats c + 1; mc_generated := mc_generated c;
                                mc_explanation_errors := mc_explanation_errors c; mc_timeouts := mc_timeouts c;
                                mc_latencies := mc_latencies c |} w in
      if db_ok then with_fleet (record_heartbeat now hb (wl_fleet w)) w else w
  | None => w
  end.

(** ** The tasks the ingest spawns *)

Definition is_timeout (error : string) : bool :=
  contains "timed out" error || contains "deadline" error || contains "timeout" error.
(** The task of [maybe_explain] on the [k]-th event that waits for it; [elapsed] is the
    time the answer took, in nanoseconds. *)
Definition explain_task (k : nat) (answer : result string Explanation) (elapsed : Z) (now : DateTime) (db_ok : bool)
    (w : World) : World :=
  let g := wl_ingest w in
  match ig_explain g !! k with
  | None => w
  | Some event =>
      let rest := base.delete k (ig_explain g) in
      let c := wl_counters w in
      match answer with
      | Err e =>
          with_counters {| mc_heartbeats := mc_heartbeats c; mc_generated := mc_generated c;
                           mc_explanation_errors := mc_explanation_errors c + 1;
                           mc_timeouts := if is_timeout e then (mc_timeouts c + 1)%N else mc_timeouts c;
                           mc_latencies := mc_latencies c |}
            (with_ingest (mkIngestion (ig_fleet g) (ig_errors g) (ig_ingested g) (ig_broadcast g) rest (ig_prepare g)) w)
      | Ok x =>
          let latencies := mc_latencies c ++ [as_secs_f64 elapsed] in
          if db_ok then
            let enriched := {| msg_event := event; msg_explanation := Some x |} in
            with_counters {| mc_heartbeats := mc_heartbeats c; mc_generated := mc_generated c + 1;
                             mc_explanation_errors := mc_explanation_errors c; mc_timeouts := mc_timeouts c;
                             mc_latencies := latencies |}
              (with_ingest
                 (mkIngestion (update_explanation (ev_id event) (ev_occurred_at event) x (ig_fleet g)) (ig_errors g)
                    (ig_ingested g) (ig_broadcast g ++ [message_to_stored enriched now]) rest (ig_prepare g)) w)
          else
            with_counters {| mc_heartbeats := mc_heartbeats c; mc_generated := mc_generated c;
                             mc_explanation_errors := mc_explanation_errors c; mc_timeouts := mc_timeouts c;
                             mc_latencies := latencies |}
              (with_ingest (mkIngestion (ig_fleet g) (ig_errors g) (ig_ingested g) (ig_broadcast g) rest (ig_prepare g)) w)
      end
  end.
(** The task of [prepare] on the [k]-th event that waits for it. *)
Definition prepare_task (k : nat) (i : Inputs) (w : World) : World :=
  let g := wl_ingest w in
  match ig_prepare g !! k with
  | None => w
  | Some event =>
      with_app (prepare_inner i event (wl_app w))
        (with_ingest (mkIngestion (ig_fleet g) (ig_errors g) (ig_ingested g) (ig_broadcast g) (ig_explain g)
                        (base.delete k (ig_prepare g))) w)
  end.

(** ** Runs *)

Inductive ControlStep :=
  | HttpStep (i : ApiInputs) (req : HttpRequest) (body : Body)
  | NatsMessage (i : IngestInputs) (payload : option Message)
  | NatsHeartbeat (now : DateTime) (db_ok : bool) (payload : option Heartbeat)
  | ExplainStep (k : nat) (answer : result string Explanation) (elapsed : Z) (now : DateTime) (db_ok : bool)
  | PrepareStep (k : nat) (i : Inputs).
Definition control_exec (s : ControlStep) (w : World) : World :=
  match s with
  | HttpStep i req body =>
      (serve csr_from_pem signed_by from_timestamp json_parse json_pretty shape_error openapi_document encode_metrics
         unrouted i req body w).2
  | NatsMessage i payload => on_nats_message i payload w
  | NatsHeartbeat now db_ok payload => on_nats_heartbeat now db_ok payload w
  | ExplainStep k answer elapsed now db_ok => explain_task k answer elapsed now db_ok w
  | PrepareStep k i => prepare_task k i w
  end.
Definition control_run (steps : list ControlStep) (w : World) : World :=
  foldl (fun w s => control_exec s w) w steps.
End ControlPlane.

(** ** Authority over the queue *)

Section Authority.
Context `{SerdeValue} `{Base64} `{Ed25519} `{SerdeJson} `{Rfc3339} `{Jwt} `{Rcgen} `{UuidText} `{HL : HttpLaws}
  `{!EqDecision Method} `{!Extractors}.
Variable csr_from_pem : string -> option CertParams.
Variable signed_by : CertParams -> IssuerKey -> option string.
Variable from_timestamp : Z -> option DateTime.
Variable json_parse : string -> result string Json.
Variable json_pretty : Json -> string.
Variable shape_error : Json -> string.
Variable openapi_document : Json.
Variable encode_metrics : World -> string.
Variable unrouted : HttpRequest -> N * string.
#[local] Abbreviation exec := (control_exec csr_from_pem signed_by from_timestamp json_parse json_pretty shape_error
  openapi_document encode_metrics unrouted).
#[local] Abbreviation crun := (control_run csr_from_pem signed_by from_timestamp json_parse json_pretty shape_error
  openapi_document encode_metrics unrouted).
Implicit Types (w : World).

(** A request of an administrator. *)
Definition admin_request (c : Credentials) (s : ControlStep) : Prop :=
  match s with
  | HttpStep _ req _ => exists token, presents req token /\ holds c token Admin
  | _ => False
  end.

Lemma public_effect_app i req body w w' :
  public_effect csr_from_pem signed_by from_timestamp i req body w w' -> wl_app w' = wl_app w.
Proof. by destruct 1. Qed.

(** Steps other than the preparation and HTTP leave the remediation state alone. *)
Lemma step_app s w :
  match s with
  | HttpStep _ _ _ => True
  | PrepareStep k i => wl_app (exec s w) = wl_app w
      \/ exists event, wl_app (exec s w) = prepare_inner i event (wl_app w)
  | _ => wl_app (exec s w) = wl_app w
  end.
Proof.
  destruct s as [i req body|i [m|]|now db_ok [hb|]|k answer elapsed now db_ok|k i]; cbn; try done.
  - by destruct db_ok.
  - unfold explain_task. destruct (ig_explain _ !! k); [|done]. destruct answer; [|done]. by destruct db_ok.
  - unfold prepare_task. destruct (ig_prepare _ !! k) as [event|]; [right; by exists event|by left].
Qed.

Lemma step_credentials s w :
  auth_enabled (sv_credentials (wl_server w)) ->
  sv_credentials (wl_server (exec s w)) = sv_credentials (wl_server w)
  /\ same_rules (as_policy (wl_app w)) (as_policy (wl_app (exec s w))).
Proof.
  intros Hen. destruct s as [i req body|i [m|]|now db_ok [hb|]|k answer elapsed now db_ok|k i]; cbn [control_exec]; try done.
  - destruct (serve_authority csr_from_pem signed_by from_timestamp json_parse json_pretty shape_error openapi_document
      encode_metrics unrouted i req body w Hen) as (Hc & _ & _ & _ & _ & _ & Hp & _). rewrite Hc, Hp. done.
  - cbn. by destruct db_ok.
  - unfold explain_task. destruct (ig_explain _ !! k); [|done]. destruct answer; [|done]. by destruct db_ok.
  - unfold prepare_task. destruct (ig_prepare _ !! k) as [event|]; [|done]. split; [done|].
    apply (server_same_rules (DoPrepare i event)).
Qed.

Lemma step_queue s w a env :
  auth_enabled (sv_credentials (wl_server w)) ->
  env ∈ pending_for a (as_queue (wl_app (exec s w))) ->
  env ∈ pending_for a (as_queue (wl_app w))
  \/ (ce_approval_ref env = PolicyAuto /\ automatic (as_policy (wl_app w)) env)
  \/ admin_request (sv_credentials (wl_server w)) s.
Proof.
  intros Hen Hin. pose proof (step_app s w) as Happ. destruct s as [i req body| | | |k i]; try (left; congruence).
  - cbn [control_exec] in Hin.
    destruct (serve_effect csr_from_pem signed_by from_timestamp json_parse json_pretty shape_error openapi_document
      encode_metrics unrouted i req body w Hen) as [He|[(role & b & _ & He)|Hadm]]; [| |by right; right]; left.
    + apply public_effect_app in He. rewrite He in Hin. exact Hin.
    + rewrite He in Hin. by apply (server_queue (DoPull b)) in Hin as [Hin|[]].
  - destruct Happ as [Happ|[event Happ]]; rewrite Happ in Hin; [by left|].
    apply prepare_queue in Hin as [Hin|(Ha & Hauto & _)]; auto.
Qed.

(** C13. Every command has an authority behind it: over any run of the control plane
    with authentication on, with requests from anyone, messages from the broker and
    background tasks in any order, a command that waits for an agent was there at
    the start, or was put there by the policy, with the kill switch released, a rule
    that says so and a tier that is not dangerous, or the run has a request that
    presented a token holding the admin role. Who holds a role, and the rules, are
    those of the start. *)
Theorem commands_need_authority (steps : list ControlStep) w a env :
  auth_enabled (sv_credentials (wl_server w)) ->
  env ∈ pending_for a (as_queue (wl_app (crun steps w))) ->
  env ∈ pending_for a (as_queue (wl_app w))
  \/ (ce_approval_ref env = PolicyAuto /\ automatic (as_policy (wl_app w)) env)
  \/ exists s, s ∈ steps /\ admin_request (sv_credentials (wl_server w)) s.
Proof.
  revert w. induction steps as [|s steps IH]; intros w Hen Hin; [by left|].
  destruct (step_credentials s w Hen) as [Hcred Hrules].
  destruct (IH (exec s w)) as [Hold|[[Hp Hauto]|(s' & Hs' & Hadm)]]; [by rewrite Hcred|exact Hin| | |].
  - destruct (step_queue s w a env Hen Hold) as [?|[?|?]]; [auto|auto|]. right. right. exists s. split; [by left|done].
  - right. left. split; [done|]. eapply automatic_same_rules; [|exact Hauto]. destruct Hrules as [? ?]. by split.
  - right. right. exists s'. rewrite Hcred in Hadm. split; [by right|done].
Qed.
End Authority.

(** ** A concrete run *)

(** A fault arrives, its remediation is proposed, and an administrator of the
    identity provider approves it. *)
Definition approval_steps : list ControlStep :=
  [NatsMessage (mkIngestInputs 1 true true) (Some (message_new example_event)); PrepareStep 0 (example_inputs 1);
   HttpStep (example_api 2) (approve_request "dev,sre") EmptyString].
Definition approval_run : World :=
  control_run (fun _ => None) (fun _ _ => None) (fun _ => None) secret_parse (fun _ => "{...}"%string)
    (fun _ => "invalid type"%string) JNull (fun _ => EmptyString) (fun _ => (404%N, EmptyString)) approval_steps
    (example_world (example_state [] true)).

Lemma commands_need_authority_witness :
  exists env, env ∈ pending_for 9 (as_queue (wl_app approval_run)) /\ ce_approval_ref env <> PolicyAuto
    /\ exists s, s ∈ approval_steps /\ admin_request toy_credentials s.
Proof.
  assert (match pending_for 9 (as_queue (wl_app approval_run)) with
          | env :: _ => match ce_approval_ref env with PolicyAuto => false | _ => true end
          | [] => false
          end = true) as Hrun by (vm_compute; reflexivity).
  destruct (pending_for 9 (as_queue (wl_app approval_run))) as [|env envs] eqn:Hp; [discriminate|].
  assert (ce_approval_ref env <> PolicyAuto) as Hhuman by (intros Hc; rewrite Hc in Hrun; discriminate).
  exists env. split; [by left|]. split; [exact Hhuman|].
  destruct (commands_need_authority (fun _ => None) (fun _ _ => None) (fun _ => None) secret_parse
    (fun _ => "{...}"%string) (fun _ => "invalid type"%string) JNull (fun _ => EmptyString)
    (fun _ => (404%N, EmptyString)) approval_steps (example_world (example_state [] true)) 9%N env)
    as [Hold|[[Hauto _]|Hadm]].
  - left. exists "root"%string. reflexivity.
  - fold approval_run. rewrite Hp. by left.
  - apply elem_of_nil in Hold. destruct Hold.
  - destruct (Hhuman Hauto).
  - exact Hadm.
Defined.
