(* ===== verification/Reads.v ===== *)
(** * The registry over runs of the control plane ([ravn-server/src/api.rs], [db.rs])

  What every request, message and task does to the registry, and what the reading
  endpoints then show of it.  The theorems: over any run the tables are a roster that
  changes only by statements which the step is entitled to; the stored events are those
  that were received, and none is lost; and all reading endpoints answer from these
  tables. *)

From stdpp Require Import sorting.
From S2P Require Export Queries.
From S2P Require Export ControlPlane.

Section Reads.
Context `{SerdeValue} `{Base64} `{Ed25519} `{SerdeJson} `{Rfc3339} `{Jwt} `{Rcgen} `{UuidText} `{HL : HttpLaws}
  `{!EqDecision Method} `{!Extractors}.
Variable csr_from_pem : string -> option CertParams.
Variable signed_by : CertParams -> IssuerKey -> option string.
Variable from_timestamp : Z -> option DateTime.
Variable json_parse : string -> result string Json.
Variable json_pretty : Json -> string.
Variable shape_error : Json -> string.
Variable openapi_document : Json.
Variable encode_metrics : World -> string.
Variable unrouted : HttpRequest -> N * string.
#[local] Abbreviation exec := (control_exec csr_from_pem signed_by from_timestamp json_parse json_pretty shape_error
  openapi_document encode_metrics unrouted).
#[local] Abbreviation crun := (control_run csr_from_pem signed_by from_timestamp json_parse json_pretty shape_error
  openapi_document encode_metrics unrouted).
#[local] Abbreviation run_h := (run_handler csr_from_pem signed_by from_timestamp json_parse json_pretty shape_error
  openapi_document encode_metrics).
Implicit Types (w : World) (i : ApiInputs) (h : RouteHandler).

(** A body of labels is a [BTreeMap]. *)
Hypothesis labels_ordered : forall body labels, json_labels body = Ok labels -> bt_ordered labels.

(** ** What each step does *)

(** The fleet after some statements, all of a kind. *)
Definition by_statements (kind : FleetOp -> Prop) (f f' : Fleet) : Prop :=
  exists ops, Forall kind ops /\ Forall op_ordered ops /\ f' = fleet_run ops f.
Lemma by_nothing kind f : by_statements kind f f.
Proof. by exists []. Qed.
Lemma by_one (kind : FleetOp -> Prop) op f : kind op -> op_ordered op -> by_statements kind f (fleet_exec op f).
Proof. intros Hk Ho. exists [op]. split_and!; [by apply Forall_singleton|by apply Forall_singleton|done]. Qed.

(** What the message [m] says of its agent. *)
Definition sighting (m : Message) (op : FleetOp) : Prop :=
  match op with
  | FoMessage _ m' => m' = m
  | FoTouch _ id host => id = agent_uuid (ev_agent_id (msg_event m)) /\ host = ev_host (msg_event m)
  | _ => False
  end.
Lemma persist_fleet j inference m (g : Ingestion) :
  by_statements (sighting m) (ig_fleet g) (ig_fleet (persist_message j inference m g)).
Proof.
  unfold persist_message. destruct (ii_insert_ok j); [|apply by_nothing]. cbn. unfold maybe_explain.
  set (touch := FoTouch (ii_now j) (agent_uuid (ev_agent_id (msg_event m))) (ev_host (msg_event m))).
  exists (FoMessage (ii_now j) m :: if ii_touch_ok j then [touch] else []).
  destruct (ii_touch_ok j), (wants_explanation _ _); split_and!; by repeat constructor.
Qed.

(** What lets a request in that has no role: the bootstrap token, and an identity that
    the key set or the cluster vouches for. *)
Definition bootstrapped (v : ServerState) (body : Body) (id : Uuid) (host : string) : Prop :=
  exists e, json_enroll body = Ok e /\ sv_enroll_token v = Some (er_bootstrap_token e)
    /\ id = agent_uuid (er_agent_id e) /\ host = er_host e.
Definition vouched (v : ServerState) i (req : HttpRequest) : Prop :=
  exists token, rq_authorization req = Some ("Bearer " +:+ token)
    /\ ingest_identity (sv_ingest_auth v) (ai_review i <$> sv_ingest_token_review v) token.

(** The statements of a handler come from its request's body; the labels and the
    deletion are for administrators. *)
Definition handler_statement (v : ServerState) (h : RouteHandler) i (req : HttpRequest) (body : Body) (op : FleetOp) : Prop :=
  match op with
  | FoLabels _ labels => changes_fleet h = true /\ json_labels body = Ok labels
  | FoDelete _ => changes_fleet h = true
  | FoEnroll _ id host _ => bootstrapped v body id host
  | FoMessage _ _ | FoTouch _ _ _ => vouched v i req /\ exists m, json_message body = Ok m /\ sighting m op
  | FoExplain _ _ _ | FoBeat _ _ => False
  end.

Lemma handler_fleet h i req body captured role w :
  by_statements (handler_statement (wl_server w) h i req body) (wl_fleet w) (wl_fleet (run_h h i req body captured role w).2).
Proof.
  pose proof (fun s => by_nothing (handler_statement (wl_server w) s i req body) (wl_fleet w)) as Hno.
  destruct h; cbn [run_handler]; try apply Hno; repeat (apply extracting_cases; [intros; apply Hno|intros]); try apply Hno.
  - unfold api_delete_agent. destruct (ai_write_ok i); [|apply Hno].
    destruct (delete_agent a (wl_fleet w)) as [found f] eqn:Hd. cbn.
    assert (f = fleet_exec (FoDelete a) (wl_fleet w)) as -> by by (cbn [fleet_exec]; rewrite Hd). by apply by_one.
  - unfold put_labels. destruct (ai_write_ok i); [|apply Hno].
    destruct (replace_labels a a0 (wl_fleet w)) as [found f] eqn:Hr. destruct found; [|apply Hno]. cbn.
    assert (f = fleet_exec (FoLabels a a0) (wl_fleet w)) as -> by by (cbn [fleet_exec]; rewrite Hr).
    apply by_one; [done|]. by eapply labels_ordered.
  - unfold metrics. destruct (db_list_agents i); apply Hno.
  - unfold api_enroll. destruct (enroll _ _ _ _ _ _ _ _ a (wl_fleet w)) as [[[status msg]|resp] f] eqn:He; cbn.
    + assert (f = wl_fleet w) as -> by (unfold enroll in He; repeat case_match; by simplify_eq). apply Hno.
    + unfold enroll in He. destruct (sv_ca _); [|done]. destruct (sv_enroll_token (wl_server w)) as [expected|] eqn:Ht; [|done].
      destruct (constant_time_eq (er_bootstrap_token a) expected) eqn:Heq; [cbn in He|done]. apply constant_time_eq_spec in Heq as <-.
      repeat case_match; simplify_eq. apply (by_one _ (FoEnroll _ _ _ _)); [|done]. by exists a.
  - unfold api_ingest. destruct (consume _ _ _) as [allowed bucket].
    pose proof (ingest_spec (ai_ingest i) (bool_decide (is_Some (sv_inference (wl_server w)))) allowed
      (sv_ingest_auth (wl_server w)) (ai_review i <$> sv_ingest_token_review (wl_server w)) (rq_authorization req) a (wl_ingest w)) as [Hin Hout].
    destruct (ingest (ai_ingest i) _ allowed _ _ _ a _) as [[status msg] g]. cbn in Hin, Hout |- *.
    destruct (decide (status = 202%N)) as [Hs|Hs]; [|rewrite (Hin Hs); apply Hno].
    destruct (Hout Hs) as (_ & -> & Hid).
    destruct (persist_fleet (ai_ingest i) (bool_decide (is_Some (sv_inference (wl_server w)))) a (wl_ingest w)) as (ops & Hk & Ho & Hf).
    exists ops. split_and!; [|done|exact Hf]. eapply Forall_impl; [exact Hk|]. intros op Hop.
    by destruct op; (done || (split; [exact Hid|by exists a])).
  - unfold on_app. destruct (get_commands _ _). apply Hno.
  - unfold on_app. destruct (post_command_result _ _ _). apply Hno.
  - unfold on_app. destruct (api_approve_remediation _ _ _ _). apply Hno.
  - unfold on_app. destruct (api_reject_remediation _ _ _ _). apply Hno.
  - unfold api_put_settings. destruct (put_settings _ _ _ _). apply Hno.
Qed.

(** The message that a step brought, from whom it may come, and which statement a step
    may make: it says what the step brought. *)
Definition brought (v : ServerState) (st : ControlStep) (m : Message) : Prop :=
  match st with
  | HttpStep i req body => vouched v i req /\ json_message body = Ok m
  | NatsMessage _ payload => payload = Some m
  | _ => False
  end.
Definition fleet_entitled (v : ServerState) (st : ControlStep) (op : FleetOp) : Prop :=
  match op, st with
  | FoLabels _ labels, HttpStep _ _ body => admin_request (sv_credentials v) st /\ json_labels body = Ok labels
  | FoDelete _, _ => admin_request (sv_credentials v) st
  | FoEnroll _ id host _, HttpStep _ _ body => bootstrapped v body id host
  | (FoMessage _ _ | FoTouch _ _ _), _ => exists m, brought v st m /\ sighting m op
  | FoBeat _ hb, NatsHeartbeat _ _ payload => payload = Some hb
  | FoExplain _ _ x, ExplainStep _ answer _ _ _ => answer = Ok x
  | _, _ => False
  end.

(** No step changes what it takes to be let in. *)
Definition gates (v : ServerState) := (sv_credentials v, sv_enroll_token v, sv_ingest_auth v, sv_ingest_token_review v).
Lemma handler_gates h i req body captured role w : gates (wl_server (run_h h i req body captured role w).2) = gates (wl_server w).
Proof.
  assert (forall f, gates (wl_server (on_app f w).2) = gates (wl_server w)) as Happ by (intros f; unfold on_app; by destruct (f _)).
  destruct h; cbn [run_handler]; try done; repeat (apply (extracting_cases _ _ _ (fun r => gates (wl_server r.2) = gates (wl_server w))); [intros; done|intros]); try done; try apply Happ.
  - unfold api_delete_agent. destruct (ai_write_ok i); [|done]. by destruct (delete_agent _ _).
  - unfold put_labels. destruct (ai_write_ok i); [|done]. by destruct (replace_labels _ _ _) as [[] f].
  - unfold metrics. by destruct (db_list_agents i).
  - unfold api_enroll. by destruct (enroll _ _ _ _ _ _ _ _ _ _) as [[[]|] f].
  - unfold api_ingest. destruct (consume _ _ _) as [allowed bucket].
    by destruct (ingest (ai_ingest i) _ allowed _ _ _ a _) as [[] g].
  - unfold api_put_settings. by destruct (put_settings _ _ _ _).
Qed.
Lemma step_gates st w :
  auth_enabled (sv_credentials (wl_server w)) -> gates (wl_server (exec st w)) = gates (wl_server w).
Proof.
  intros Hen. destruct st as [i req body|j [m|]|now db_ok [hb|]|k answer elapsed now db_ok|k j]; cbn [control_exec]; try done.
  - destruct (served_by csr_from_pem signed_by from_timestamp json_parse json_pretty shape_error openapi_document
      encode_metrics unrouted i req body w Hen) as [(status & msg & ->)|(h & captured & role & -> & _)]; [done|].
    apply handler_gates.
  - cbn. by destruct db_ok.
  - unfold explain_task. destruct (ig_explain _ !! k); [|done]. destruct answer; [|done]. by destruct db_ok.
  - unfold prepare_task. by destruct (ig_prepare _ !! k).
Qed.
Lemma gates_entitled v v' st op : gates v' = gates v -> fleet_entitled v' st op <-> fleet_entitled v st op.
Proof.
  intros [= Hc Ht Ha Hr]. unfold fleet_entitled, brought, vouched, bootstrapped. rewrite Hc, Ht, Ha.
  destruct st; cbn; by rewrite ?Hr.
Qed.

Lemma step_fleet st w :
  auth_enabled (sv_credentials (wl_server w)) ->
  by_statements (fleet_entitled (wl_server w) st) (wl_fleet w) (wl_fleet (exec st w)).
Proof.
  intros Hen. destruct st as [i req body|j [m|]|now db_ok [hb|]|k answer elapsed now db_ok|k j]; cbn [control_exec].
  - destruct (served_by csr_from_pem signed_by from_timestamp json_parse json_pretty shape_error openapi_document
      encode_metrics unrouted i req body w Hen) as [(status & msg & ->)|(h & captured & role & -> & _ & Hrole)]; [apply by_nothing|].
    destruct (handler_fleet h i req body captured role w) as (ops & Hk & Ho & ->). exists ops. split_and!; [|done|done].
    eapply Forall_impl; [exact Hk|]. intros op Hop.
    assert (changes_fleet h = true -> admin_request (sv_credentials (wl_server w)) (HttpStep i req body)) as Hadm.
    { intros Hmut. destruct role as [role|]; [|by destruct h]. destruct Hrole as [(token & Hp & Hh) Hr]. rewrite (Hr Hmut) in Hh. by exists token. }
    destruct op; cbn in Hop |- *; try done.
    + destruct Hop as (Hv & m' & Hm & Hs). by exists m'.
    + destruct Hop as (Hv & m' & Hm & Hs). by exists m'.
    + destruct Hop as [Hch Hop]. by split; [apply Hadm|].
    + by apply Hadm.
  - destruct (persist_fleet j (bool_decide (is_Some (sv_inference (wl_server w)))) m (wl_ingest w)) as (ops & Hk & Ho & Hf).
    exists ops. split_and!; [|done|exact Hf]. eapply Forall_impl; [exact Hk|]. intros op Hop. by destruct op; (done || exists m).
  - apply by_nothing.
  - cbn. destruct db_ok; [by apply (by_one _ (FoBeat now hb))|apply by_nothing].
  - apply by_nothing.
  - unfold explain_task. destruct (ig_explain (wl_ingest w) !! k) as [event|]; [|apply by_nothing].
    destruct answer as [x|err]; [|apply by_nothing]. destruct db_ok; [|apply by_nothing].
    by apply (by_one _ (FoExplain (ev_id event) (ev_occurred_at event) x)).
  - unfold prepare_task. destruct (ig_prepare _ !! k); apply by_nothing.
Qed.

Lemma control_fleet (steps : list ControlStep) w :
  auth_enabled (sv_credentials (wl_server w)) ->
  exists opss, Forall2 (fun st => Forall (fleet_entitled (wl_server w) st)) steps opss
    /\ Forall op_ordered (concat opss) /\ wl_fleet (crun steps w) = fleet_run (concat opss) (wl_fleet w).
Proof.
  revert w. induction steps as [|st steps IH]; intros w Hen; [by exists []|].
  destruct (step_credentials csr_from_pem signed_by from_timestamp json_parse json_pretty shape_error openapi_document
    encode_metrics unrouted st w Hen) as [Hcred _].
  destruct (step_fleet st w Hen) as (ops & Hk & Ho & Hf).
  destruct (IH (exec st w)) as (opss & Hks & Hos & Hfs); [by rewrite Hcred|].
  apply (Forall2_impl _ (fun st' => Forall (fleet_entitled (wl_server w) st'))) in Hks;
    [|intros st' ops' Hops; eapply Forall_impl; [exact Hops|]; intros op Hop; by apply (gates_entitled _ (wl_server (exec st w))), Hop; apply step_gates].
  exists (ops :: opss). split_and!; [by constructor|by apply Forall_app|].
  change (crun (st :: steps) w) with (crun steps (exec st w)). cbn [concat]. rewrite Hfs, Hf. unfold fleet_run. by rewrite foldl_app.
Qed.

(** C19. The registry over runs. With authentication on and from tables in which every
    label has its agent, any run of the control plane, with requests, messages,
    heartbeats and tasks in any order, leaves the tables so, and as a roster they
    changed by a sequence of statements, in the order of the steps, each of which says
    what its step brought. Agents are entered and refreshed by heartbeats, by messages
    from the broker or from an identity that is vouched for, and by enrollments that
    present the bootstrap token, none of which touches the labels an agent has; labels
    are replaced, by those of the request, and agents deleted, with their labels, only
    by requests that hold the admin role. *)
Theorem control_keeps_roster (steps : list ControlStep) w :
  auth_enabled (sv_credentials (wl_server w)) -> fleet_wf (wl_fleet w) ->
  exists opss, Forall2 (fun st => Forall (fleet_entitled (wl_server w) st)) steps opss
    /\ fleet_wf (wl_fleet (crun steps w))
    /\ roster (wl_fleet (crun steps w)) = roster_run (concat opss) (roster (wl_fleet w)).
Proof.
  intros Hen Hwf. destruct (control_fleet steps w Hen) as (opss & Hk & Ho & ->). exists opss. split; [done|].
  by apply fleet_run_roster.
Qed.

(** ** The events *)

(** A row of the events, up to its explanation. *)
Definition stored_as (f : Fleet) (k : Uuid * DateTime) (e : Event) (t : DateTime) : Prop :=
  exists m, fl_events f !! k = Some (m, t) /\ msg_event m = e.

(** A statement keeps every row, and a new row is its message. *)
Lemma fleet_exec_events op f k e t :
  stored_as (fleet_exec op f) k e t
  <-> stored_as f k e t
      \/ (fl_events f !! k = None /\ exists m, op = FoMessage t m /\ k = event_key m /\ e = msg_event m).
Proof.
  assert (forall f', fl_events f' = fl_events f -> (forall t' m, op <> FoMessage t' m) ->
    stored_as f' k e t <-> stored_as f k e t \/ (fl_events f !! k = None
      /\ exists m, op = FoMessage t m /\ k = event_key m /\ e = msg_event m)) as Hother.
  { intros f' Hf Hop. unfold stored_as. rewrite Hf. split; [by left|]. intros [?|(_ & m & Hm & _)]; [done|by destruct (Hop t m)]. }
  destruct op as [now m|id at_ x|now id host|now id host na|now hb|id labels|id]; cbn [fleet_exec]; try by apply Hother.
  - clear Hother. unfold stored_as, insert_message. fold (event_key m). destruct (fl_events f !! event_key m) as [r|] eqn:Hm.
    + split; [by left|]. intros [?|(Hk & m' & [= -> ->] & -> & _)]; [done|congruence].
    + cbn [fl_events]. destruct (decide (k = event_key m)) as [->|Hne].
      * rewrite lookup_insert_eq, Hm. split; [intros (m' & [= -> ->] & <-); right; split; [done|by exists m']|].
        intros [(m' & Hc & _)|(_ & m' & [= <- ->] & _ & ->)]; [done|by exists m'].
      * rewrite lookup_insert_ne by done. split; [by left|]. intros [?|(_ & m' & [= _ ->] & -> & _)]; done.
  - clear Hother. unfold stored_as, update_explanation. cbn [fl_events]. destruct (decide (k = (id, at_))) as [->|Hne].
    + rewrite lookup_alter_eq. destruct (fl_events f !! (id, at_)) as [[m0 t0]|]; cbn.
      * split; [intros (m & [= <- <-] & <-); left; by exists m0|].
        intros [(m & [= <- <-] & <-)|(Hc & _)]; [by eexists|done].
      * split; [by intros (m & Hc & _)|]. intros [(m & Hc & _)|(_ & m & Hc & _)]; done.
    + rewrite lookup_alter_ne by done. split; [by left|]. intros [?|(_ & m & Hc & _)]; done.
  - apply Hother; [|done]. unfold replace_labels. by repeat case_match.
Qed.
Lemma fleet_run_events ops f k e t :
  stored_as (fleet_run ops f) k e t ->
  stored_as f k e t \/ (fl_events f !! k = None /\ exists m, FoMessage t m ∈ ops /\ k = event_key m /\ e = msg_event m).
Proof.
  revert f. induction ops as [|op ops IH]; intros f; [by left|]. intros [Hs|(Hk & m & Hin & Hkm & He)]%IH.
  - apply fleet_exec_events in Hs as [Hs|(Hk & m & -> & Hkm & He)]; [by left|right]. split; [done|]. exists m. split; [by left|done].
  - right. split; [|exists m; split; [by right|done]]. destruct (fl_events f !! k) as [[m0 t0]|] eqn:Hf; [|done].
    assert (stored_as (fleet_exec op f) k (msg_event m0) t0) as (m1 & Hm1 & _) by (apply fleet_exec_events; left; by exists m0).
    congruence.
Qed.
Lemma fleet_run_keeps ops f k e t : stored_as f k e t -> stored_as (fleet_run ops f) k e t.
Proof. revert f. induction ops as [|op ops IH]; intros f Hs; [done|]. apply IH, fleet_exec_events. by left. Qed.

(** Rows are kept by every step, and a message whose insertion succeeds is in the table
    from then on. *)
Lemma step_keeps st w k e t :
  auth_enabled (sv_credentials (wl_server w)) -> stored_as (wl_fleet w) k e t -> stored_as (wl_fleet (exec st w)) k e t.
Proof. intros Hen Hs. destruct (step_fleet st w Hen) as (ops & _ & _ & ->). by apply fleet_run_keeps. Qed.
Lemma run_keeps steps w k e t :
  auth_enabled (sv_credentials (wl_server w)) -> stored_as (wl_fleet w) k e t -> stored_as (wl_fleet (crun steps w)) k e t.
Proof. intros Hen Hs. destruct (control_fleet steps w Hen) as (opss & _ & _ & ->). by apply fleet_run_keeps. Qed.
Lemma message_stored j m w :
  ii_insert_ok j = true -> exists e t, stored_as (wl_fleet (exec (NatsMessage j (Some m)) w)) (event_key m) e t.
Proof.
  intros Hok. assert (exists e t, stored_as (insert_message (ii_now j) m (wl_fleet w)) (event_key m) e t) as (e & t & Hs).
  { unfold stored_as, insert_message. fold (event_key m). destruct (fl_events (wl_fleet w) !! event_key m) as [[m0 t0]|] eqn:Hm; cbn.
    - by exists (msg_event m0), t0, m0.
    - exists (msg_event m), (ii_now j), m. by rewrite lookup_insert_eq. }
  exists e, t. destruct Hs as (m0 & Hm0 & He). exists m0. split; [|done]. cbn [control_exec]. unfold on_nats_message. cbn.
  unfold persist_message. rewrite Hok. cbn. unfold maybe_explain. destruct (ii_touch_ok j), (wants_explanation _ _); exact Hm0.
Qed.
Lemma run_stores steps j m w :
  auth_enabled (sv_credentials (wl_server w)) -> NatsMessage j (Some m) ∈ steps -> ii_insert_ok j = true ->
  exists e t, stored_as (wl_fleet (crun steps w)) (event_key m) e t.
Proof.
  revert w. induction steps as [|st steps IH]; intros w Hen Hin Hok; [by apply elem_of_nil in Hin|].
  change (crun (st :: steps) w) with (crun steps (exec st w)).
  destruct (step_credentials csr_from_pem signed_by from_timestamp json_parse json_pretty shape_error openapi_document
    encode_metrics unrouted st w Hen) as [Hcred _].
  apply elem_of_cons in Hin as [<-|Hin]; [|apply IH; [by rewrite Hcred|done..]].
  destruct (message_stored j m w Hok) as (e & t & Hs). exists e, t. apply run_keeps; [by rewrite Hcred|done].
Qed.
Lemma run_received steps w k e t :
  auth_enabled (sv_credentials (wl_server w)) -> stored_as (wl_fleet (crun steps w)) k e t ->
  stored_as (wl_fleet w) k e t
  \/ (fl_events (wl_fleet w) !! k = None
      /\ exists st m, st ∈ steps /\ brought (wl_server w) st m /\ k = event_key m /\ e = msg_event m).
Proof.
  intros Hen Hs. destruct (control_fleet steps w Hen) as (opss & Hk & _ & Hrun). rewrite Hrun in Hs.
  apply fleet_run_events in Hs as [Hs|(Hno & m & Hin & Hkm & He)]; [by left|right]. split; [done|].
  assert (exists st, st ∈ steps /\ brought (wl_server w) st m) as (st & Hst & Hc); [|by exists st, m].
  clear -Hk Hin. revert Hin. induction Hk as [|st ops steps opss Hop Hk IH]; cbn; [by intros ?%elem_of_nil|].
  intros [Hin|Hin]%elem_of_app; [|destruct (IH Hin) as (st' & ? & ?); exists st'; split; [by right|done]].
  rewrite Forall_forall in Hop. destruct (Hop _ Hin) as (m' & Hc & <-). exists st. split; [by left|done].
Qed.

(** ** What the endpoints show *)

Context `{CL : CollationLaws}.

(** The database's answers to the queries of a request, on the tables [f]; the agent's
    own labels are asked for one agent. *)
Record answered (f : Fleet) i : Prop := {
  an_read : ai_read_ok i = true;
  an_agents : agents_answer f (ai_agent_rows i);
  an_labels : labels_answer f (ai_label_rows i);
  an_categories : categories_answer f (ai_category_rows i);
  an_severities : severities_answer f (in_now (ai_inputs i)) (ai_severity_rows i);
  an_events : forall limit, events_answer f limit (ai_event_rows i limit);
}.

(** Every table has such answers: those of the evaluator. *)
Definition reading (f : Fleet) (id : Uuid) i : ApiInputs := {|
  ai_inputs := ai_inputs i; ai_ingest := ai_ingest i; ai_instant := ai_instant i; ai_review := ai_review i;
  ai_ping := ai_ping i; ai_nats_connected := ai_nats_connected i; ai_write_ok := ai_write_ok i; ai_read_ok := true;
  ai_agent_rows := query_agents f; ai_label_rows := query_labels f; ai_agent_labels := label_rows_of id f;
  ai_category_rows := query_categories f; ai_severity_rows := query_severities f (in_now (ai_inputs i));
  ai_event_rows := query_events f; ai_settings_read := ai_settings_read i; ai_settings_write := ai_settings_write i |}.
Lemma reading_answered f id i : answered f (reading f id i) /\ agent_labels_answer f id (ai_agent_labels (reading f id i)).
Proof.
  split; [|by unfold agent_labels_answer]. split; cbn; [done| | | | |].
  - apply query_agents_answer.
  - apply query_labels_answer.
  - apply query_categories_answer.
  - apply query_severities_answer.
  - intros limit. apply query_events_answer.
Qed.

Definition tally (n : Z * Z * Z) (a : Agent) : Z * Z * Z :=
  let '(online, stale, offline) := n in
  if String.eqb (a_status a) "online" then (online + 1, stale, offline)%Z
  else if String.eqb (a_status a) "stale" then (online, stale + 1, offline)%Z
  else (online, stale, offline + 1)%Z.
Lemma tally_total (l : list Agent) n : (let s m := m.1.1 + m.1.2 + m.2 in s (foldl tally n l) = s n + Z.of_nat (length l))%Z.
Proof.
  revert n. induction l as [|a l IH]; intros [[x y] z]; cbn [foldl length]; [cbn; lia|]. rewrite IH. cbn [tally].
  destruct (String.eqb (a_status a) "online"), (String.eqb (a_status a) "stale"); cbn [fst snd]; lia.
Qed.
Lemma count_status_total (l : list Agent) :
  ((count_status l).1.1 + (count_status l).1.2 + (count_status l).2 = Z.of_nat (length l))%Z.
Proof. exact (tally_total l (0, 0, 0)%Z). Qed.

Lemma listing_size f now rows label_rows :
  agents_answer f rows -> labels_answer f label_rows ->
  length (list_agents now rows label_rows) = size (roster f).
Proof.
  intros Hrows Hl. rewrite (list_agents_map f) by done. rewrite length_map. destruct Hrows as [Hp _]. rewrite Hp, length_map_to_list.
  rewrite <-!(size_dom (D := gset Uuid)). f_equal. apply set_eq. intros id. by rewrite !elem_of_dom, roster_lookup, fmap_is_Some.
Qed.

(** C21. The views of the registry agree. When the database answers the queries of a
    request from tables in which every label has its agent: the listing shows every
    agent of the roster once, by host, with its labels; an agent asked for alone is
    shown as in the listing, and not found exactly when it is not in it; the categories
    are the label keys in increasing order, each once, with for every value the number
    of listed agents that carry it; and the gauge of the metrics counts every agent
    once. *)
Theorem registry_views_agree i w id :
  fleet_wf (wl_fleet w) -> answered (wl_fleet w) i -> agent_labels_answer (wl_fleet w) id (ai_agent_labels i) ->
  exists l dims,
    api_list_agents i = AgentsReply l /\ api_list_categories i = CategoriesReply dims
    /\ (forall a, a ∈ l <-> on_roster (wl_fleet w) (in_now (ai_inputs i)) a)
    /\ NoDup (map a_agent_id l) /\ StronglySorted (fun a b => collate (a_host a) (a_host b) = true) l
    /\ (forall a, api_get_agent i id w = AgentReply a <-> a ∈ l /\ a_agent_id a = id)
    /\ (api_get_agent i id w = Text 404 "agent not found" <-> id ∉ map a_agent_id l)
    /\ StronglySorted key_lt (map cd_key dims)
    /\ (forall k v n, (exists d, d ∈ dims /\ cd_key d = k /\ (v, n) ∈ cd_values d)
          <-> n = Z.of_nat (length (List.filter (has_label k v) l)) /\ (0 < n)%Z)
    /\ exists online stale offline, wl_gauge (metrics encode_metrics i w).2 = Some (online, stale, offline)
         /\ (online + stale + offline = Z.of_nat (size (roster (wl_fleet w))))%Z.
Proof.
  intros Hwf [Hread Hag Hlab Hcat _ _] Hown. set (now := in_now (ai_inputs i)).
  exists (list_agents now (ai_agent_rows i) (ai_label_rows i)), (list_categories (ai_category_rows i)).
  destruct (list_agents_roster _ now _ _ Hag Hlab) as (Helem & Hnd & Hsort).
  destruct (categories_roster _ now _ _ _ Hwf Hag Hlab Hcat) as [Hkeys Hcounts].
  pose proof (get_agent_roster _ now id _ Hown) as Hget.
  unfold api_list_agents, api_list_categories, api_get_agent, metrics, db_list_agents. rewrite Hread. fold now. rewrite Hget.
  split_and!; [done|done|exact Helem|exact Hnd|exact Hsort| | |exact Hkeys|exact Hcounts|].
  - intros a. rewrite Helem. unfold on_roster. split.
    + intros Ha. destruct (roster (wl_fleet w) !! id) as [[row labels]|] eqn:Hr; [|done]. injection Ha as <-. cbn. eauto.
    + intros ((row & labels & Hr & Ha) & <-). rewrite Hr. cbn. by rewrite <-Ha.
  - rewrite list_elem_of_fmap. setoid_rewrite Helem. unfold on_roster. split.
    + intros Hno (a & -> & row & labels & Hr & _). by rewrite Hr in Hno.
    + intros Hno. destruct (roster (wl_fleet w) !! id) as [[row labels]|] eqn:Hr; [|done]. destruct Hno.
      exists (agent_of now id row labels). split; [done|]. by exists row, labels.
  - cbn. destruct (count_status (list_agents now (ai_agent_rows i) (ai_label_rows i))) as [[x y] z] eqn:Hc. exists x, y, z.
    split; [done|]. pose proof (count_status_total (list_agents now (ai_agent_rows i) (ai_label_rows i))) as Ht.
    rewrite Hc, (listing_size (wl_fleet w)) in Ht by done. exact Ht.
Qed.


End Reads.

(** ** A concrete registry *)

Lemma approval_enabled : auth_enabled (sv_credentials (wl_server (example_world (example_state [] true)))).
Proof. left. by exists "root"%string. Qed.

(** The fault's agent is entered by its message; the run needs no administrator for it. *)
Lemma control_keeps_roster_witness :
  exists opss, Forall2 (fun st => Forall (fleet_entitled (wl_server (example_world (example_state [] true))) st)) approval_steps opss
    /\ fleet_wf (wl_fleet approval_run)
    /\ roster (wl_fleet approval_run) = roster_run (concat opss) (roster (mkFleet ∅ ∅ ∅))
    /\ size (roster (wl_fleet approval_run)) = 1.
Proof.
  destruct (control_keeps_roster (fun _ => None) (fun _ _ => None) (fun _ => None) secret_parse (fun _ => "{...}"%string)
    (fun _ => "invalid type"%string) JNull (fun _ => EmptyString) (fun _ => (404%N, EmptyString))) with
    (steps := approval_steps) (w := example_world (example_state [] true)) as (opss & Hent & Hwf & Hr).
  - intros body labels Hl. injection Hl as <-. exact I.
  - exact approval_enabled.
  - intros id k v Hl. discriminate Hl.
  - exists opss. split_and!; [exact Hent|exact Hwf|exact Hr|]. vm_compute. reflexivity.
Defined.

(** Two agents with labels, one of them with a fault. *)
Definition registry : Fleet :=
  fleet_run [FoMessage 2 (message_new example_event); FoTouch 2 9 "node-b"; FoTouch 2 4 "node-a";
             FoLabels 9 [("env", "prod")]; FoLabels 4 [("env", "prod"); ("rack", "r1")]] (mkFleet ∅ ∅ ∅).
Definition registry_world : World := with_fleet registry (example_world (example_state [] true)).
Definition registry_inputs : ApiInputs := reading registry 9 (example_api 2).
Lemma registry_wf : fleet_wf registry.
Proof.
  apply fleet_run_roster; [by intros id k v Hl|]. repeat constructor; cbn; by repeat constructor.
Qed.

Lemma registry_views_agree_witness :
  exists l dims, api_list_agents registry_inputs = AgentsReply l /\ api_list_categories registry_inputs = CategoriesReply dims
    /\ (forall a, api_get_agent registry_inputs 9 registry_world = AgentReply a <-> a ∈ l /\ a_agent_id a = 9%N)
    /\ map a_host l = ["node-a"; "node-b"]%string
    /\ map (fun d => (cd_key d, cd_values d)) dims = [("env", [("prod", 2%Z)]); ("rack", [("r1", 1%Z)])]%string.
Proof.
  destruct (reading_answered registry 9 (example_api 2)) as [Han Hown].
  destruct (registry_views_agree (fun _ => EmptyString) registry_inputs registry_world 9 registry_wf Han Hown)
    as (l & dims & Hl & Hd & _ & _ & _ & Hget & _).
  exists l, dims. split_and!; [exact Hl|exact Hd|exact Hget| |].
  - assert (match api_list_agents registry_inputs with AgentsReply l => map a_host l | _ => [] end
      = ["node-a"; "node-b"]%string) as Hc by (vm_compute; reflexivity). rewrite Hl in Hc. exact Hc.
  - assert (match api_list_categories registry_inputs with
            | CategoriesReply dims => map (fun d => (cd_key d, cd_values d)) dims | _ => [] end
      = [("env", [("prod", 2%Z)]); ("rack", [("r1", 1%Z)])]%string) as Hc by (vm_compute; reflexivity).
    rewrite Hd in Hc. exact Hc.
Defined.


