(* ===== verification/Lifecycle.v ===== *)
(** * The life of a remediation: the control plane against an abstract machine

  A remediation is a case that waits, is issued, is closed by a result, or is
  declined.  The specification is a small machine over the list of cases, with a
  label for what happens and no requests, tables, caches, clocks or failures.  The
  theorems: every run of the control plane ([ControlPlane]) refines it, step by step,
  with a label only where someone is entitled to it; and so every case of a run has a
  history, in which its opening, its approval and its result come in this order and
  from those who may. *)

From S2P Require Export ControlPlane.

(** ** The specification *)

(** Where a remediation is: a declined one may have been issued before, and reported
    on before or after. *)
Inductive Phase :=
  | Waiting
  | Issued (command : Uuid) (approval : ApprovalRef)
  | Closed (command : Uuid) (approval : ApprovalRef) (status : ActionStatus)
  | Declined (command : option Uuid) (status : option ActionStatus).
Record Case := mkCase { ca_proposal : RemediationProposal; ca_phase : Phase }.

Definition case_key (c : Case) : Uuid * DateTime := (rp_id (ca_proposal c), rp_created_at (ca_proposal c)).
Definition command_of (p : Phase) : option Uuid :=
  match p with Waiting => None | Issued c _ | Closed c _ _ => Some c | Declined c _ => c end.
Definition status_of (p : Phase) : option ActionStatus :=
  match p with Closed _ _ st => Some st | Declined _ st => st | _ => None end.

(** What can happen to the cases. *)
Inductive Act :=
  | ActOpen (c : Case)
  | ActApprove (id : Uuid) (approval : ApprovalRef) (command : Uuid)
  | ActDecline (id : Uuid)
  | ActReport (command : Uuid) (status : ActionStatus).

Definition phase_after (a : Act) (id : Uuid) (p : Phase) : Phase :=
  match a, p with
  | ActApprove id' b c, Waiting => if N.eqb id id' then Issued c b else p
  | ActDecline id', _ => if N.eqb id id' then Declined (command_of p) (status_of p) else p
  | ActReport c st, Issued c' b | ActReport c st, Closed c' b _ => if N.eqb c' c then Closed c' b st else p
  | ActReport c st, Declined (Some c') _ => if N.eqb c' c then Declined (Some c') (Some st) else p
  | _, _ => p
  end.
Definition react (a : Act) (c : Case) : Case :=
  mkCase (ca_proposal c) (phase_after a (rp_id (ca_proposal c)) (ca_phase c)).

Section Lifecycle.
Context `{SerdeJson}.

(** A case is opened under a new key, when no case waits for the same remedy on the
    same agent; everything else happens to the cases there are. *)
Inductive life_step : Act -> list Case -> list Case -> Prop :=
  | life_open c l :
      case_key c ∉ map case_key l ->
      (forall c', c' ∈ l -> ca_phase c' = Waiting -> from_proposal (ca_proposal c') <> from_proposal (ca_proposal c)) ->
      life_step (ActOpen c) l (l ++ [c])
  | life_react a l : (forall c, a <> ActOpen c) -> life_step a l (map (react a) l).
(** Steps in which nothing happens to the cases have no label. *)
Inductive life_run : list (option Act) -> list Case -> list Case -> Prop :=
  | life_nil l : life_run [] l l
  | life_stutter acts l l' : life_run acts l l' -> life_run (None :: acts) l l'
  | life_act a acts l l1 l' : life_step a l l1 -> life_run acts l1 l' -> life_run (Some a :: acts) l l'.

(** ** The table as cases *)

Definition row_phase (r : RemediationRow) : Phase :=
  match rw_decision r, rw_result r with
  | Pending, _ => Waiting
  | Approved b, None => Issued (default 0%N (rw_command_id r)) b
  | Approved b, Some res => Closed (default 0%N (rw_command_id r)) b (ar_status res)
  | Rejected _ _ _, res => Declined (rw_command_id r) (ar_status <$> res)
  end.
Definition row_case (r : RemediationRow) : Case := mkCase (rw_proposal r) (row_phase r).
Definition cases (s : RemediationStore) : list Case := map row_case (st_table s).

Lemma row_command r : row_wf r -> command_of (row_phase r) = rw_command_id r.
Proof.
  intros [_ Hp Ha _]. unfold row_phase. destruct (rw_decision r) as [|b|] eqn:Hd; [by rewrite Hp|destruct (Ha b eq_refl) as [c ->]|].
  - by destruct (rw_result r).
  - by destruct (rw_result r).
Qed.
Lemma row_waiting r : row_wf r -> ca_phase (row_case r) = Waiting <-> is_pending r = true.
Proof.
  intros Hr. rewrite pending_tag by done. cbn. unfold row_phase. destruct (rw_decision r), (rw_result r); done.
Qed.

Definition op_act (op : StoreOp) : Act :=
  match op with
  | OpInsert _ p _ _ => ActOpen (mkCase p Waiting)
  | OpInsertAuto _ p c _ _ _ => ActOpen (mkCase p (Issued c PolicyAuto))
  | OpApprove _ _ id b c _ _ => ActApprove id b c
  | OpReject _ _ id _ _ _ => ActDecline id
  | OpResult _ res _ => ActReport (ar_command_id res) (ar_status res)
  end.
Definition refines_step (a : Act) (l l' : list Case) : Prop := l' = l \/ life_step a l l'.

Lemma update_react (a : Act) (p : RemediationRow -> bool) (f : RemediationRow -> RemediationRow) (t : Table) :
  (forall c, a <> ActOpen c) -> Forall row_wf t ->
  (forall r, row_wf r -> react a (row_case r) = row_case (if p r then f r else r)) ->
  life_step a (map row_case t) (map row_case (update_where p f t).1).
Proof.
  intros Ha Hwf Hf. assert (map row_case (update_where p f t).1 = map (react a) (map row_case t)) as ->; [|by constructor].
  cbn. rewrite !map_map. apply map_ext_in. intros r Hr%list_elem_of_In. rewrite Forall_forall in Hwf. by rewrite Hf by auto.
Qed.

Lemma insert_row_refines row s c :
  store_wf s -> row_case row = c -> from_proposal (rw_proposal row) ∉ st_pending_keys s ->
  refines_step (ActOpen c) (cases s) (map row_case (insert_row row (st_table s))).
Proof.
  intros [Hrows _ _ Hc] <- Hnew. unfold refines_step, cases. destruct (insert_row_cases row (st_table s)) as [->|[-> Hk]]; [by left|].
  right. rewrite map_app. constructor.
  - by rewrite map_map.
  - intros c' (r & -> & Hr)%list_elem_of_fmap Hp Heq. rewrite Forall_forall in Hrows. apply row_waiting in Hp; [|auto].
    apply Hnew. cbn in Heq. rewrite <-Heq. apply Hc, pending_keys_elem. eauto.
Qed.

(** The store refines the specification, one operation to at most one step. *)
Lemma store_refines op s :
  store_wf s -> refines_step (op_act op) (cases s) (cases (store_exec op s)).
Proof.
  intros Hwf. pose proof (swf_rows _ Hwf) as Hrows. destruct op; cbn [store_exec op_act].
  - unfold store_insert, dedup_hit. case_bool_decide as Hd; [by left|]. unfold insert_commit, insert_remediation.
    destruct ok; [|by left]. by apply insert_row_refines.
  - unfold store_insert_auto_approved, dedup_hit, insert_auto_approved_remediation. case_bool_decide as Hd; [by left|].
    destruct ok; [|by left]. by apply insert_row_refines.
  - unfold store_approve, approve_remediation. destruct ok2; [|by left]. right. apply update_react; [done..|].
    intros r Hr. unfold react, has_id. cbn. destruct (N.eqb _ id) eqn:Hid; cbn.
    + destruct (is_pending r) eqn:Hp.
      * pose proof (proj1 (pending_tag r Hr) Hp) as Hd. unfold row_case, row_phase. rewrite Hd. cbn.
        destruct (rw_result r) as [res|] eqn:Hres; [|done].
        apply (rwf_result _ Hr) in Hres. by rewrite (rwf_pending _ Hr Hd) in Hres.
      * unfold row_case. f_equal. destruct (row_phase r) eqn:Hph; [|done..].
        assert (ca_phase (row_case r) = Waiting) as Hw by exact Hph. apply row_waiting in Hw; congruence.
    + unfold row_case. f_equal. by destruct (row_phase r).
  - unfold store_reject, reject_remediation. destruct ok2; [|by left]. right. apply update_react; [done..|].
    intros r Hr. unfold react, has_id. cbn. destruct (N.eqb _ id) eqn:Hid; [|done]. unfold row_case. cbn. f_equal.
    rewrite (row_command r Hr). unfold row_phase. cbn. f_equal. destruct (rw_decision r) eqn:Hd, (rw_result r) eqn:Hres; try done.
    apply (rwf_result _ Hr) in Hres. by rewrite (rwf_pending _ Hr Hd) in Hres.
  - unfold store_record_result, record_remediation_result. destruct ok; [|by left]. right. apply update_react; [done..|].
    intros r Hr. unfold react, has_command. cbn. pose proof (row_command r Hr) as Hc. case_bool_decide as Hcmd; unfold row_case; f_equal.
    + rewrite Hcmd in Hc. destruct (row_phase r) as [|c b|c b st|[c|] st] eqn:Hph; cbn in Hc; try done; injection Hc as ->;
        rewrite N.eqb_refl; revert Hph; unfold row_phase; cbn; rewrite Hcmd; destruct (rw_decision r), (rw_result r); cbn; intros; by simplify_eq.
    + destruct (row_phase r) as [|c b|c b st|[c|] st]; cbn in Hc; try done; (destruct (N.eqb_spec c (ar_command_id res)) as [->|]; congruence).
Qed.
End Lifecycle.

(** ** The handlers *)

(** What permits a remediation that no one approved. *)
Definition permitted (e : PolicyEngine) (p : RemediationProposal) : Prop :=
  pe_auto_enabled e = true /\ policy_decide (pe_policy e) (rp_host p) (rp_risk_tier p) = Auto
  /\ rp_risk_tier p <> Dangerous.
Definition opens (e : PolicyEngine) (c : Case) : Prop :=
  ca_phase c = Waiting \/ exists cmd, ca_phase c = Issued cmd PolicyAuto /\ permitted e (ca_proposal c).

Section Handlers.
Context `{SerdeValue} `{Base64} `{Ed25519} `{SerdeJson} `{Rfc3339}.

(** The label of a handler's step. *)
Definition handler_act (op : ServerOp) (s : AppState) (a : Act) : Prop :=
  match op with
  | DoPrepare _ _ => exists c, a = ActOpen c /\ opens (as_policy s) c
  | DoPull _ => False
  | DoApprove i id role => exists c, a = ActApprove id (Human (role_user role) (in_now i)) c
  | DoReject _ id _ => a = ActDecline id
  | DoResult _ res => a = ActReport (ar_command_id res) (ar_status res)
  end.

Lemma prepare_store i event s :
  as_store (prepare_inner i event s) = as_store s
  \/ exists op, as_store (prepare_inner i event s) = store_exec op (as_store s)
       /\ handler_act (DoPrepare i event) s (op_act op).
Proof.
  unfold prepare_inner. destruct (match_event (as_templates s) event) as [t|]; [|by left].
  destruct (resolve_params t event) as [params|]; [|by left].
  set (p := match recall _ _ _ with Some _ => _ | None => _ end).
  assert (rp_host p = ev_host event /\ rp_risk_tier p = tpl_risk_tier t) as [Hh Ht] by (unfold p; by destruct (recall _ _ _)).
  pose proof (evaluate_auto_inv (as_policy s) (ev_host event) (tpl_risk_tier t) (tpl_id t) (in_now i)) as Hauto.
  destruct (evaluate (as_policy s) _ _ _ _) as [res policy]. cbn [fst] in Hauto.
  set (s0 := if er_breaker_tripped res then _ else _).
  assert (as_store s0 = as_store s) as Hs0 by (unfold s0; by destruct (er_breaker_tripped res)). clearbody s0.
  destruct (er_decision res); [| |by left].
  - unfold auto_execute. cbn [as_store bump as_signer as_ttl_secs].
    destruct (build_command _ _ _ _ _ _ _ _) as [env|]; [right|by left]. rewrite Hs0.
    exists (OpInsertAuto (in_db_ok i) p (ce_command_id env) (ce_sig env) (fault_signature event) (in_now i)). cbn [store_exec op_act].
    destruct (store_insert_auto_approved _ _ _ _ _ _ _) as [[id|] st]; (split; [done|]); eexists; (split; [done|]); right;
      exists (ce_command_id env); (split; [done|]); destruct (Hauto eq_refl) as (? & ? & ?); unfold permitted; cbn; by rewrite Hh, Ht.
  - right. cbn [as_store bump]. rewrite Hs0. exists (OpInsert (in_db_ok i) p (fault_signature event) (in_now i)).
    cbn [store_exec op_act]. destruct (store_insert _ _ _ _ _). split; [done|]. eexists. split; [done|]. by left.
Qed.

(** Every handler makes at most one operation on the store. *)
Lemma handler_store op s :
  as_store (server_exec op s) = as_store s
  \/ exists sop, as_store (server_exec op s) = store_exec sop (as_store s) /\ handler_act op s (op_act sop).
Proof.
  destruct op as [i event|agent|i id role|i id role|i res]; cbn [server_exec].
  - apply prepare_store.
  - left. unfold get_commands. by destruct (take_for agent (as_queue s)).
  - unfold api_approve_remediation. destruct (store_pending_proposal _ _ _) as [p|]; [|by left].
    destruct (registry_get _ _) as [t|]; [|by left]. destruct (build_command _ _ _ _ _ _ _ _) as [e|]; [right|by left].
    exists (OpApprove (in_read_ok i) (in_db_ok i) id (Human (role_user role) (in_now i)) (ce_command_id e) (ce_sig e) (in_now i)).
    cbn [store_exec op_act as_store set_queue]. destruct (store_approve _ _ _ _ _ _ _ _). cbn. eauto.
  - unfold api_reject_remediation. right. exists (OpReject (in_read_ok i) (in_db_ok i) id (role_user role) None (in_now i)).
    cbn [store_exec]. by destruct (store_reject _ _ _ _ _ _ _).
  - unfold post_command_result. right. exists (OpResult (in_db_ok i) res (in_now i)). cbn [store_exec as_store bump].
    destruct (store_record_result _ _ _ _) as [[[r sig]|] st]; cbn; [|done]. by destruct (_ && _).
Qed.
End Handlers.

(** ** The control plane *)

Section Control.
Context `{SerdeValue} `{Base64} `{Ed25519} `{SerdeJson} `{Rfc3339} `{Jwt} `{Rcgen} `{UuidText} `{HL : HttpLaws}
  `{!EqDecision Method} `{!Extractors}.
Variable csr_from_pem : string -> option CertParams.
Variable signed_by : CertParams -> IssuerKey -> option string.
Variable from_timestamp : Z -> option DateTime.
Variable json_parse : string -> result string Json.
Variable json_pretty : Json -> string.
Variable shape_error : Json -> string.
Variable openapi_document : Json.
Variable encode_metrics : World -> string.
Variable unrouted : HttpRequest -> N * string.
#[local] Abbreviation exec := (control_exec csr_from_pem signed_by from_timestamp json_parse json_pretty shape_error
  openapi_document encode_metrics unrouted).
#[local] Abbreviation crun := (control_run csr_from_pem signed_by from_timestamp json_parse json_pretty shape_error
  openapi_document encode_metrics unrouted).
#[local] Abbreviation served := (serve csr_from_pem signed_by from_timestamp json_parse json_pretty shape_error
  openapi_document encode_metrics unrouted).
#[local] Abbreviation run_h := (run_handler csr_from_pem signed_by from_timestamp json_parse json_pretty shape_error
  openapi_document encode_metrics).
Implicit Types (w : World) (i : ApiInputs) (h : RouteHandler).

Definition world_cases w : list Case := cases (as_store (wl_app w)).

(** What an administrator's request may do to the store. *)
Definition request_act (body : Body) (role : option Role) (a : Act) : Prop :=
  match a with
  | ActOpen _ => False
  | ActApprove _ b _ => exists at_, b = Human (role_user role) at_
  | ActDecline _ => True
  | ActReport c st => exists res, json_action_result body = Ok res /\ ar_command_id res = c /\ ar_status res = st
  end.

Lemma on_app_store op role body w f :
  (forall s, (f s).2 = server_exec op s) ->
  (forall a, handler_act op (wl_app w) a -> request_act body role a) ->
  let w' := (on_app f w).2 in
  as_store (wl_app w') = as_store (wl_app w)
  \/ exists sop, as_store (wl_app w') = store_exec sop (as_store (wl_app w)) /\ request_act body role (op_act sop).
Proof.
  intros Hf Ha. cbv zeta. unfold on_app. pose proof (Hf (wl_app w)) as Hs. destruct (f (wl_app w)) as [r s]. cbn in *. subst s.
  destruct (handler_store op (wl_app w)) as [?|(sop & ? & ?)]; [by left|right]. exists sop. auto.
Qed.

(** Only the three handlers for administrators touch the store. *)
Lemma http_store h i req body captured role w :
  let w' := (run_h h i req body captured role w).2 in
  as_store (wl_app w') = as_store (wl_app w)
  \/ changes_fleet h = true
     /\ exists sop, as_store (wl_app w') = store_exec sop (as_store (wl_app w)) /\ request_act body role (op_act sop).
Proof.
  cbv zeta. destruct (public_handler h) eqn:Hpub.
  { left. destruct (public_handler_effect csr_from_pem signed_by from_timestamp json_parse json_pretty shape_error
      openapi_document encode_metrics h i req body captured role w Hpub) as [He _]. cbv zeta in He.
    by rewrite (public_effect_app _ _ _ _ _ _ _ _ He). }
  destruct (changes_fleet h) eqn:Hmut.
  2:{ left. destruct (reading_handler_effect csr_from_pem signed_by from_timestamp json_parse json_pretty shape_error
        openapi_document encode_metrics h i req body captured role w Hmut Hpub) as [->|[a ->]]; [done|].
      cbn. unfold get_commands. by destruct (take_for _ _). }
  assert (forall P Q : Prop, P \/ Q -> P \/ true = true /\ Q) as Hor by tauto. apply Hor. clear Hor.
  destruct h; try done; cbn [run_handler]; repeat (apply extracting_cases; [by left|intros]).
  - left. unfold api_delete_agent. destruct (ai_write_ok i); [|done]. by destruct (delete_agent _ _).
  - left. unfold put_labels. destruct (ai_write_ok i); [|done]. by destruct (replace_labels _ _ _) as [[] ?].
  - eapply (on_app_store (DoResult (ai_inputs i) _) role body); [done|]. intros act ->. cbn. eauto.
  - eapply (on_app_store (DoApprove (ai_inputs i) _ role) role body); [done|]. intros act [c ->]. cbn. eauto.
  - eapply (on_app_store (DoReject (ai_inputs i) _ role) role body); [done|]. by intros act ->.
  - left. unfold api_put_settings. by destruct (put_settings _ _ _ _).
Qed.

(** Who may make which step: the preparation of an event opens cases, under the policy
    the ones that do not wait; an administrator's request does the rest. *)
Definition prepares (st : ControlStep) : Prop := match st with PrepareStep _ _ => True | _ => False end.
Definition reports (st : ControlStep) (c : Uuid) (status : ActionStatus) : Prop :=
  match st with
  | HttpStep _ _ body => exists res, json_action_result body = Ok res /\ ar_command_id res = c /\ ar_status res = status
  | _ => False
  end.
Definition entitled (cr : Credentials) (e : PolicyEngine) (st : ControlStep) (a : Act) : Prop :=
  match a with
  | ActOpen c => prepares st /\ opens e c
  | ActApprove _ b _ => admin_request cr st /\ exists at_, b = Human "admin" at_
  | ActDecline _ => admin_request cr st
  | ActReport c status => admin_request cr st /\ reports st c status
  end.

Lemma step_store st w :
  auth_enabled (sv_credentials (wl_server w)) ->
  as_store (wl_app (exec st w)) = as_store (wl_app w)
  \/ exists sop, as_store (wl_app (exec st w)) = store_exec sop (as_store (wl_app w))
       /\ entitled (sv_credentials (wl_server w)) (as_policy (wl_app w)) st (op_act sop).
Proof.
  intros Hen. pose proof (step_app csr_from_pem signed_by from_timestamp json_parse json_pretty shape_error openapi_document
    encode_metrics unrouted st w) as Happ.
  destruct st as [i req body| | | |k i]; try (left; congruence).
  - clear Happ. cbn [control_exec].
    destruct (served_by csr_from_pem signed_by from_timestamp json_parse json_pretty shape_error openapi_document
      encode_metrics unrouted i req body w Hen) as [(status & msg & ->)|(h & captured & role & -> & _ & Hrole)]; [by left|].
    destruct (http_store h i req body captured role w) as [?|(Hmut & sop & Hs & Ha)]; [by left|right].
    exists sop. split; [done|]. destruct role as [role|]; [|by destruct h].
    destruct Hrole as [Hheld Hadm]. rewrite (Hadm Hmut) in *. clear Hadm.
    destruct (op_act sop); cbn in *; by split_and?.
  - destruct Happ as [Happ|[event Happ]]; rewrite Happ; [by left|].
    destruct (prepare_store i event (wl_app w)) as [?|(sop & Hs & Ha)]; [by left|right].
    exists sop. split; [done|]. destruct Ha as (c & -> & Ho). by split.
Qed.

Definition entitled_label (cr : Credentials) (e : PolicyEngine) (st : ControlStep) (a : option Act) : Prop :=
  match a with Some a => entitled cr e st a | None => True end.

Lemma permitted_same_rules e e' c : same_rules e e' -> opens e' c -> opens e c.
Proof. unfold opens, permitted. by intros [-> ->]. Qed.
Lemma entitled_same_rules cr e e' st a : same_rules e e' -> entitled_label cr e' st a -> entitled_label cr e st a.
Proof.
  intros He. destruct a as [[c| | |]|]; try done. cbn. intros [? ?]. split; [done|]. by eapply permitted_same_rules.
Qed.

Lemma control_life (steps : list ControlStep) w :
  auth_enabled (sv_credentials (wl_server w)) -> store_wf (as_store (wl_app w)) ->
  exists acts, Forall2 (entitled_label (sv_credentials (wl_server w)) (as_policy (wl_app w))) steps acts
    /\ life_run acts (world_cases w) (world_cases (crun steps w)).
Proof.
  revert w. induction steps as [|st steps IH]; intros w Hen Hwf; [exists []; split; constructor|].
  destruct (step_credentials csr_from_pem signed_by from_timestamp json_parse json_pretty shape_error openapi_document
    encode_metrics unrouted st w Hen) as [Hcred Hrules].
  assert (exists a, entitled_label (sv_credentials (wl_server w)) (as_policy (wl_app w)) st a
    /\ store_wf (as_store (wl_app (exec st w)))
    /\ forall acts l, life_run acts (world_cases (exec st w)) l -> life_run (a :: acts) (world_cases w) l)
    as (a & Ha & Hwf' & Hrun).
  { unfold world_cases. destruct (step_store st w Hen) as [->|(sop & -> & Ha)].
    - exists None. split_and!; [done..|]. intros. by constructor.
    - destruct (store_refines sop _ Hwf) as [->|Hstep]; [exists None|exists (Some (op_act sop))];
        (split_and!; [done|by apply store_exec_wf|]); intros; [by constructor|by eapply life_act]. }
  destruct (IH (exec st w)) as (acts & Hacts & Hlife); [by rewrite Hcred|done|].
  exists (a :: acts). split; [|by apply Hrun]. constructor; [done|]. eapply Forall2_impl; [exact Hacts|].
  intros st' a' Ha'. rewrite Hcred in Ha'. by eapply entitled_same_rules.
Qed.

(** C17. The control plane refines the life of remediations: with authentication on and
    from a well-formed store, whatever requests, messages, heartbeats and tasks
    come in which order, and whatever the database answers, each step of the
    server is at most one step of the abstract machine over the cases in the audit
    table, and only one that this step is entitled to: cases are opened by preparing
    an event, issued at once only as policy permits, and approved, declined and
    reported on only by requests that hold the admin role; who that is, and the
    policy, are those of the start. *)
Theorem control_refines_lifecycle (steps : list ControlStep) w :
  auth_enabled (sv_credentials (wl_server w)) -> store_wf (as_store (wl_app w)) ->
  exists acts, Forall2 (entitled_label (sv_credentials (wl_server w)) (as_policy (wl_app w))) steps acts
    /\ life_run acts (world_cases w) (world_cases (crun steps w)).
Proof. apply control_life. Qed.

(** ** Histories *)

(** What a trace of steps must show for a case to be where it is. *)
Definition authorised (cr : Credentials) (e : PolicyEngine) (p : RemediationProposal) (b : ApprovalRef)
    (trace : list ControlStep) : Prop :=
  match b with
  | PolicyAuto => exists st, trace = [st] /\ prepares st /\ permitted e p
  | Human user _ => exists st st', trace = [st; st'] /\ prepares st /\ admin_request cr st' /\ user = "admin"%string
  end.
Definition story (cr : Credentials) (e : PolicyEngine) (c : Case) (trace : list ControlStep) : Prop :=
  match ca_phase c with
  | Waiting => exists st, trace = [st] /\ prepares st
  | Issued _ b => authorised cr e (ca_proposal c) b trace
  | Closed cmd b status =>
      exists trace' st, trace = trace' ++ [st] /\ authorised cr e (ca_proposal c) b trace'
        /\ admin_request cr st /\ reports st cmd status
  | Declined _ _ => exists st st', trace = [st; st'] /\ prepares st /\ admin_request cr st'
  end.
Definition has_story (cr : Credentials) (e : PolicyEngine) (c : Case) (past : list ControlStep) : Prop :=
  exists trace, trace `sublist_of` past /\ story cr e c trace.

Lemma story_opened cr e c trace : story cr e c trace -> exists st, [st] `sublist_of` trace /\ prepares st.
Proof.
  assert (forall b tr, authorised cr e (ca_proposal c) b tr -> exists st, [st] `sublist_of` tr /\ prepares st) as Hauth.
  { intros [|user at_] tr; cbn; [intros (st & -> & Hp & _)|intros (st & st' & -> & Hp & _)]; exists st; (split; [|done]); [done|].
    apply sublist_skip, sublist_nil_l. }
  unfold story. destruct (ca_phase c).
  - intros (st & -> & Hp). by exists st.
  - apply Hauth.
  - intros (tr & st & -> & Ha & _). destruct (Hauth _ _ Ha) as (st' & Hs & Hp). exists st'. split; [|done].
    by apply sublist_inserts_r.
  - intros (st & st' & -> & Hp & _). exists st. split; [|done]. apply sublist_skip, sublist_nil_l.
Qed.

Lemma story_later cr e c past st : has_story cr e c past -> has_story cr e c (past ++ [st]).
Proof. intros (trace & Hs & Hst). exists trace. split; [by apply sublist_inserts_r|done]. Qed.

(** What happens to a case continues its story. *)
Lemma story_react cr e c past st a :
  entitled cr e st a -> (forall c, a <> ActOpen c) -> has_story cr e c past -> has_story cr e (react a c) (past ++ [st]).
Proof.
  intros Ha Hno Hst. pose proof Hst as (trace & Hsub & Hstory).
  assert (ca_phase (react a c) = ca_phase c -> has_story cr e (react a c) (past ++ [st])) as Hsame.
  { intros Hp. assert (react a c = c) as -> by (destruct c; unfold react in *; cbn [ca_proposal ca_phase] in *; by rewrite Hp). by apply story_later. }
  destruct a as [?|id b cmd|id|cmd status]; [by destruct (Hno c0)|..]; cbn [entitled] in Ha.
  - destruct Ha as [Hadm [at_ ->]]. destruct (ca_phase c) eqn:Hp; [|by apply Hsame; cbn; rewrite Hp..].
    destruct (N.eqb (rp_id (ca_proposal c)) id) eqn:Hid; [|by apply Hsame; cbn; rewrite Hp, Hid].
    unfold story in Hstory. rewrite Hp in Hstory. destruct Hstory as (st0 & -> & Hprep).
    exists [st0; st]. split; [by apply (sublist_app [st0] past [st] [st])|].
    unfold story. cbn. rewrite Hp, Hid. cbn. eauto 10.
  - destruct (N.eqb (rp_id (ca_proposal c)) id) eqn:Hid; [|apply Hsame; cbn; rewrite Hid; by destruct (ca_phase c)].
    apply story_opened in Hstory as (st0 & Hs0 & Hprep).
    exists [st0; st]. split; [apply (sublist_app [st0] past [st] [st]); [by etrans|done]|].
    unfold story. cbn. rewrite Hid. by destruct (ca_phase c); exists st0, st.
  - destruct Ha as [Hadm Hrep].
    destruct (ca_phase c) as [|c' b|c' b old|[c'|] old] eqn:Hp; try (by apply Hsame; cbn; rewrite Hp);
      (destruct (N.eqb c' cmd) eqn:Hc; [|by apply Hsame; cbn; rewrite Hp, Hc]); apply N.eqb_eq in Hc as ->;
      unfold story in Hstory; rewrite Hp in Hstory.
    + exists (trace ++ [st]). split; [by apply sublist_app|]. unfold story. cbn. rewrite Hp, N.eqb_refl. cbn. eauto 10.
    + destruct Hstory as (trace' & st0 & -> & Hauth & _ & _). exists (trace' ++ [st]). split.
      { apply sublist_app; [|done]. etrans; [|exact Hsub]. by apply sublist_inserts_r. }
      unfold story. cbn. rewrite Hp, N.eqb_refl. cbn. eauto 10.
    + exists trace. split; [by apply sublist_inserts_r|]. unfold story. cbn. by rewrite Hp, N.eqb_refl.
Qed.

Lemma life_step_story cr e st a l l' (K : Uuid * DateTime -> Prop) past :
  entitled cr e st a -> life_step a l l' ->
  (forall c, c ∈ l -> ~ K (case_key c) -> has_story cr e c past) ->
  forall c, c ∈ l' -> ~ K (case_key c) -> has_story cr e c (past ++ [st]).
Proof.
  intros Ha Hs Hl c Hc HK. destruct Hs as [c0 l0 _ _|a0 l0 Hno].
  - apply elem_of_app in Hc as [Hc| ->%list_elem_of_singleton]; [by apply story_later, Hl|].
    destruct Ha as [Hp Ho]. exists [st]. split; [by apply sublist_inserts_l|].
    unfold story. destruct Ho as [->|(cmd & -> & Hperm)]; cbn; eauto.
  - apply list_elem_of_fmap in Hc as (c0 & -> & Hc0). apply story_react; [done..|]. by apply Hl.
Qed.

Lemma life_run_story cr e (K : Uuid * DateTime -> Prop) steps acts l l' past :
  Forall2 (entitled_label cr e) steps acts -> life_run acts l l' ->
  (forall c, c ∈ l -> ~ K (case_key c) -> has_story cr e c past) ->
  forall c, c ∈ l' -> ~ K (case_key c) -> has_story cr e c (past ++ steps).
Proof.
  intros Hent Hrun. revert steps past Hent.
  induction Hrun as [l|acts l l' Hrun IH|a acts l l1 l' Hstep Hrun IH]; intros steps past Hent Hl.
  - apply Forall2_nil_inv_r in Hent as ->. by rewrite app_nil_r.
  - apply Forall2_cons_inv_r in Hent as (st & steps' & _ & Hent & ->). rewrite (cons_middle st past steps'), app_assoc.
    apply IH; [done|]. intros c Hc HK. by apply story_later, Hl.
  - apply Forall2_cons_inv_r in Hent as (st & steps' & Ha & Hent & ->). rewrite (cons_middle st past steps'), app_assoc.
    apply IH; [done|]. by eapply life_step_story.
Qed.

(** C18. Every remediation has a history. Over any run of the control plane with
    authentication on, a case of the audit table that was not there at the start was
    opened by preparing an event; if it was issued, the policy permitted it, with the
    kill switch released, a rule for its host and tier that says so and a tier that is
    not dangerous, or later an administrator's request approved it; if it is closed,
    after that an administrator's request reported that result for that command; and
    if it was declined, an administrator's request did so. *)
Theorem remediation_history (steps : list ControlStep) w (c : Case) :
  auth_enabled (sv_credentials (wl_server w)) -> store_wf (as_store (wl_app w)) ->
  c ∈ world_cases (crun steps w) -> case_key c ∉ map case_key (world_cases w) ->
  exists trace, trace `sublist_of` steps /\ story (sv_credentials (wl_server w)) (as_policy (wl_app w)) c trace.
Proof.
  intros Hen Hwf Hc Hnew. destruct (control_life steps w Hen Hwf) as (acts & Hent & Hrun).
  eapply (life_run_story _ _ (fun k => k ∈ map case_key (world_cases w)) steps acts _ _ [] Hent Hrun); [|done..].
  intros c' Hc' Hk. destruct Hk. by apply list_elem_of_fmap_2.
Qed.
End Control.

(** ** A concrete run *)

Lemma approval_auth : auth_enabled (sv_credentials (wl_server (example_world (example_state [] true)))).
Proof. left. by exists "root"%string. Qed.

Lemma control_refines_lifecycle_witness :
  exists acts, Forall2 (entitled_label toy_credentials (as_policy (example_state [] true))) approval_steps acts
    /\ life_run acts [] (world_cases approval_run)
    /\ map (fun c => command_of (ca_phase c)) (world_cases approval_run) = [Some 102%N].
Proof.
  destruct (control_refines_lifecycle (fun _ => None) (fun _ _ => None) (fun _ => None) secret_parse (fun _ => "{...}"%string)
    (fun _ => "invalid type"%string) JNull (fun _ => EmptyString) (fun _ => (404%N, EmptyString)) approval_steps
    (example_world (example_state [] true)) approval_auth empty_wf) as (acts & Hent & Hrun).
  exists acts. split; [exact Hent|]. split; [exact Hrun|]. vm_compute. reflexivity.
Defined.

Lemma remediation_history_witness :
  exists c trace, c ∈ world_cases approval_run /\ trace `sublist_of` approval_steps
    /\ story toy_credentials (as_policy (example_state [] true)) c trace.
Proof.
  assert (match world_cases approval_run with c :: _ => true | [] => false end = true) as Hne by (vm_compute; reflexivity).
  destruct (world_cases approval_run) as [|c l] eqn:Hcases; [discriminate|].
  assert (c ∈ world_cases approval_run) as Hc by (rewrite Hcases; by left).
  destruct (remediation_history (fun _ => None) (fun _ _ => None) (fun _ => None) secret_parse (fun _ => "{...}"%string)
    (fun _ => "invalid type"%string) JNull (fun _ => EmptyString) (fun _ => (404%N, EmptyString)) approval_steps
    (example_world (example_state [] true)) c approval_auth empty_wf Hc) as (trace & Hsub & Hst).
  - intros Hin. by apply elem_of_nil in Hin.
  - exists c, trace. rewrite <-Hcases. split; [exact Hc|]. split; [exact Hsub|exact Hst].
Defined.
