(* ===== verification/Nats.v ===== *)
(** * Over the broker ([ravn-agent/src/transport.rs], [ravn-server/src/ingest.rs])

  The NATS transport of the agents and the two subscriptions of the control plane,
  with the subjects in between.  The theorem: the broker is transparent, that is, the
  control plane after a sequence of publications by agents and by ravn-k8s is what it
  is when their messages and heartbeats are handed to it one by one, each to the
  handler that is meant for it.  And one that says where the subjects of the two sides
  do not meet: the results of the Kubernetes executor.

  The broker's matching of subjects is an interface with its documented rule; what is
  delivered, and what a publication answers, are inputs. *)

From S2P Require Export ControlPlane AgentMain KubeMain KnowledgeFormat.

(** ** The broker *)

(** Subjects are tokens between dots; in a subscription [*] stands for one token. *)
Class Broker : Type := { subscribed : string -> string -> bool }.
Definition literal (s : string) : bool := str_forallb (fun c => negb (is_byte 42 c || is_byte 62 c)) s.
Definition token_ok (s : string) : bool := negb (is_empty s) && str_forallb (fun c => negb (is_byte 46 c)) s.
Class BrokerLaws `{Broker} : Prop := {
  subscribed_star prefix subject : literal prefix = true ->
    subscribed (prefix +:+ ".*") subject = true
    <-> exists token, token_ok token = true /\ subject = prefix +:+ "." +:+ token;
}.

(** ** The agent's transport *)

Section Transport.
Context `{SerdeValue} `{!MessageJson} `{UuidText}.
Variable heartbeat_to_json : Heartbeat -> option string.

(** A connection to the broker, in a world [W]. *)
Record NatsClient (W : Type) := mkNatsClient {
  nc_publish : string -> string -> W -> result Chain unit * W;
  nc_flush : W -> result Chain unit * W;
}.
#[global] Arguments nc_publish {W} n. #[global] Arguments nc_flush {W} n.
Record NatsTransport := mkNatsTransport { nt_subject : string; nt_heartbeat_subject : string }.

Definition nats_transport_connect (connect : string -> result Chain unit) (url : string) (agent_id : Uuid)
    : result Chain NatsTransport :=
  _ ← with_context ("connecting to NATS at " +:+ url) (connect url);
  Ok (mkNatsTransport ("ravn.messages." +:+ uuid_to_string agent_id) ("ravn.heartbeat." +:+ uuid_to_string agent_id)).

Section Publish.
Context {W : Type}.
Variable client : NatsClient W.
(** [publish_to], over the JSON text of the value. *)
Definition publish_to (subject : string) (payload : option string) (w : W) : result Chain unit * W :=
  match with_context "serializing payload" (ok_or ["unsupported value"%string] payload) with
  | Err e => (Err e, w)
  | Ok payload =>
      let (sent, w) := nc_publish client subject payload w in
      match with_context "publishing to NATS" sent with
      | Err e => (Err e, w)
      | Ok _ => let (flushed, w) := nc_flush client w in (with_context "flushing NATS" flushed, w)
      end
  end.
Definition nats_publish_message (t : NatsTransport) (m : Message) (w : W) : result Chain unit * W :=
  publish_to (nt_subject t) (message_to_json m) w.
Definition nats_publish_heartbeat (t : NatsTransport) (hb : Heartbeat) (w : W) : result Chain unit * W :=
  publish_to (nt_heartbeat_subject t) (heartbeat_to_json hb) w.
End Publish.
End Transport.

(** ** The subscriptions of the control plane *)

Definition SUBJECT : string := "ravn.messages.*".
Definition HEARTBEAT_SUBJECT : string := "ravn.heartbeat.*".

Section Received.
Context `{SerdeValue} `{!MessageJson} `{Broker} `{!Http} `{!Extractors}.
Variable heartbeat_from_json : string -> option Heartbeat.

(** What a delivery meets at the control plane: its inputs, and whether its database
    takes a heartbeat. *)
Record Arrival := mkArrival { ar_inputs : IngestInputs; ar_now : DateTime; ar_db_ok : bool }.
(** The loops of [run] and [run_heartbeats] get what their subscriptions match. *)
Definition received (a : Arrival) (subject payload : string) : list ControlStep :=
  (if subscribed SUBJECT subject then [NatsMessage (ar_inputs a) (message_from_json payload)] else [])
  ++ (if subscribed HEARTBEAT_SUBJECT subject
      then [NatsHeartbeat (ar_now a) (ar_db_ok a) (heartbeat_from_json payload)] else []).
End Received.

(** ** Subjects *)

Section Subjects.
Context `{BL : BrokerLaws} `{UuidText}.

Lemma star_here prefix token :
  literal prefix = true -> token_ok token = true -> subscribed (prefix +:+ ".*") (prefix +:+ "." +:+ token) = true.
Proof. intros Hp Ht. apply subscribed_star; [done|]. by exists token. Qed.

(** Identifiers are single tokens. *)
Variable uuid_token : forall u, token_ok (uuid_to_string u) = true.

Lemma message_subject u :
  subscribed SUBJECT ("ravn.messages." +:+ uuid_to_string u) = true
  /\ subscribed HEARTBEAT_SUBJECT ("ravn.messages." +:+ uuid_to_string u) = false.
Proof.
  split; [by apply (star_here "ravn.messages")|]. apply not_true_is_false.
  intros (token & _ & Ht)%(subscribed_star "ravn.heartbeat"); [|done]. discriminate.
Qed.
Lemma heartbeat_subject u :
  subscribed SUBJECT ("ravn.heartbeat." +:+ uuid_to_string u) = false
  /\ subscribed HEARTBEAT_SUBJECT ("ravn.heartbeat." +:+ uuid_to_string u) = true.
Proof.
  split; [|by apply (star_here "ravn.heartbeat")]. apply not_true_is_false.
  intros (token & _ & Ht)%(subscribed_star "ravn.messages"); [|done]. discriminate.
Qed.
End Subjects.

(** ** The broker is transparent *)

Section Transparent.
Context `{SerdeValue} `{!MessageJson} `{BL : BrokerLaws} `{Base64} `{Ed25519} `{SerdeJson} `{Rfc3339} `{Jwt} `{Rcgen}
  `{UuidText} `{!Http} `{!EqDecision Method} `{!Extractors}.
Variable heartbeat_to_json : Heartbeat -> option string.
Variable heartbeat_from_json : string -> option Heartbeat.
Hypothesis uuid_token : forall u, token_ok (uuid_to_string u) = true.

(** What is on the broker: subjects with their payloads, in order. *)
Abbreviation Bus := (list (string * string)).
Definition bus_put (subject payload : string) (b : Bus) : result Chain unit * Bus := (Ok tt, b ++ [(subject, payload)]).
Definition bus_client : NatsClient Bus := mkNatsClient _ bus_put (fun b => (Ok tt, b)).
Definition bus_wire : Wire Bus := mkWire _ (fun _ _ => Err "not HTTP"%string) (fun _ _ _ b => (Err ["not HTTP"%string], b))
  (fun subject m b => match message_to_json m with
                      | Some payload => bus_put subject payload b
                      | None => (Err ["unsupported value"%string], b)
                      end)
  (fun b => (Ok tt, b)).

Inductive Publication :=
  | PubMessage (t : NatsTransport) (m : Message)
  | PubHeartbeat (t : NatsTransport) (hb : Heartbeat)
  | PubKube (subject : string) (m : Message).
Definition put (p : Publication) (b : Bus) : Bus :=
  match p with
  | PubMessage t m => (nats_publish_message bus_client t m b).2
  | PubHeartbeat t hb => (nats_publish_heartbeat heartbeat_to_json bus_client t hb b).2
  | PubKube subject m => (nats_publish bus_wire subject m b).2
  end.
(** The publisher is one that connected, and its value is read back as it was written. *)
Definition sound_publication (p : Publication) : Prop :=
  match p with
  | PubMessage t m =>
      (exists connect url a, nats_transport_connect connect url a = Ok t)
      /\ exists s, message_to_json m = Some s /\ message_from_json s = Some m
  | PubHeartbeat t hb =>
      (exists connect url a, nats_transport_connect connect url a = Ok t)
      /\ exists s, heartbeat_to_json hb = Some s /\ heartbeat_from_json s = Some hb
  | PubKube subject m =>
      (exists connect url a, nats_publisher_connect connect url a = Ok (NatsPublisher subject))
      /\ exists s, message_to_json m = Some s /\ message_from_json s = Some m
  end.

(** Each publication on the broker arrives, or is lost. *)
Definition arrives (x : option Arrival * (string * string)) : list ControlStep :=
  match x.1 with Some a => received heartbeat_from_json a x.2.1 x.2.2 | None => [] end.
Definition handed (w : World) (x : option Arrival * Publication) : World :=
  match x with
  | (None, _) => w
  | (Some a, PubMessage _ m) | (Some a, PubKube _ m) => on_nats_message (ar_inputs a) (Some m) w
  | (Some a, PubHeartbeat _ hb) => on_nats_heartbeat (ar_now a) (ar_db_ok a) (Some hb) w
  end.

Variable csr_from_pem : string -> option CertParams.
Variable signed_by : CertParams -> IssuerKey -> option string.
Variable from_timestamp : Z -> option DateTime.
Variable json_parse : string -> result string Json.
Variable json_pretty : Json -> string.
Variable shape_error : Json -> string.
Variable openapi_document : Json.
Variable encode_metrics : World -> string.
Variable unrouted : HttpRequest -> N * string.
#[local] Abbreviation crun := (control_run csr_from_pem signed_by from_timestamp json_parse json_pretty shape_error
  openapi_document encode_metrics unrouted).

Lemma transport_subjects connect url u t :
  nats_transport_connect connect url u = Ok t ->
  nt_subject t = "ravn.messages." +:+ uuid_to_string u /\ nt_heartbeat_subject t = "ravn.heartbeat." +:+ uuid_to_string u.
Proof. intros (_ & _ & Ht)%bind_Ok_inv. by injection Ht as <-. Qed.
Lemma publisher_subject connect url a subject :
  nats_publisher_connect connect url a = Ok (NatsPublisher subject) ->
  subject = "ravn.messages." +:+ uuid_to_string (agent_uuid a).
Proof. intros (_ & _ & Ht)%bind_Ok_inv. by injection Ht as <-. Qed.

(** One publication puts one pair on the broker, on which the right subscription acts. *)
Lemma put_arrives p b :
  sound_publication p ->
  exists x, put p b = b ++ [x] /\ forall a w, crun (arrives (a, x)) w = handed w (a, p).
Proof.
  destruct p as [t m|t hb|subject m]; cbn [sound_publication put]; intros [(connect & url & u & Hc) (s & Hs & Hback)].
  - apply transport_subjects in Hc as [Hsub _]. exists (nt_subject t, s). unfold nats_publish_message, publish_to. rewrite Hs.
    split; [done|]. intros [arrival|] w; [|done]. unfold arrives, received. cbn [fst snd]. rewrite Hsub.
    destruct (message_subject uuid_token u) as [-> ->]. cbn. by rewrite Hback.
  - apply transport_subjects in Hc as [_ Hsub]. exists (nt_heartbeat_subject t, s). unfold nats_publish_heartbeat, publish_to.
    rewrite Hs. split; [done|]. intros [arrival|] w; [|done]. unfold arrives, received. cbn [fst snd]. rewrite Hsub.
    destruct (heartbeat_subject uuid_token u) as [-> ->]. cbn. by rewrite Hback.
  - apply publisher_subject in Hc as ->. exists ("ravn.messages." +:+ uuid_to_string (agent_uuid u), s).
    unfold nats_publish. cbn [wr_publish bus_wire]. rewrite Hs. split; [done|]. intros [arrival|] w; [|done].
    unfold arrives, received. cbn [fst snd]. destruct (message_subject uuid_token (agent_uuid u)) as [-> ->]. cbn. by rewrite Hback.
Qed.

(** C35. The broker is transparent. For any sequence of publications by agents and by
    ravn-k8s that connected, of messages and heartbeats that are read back as they
    were written, and whichever of them arrive, the control plane ends as if the ones
    that arrive had been handed in order to persist_message and to record_heartbeat:
    none is dropped as malformed, and none reaches the wrong subscription or both. *)
Theorem broker_transparent (pubs : list Publication) (arrivals : list (option Arrival)) w :
  Forall sound_publication pubs -> length arrivals = length pubs ->
  crun (flat_map arrives (zip arrivals (foldl (fun b p => put p b) [] pubs))) w = foldl handed w (zip arrivals pubs).
Proof.
  intros Hsound Hlen.
  assert (exists xs, foldl (fun b p => put p b) [] pubs = [] ++ xs
    /\ Forall2 (fun p x => forall a w, crun (arrives (a, x)) w = handed w (a, p)) pubs xs) as (xs & -> & Hxs).
  { clear Hlen. generalize (@nil (string * string)). induction Hsound as [|p pubs Hp Hsound IH]; intros b; cbn.
    - exists []. rewrite app_nil_r. by split.
    - destruct (put_arrives p b Hp) as (x & -> & Hx). destruct (IH (b ++ [x])) as (xs & -> & Hxs).
      exists (x :: xs). rewrite <-app_assoc. split; [done|by constructor]. }
  cbn [app]. clear Hsound. revert arrivals w Hlen.
  induction Hxs as [|p x pubs xs Hx Hxs IH]; intros [|a arrivals] w Hlen; try done. cbn [zip zip_with flat_map foldl].
  unfold control_run. rewrite foldl_app. cbn [length] in Hlen. rewrite <-IH by lia. unfold control_run. f_equal. apply Hx.
Qed.

(** The other direction is not connected: a result that the executor of ravn-k8s
    publishes, on the subject it reports to, reaches no subscription of the control
    plane. *)
Theorem executor_results_unheard (a : Arrival) (id : Uuid) (payload : string) :
  received heartbeat_from_json a ("ravn.results." +:+ uuid_to_string id) payload = [].
Proof.
  unfold received.
  assert (subscribed SUBJECT ("ravn.results." +:+ uuid_to_string id) = false) as ->.
  { apply not_true_is_false. intros (token & _ & Ht)%(subscribed_star "ravn.messages"); [|done]. discriminate. }
  assert (subscribed HEARTBEAT_SUBJECT ("ravn.results." +:+ uuid_to_string id) = false) as ->; [|done].
  apply not_true_is_false. intros (token & _ & Ht)%(subscribed_star "ravn.heartbeat"); [|done]. discriminate.
Qed.
End Transparent.

(** ** The documented matching *)

Fixpoint tokens_match (pattern subject : list string) : bool :=
  match pattern, subject with
  | [], [] => true
  | [p], _ :: _ :: _ => String.eqb p ">"
  | p :: pattern, t :: subject => (String.eqb p t || one_of p ["*"; ">"]%string && negb (is_empty t)) && tokens_match pattern subject
  | _, _ => false
  end.
#[export] Instance documented_broker : Broker :=
  {| subscribed p s := tokens_match (split_on (is_byte 46) p) (split_on (is_byte 46) s) |}.

Lemma split_on_app (p : ascii -> bool) (a : string) (c : ascii) (b : string) :
  p c = true -> split_on p (a +:+ String c b) = split_on p a ++ split_on p b.
Proof.
  intros Hc. induction a as [|d a IH]; cbn; [by rewrite Hc|]. rewrite IH. destruct (p d); [done|].
  destruct (split_on p a) as [|x l] eqn:Hs; [by apply split_on_not_nil in Hs|done].
Qed.
Lemma split_on_pieces (p : ascii -> bool) (s : string) :
  Forall (fun t => str_forallb (fun c => negb (p c)) t = true) (split_on p s).
Proof.
  induction s as [|c s IH]; cbn; [by repeat constructor|]. destruct (p c) eqn:Hc; [by constructor|].
  destruct IH as [|t l Ht Hl]; constructor; cbn; rewrite ?Hc; done.
Qed.
Lemma join_cons (sep c : ascii) (t : string) (l : list string) :
  join (String sep "") (String c t :: l) = String c (join (String sep "") (t :: l)).
Proof. by destruct l. Qed.
Lemma join_split (s : string) : join "." (split_on (is_byte 46) s) = s.
Proof.
  induction s as [|c s IH]; [done|]. cbn [split_on]. destruct (is_byte 46 c) eqn:Hc.
  - rewrite <-is_byte_eqb in Hc by lia. apply Ascii.eqb_eq in Hc as <-.
    destruct (split_on _ s) as [|x l] eqn:Hs; [by apply split_on_not_nil in Hs|].
    change (String "." (join "." (x :: l)) = String "." s). by rewrite IH.
  - destruct (split_on _ s) as [|x l] eqn:Hs; [by apply split_on_not_nil in Hs|]. by rewrite join_cons, IH.
Qed.
Lemma literal_pieces (s : string) :
  literal s = true -> Forall (fun t => String.eqb t "*" = false /\ String.eqb t ">" = false) (split_on (is_byte 46) s).
Proof.
  assert (forall t, literal t = true -> String.eqb t "*" = false /\ String.eqb t ">" = false) as Ht.
  { intros t Hl. split; apply String.eqb_neq; intros ->; discriminate. }
  intros Hs. assert (Forall (fun t => literal t = true) (split_on (is_byte 46) s)) as Hp; [|eapply Forall_impl; eauto].
  induction s as [|c s IH]; cbn in *; [by repeat constructor|]. apply andb_true_iff in Hs as [Hc Hs]. specialize (IH Hs).
  destruct (is_byte 46 c); [by constructor|]. destruct IH as [|t l Hlt Hl]; constructor; cbn; rewrite ?Hc; done.
Qed.

Lemma tokens_star l subject :
  Forall (fun t => String.eqb t "*" = false /\ String.eqb t ">" = false) l ->
  tokens_match (l ++ ["*"%string]) subject = true <-> exists t, is_empty t = false /\ subject = l ++ [t].
Proof.
  intros Hl. revert subject. induction Hl as [|x l [Hs Hg] Hl IH]; intros subject; cbn [app].
  - destruct subject as [|t [|t' subject]].
    + by split; [|intros (? & _ & ?)].
    + change (tokens_match ["*"%string] [t]) with ((String.eqb "*" t || negb (is_empty t)) && true).
      rewrite andb_true_r, orb_true_iff, negb_true_iff. split.
      * intros Ht. exists t. split; [|done]. destruct Ht as [Ht|Ht]; [by apply String.eqb_eq in Ht as <-|done].
      * intros (t' & Ht & [= ->]). by right.
    + by split; [|intros (? & _ & ?)].
  - destruct subject as [|t subject]; [by split; [destruct l|intros (? & _ & ?)]|].
    assert (tokens_match (x :: l ++ ["*"%string]) (t :: subject)
      = (String.eqb x t || one_of x ["*"; ">"]%string && negb (is_empty t)) && tokens_match (l ++ ["*"%string]) subject) as ->.
    { cbn. destruct l; cbn; by destruct subject. }
    assert (one_of x ["*"; ">"]%string = false) as -> by (unfold one_of; cbn; by rewrite Hs, Hg).
    rewrite andb_true_iff, IH. cbn. rewrite orb_false_r, String.eqb_eq. split.
    + intros [-> (t' & ? & ->)]. by exists t'.
    + intros (t' & ? & Ht). injection Ht as -> ->. split; [done|by exists t'].
Qed.

#[export] Instance documented_broker_laws : BrokerLaws.
Proof.
  constructor. intros prefix subject Hp. cbn [subscribed documented_broker].
  rewrite (split_on_app _ prefix "." "*") by done.
  change (split_on (is_byte 46) "*") with ["*"%string]. rewrite tokens_star by by apply literal_pieces. split.
  - intros (t & Hne & Ht). pose proof (split_on_pieces (is_byte 46) subject) as Hpieces. rewrite Ht in Hpieces.
    apply Forall_app in Hpieces as [_ [Htok _]%Forall_cons]. exists t. unfold token_ok. rewrite Hne. split; [done|].
    rewrite <-(join_split subject), Ht, <-(join_split (prefix +:+ "." +:+ t)).
    rewrite (split_on_app _ prefix "." t) by done. by rewrite (split_on_none _ t).
  - intros (token & [Hne Htok]%andb_true_iff & ->). rewrite (split_on_app _ prefix "." token) by done.
    rewrite (split_on_none _ token) by done. exists token. by destruct (is_empty token).
Qed.

(** ** A concrete run *)

Lemma toy_uuid_token (u : Uuid) : token_ok (uuid_to_string u) = true.
Proof. cbn. unfold bits_encode. by induction (encode u) as [p IH|p IH|]; cbn. Qed.
Definition example_heartbeat : Heartbeat := mkHeartbeat (mkAgentId 9) "web-01" 5 60 None true 3.
Definition transport_9 : NatsTransport := mkNatsTransport ("ravn.messages." +:+ uuid_to_string 9) ("ravn.heartbeat." +:+ uuid_to_string 9).
Definition example_publications : list Publication :=
  [PubMessage transport_9 (message_new example_event); PubHeartbeat transport_9 example_heartbeat;
   PubKube ("ravn.messages." +:+ uuid_to_string 9) (message_new example_event)].
Definition example_arrivals : list (option Arrival) :=
  [Some (mkArrival (mkIngestInputs 1 true true) 1 true); Some (mkArrival (mkIngestInputs 2 true true) 2 true); None].
Definition heartbeat_text (hb : Heartbeat) : option string := Some "{heartbeat}"%string.
Definition heartbeat_of_text (s : string) : option Heartbeat := Some example_heartbeat.

Lemma broker_transparent_witness :
  let w := example_world (example_state [] true) in
  control_run (fun _ => None) (fun _ _ => None) (fun _ => None) secret_parse (fun _ => "{...}"%string)
    (fun _ => "invalid type"%string) JNull (fun _ => EmptyString) (fun _ => (404%N, EmptyString))
    (flat_map (arrives heartbeat_of_text)
       (zip example_arrivals (foldl (fun b p => put heartbeat_text p b) [] example_publications))) w
  = foldl handed w (zip example_arrivals example_publications).
Proof.
  cbv zeta. apply (broker_transparent heartbeat_text heartbeat_of_text toy_uuid_token); [|reflexivity].
  assert (exists connect url a, nats_transport_connect connect url a = Ok transport_9) as Hc
    by (exists (fun _ => Ok tt), EmptyString, 9%N; reflexivity).
  constructor; [|constructor; [|constructor; [|constructor]]]; cbn [sound_publication].
  - split; [exact Hc|]. exists "CrashLoopBackOff"%string. split; vm_compute; reflexivity.
  - split; [exact Hc|]. exists "{heartbeat}"%string. split; reflexivity.
  - split; [exists (fun _ => Ok tt), EmptyString, (mkAgentId 9); reflexivity|].
    exists "CrashLoopBackOff"%string. split; vm_compute; reflexivity.
Defined.
