(* ===== verification/Metrics.v ===== *)
(** * The metrics of the control plane ([ravn-server/src/metrics.rs])

  The thirteen metrics with their registration, which a wrong name or a repeated one
  would turn into a panic at start-up, and the samples that a scrape gathers from the
  state of the server.  The theorems: the registration succeeds; over any run of the
  control plane no counter goes down and no series disappears, which is what a
  Prometheus counter promises to those who take rates of it.

  The prometheus crate is an interface; its text format is a parameter. *)

From S2P Require Export ControlPlane.

(** ** Registration *)

Inductive MetricKind := IntCounter | IntGauge | Histogram (buckets : list F64).
(** [Opts] with the label of a vector. *)
Record Descriptor := mkDescriptor {
  ds_name : string;
  ds_help : string;
  ds_label : option string;
  ds_kind : MetricKind;
}.
Definition LATENCY_BUCKETS : list (string * F64) :=
  [("0.1", f64_ratio 1 10); ("0.25", f64_ratio 1 4); ("0.5", f64_ratio 1 2); ("1", f64_ratio 1 1); ("2.5", f64_ratio 5 2);
   ("5", f64_ratio 5 1); ("10", f64_ratio 10 1); ("20", f64_ratio 20 1); ("30", f64_ratio 30 1)]%string.
Definition metric_descriptors : list Descriptor :=
  [mkDescriptor "ravn_events_ingested_total" "Events ingested by the control plane" (Some "severity") IntCounter;
   mkDescriptor "ravn_heartbeats_total" "Agent heartbeats received" None IntCounter;
   mkDescriptor "ravn_ingest_errors_total" "Ingestion failures" None IntCounter;
   mkDescriptor "ravn_explanations_generated_total" "K8s-event explanations generated by the inference endpoint" None IntCounter;
   mkDescriptor "ravn_explanation_errors_total" "K8s-event explanation attempts that failed" None IntCounter;
   mkDescriptor "ravn_agents" "Registered agents by liveness status" (Some "status") IntGauge;
   mkDescriptor "ravn_remediation_outcomes_total" "Remediation actions closed, labeled by the agent-reported ActionStatus" (Some "status") IntCounter;
   mkDescriptor "ravn_remediation_proposed_total" "Remediation proposals created, by policy decision (auto|approve|forbid)" (Some "decision") IntCounter;
   mkDescriptor "ravn_circuit_breaker_trips_total" "Times the policy circuit breaker downgraded auto → approve" None IntCounter;
   mkDescriptor "ravn_kill_switch_active" "1 when the global auto-remediation kill switch is on (RAVN_REMEDIATION_AUTO=0)" None IntGauge;
   mkDescriptor "ravn_inference_latency_seconds" "Latency of successful inference calls in seconds" None (Histogram LATENCY_BUCKETS.*2);
   mkDescriptor "ravn_inference_timeouts_total" "Inference calls that exceeded the configured deadline" None IntCounter;
   mkDescriptor "ravn_command_channel_errors_total" "Failures on the remediation command channel (build / enqueue / delivery)" None IntCounter]%string.

(** The prometheus crate: whether a metric can be built, and registered beside others. *)
Class Prometheus : Type := {
  metric_builds : Descriptor -> bool;
  registers : list Descriptor -> Descriptor -> bool;
}.
(** Its documented rules: names of letters, digits, underscores (and colons) that do not
    start with a digit, a help text, buckets in increasing order; one metric a name. *)
Definition name_char (colon : bool) (c : ascii) : bool := is_ascii_alphanumeric c || is_byte 95 c || (colon && is_byte 58 c).
Definition name_ok (colon : bool) (s : string) : bool :=
  match s with String c _ => negb (is_ascii_digit c) && str_forallb (name_char colon) s | EmptyString => false end.
Fixpoint increasing (l : list F64) : bool :=
  match l with x :: (y :: _) as l' => SFltb x y && increasing l' | _ => true end.
Definition well_formed (d : Descriptor) : bool :=
  name_ok true (ds_name d) && negb (is_empty (ds_help d))
  && match ds_label d with Some l => name_ok false l | None => true end
  && match ds_kind d with Histogram buckets => increasing buckets | _ => true end.
Class PrometheusLaws `{Prometheus} : Prop := {
  metric_builds_ok d : well_formed d = true -> metric_builds d = true;
  registers_ok l d : ds_name d ∉ map ds_name l -> registers l d = true;
}.

Section Registration.
Context `{Prometheus}.
Fixpoint register_all (ms registry : list Descriptor) : option (list Descriptor) :=
  match ms with
  | [] => Some registry
  | m :: ms => if registers registry m then register_all ms (registry ++ [m]) else None
  end.
(** [Metrics::new]; [None] is the panic of an [expect]. *)
Definition metrics_new : option (list Descriptor) :=
  if forallb metric_builds metric_descriptors then register_all metric_descriptors [] else None.

Lemma register_all_ok `{!PrometheusLaws} (ms registry : list Descriptor) :
  NoDup (map ds_name (registry ++ ms)) -> register_all ms registry = Some (registry ++ ms).
Proof.
  revert registry. induction ms as [|m ms IH]; intros registry Hnd; cbn [register_all]; [by rewrite app_nil_r|].
  rewrite registers_ok.
  - rewrite IH; rewrite <-app_assoc; done.
  - intros Hin. rewrite map_app in Hnd. apply NoDup_app in Hnd as (_ & Hd & _). apply (Hd _ Hin). by left.
Qed.

(** The control plane's metrics are built and registered without a panic. *)
Theorem metrics_new_ok `{!PrometheusLaws} : metrics_new = Some metric_descriptors.
Proof.
  unfold metrics_new. assert (forallb metric_builds metric_descriptors = true) as ->.
  { apply forallb_forall. intros d Hd. apply metric_builds_ok.
    assert (forallb well_formed metric_descriptors = true) as Hw by (vm_compute; reflexivity).
    by eapply forallb_forall in Hw. }
  apply (register_all_ok metric_descriptors []). apply (bool_decide_eq_true_1 _). vm_compute. reflexivity.
Qed.
End Registration.

(** ** Samples *)

Record Sample := mkSample { sm_name : string; sm_labels : list (string * string); sm_value : Z }.

Section Samples.
Context `{SerdeValue} `{Base64} `{Ed25519} `{SerdeJson} `{Rfc3339} `{Jwt} `{Rcgen} `{UuidText} `{Http}
  `{!EqDecision Method}.
Implicit Types (w : World).

Definition one (name : string) (n : N) : Sample := mkSample name [] (Z.of_N n).
(** The children of a vector: the labels it was incremented with. *)
Definition children (name label : string) (incremented : list string) : list Sample :=
  map (fun e => mkSample name [(label, e.1)] (Z.of_N e.2)) (outcome_counts incremented).
Definition latency_bucket (observed : list F64) (le : F64) : N :=
  N.of_nat (length (List.filter (fun x => SFleb x le) observed)).
Definition latency_samples (observed : list F64) : list Sample :=
  map (fun b => mkSample "ravn_inference_latency_seconds_bucket" [("le"%string, b.1)] (Z.of_N (latency_bucket observed b.2)))
    LATENCY_BUCKETS
  ++ [one "ravn_inference_latency_seconds_count" (N.of_nat (length observed))].
(** What only goes up, and what does not. *)
Definition counter_samples w : list Sample :=
  children "ravn_events_ingested_total" "severity" (ig_ingested (wl_ingest w))
  ++ [one "ravn_heartbeats_total" (mc_heartbeats (wl_counters w)); one "ravn_ingest_errors_total" (ig_errors (wl_ingest w));
      one "ravn_explanations_generated_total" (mc_generated (wl_counters w));
      one "ravn_explanation_errors_total" (mc_explanation_errors (wl_counters w))]
  ++ children "ravn_remediation_outcomes_total" "status" (as_outcomes (wl_app w))
  ++ children "ravn_remediation_proposed_total" "decision" (as_proposed (wl_app w))
  ++ [one "ravn_circuit_breaker_trips_total" (as_breaker_trips (wl_app w));
      one "ravn_inference_timeouts_total" (mc_timeouts (wl_counters w));
      one "ravn_command_channel_errors_total" (as_channel_errors (wl_app w))]
  ++ latency_samples (mc_latencies (wl_counters w)).
Definition gauge_samples w : list Sample :=
  match wl_gauge w with
  | Some (online, stale, offline) =>
      [mkSample "ravn_agents" [("status", "online")] online; mkSample "ravn_agents" [("status", "stale")] stale;
       mkSample "ravn_agents" [("status", "offline")] offline]%string
  | None => []
  end
  ++ [one "ravn_kill_switch_active" (sv_kill_switch_active (wl_server w))].
(** The histogram's sum is the one sample that is not an integer. *)
Definition latency_sum w : F64 := fold_left f64_add (mc_latencies (wl_counters w)) f64_zero.
(** [encode], over the crate's text format. *)
Definition encode (text_format : list Sample -> F64 -> string) w : string :=
  text_format (counter_samples w ++ gauge_samples w) (latency_sum w).
End Samples.

(** ** Counters only go up *)

Section Growth.
Context `{SerdeValue} `{Base64} `{Ed25519} `{SerdeJson} `{Rfc3339} `{Jwt} `{Rcgen} `{UuidText} `{Http}
  `{!EqDecision Method} `{!Extractors}.
Variable csr_from_pem : string -> option CertParams.
Variable signed_by : CertParams -> IssuerKey -> option string.
Variable from_timestamp : Z -> option DateTime.
Variable json_parse : string -> result string Json.
Variable json_pretty : Json -> string.
Variable shape_error : Json -> string.
Variable openapi_document : Json.
Variable encode_metrics : World -> string.
Variable unrouted : HttpRequest -> N * string.
#[local] Abbreviation crun := (control_run csr_from_pem signed_by from_timestamp json_parse json_pretty shape_error
  openapi_document encode_metrics unrouted).
#[local] Abbreviation exec := (control_exec csr_from_pem signed_by from_timestamp json_parse json_pretty shape_error
  openapi_document encode_metrics unrouted).
#[local] Abbreviation answer_of := (run_handler csr_from_pem signed_by from_timestamp json_parse json_pretty shape_error
  openapi_document encode_metrics).
Implicit Types (w : World) (s : AppState) (g : Ingestion).

Definition app_grows s s' : Prop :=
  as_proposed s `prefix_of` as_proposed s' /\ as_outcomes s `prefix_of` as_outcomes s'
  /\ (as_breaker_trips s <= as_breaker_trips s')%N /\ (as_channel_errors s <= as_channel_errors s')%N.
Definition ingest_grows g g' : Prop := (ig_errors g <= ig_errors g')%N /\ ig_ingested g `prefix_of` ig_ingested g'.
Definition counters_grow (c c' : IngestCounters) : Prop :=
  (mc_heartbeats c <= mc_heartbeats c')%N /\ (mc_generated c <= mc_generated c')%N
  /\ (mc_explanation_errors c <= mc_explanation_errors c')%N /\ (mc_timeouts c <= mc_timeouts c')%N
  /\ mc_latencies c `prefix_of` mc_latencies c'.
Definition grows w w' : Prop :=
  app_grows (wl_app w) (wl_app w') /\ ingest_grows (wl_ingest w) (wl_ingest w')
  /\ counters_grow (wl_counters w) (wl_counters w').

#[local] Instance app_grows_preorder : PreOrder app_grows.
Proof. split; [by intros s; split_and!|]. intros a b c (?&?&?&?) (?&?&?&?). split_and!; [by etrans|by etrans|lia|lia]. Qed.
#[local] Instance ingest_grows_preorder : PreOrder ingest_grows.
Proof. split; [by intros g|]. intros a b c [??] [??]. split; [lia|by etrans]. Qed.
#[local] Instance counters_grow_preorder : PreOrder counters_grow.
Proof. split; [by intros c; split_and!|]. intros a b c (?&?&?&?&?) (?&?&?&?&?). split_and!; [lia..|by etrans]. Qed.
#[local] Instance grows_preorder : PreOrder grows.
Proof. split; [by intros w; split_and!|]. intros a b c (?&?&?) (?&?&?). split_and!; by etrans. Qed.

Ltac solve_grows :=
  unfold grows, app_grows, ingest_grows, counters_grow; split_and!; cbn; (done || lia || by apply prefix_app_r).

(** *** The remediation state *)

Lemma bump_grows events proposed outcomes trips errors s : app_grows s (bump events proposed outcomes trips errors s).
Proof. split_and!; cbn; [by apply prefix_app_r|by apply prefix_app_r|lia|lia]. Qed.

Lemma auto_execute_grows i t proposal signature s : app_grows s (auto_execute i t proposal signature s).
Proof.
  unfold auto_execute. destruct (build_command _ _ _ _ _ _ _ _); [|apply bump_grows].
  destruct (store_insert_auto_approved _ _ _ _ _ _ _) as [[]]; done.
Qed.

Lemma prepare_grows i event s : app_grows s (prepare_inner i event s).
Proof.
  unfold prepare_inner. destruct (match_event _ _) as [t|]; [|done]. destruct (resolve_params _ _); [|done]. cbv zeta.
  destruct (evaluate _ _ _ _ _) as [res policy].
  set (s1 := if er_breaker_tripped res then _ else _). assert (app_grows s s1) as Hs1.
  { unfold s1. destruct (er_breaker_tripped res); [|done]. unfold emit_breaker_trip_event.
    etrans; [|apply bump_grows]. apply (bump_grows [] [] [] 1 0 (set_policy policy s)). }
  clearbody s1. etrans; [exact Hs1|]. destruct (er_decision res).
  - etrans; [apply bump_grows|apply auto_execute_grows].
  - destruct (store_insert _ _ _ _ _). apply (bump_grows [] ["approve"%string] [] 0 0 s1).
  - apply bump_grows.
Qed.

Lemma result_grows i res s : app_grows s (post_command_result i res s).2.
Proof.
  unfold post_command_result. destruct (store_record_result _ _ _ _) as [closed st].
  assert (app_grows s (bump [] [] [status_str (ar_status res)] 0 0 s)) as Hb by apply bump_grows.
  destruct closed as [[record signature]|]; [|exact Hb]. destruct (_ && _); exact Hb.
Qed.

(** *** The handlers *)

Lemma with_app_grows s w : app_grows (wl_app w) s -> grows w (with_app s w).
Proof. intros Hs. split_and!; (done || lia). Qed.
Lemma persist_grows i inference m g : ingest_grows g (persist_message i inference m g).
Proof.
  unfold persist_message. destruct (negb _); [split; cbn; [lia|done]|].
  unfold prepare, maybe_explain. destruct (wants_explanation _ _); split; cbn; (lia || by apply prefix_app_r).
Qed.
Lemma with_ingest_grows g w : ingest_grows (wl_ingest w) g -> grows w (with_ingest g w).
Proof. intros Hg. split_and!; (done || lia || apply Hg). Qed.

Lemma extracting_grows {A} (r : result (N * string) A) w (k : A -> HttpReply * World) :
  (forall a, grows w (k a).2) -> grows w (extracting r w k).2.
Proof. intros Hk. unfold extracting. destruct r as [a|[]]; [apply Hk|done]. Qed.

Lemma ingest_endpoint_grows i auth m w : grows w (api_ingest i auth m w).2.
Proof.
  unfold api_ingest. destruct (consume _ _ _) as [allowed bucket].
  destruct (ingest _ _ _ _ _ _ _ _) as [[status msg] g] eqn:Hi. cbn [snd].
  assert (ingest_grows (wl_ingest w) g) as Hg.
  { revert Hi. unfold ingest. repeat case_match; intros [= _ _ <-]; (apply persist_grows || (split; [lia|done])). }
  split_and!; (done || lia || apply Hg).
Qed.

Lemma handler_grows h i req body captured role w : grows w (answer_of h i req body captured role w).2.
Proof.
  destruct h; cbn [run_handler snd]; try done; repeat (apply extracting_grows; intros ?); try done.
  - unfold api_delete_agent. destruct (ai_write_ok i); [|done]. by destruct (delete_agent _ _).
  - unfold put_labels. destruct (ai_write_ok i); [|done]. by destruct (replace_labels _ _ _) as [[]].
  - unfold metrics. by destruct (db_list_agents i).
  - unfold api_enroll. by destruct (enroll _ _ _ _ _ _ _ _ _ _) as [[[]|]].
  - apply ingest_endpoint_grows.
  - unfold on_app, get_commands. by destruct (take_for _ _).
  - unfold on_app. pose proof (result_grows (ai_inputs i) a1 (wl_app w)) as Hr. destruct (post_command_result _ _ _). by apply with_app_grows.
  - unfold on_app, api_approve_remediation. repeat case_match; cbn in *; simplify_eq; try done.
  - unfold on_app, api_reject_remediation. by destruct (store_reject _ _ _ _ _ _ _).
  - unfold api_put_settings. destruct (put_settings _ _ _ _) as [[|[]]]; done.
Qed.

Lemma serve_grows i req body w :
  grows w (serve csr_from_pem signed_by from_timestamp json_parse json_pretty shape_error openapi_document encode_metrics
             unrouted i req body w).2.
Proof.
  assert (forall methods captured role, grows w (dispatch_route csr_from_pem signed_by from_timestamp json_parse json_pretty
    shape_error openapi_document encode_metrics methods captured i req body role w).2) as Hd.
  { intros methods captured role. unfold dispatch_route. destruct (method_handler _ _) as [h|]; [|done].
    pose proof (handler_grows h i req body captured role w) as Hh. by destruct (answer_of h i req body captured role w). }
  unfold serve. destruct (find_route _ _) as [[]|]; [apply Hd|].
  destruct (find_route _ _) as [[]|]; [|done]. destruct (auth_mw _ _); (done || apply Hd).
Qed.

Lemma step_grows (step : ControlStep) w : grows w (exec step w).
Proof.
  destruct step as [i req body|i [m|]|now db_ok [hb|]|k answer elapsed now db_ok|k i]; cbn [control_exec].
  - apply serve_grows.
  - apply with_ingest_grows, persist_grows.
  - apply with_ingest_grows. split; cbn; [lia|done].
  - unfold on_nats_heartbeat. destruct db_ok; solve_grows.
  - done.
  - unfold explain_task. destruct (ig_explain _ !! k); [|done].
    destruct answer as [x|err]; [destruct db_ok|destruct (is_timeout err)]; solve_grows.
  - unfold prepare_task. destruct (ig_prepare _ !! k) as [event|]; [|done].
    split_and!; [apply prepare_grows|solve_grows..].
Qed.

(** *** The samples *)

Definition no_lower (l l' : list Sample) : Prop :=
  forall m, m ∈ l -> exists m', m' ∈ l' /\ sm_name m' = sm_name m /\ sm_labels m' = sm_labels m /\ (sm_value m <= sm_value m')%Z.
Lemma no_lower_app l1 l2 l1' l2' : no_lower l1 l1' -> no_lower l2 l2' -> no_lower (l1 ++ l2) (l1' ++ l2').
Proof.
  intros Ha Hb m [Hm|Hm]%elem_of_app; [destruct (Ha m Hm) as (m' & ? & ?)|destruct (Hb m Hm) as (m' & ? & ?)];
    exists m'; (split; [set_solver|done]).
Qed.
Lemma no_lower_one name n n' : (n <= n')%N -> no_lower [one name n] [one name n'].
Proof. intros Hn m ->%list_elem_of_singleton. eexists. split; [by left|]. cbn. split_and!; (done || lia). Qed.
Lemma no_lower_cons name n n' l l' : (n <= n')%N -> no_lower l l' -> no_lower (one name n :: l) (one name n' :: l').
Proof. intros Hn Hl. by apply (no_lower_app [_] l [_] l'); [apply no_lower_one|]. Qed.
Lemma no_lower_nil : no_lower [] [].
Proof. by intros m ?%elem_of_nil. Qed.
Ltac solve_ones := repeat (apply no_lower_cons; [assumption|]); apply no_lower_nil.
Lemma no_lower_map {A} (f f' : A -> Sample) l :
  (forall a, sm_name (f' a) = sm_name (f a) /\ sm_labels (f' a) = sm_labels (f a) /\ (sm_value (f a) <= sm_value (f' a))%Z) ->
  no_lower (map f l) (map f' l).
Proof. intros Hf m (a & -> & Ha)%list_elem_of_fmap. exists (f' a). split; [by apply list_elem_of_fmap_2|apply Hf]. Qed.

Lemma outcome_counts_app l l' :
  outcome_counts (l ++ l') = foldl (fun m l => bt_insert l (default 0%N (bt_get l m) + 1)%N m) (outcome_counts l) l'.
Proof. unfold outcome_counts. apply foldl_app. Qed.
Lemma counts_ordered l : bt_ordered (outcome_counts l).
Proof.
  unfold outcome_counts. assert (bt_ordered (@nil (string * N))) as Hm by done. revert Hm. generalize (@nil (string * N)) as m.
  induction l as [|x l IH]; intros m Hm; cbn; [done|]. by apply IH, bt_ordered_insert.
Qed.
Lemma counts_grow l k n (m : btree N) :
  bt_get k m = Some n -> exists n', (n <= n')%N
    /\ bt_get k (foldl (fun m l => bt_insert l (default 0%N (bt_get l m) + 1)%N m) m l) = Some n'.
Proof.
  revert m n. induction l as [|x l IH]; intros m n Hn; cbn; [by exists n|].
  destruct (decide (k = x)) as [->|Hne].
  - destruct (IH (bt_insert x (default 0%N (bt_get x m) + 1)%N m) (n + 1)%N) as (n' & Hle & Hn'); [by rewrite bt_get_insert_eq, Hn|].
    exists n'. split; [lia|done].
  - apply IH. rewrite bt_get_insert. by rewrite (proj2 (String.eqb_neq k x)).
Qed.
Lemma children_grow name label l l' : l `prefix_of` l' -> no_lower (children name label l) (children name label l').
Proof.
  intros [r ->] m ([k n] & -> & Hin)%list_elem_of_fmap. apply (bt_ordered_get _ _ _ (counts_ordered l)) in Hin.
  destruct (counts_grow r k n _ Hin) as (n' & Hle & Hn'). rewrite <-outcome_counts_app in Hn'. apply bt_get_elem in Hn'.
  eexists. split; [by apply list_elem_of_fmap_2|]. cbn. split_and!; [done|done|lia].
Qed.
Lemma latency_grow l l' : l `prefix_of` l' -> no_lower (latency_samples l) (latency_samples l').
Proof.
  intros [r ->]. apply no_lower_app.
  - apply no_lower_map. intros [le x]. cbn. split_and!; [done|done|]. unfold latency_bucket. rewrite List.filter_app, length_app. lia.
  - apply no_lower_one. rewrite length_app. lia.
Qed.

Lemma grows_samples w w' : grows w w' -> no_lower (counter_samples w) (counter_samples w').
Proof.
  intros ((?&?&?&?) & (?&?) & (?&?&?&?&?)). unfold counter_samples.
  apply no_lower_app; [by apply children_grow|]. apply no_lower_app; [solve_ones|].
  apply no_lower_app; [by apply children_grow|]. apply no_lower_app; [by apply children_grow|].
  apply no_lower_app; [solve_ones|]. by apply latency_grow.
Qed.

(** Counters count: over any run of the control plane, whatever requests, messages,
    heartbeats and tasks it is made of and whatever the database answers, no series
    of a counter or of the latency histogram disappears and none goes down. *)
Theorem counters_never_decrease (steps : list ControlStep) w :
  no_lower (counter_samples w) (counter_samples (crun steps w)).
Proof.
  apply grows_samples. revert w. induction steps as [|step steps IH]; intros w; cbn; [done|].
  etrans; [apply step_grows|apply IH].
Qed.
End Growth.

(** ** The timeouts of the model's endpoint *)

(** [anyhow]'s [to_string]: the outermost message. *)
Definition error_to_string (e : Chain) : string := default EmptyString (head e).

(** An explanation that fails is classified by the text of its error, but the text is the
    outermost context, which never speaks of time: whatever goes wrong in the
    exchange, a timeout included, the counter of timeouts does not move. *)
Theorem timeouts_never_counted `{SerdeValue} (json_from_str : string -> option Json) (status_display : N -> string)
    (cl : InferenceClient) (send : ChatRequest -> ChatReply) (now : DateTime) (event : Event) (e : Chain) :
  (forall status, is_timeout ("inference endpoint returned " +:+ status_display status) = false) ->
  server_explain json_from_str status_display cl send now event = Err e -> is_timeout (error_to_string e) = false.
Proof.
  intros Hstatus. unfold server_explain. destruct (send _) as [err|status choices].
  - intros [= <-]. reflexivity.
  - destruct (reply_success status); [|intros [= <-]; apply Hstatus].
    destruct choices as [l|err]; cbn; [|intros [= <-]; reflexivity].
    destruct (head l); cbn; [|intros [= <-]; reflexivity]. by destruct (server_parse_explanation _ _).
Qed.

Definition example_status (n : N) : string := if N.eqb n 504 then "504 Gateway Timeout" else "500 Internal Server Error".
Lemma timeouts_never_counted_witness :
  server_explain (H := string_value) (fun _ => None) example_status (inference_new "http://inference/v1" "m" None)
    (fun _ => NoAnswer ["error sending request"; "operation timed out"]%string) 0 example_event
    = Err ["calling inference endpoint"; "error sending request"; "operation timed out"]%string
  /\ is_timeout "calling inference endpoint" = false.
Proof.
  assert (server_explain (H := string_value) (fun _ => None) example_status (inference_new "http://inference/v1" "m" None)
    (fun _ => NoAnswer ["error sending request"; "operation timed out"]%string) 0 example_event
    = Err ["calling inference endpoint"; "error sending request"; "operation timed out"]%string) as He by reflexivity.
  split; [exact He|]. refine (timeouts_never_counted (H := string_value) _ example_status _ _ _ _ _ _ He).
  intros status. unfold example_status. destruct (N.eqb status 504); vm_compute; reflexivity.
Defined.

(** ** Examples *)

#[export] Instance documented_prometheus : Prometheus :=
  {| metric_builds := well_formed; registers l d := negb (bool_decide (ds_name d ∈ map ds_name l)) |}.
#[export] Instance documented_prometheus_laws : PrometheusLaws.
Proof. split; [done|]. intros l d Hd. cbn. by rewrite bool_decide_eq_false_2. Qed.
Example metrics_new_ex : metrics_new = Some metric_descriptors.
Proof. exact metrics_new_ok. Qed.
Example samples_ex :
  map (fun m => (sm_name m, sm_value m)) (children "ravn_events_ingested_total" "severity" ["error"; "info"; "error"]%string)
  = [("ravn_events_ingested_total", 2%Z); ("ravn_events_ingested_total", 1%Z)]%string
  /\ map sm_value (latency_samples [f64_ratio 3 10; f64_ratio 7 1]) = [0; 0; 1; 1; 1; 1; 2; 2; 2; 2]%Z.
Proof. vm_compute. split; reflexivity. Qed.
