(* ===== verification/SystemRun.v ===== *)
(** * The whole system: the control plane with its agents and their actuators

  One state for the control plane, every agent's command loop (its keyrings, its
  ledger, the envelopes it has fetched, the report it owes) and the hosts behind them,
  with steps that interleave in any order and stop anywhere: requests and tasks of the
  control plane, the fetch, the handling of one envelope, the report, the refresh of
  the keyring, crashes, restarts, and changes of the host by others.

  A reply or a report may be lost; the JSON of an envelope on the actuator's socket and
  the body of a report are parameters. *)

From S2P Require Export ControlPlane EndToEnd.

Section SystemRun.
Context `{SerdeValue} `{Base64} `{Ed25519} `{SerdeJson} `{Rfc3339} `{Jwt} `{Rcgen} `{UuidText} `{HL : HttpLaws}
  `{!EqDecision Method} `{!Extractors} {W : Type} `{!Host W}.
Variable csr_from_pem : string -> option CertParams.
Variable signed_by : CertParams -> IssuerKey -> option string.
Variable from_timestamp : Z -> option DateTime.
Variable json_parse : string -> result string Json.
Variable json_pretty : Json -> string.
Variable shape_error : Json -> string.
Variable openapi_document : Json.
Variable encode_metrics : World -> string.
Variable unrouted : HttpRequest -> N * string.
Variable envelope_to_json : CommandEnvelope -> string.
Variable parse_envelope : string -> option CommandEnvelope.
Variable result_to_body : ActionResult -> Body.
Variable empty_body : Body.
(** The fuel of the verification loop. *)
Variable fuel : nat.
#[local] Abbreviation served := (serve csr_from_pem signed_by from_timestamp json_parse json_pretty shape_error
  openapi_document encode_metrics unrouted).
#[local] Abbreviation exec := (control_exec csr_from_pem signed_by from_timestamp json_parse json_pretty shape_error
  openapi_document encode_metrics unrouted).
#[local] Abbreviation crun := (control_run csr_from_pem signed_by from_timestamp json_parse json_pretty shape_error
  openapi_document encode_metrics unrouted).
#[local] Abbreviation run_h := (run_handler csr_from_pem signed_by from_timestamp json_parse json_pretty shape_error
  openapi_document encode_metrics).
#[local] Abbreviation send := (send_to_actuator envelope_to_json parse_envelope fuel).

(** ** State and steps *)

(** An agent with its host. Without a keyring remediation is off; the dispatched
    envelopes are kept for the statements. *)
Record AgentSite := mkAgentSite {
  sa_ring : option Keyring;
  sa_pinned : option string;
  sa_pubkey : option string;
  sa_ledger : Ledger;
  sa_batch : list CommandEnvelope;
  sa_report : option ActionResult;
  sa_actuator_ring : Keyring;
  sa_host : W * Log;
  sa_dispatched : list CommandEnvelope;
}.
Record System := mkSystem { sy_world : World; sy_agents : gmap Uuid AgentSite }.

Inductive SystemStep :=
  | SysControl (st : ControlStep)
  | SysFetch (a : Uuid) (i : ApiInputs) (req : HttpRequest) (delivered : bool)
  | SysHandle (a : Uuid) (append : Append) (now : DateTime) (crash : bool)
  | SysReport (a : Uuid) (i : ApiInputs) (req : HttpRequest) (delivered : bool)
  | SysRefresh (a : Uuid) (i : ApiInputs) (req : HttpRequest) (delivered persist_ok : bool)
  | SysRestart (a : Uuid)
  | SysReloadActuator (a : Uuid) (file : option string)
  | SysHost (a : Uuid) (w : W).

(** The commands and the keyring document in a reply. *)
Definition reply_commands (r : HttpReply) : list CommandEnvelope :=
  match r with RemediationReply (JsonCommands l) => l | _ => [] end.
Definition reply_document (r : HttpReply) : option string :=
  match r with DocumentReply _ json => Some json | _ => None end.

(** [poll_once]: the request, when the last batch is done with. *)
Definition fetch (r : HttpReply) (delivered : bool) (s : AgentSite) : AgentSite :=
  mkAgentSite (sa_ring s) (sa_pinned s) (sa_pubkey s) (sa_ledger s) (if delivered then reply_commands r else [])
    None (sa_actuator_ring s) (sa_host s) (sa_dispatched s).
Definition restart (s : AgentSite) : AgentSite :=
  mkAgentSite (load_pinned_keyring (sa_pinned s) (sa_pubkey s)) (sa_pinned s) (sa_pubkey s)
    (ledger_load (Some (lg_disk (sa_ledger s)))) [] None (sa_actuator_ring s) (sa_host s) (sa_dispatched s).
Definition set_ledger (l : Ledger) (s : AgentSite) : AgentSite :=
  mkAgentSite (sa_ring s) (sa_pinned s) (sa_pubkey s) l (sa_batch s) (sa_report s) (sa_actuator_ring s) (sa_host s)
    (sa_dispatched s).
(** One turn of its loop; a crash comes between the ledger and the dispatch. *)
Definition handle_next (append : Append) (now : DateTime) (crash : bool) (s : AgentSite) : AgentSite :=
  match sa_ring s, sa_report s, sa_batch s with
  | Some ring, None, env :: rest =>
      if crash then restart (set_ledger (process_check env ring append now (sa_ledger s)).2 s)
      else
        let (answer, host) :=
          match (process_check env ring append now (sa_ledger s)).1 with
          | inr _ => send (sa_actuator_ring s) env (sa_host s)
          | inl _ => (Err EmptyString, sa_host s)
          end in
        let '(r, l, sent) := process_command env ring append answer now (sa_ledger s) in
        mkAgentSite (Some ring) (sa_pinned s) (sa_pubkey s) l rest r (sa_actuator_ring s) host (sa_dispatched s ++ sent)
  | _, _, _ => s
  end.
Definition reported (s : AgentSite) : AgentSite :=
  mkAgentSite (sa_ring s) (sa_pinned s) (sa_pubkey s) (sa_ledger s) (sa_batch s) None (sa_actuator_ring s) (sa_host s)
    (sa_dispatched s).
Definition refresh_site (fetched : option string) (persist_ok : bool) (s : AgentSite) : AgentSite :=
  match sa_ring s with
  | None => s
  | Some ring =>
      let (ring, pinned) := refresh_keyring fetched persist_ok (ring, sa_pinned s) in
      mkAgentSite (Some ring) pinned (sa_pubkey s) (sa_ledger s) (sa_batch s) (sa_report s) (sa_actuator_ring s)
        (sa_host s) (sa_dispatched s)
  end.
Definition reload_actuator (file : option string) (s : AgentSite) : AgentSite :=
  mkAgentSite (sa_ring s) (sa_pinned s) (sa_pubkey s) (sa_ledger s) (sa_batch s) (sa_report s)
    (reload_keyring file (sa_actuator_ring s)) (sa_host s) (sa_dispatched s).
Definition set_host (w : W) (s : AgentSite) : AgentSite :=
  mkAgentSite (sa_ring s) (sa_pinned s) (sa_pubkey s) (sa_ledger s) (sa_batch s) (sa_report s) (sa_actuator_ring s)
    (w, (sa_host s).2) (sa_dispatched s).

(** The request that a step makes, if the agent is there and ready for it. *)
Definition idle (s : AgentSite) : bool :=
  match sa_ring s, sa_report s, sa_batch s with Some _, None, [] => true | _, _, _ => false end.
Definition step_control (st : SystemStep) (y : System) : option ControlStep :=
  match st with
  | SysControl c => Some c
  | SysFetch a i req _ => s ← sy_agents y !! a; if idle s then Some (HttpStep i req empty_body) else None
  | SysReport a i req delivered =>
      s ← sy_agents y !! a; r ← sa_report s; if delivered then Some (HttpStep i req (result_to_body r)) else None
  | SysRefresh a i req _ _ => s ← sy_agents y !! a; if idle s then Some (HttpStep i req empty_body) else None
  | _ => None
  end.
(** What the step does to its agent, given the control plane at its start. *)
Definition step_agent (st : SystemStep) (w : World) (s : AgentSite) : AgentSite :=
  match st with
  | SysControl _ => s
  | SysFetch _ i req delivered => if idle s then fetch (served i req empty_body w).1 delivered s else s
  | SysHandle _ append now crash => handle_next append now crash s
  | SysReport _ _ _ _ => reported s
  | SysRefresh _ i req delivered persist_ok =>
      if idle s
      then refresh_site (if delivered then reply_document (served i req empty_body w).1 else None) persist_ok s
      else s
  | SysRestart _ => restart s
  | SysReloadActuator _ file => reload_actuator file s
  | SysHost _ w' => set_host w' s
  end.
Definition step_site (st : SystemStep) : option Uuid :=
  match st with
  | SysControl _ => None
  | SysFetch a _ _ _ | SysHandle a _ _ _ | SysReport a _ _ _ | SysRefresh a _ _ _ _ | SysRestart a
  | SysReloadActuator a _ | SysHost a _ => Some a
  end.
Definition sys_exec (st : SystemStep) (y : System) : System :=
  mkSystem (match step_control st y with Some c => exec c (sy_world y) | None => sy_world y end)
    (match step_site st with Some a => alter (step_agent st (sy_world y)) a (sy_agents y) | None => sy_agents y end).
Definition sys_run (steps : list SystemStep) (y : System) : System := foldl (fun y st => sys_exec st y) y steps.
(** The control plane's part of a run. *)
Fixpoint sys_trace (steps : list SystemStep) (y : System) : list ControlStep :=
  match steps with
  | [] => []
  | st :: steps => option_list (step_control st y) ++ sys_trace steps (sys_exec st y)
  end.
End SystemRun.

(** ** Facts *)

Section SystemFacts.
Context `{SerdeValue} `{Base64} `{Ed25519} `{SerdeJson} `{Rfc3339} `{Jwt} `{Rcgen} `{UL : UuidTextLaws} `{HL : HttpLaws}
  `{!EqDecision Method} `{!Extractors} {W : Type} `{!Host W}.
Variable csr_from_pem : string -> option CertParams.
Variable signed_by : CertParams -> IssuerKey -> option string.
Variable from_timestamp : Z -> option DateTime.
Variable json_parse : string -> result string Json.
Variable json_pretty : Json -> string.
Variable shape_error : Json -> string.
Variable openapi_document : Json.
Variable encode_metrics : World -> string.
Variable unrouted : HttpRequest -> N * string.
Variable envelope_to_json : CommandEnvelope -> string.
Variable parse_envelope : string -> option CommandEnvelope.
Variable result_to_body : ActionResult -> Body.
Variable empty_body : Body.
Variable fuel : nat.
#[local] Abbreviation served := (serve csr_from_pem signed_by from_timestamp json_parse json_pretty shape_error
  openapi_document encode_metrics unrouted).
#[local] Abbreviation exec := (control_exec csr_from_pem signed_by from_timestamp json_parse json_pretty shape_error
  openapi_document encode_metrics unrouted).
#[local] Abbreviation crun := (control_run csr_from_pem signed_by from_timestamp json_parse json_pretty shape_error
  openapi_document encode_metrics unrouted).
#[local] Abbreviation run_h := (run_handler csr_from_pem signed_by from_timestamp json_parse json_pretty shape_error
  openapi_document encode_metrics).
#[local] Abbreviation send := (send_to_actuator envelope_to_json parse_envelope fuel).
#[local] Abbreviation control := (step_control result_to_body empty_body).
#[local] Abbreviation site_step := (step_agent csr_from_pem signed_by from_timestamp json_parse json_pretty shape_error
  openapi_document encode_metrics unrouted envelope_to_json parse_envelope empty_body fuel).
#[local] Abbreviation sexec := (sys_exec csr_from_pem signed_by from_timestamp json_parse json_pretty shape_error
  openapi_document encode_metrics unrouted envelope_to_json parse_envelope result_to_body empty_body fuel).
#[local] Abbreviation srun := (sys_run csr_from_pem signed_by from_timestamp json_parse json_pretty shape_error
  openapi_document encode_metrics unrouted envelope_to_json parse_envelope result_to_body empty_body fuel).
#[local] Abbreviation trace := (sys_trace csr_from_pem signed_by from_timestamp json_parse json_pretty shape_error
  openapi_document encode_metrics unrouted envelope_to_json parse_envelope result_to_body empty_body fuel).
Implicit Types (y : System (W := W)) (s : AgentSite (W := W)) (w : World).

(** *** The control plane *)

(** Where a command may come from: the queue at the start, the policy, or a request of
    an administrator. *)
Definition authority w0 (cs : list ControlStep) (env : CommandEnvelope) : Prop :=
  (exists b, env ∈ pending_for b (as_queue (wl_app w0)))
  \/ (ce_approval_ref env = PolicyAuto /\ automatic (as_policy (wl_app w0)) env)
  \/ exists c, c ∈ cs /\ admin_request (sv_credentials (wl_server w0)) c.
Lemma authority_later w0 cs cs' env : authority w0 cs env -> authority w0 (cs ++ cs') env.
Proof. intros [?|[?|(c & ? & ?)]]; [by left|by right; left|right; right]. exists c. set_solver. Qed.

Record governed w0 (cs : list ControlStep) w : Prop := {
  go_credentials : sv_credentials (wl_server w) = sv_credentials (wl_server w0);
  go_rules : same_rules (as_policy (wl_app w0)) (as_policy (wl_app w));
  go_queue b env : env ∈ pending_for b (as_queue (wl_app w)) -> authority w0 cs env;
}.
Lemma governed_start w : governed w [] w.
Proof. split; [done|done|]. intros b env Hin. left. by exists b. Qed.
Lemma governed_step w0 cs w c :
  auth_enabled (sv_credentials (wl_server w0)) -> governed w0 cs w -> governed w0 (cs ++ [c]) (exec c w).
Proof.
  intros Hen [Hc Hr Hq]. rewrite <-Hc in Hen.
  destruct (step_credentials csr_from_pem signed_by from_timestamp json_parse json_pretty shape_error openapi_document
    encode_metrics unrouted c w Hen) as [Hcred Hrules].
  assert (same_rules (as_policy (wl_app w0)) (as_policy (wl_app (exec c w)))) as Hr'.
  { destruct Hr, Hrules. split; congruence. }
  split; [by rewrite Hcred|done|]. intros b env Hin.
  destruct (step_queue csr_from_pem signed_by from_timestamp json_parse json_pretty shape_error openapi_document
    encode_metrics unrouted c w b env Hen Hin) as [Hold|[[Hp Ha]|Hadm]].
  - by apply authority_later, (Hq b).
  - right. left. split; [done|]. eapply automatic_same_rules; [|exact Ha]. destruct Hr. by split.
  - right. right. exists c. rewrite Hc in Hadm. set_solver.
Qed.

(** The commands in a reply were waiting for an agent. *)
Lemma handler_commands h i req body captured role w envs :
  (run_h h i req body captured role w).1 = RemediationReply (JsonCommands envs) ->
  exists b, envs = pending_for b (as_queue (wl_app w)).
Proof.
  assert (forall {A} (r : result (N * string) A) k,
    (forall a, (k a).1 = RemediationReply (JsonCommands envs) -> exists b, envs = pending_for b (as_queue (wl_app w))) ->
    (extracting r w k).1 = RemediationReply (JsonCommands envs) -> exists b, envs = pending_for b (as_queue (wl_app w))) as Hext.
  { intros A r k Hk. by destruct r as [a|[status msg]]; [apply Hk|]. }
  destruct h; cbn [run_handler]; try done; repeat (apply Hext; intros ?); try done.
  all: try (unfold api_list_events, api_list_agents, api_get_agent, api_delete_agent, put_labels, api_list_categories,
    api_topology, metrics, api_enroll, api_ingest, api_get_settings, api_put_settings, on_app, post_command_result,
    api_approve_remediation, api_reject_remediation; intros Hr; repeat case_match; simplify_eq/=; done).
  { unfold put_labels. intros Hr. repeat case_match; simplify_eq/=; try done; unfold api_get_agent in *; repeat case_match; simplify_eq/=. }
  unfold on_app, get_commands. pose proof (taken_pending a (as_queue (wl_app w))) as Ht.
  destruct (take_for a (as_queue (wl_app w))) as [l q]. cbn in *. intros [= <-]. by exists a.
Qed.
Lemma served_commands i req body w env :
  env ∈ reply_commands (served i req body w).1 -> exists b, env ∈ pending_for b (as_queue (wl_app w)).
Proof.
  assert (forall methods captured role, env ∈ reply_commands (dispatch_route csr_from_pem signed_by from_timestamp json_parse
    json_pretty shape_error openapi_document encode_metrics methods captured i req body role w).1 ->
    exists b, env ∈ pending_for b (as_queue (wl_app w))) as Hroute.
  { intros methods captured role. unfold dispatch_route. destruct (method_handler methods _) as [h|]; [|by intros ?%elem_of_nil].
    pose proof (handler_commands h i req body captured role w) as Hh.
    destruct (run_h h i req body captured role w) as [r w']. cbn in Hh |- *.
    case_bool_decide; [by intros ?%elem_of_nil|]. destruct r as [| | | | | | | | |r| | | |]; try by intros ?%elem_of_nil.
    destruct r; try by intros ?%elem_of_nil. intros Hin. destruct (Hh _ eq_refl) as [b ->]. by exists b. }
  unfold serve. destruct (find_route system_router _) as [[methods captured]|]; [by apply Hroute|].
  destruct (find_route stateful_router _) as [[methods captured]|]; [|by intros ?%elem_of_nil].
  destruct (auth_mw _ _); [by apply Hroute|by intros ?%elem_of_nil..].
Qed.

(** *** The agents *)

(** The capability is one that the actuator may run for the envelope on its socket. *)
Definition executes (env : CommandEnvelope) (c : Capability) : Prop :=
  exists env' ring t, parse_envelope (trim (envelope_to_json env +:+ newline)) = Some env'
    /\ verify_envelope_with ring env' t = Ok tt /\ valid_target c /\ authorised env' c.

Lemma handle_executes ring env (w : W) l o (w' : W) l' :
  handle_command fuel ring env (w, l) = (o, (w', l')) ->
  exists k, l' = l ++ k /\ Forall (fun e => (exists t, verify_envelope_with ring env t = Ok tt)
    /\ valid_target e.1 /\ authorised env e.1) k.
Proof.
  destruct (handle_command_spec fuel ring env w l) as (o1 & w1 & k & -> & _ & Hspec). intros [= <- <- <-]. exists k. split; [done|].
  destruct Hspec as [(_ & -> & _)|(Hv & Hf & Ht)]; [constructor|]. apply first_invalid_None in Hf. apply command_trace_auth in Ht.
  eapply Forall_impl; [exact Ht|]. cbn. intros [c a] Hc. cbn in Hc |- *. split_and!; [by eexists| |done].
  destruct Hc as [Hc|[-> _]]; [|done]. rewrite Forall_forall in Hf. by apply Hf.
Qed.
Lemma send_executes ring env (w : W) l ans (w' : W) l' :
  send ring env (w, l) = (ans, (w', l')) -> exists k, l' = l ++ k /\ Forall (fun e => executes env e.1) k.
Proof.
  assert (forall x : result string ActionResult * (W * Log), x.2 = (w, l) -> x = (ans, (w', l')) ->
    exists k, l' = l ++ k /\ Forall (fun e => executes env e.1) k) as Hsame.
  { intros [x1 x2] Hx [= -> ->]. cbn in Hx. injection Hx as -> ->. exists []. by rewrite app_nil_r. }
  unfold send_to_actuator, handle_connection. destruct (envelope_to_json env +:+ newline) as [|ch line] eqn:Hl; [by apply Hsame|].
  destruct (parse_envelope (trim (String ch line))) as [env'|] eqn:Hp; [|by apply Hsame].
  destruct (envelope_contains_kube_capability env'); [by apply Hsame|].
  unfold mbind, M_bind. destruct (handle_command fuel ring env' (w, l)) as [o [w1 l1]] eqn:Hc.
  destruct (handle_executes _ _ _ _ _ _ _ Hc) as (k & -> & Hk). intros Hs.
  assert (w1 = w' /\ l ++ k = l') as [-> <-] by (destruct o; by injection Hs as _ -> ->).
  exists k. split; [done|]. eapply Forall_impl; [exact Hk|]. intros e ([t Ht] & Hv & Ha). exists env', ring, t. by rewrite Hl.
Qed.

Record site_safe (P : CommandEnvelope -> Prop) s : Prop := {
  si_batch : Forall P (sa_batch s);
  si_dispatched : Forall P (sa_dispatched s);
  si_log c a : (c, a) ∈ (sa_host s).2 -> exists env, env ∈ sa_dispatched s /\ executes env c;
}.
Lemma site_safe_weaken (P Q : CommandEnvelope -> Prop) s : (forall env, P env -> Q env) -> site_safe P s -> site_safe Q s.
Proof. intros HPQ [Hb Hd Hl]. split; [by eapply Forall_impl|by eapply Forall_impl|done]. Qed.
(** A site with the host and the dispatched envelopes of another. *)
Lemma site_safe_other P s s' :
  Forall P (sa_batch s') -> sa_dispatched s' = sa_dispatched s -> (sa_host s').2 = (sa_host s).2 -> site_safe P s -> site_safe P s'.
Proof. intros Hb Hd Hl [_ Hd' Hl']. split; [done|by rewrite Hd|by rewrite Hd, Hl]. Qed.

Lemma handle_safe P append now crash s : site_safe P s -> site_safe P (handle_next envelope_to_json parse_envelope fuel append now crash s).
Proof.
  intros Hs. unfold handle_next. destruct (sa_ring s) as [ring|]; [|done]. destruct (sa_report s); [done|].
  destruct (sa_batch s) as [|env rest] eqn:Hb; [done|]. destruct crash; [by apply (site_safe_other P s); [constructor|..]|].
  destruct Hs as [Hbatch Hd Hl]. rewrite Hb in Hbatch. apply Forall_cons in Hbatch as [He Hrest].
  unfold process_command. destruct (process_check env ring append now (sa_ledger s)) as [[r|[]] l]; cbn [fst].
  - rewrite app_nil_r. by split.
  - destruct (sa_host s) as [w log] eqn:Hh. destruct (send (sa_actuator_ring s) env (w, log)) as [ans [w' log']] eqn:Hs.
    destruct (send_executes _ _ _ _ _ _ _ Hs) as (k & -> & Hk). split; cbn.
    + done.
    + apply Forall_app. split; [done|]. by apply Forall_singleton.
    + intros c a [Hin|Hin]%elem_of_app.
      * destruct (Hl c a Hin) as (x & Hx & Hc). exists x. split; [|done]. apply elem_of_app. by left.
      * rewrite Forall_forall in Hk. exists env. split; [|by apply (Hk (c, a))]. apply elem_of_app. right. by left.
Qed.
Lemma step_safe P st w s :
  (forall i req body env, env ∈ reply_commands (served i req body w).1 -> P env) -> site_safe P s -> site_safe P (site_step st w s).
Proof.
  intros Hp Hs. destruct st as [c|a i req d|a app now crash|a i req d|a i req d ok|a|a file|a w']; cbn [step_agent].
  - done.
  - destruct (idle s); [|done]. apply (site_safe_other P s); [|done..]. cbn. destruct d; [|constructor].
    apply Forall_forall. intros env. apply Hp.
  - by apply handle_safe.
  - by apply (site_safe_other P s); [apply Hs|..].
  - destruct (idle s); [|done]. unfold refresh_site. destruct (sa_ring s); [|done]. destruct (refresh_keyring _ _ _).
    by apply (site_safe_other P s); [apply Hs|..].
  - by apply (site_safe_other P s); [constructor|..].
  - by apply (site_safe_other P s); [apply Hs|..].
  - by apply (site_safe_other P s); [apply Hs|..].
Qed.

(** *** The whole *)

Record system_safe w0 (cs : list ControlStep) y : Prop := {
  sf_world : governed w0 cs (sy_world y);
  sf_sites a s : sy_agents y !! a = Some s -> site_safe (authority w0 cs) s;
}.
Lemma exec_safe w0 cs st y :
  auth_enabled (sv_credentials (wl_server w0)) -> system_safe w0 cs y ->
  system_safe w0 (cs ++ option_list (control st y)) (sexec st y).
Proof.
  intros Hen [Hw Hs]. split.
  - cbn. destruct (control st y) as [c|]; cbn; [by apply governed_step|by rewrite app_nil_r].
  - assert (forall a s, sy_agents y !! a = Some s -> site_safe (authority w0 (cs ++ option_list (control st y))) s) as Hs'.
    { intros a s Ha. eapply site_safe_weaken; [|by eapply Hs]. intros env. apply authority_later. }
    intros a s Ha. cbn in Ha. destruct (step_site st) as [b|]; [|by eapply Hs'].
    destruct (decide (a = b)) as [->|Hne]; [|rewrite lookup_alter_ne in Ha by done; by eapply Hs'].
    rewrite lookup_alter_eq in Ha. apply fmap_Some in Ha as (s0 & Ha & ->). apply step_safe; [|by eapply Hs'].
    intros i req body env Hin. apply authority_later. destruct (served_commands _ _ _ _ _ Hin) as [x Hx]. by eapply go_queue.
Qed.
Lemma run_safe w0 cs steps y :
  auth_enabled (sv_credentials (wl_server w0)) -> system_safe w0 cs y -> system_safe w0 (cs ++ trace steps y) (srun steps y).
Proof.
  intros Hen. revert cs y. induction steps as [|st steps IH]; intros cs y Hy; [by rewrite app_nil_r|].
  cbn [sys_trace]. rewrite app_assoc. apply (IH (cs ++ option_list (control st y)) (sexec st y)). by apply exec_safe.
Qed.
(** The control plane's part is a run of the control plane. *)
Lemma run_world steps y : sy_world (srun steps y) = crun (trace steps y) (sy_world y).
Proof.
  revert y. induction steps as [|st steps IH]; intros y; [done|]. cbn [sys_trace].
  change (srun (st :: steps) y) with (srun steps (sexec st y)). rewrite IH. cbn. unfold control_run. rewrite foldl_app.
  by destruct (control st y).
Qed.

(** *** At most once *)

(** The ledger lists what was dispatched, and nothing it listed at the start is. *)
Definition once (ids0 : list Uuid) s : Prop :=
  exists ids, ledger_wf (sa_ledger s) (ids0 ++ ids) /\ NoDup (map ce_command_id (sa_dispatched s))
    /\ Forall (fun env => ce_command_id env ∈ ids /\ ce_command_id env ∉ ids0) (sa_dispatched s).
(** No append of the ledger leaves part of a line. *)
Definition clean_step (st : SystemStep (W := W)) : Prop :=
  match st with SysHandle _ append _ _ => append = Wrote \/ append = Torn 0 | _ => True end.

Lemma once_same ids0 s s' : sa_ledger s' = sa_ledger s -> sa_dispatched s' = sa_dispatched s -> once ids0 s -> once ids0 s'.
Proof. intros Hl Hd (ids & Hwf & Hrest). exists ids. by rewrite Hl, Hd. Qed.
Lemma once_restart ids0 s : once ids0 s -> once ids0 (restart s).
Proof.
  intros (ids & [Hd _] & Hrest). exists ids. split; [|done]. cbn. rewrite Hd. apply ledger_load_wf.
Qed.
Lemma once_ledger ids0 ids ids' s l :
  ledger_wf l (ids0 ++ ids ++ ids') -> NoDup (map ce_command_id (sa_dispatched s)) ->
  Forall (fun env => ce_command_id env ∈ ids /\ ce_command_id env ∉ ids0) (sa_dispatched s) -> once ids0 (set_ledger l s).
Proof.
  intros Hl Hnd Hf. exists (ids ++ ids'). split_and!; [done|done|]. eapply Forall_impl; [exact Hf|]. cbn. set_solver.
Qed.
Lemma handle_once ids0 append now crash s :
  append = Wrote \/ append = Torn 0 -> once ids0 s ->
  once ids0 (handle_next envelope_to_json parse_envelope fuel append now crash s).
Proof.
  intros Hclean Ho. unfold handle_next. destruct (sa_ring s) as [ring|]; [|done]. destruct (sa_report s); [done|].
  destruct (sa_batch s) as [|env rest]; [done|]. pose proof Ho as (ids & Hwf & Hnd & Hf). unfold process_command.
  destruct (process_check env ring append now (sa_ledger s)) as [x l] eqn:Hp.
  destruct (process_check_wf _ _ _ _ _ _ _ _ Hwf Hclean Hp) as (ids' & Hwf' & Hx). rewrite <-app_assoc in Hwf'.
  destruct crash; cbn [fst snd].
  - apply once_restart. by eapply once_ledger.
  - destruct x as [r|[]].
    + rewrite app_nil_r. apply (once_same _ (set_ledger l s)); [done..|]. by eapply once_ledger.
    + destruct (send _ _ _) as [ans host]. destruct (Hx eq_refl) as (-> & Hnew & _).
      exists (ids ++ [ce_command_id env]). split; [done|]. cbn. rewrite map_app. cbn. split.
      * apply NoDup_app. split_and!; [done| |apply NoDup_singleton]. intros id Hid ->%list_elem_of_singleton.
        apply list_elem_of_fmap in Hid as (e & He & Hin). rewrite Forall_forall in Hf. destruct (Hf e Hin) as [Hi _].
        rewrite He in Hnew. set_solver.
      * apply Forall_app. split; [|apply Forall_singleton; set_solver]. eapply Forall_impl; [exact Hf|]. cbn. set_solver.
Qed.
Lemma step_once ids0 st w s : clean_step st -> once ids0 s -> once ids0 (site_step st w s).
Proof.
  intros Hc Ho. destruct st as [c|a i req d|a app now crash|a i req d|a i req d ok|a|a file|a w']; cbn [step_agent]; try done.
  - by destruct (idle s); [apply (once_same _ s)|].
  - by apply handle_once.
  - destruct (idle s); [|done]. unfold refresh_site. destruct (sa_ring s); [|done]. destruct (refresh_keyring _ _ _).
    by apply (once_same _ s).
  - by apply once_restart.
Qed.
Lemma run_once a ids0 steps y :
  Forall clean_step steps -> (forall s, sy_agents y !! a = Some s -> once ids0 s) ->
  forall s, sy_agents (srun steps y) !! a = Some s -> once ids0 s.
Proof.
  intros Hc. revert y. induction Hc as [|st steps Hst Hc IH]; intros y Hy; [done|]. apply (IH (sexec st y)). intros s Hs. cbn in Hs.
  destruct (step_site st) as [b|]; [|by apply Hy]. destruct (decide (a = b)) as [->|Hne].
  - rewrite lookup_alter_eq in Hs. apply fmap_Some in Hs as (s0 & Ha & ->). apply step_once; [done|by apply Hy].
  - rewrite lookup_alter_ne in Hs by done. by apply Hy.
Qed.

(** An agent at its start, before the first fetch. *)
Definition fresh_site (ids0 : list Uuid) s : Prop :=
  sa_batch s = [] /\ sa_dispatched s = [] /\ (sa_host s).2 = [] /\ sa_ledger s = ledger_load (Some (ledger_text ids0)).

End SystemFacts.

(** ** A concrete system *)

(** Two agents: the one of a fault, whose remediation an administrator approves, and one
    with a command for its host that waits since before the run. *)
Definition approved_envelope : option CommandEnvelope := head (pending_for 9 (as_queue (wl_app approval_run))).
Definition example_line (env : CommandEnvelope) : string :=
  if N.eqb (ce_command_id env) (ce_command_id signed_example) then "h"%string else "k"%string.
Definition example_parse (line : string) : option CommandEnvelope :=
  if String.eqb line "h" then Some signed_example else approved_envelope.
Definition example_site : AgentSite (W := ToyWorld) :=
  mkAgentSite (Some toy_ring) None (Some (verifying_key_to_b64 (verifying_key key_a)))
    (ledger_load (Some (ledger_text [3%N]))) [] None toy_ring (toy_start, []) [].
Definition example_system : System (W := ToyWorld) :=
  let s := example_state [] true in
  mkSystem (example_world (set_queue (enqueue signed_example (as_queue s)) s))
    (<[1%N := example_site]> {[ 9%N := example_site ]}).
Definition example_fetch (path : string) : HttpRequest := ApiAuth.mkRequest ToyGet path None (Some "Bearer root"%string).
Definition example_steps : list (SystemStep (W := ToyWorld)) :=
  let fetch_1 n := SysFetch 1 (example_api n) (example_fetch "/agents/1/commands") true in
  let fetch_9 n := SysFetch 9 (example_api n) (example_fetch "/agents/9/commands") true in
  map SysControl (take 2 approval_steps)
  ++ [fetch_1 3%N; SysControl (HttpStep (example_api 2) (approve_request "dev,sre") EmptyString); SysHandle 1 Wrote 5 false;
      fetch_9 4%N; SysReport 1 (example_api 4) (example_fetch "/") false; SysHandle 9 Wrote 5 false; SysRestart 1; fetch_1 5%N;
      SysHandle 1 Wrote 6 false].
Definition no_body : Body := EmptyString.
Definition example_run : System (W := ToyWorld) :=
  sys_run (fun _ => None) (fun _ _ => None) (fun _ => None) secret_parse (fun _ => "{...}"%string)
    (fun _ => "invalid type"%string) JNull (fun _ => EmptyString) (fun _ => (404%N, EmptyString))
    example_line example_parse (fun _ => no_body) no_body 5 example_steps example_system.

