(* ===== verification/EvalRubric.v ===== *)
(** * The quality rubric of the evaluation ([ravn-eval/src/fixtures.rs], [rubric.rs])

  The score of an explanation against an event and its reference, in [f64]: how many
  of the salient facts it names, how many traps it trips, how specific the check is.
  The theorems are about the numbers the program computes, rounding included: every
  component and every total lies between 0 and 1, and full marks for faithfulness
  mean that every fact was named and no trap tripped.

  The case mapping of [str::to_lowercase] is Unicode's and is a parameter. *)

From S2P Require Export Floats Event.
From Stdlib Require Import QArith Lqa.
From S2P Require Import FloatFacts.
Local Close Scope Q_scope.

(** ** Fixtures *)

Inductive Category := CatFailedUnit | CatOomKill | CatAuthAnomaly | CatConfigDrift.
#[export] Instance category_eq_dec : EqDecision Category.
Proof. solve_decision. Defined.
Definition category_label (c : Category) : string :=
  match c with
  | CatFailedUnit => "failed unit"
  | CatOomKill => "OOM kill"
  | CatAuthAnomaly => "auth anomaly"
  | CatConfigDrift => "config drift"
  end.

Record Reference := mkReference {
  rf_category : Category;
  rf_reference_explanation : string;
  rf_must_mention : list string;
  rf_forbidden : list string;
  rf_expected_check : option string;
  rf_check_keywords : list string;
}.

(** ** Scores *)

Record Score := mkScore {
  sc_non_empty : bool;
  sc_grounded : F64;
  sc_no_hallucination : F64;
  sc_has_check : bool;
  sc_check_specificity : F64;
  sc_length_ok : bool;
}.
Definition f64_half : F64 := f64_ratio 1 2.
Definition faithfulness (s : Score) : F64 :=
  if negb (sc_non_empty s) then f64_zero
  else f64_add (f64_mul f64_half (sc_grounded s)) (f64_mul f64_half (sc_no_hallucination s)).
Definition actionability (s : Score) : F64 :=
  if negb (sc_has_check s) then f64_zero else f64_add f64_half (f64_mul f64_half (sc_check_specificity s)).
Definition overall (s : Score) : F64 :=
  if negb (sc_non_empty s) then f64_zero
  else f64_add (f64_add (f64_mul (f64_ratio 6 10) (faithfulness s)) (f64_mul (f64_ratio 3 10) (actionability s)))
         (f64_mul (f64_ratio 1 10) (f64_of_bool (sc_length_ok s))).

Section Rubric.
Context `{SerdeValue}.
Variable to_lowercase : string -> string.

Definition salient_tokens (event : Event) : list string :=
  let tokens := ev_host event ::
    match ev_payload event with
    | Journald p => option_list (jd_unit p)
    | FailedUnit p => [fu_unit p; fu_result p]
    | ConfigDrift p => [default (cd_path p) (last (split_on (is_byte 47) (cd_path p)))]
    | Auth p => au_action p :: option_list (au_user p) ++ option_list (au_remote_addr p)
    | Update p => up_mechanism p :: option_list (up_to p)
    | KubeWorkload p => [kw_namespace p; kw_name p; kw_reason p]
    | KubeNode p => [kn_node p; kn_condition p]
    | CircuitBreakerTrip p => [cb_template_id p; cb_host p]
    end in
  List.filter (fun t => negb (is_empty (trim t))) tokens.

Definition hits (haystack : string) (needles : list string) : nat :=
  length (List.filter (fun n => contains (to_lowercase n) haystack) needles).
(** [n as f64 / d as f64]. *)
Definition fraction (n d : nat) : F64 := f64_div (f64_of_nat n) (f64_of_nat d).

(** [retain(|t| seen.insert(t.to_lowercase()))]. *)
Fixpoint retain_new (seen : gset string) (l : list string) : list string :=
  match l with
  | [] => []
  | t :: l => if bool_decide (to_lowercase t ∈ seen) then retain_new seen l
              else t :: retain_new ({[to_lowercase t]} ∪ seen) l
  end.
Definition anchors (event : Event) (r : Reference) : list string :=
  retain_new ∅ (salient_tokens event ++ rf_must_mention r).

Definition score (event : Event) (r : Reference) (explanation : string) (suggested_check : option string) : Score :=
  let text := trim explanation in
  let explanation_lc := to_lowercase explanation in
  let check_lc := to_lowercase (default EmptyString suggested_check) in
  let haystack := explanation_lc +:+ " " +:+ check_lc in
  let anchors := anchors event r in
  let has_check := match suggested_check with Some c => negb (is_empty (trim c)) | None => false end in
  {| sc_non_empty := negb (is_empty text);
     sc_grounded := match anchors with [] => f64_one | _ => fraction (hits haystack anchors) (length anchors) end;
     sc_no_hallucination :=
       match rf_forbidden r with
       | [] => f64_one
       | l => f64_sub f64_one (fraction (hits explanation_lc l) (length l))
       end;
     sc_has_check := has_check;
     sc_check_specificity :=
       match rf_check_keywords r with
       | [] => f64_of_bool has_check
       | l => if has_check then fraction (hits check_lc l) (length l) else f64_zero
       end;
     sc_length_ok := (20 <=? char_count text) && (char_count text <=? 600) |}.
End Rubric.

(** ** The numbers *)

(** Between 0 and 1; and not quite 1. *)
Definition unit_f64 (x : F64) : Prop := nonneg x /\ (val x <= 1)%Q.
Definition tiny : Q := (1 # 1125899906842624)%Q.
Definition below_one (x : F64) : Prop := nonneg x /\ (val x <= 1 - tiny)%Q.

Lemma half_val : nonneg f64_half /\ (val f64_half == 1 # 2)%Q.
Proof. split; by vm_compute. Qed.

Lemma of_nat_exact (n : nat) :
  (Z.of_nat n <= 2 ^ 53)%Z -> nonneg (f64_of_nat n) /\ (val (f64_of_nat n) == inject_Z (Z.of_nat n))%Q.
Proof. intros Hn. apply f64_of_Z_exact. lia. Qed.

Lemma of_nat_le (a b : nat) : a <= b -> (inject_Z (Z.of_nat a) <= inject_Z (Z.of_nat b))%Q.
Proof. intros Hab. rewrite <-Zle_Qle. lia. Qed.

Section Fractions.
Variables h n : nat.
Hypothesis Hn : 0 < n.
Hypothesis Hh : h <= n.
Hypothesis Hsmall : (Z.of_nat n <= 2 ^ 50)%Z.

Lemma fraction_rounded :
  rounded (inject_Z (Z.of_nat h) / inject_Z (Z.of_nat n)) (fraction h n) /\ (1 <= inject_Z (Z.of_nat n))%Q.
Proof.
  destruct (of_nat_exact h) as [Hx Hxv]; [lia|]. destruct (of_nat_exact n) as [Hy Hyv]; [lia|].
  pose proof (of_nat_le 1 n Hn) as H1. change (inject_Z (Z.of_nat 1)) with 1%Q in H1. split; [|done].
  apply (rounded_proper (val (f64_of_nat h) / val (f64_of_nat n))); [by rewrite Hxv, Hyv|].
  apply f64_div_rounded; [done|done|]. rewrite Hyv. lra.
Qed.

Lemma quotient_le (c : Q) :
  (inject_Z (Z.of_nat h) <= c * inject_Z (Z.of_nat n))%Q -> (inject_Z (Z.of_nat h) / inject_Z (Z.of_nat n) <= c)%Q.
Proof. intros Hc. destruct fraction_rounded as [_ H1]. apply Qle_shift_div_r; lra. Qed.
Lemma quotient_ge (c : Q) :
  (c * inject_Z (Z.of_nat n) <= inject_Z (Z.of_nat h))%Q -> (c <= inject_Z (Z.of_nat h) / inject_Z (Z.of_nat n))%Q.
Proof. intros Hc. destruct fraction_rounded as [_ H1]. apply Qle_shift_div_l; lra. Qed.

Lemma fraction_unit : unit_f64 (fraction h n).
Proof.
  destruct fraction_rounded as [Hr H1]. destruct one_val as [Ho Hov]. pose proof (of_nat_le h n Hh).
  destruct (rounded_below _ _ f64_one Hr Ho) as (Hx & Hle & _).
  - rewrite Hov. apply quotient_le. lra.
  - split; [done|lra].
Qed.

(** All of them, and not all of them. *)
Lemma fraction_full : h = n -> (val (fraction h n) == 1)%Q.
Proof.
  intros He. destruct fraction_rounded as [Hr H1]. destruct one_val as [Ho Hov]. rewrite <-Hov.
  apply rounded_exact; [|done]. eapply rounded_proper; [|exact Hr]. rewrite Hov, He. field. lra.
Qed.

Lemma fraction_partial : h < n -> below_one (fraction h n).
Proof.
  intros Hlt. destruct fraction_rounded as [Hr H1]. pose proof (of_nat_le (S h) n Hlt) as H2.
  rewrite Nat2Z.inj_succ, <-Z.add_1_l, inject_Z_plus in H2. change (inject_Z 1) with 1%Q in H2.
  assert (inject_Z (Z.of_nat n) <= 1125899906842624 # 1)%Q as H3 by (change (1125899906842624 # 1)%Q with (inject_Z (2 ^ 50)); by rewrite <-Zle_Qle).
  set (b := f64_ratio 1125899906842623 1125899906842624).
  assert (nonneg b /\ (val b == 1 - tiny)%Q) as [Hb Hbv] by (split; by vm_compute).
  destruct (rounded_below _ _ b Hr Hb) as (Hx & Hle & _).
  - rewrite Hbv. apply quotient_le. unfold tiny. lra.
  - split; [done|lra].
Qed.

Lemma fraction_some : 0 < h -> (tiny <= val (fraction h n))%Q.
Proof.
  intros Hpos. destruct fraction_rounded as [Hr H1]. destruct fraction_unit as [Hx _].
  pose proof (of_nat_le 1 h Hpos) as H2. change (inject_Z (Z.of_nat 1)) with 1%Q in H2.
  assert (inject_Z (Z.of_nat n) <= 1125899906842624 # 1)%Q as H3 by (change (1125899906842624 # 1)%Q with (inject_Z (2 ^ 50)); by rewrite <-Zle_Qle).
  set (b := f64_ratio 1 1125899906842624).
  assert (nonneg b /\ (val b == tiny)%Q) as [Hb Hbv] by (split; by vm_compute).
  rewrite <-Hbv. apply (rounded_above _ _ b Hr Hx Hb). rewrite Hbv. apply quotient_ge.
  unfold tiny. lra.
Qed.
End Fractions.

(** ** The totals *)

Section Totals.
Local Open Scope Q_scope.

Lemma mul_unit (c x : F64) : nonneg c -> unit_f64 x -> nonneg (f64_mul c x) /\ val (f64_mul c x) <= val c.
Proof.
  intros Hc [Hx Hx1]. pose proof (f64_mul_rounded c x Hc Hx) as Hr. pose proof (val_nonneg _ Hc).
  pose proof (val_nonneg _ Hx). destruct (rounded_below _ _ c Hr Hc) as (H1 & H2 & _); [nra|done].
Qed.

Lemma half_full (x : F64) : nonneg x -> val x == 1 -> nonneg (f64_mul f64_half x) /\ val (f64_mul f64_half x) == 1 # 2.
Proof.
  intros Hx Hx1. destruct half_val as [Hh Hhv]. rewrite <-Hhv. apply rounded_exact; [|done].
  eapply rounded_proper; [|by apply f64_mul_rounded]. rewrite Hx1. ring.
Qed.

(** Halving what is not quite one gives not quite a half. *)
Lemma half_partial (x : F64) :
  below_one x -> nonneg (f64_mul f64_half x) /\ val (f64_mul f64_half x) <= (1 # 2) - (1 # 2251799813685248).
Proof.
  intros [Hx Hx1]. destruct half_val as [Hh Hhv]. pose proof (f64_mul_rounded _ _ Hh Hx) as Hr.
  set (b := f64_ratio 1125899906842623 2251799813685248).
  assert (nonneg b /\ val b == (1 # 2) - (1 # 2251799813685248)) as [Hb Hbv] by (split; by vm_compute).
  destruct (rounded_below _ _ b Hr Hb) as (H1 & H2 & _).
  - rewrite Hbv, Hhv. unfold tiny in Hx1. lra.
  - split; [done|lra].
Qed.

Lemma sum_unit (x y : F64) :
  nonneg x -> nonneg y -> val x + val y <= 1 -> unit_f64 (f64_add x y).
Proof.
  intros Hx Hy Hs. destruct one_val as [Ho Hov].
  destruct (rounded_below _ _ f64_one (f64_add_rounded _ _ Hx Hy) Ho) as (H1 & H2 & _); [lra|].
  split; [done|lra].
Qed.

Lemma sum_partial (x y : F64) :
  nonneg x -> nonneg y -> val x + val y <= 1 - (1 # 2251799813685248) -> ~ val (f64_add x y) == 1.
Proof.
  intros Hx Hy Hs. set (b := f64_ratio 2251799813685247 2251799813685248).
  assert (nonneg b /\ val b == 1 - (1 # 2251799813685248)) as [Hb Hbv] by (split; by vm_compute).
  destruct (rounded_below _ _ b (f64_add_rounded _ _ Hx Hy) Hb) as (H1 & H2 & _); lra.
Qed.

(** Faithfulness is one exactly when both of its parts are; a part is one, or clearly
    below it. *)
Lemma faithfulness_spec (s : Score) :
  unit_f64 (sc_grounded s) -> unit_f64 (sc_no_hallucination s) ->
  (val (sc_grounded s) == 1 \/ below_one (sc_grounded s)) ->
  (val (sc_no_hallucination s) == 1 \/ below_one (sc_no_hallucination s)) ->
  unit_f64 (faithfulness s)
  /\ (val (faithfulness s) == 1
      <-> sc_non_empty s = true /\ val (sc_grounded s) == 1 /\ val (sc_no_hallucination s) == 1).
Proof.
  intros Hg Hn Hgc Hnc. unfold faithfulness. destruct (sc_non_empty s); cbn [negb].
  2:{ split; [split; [done|by vm_compute]|]. split; [intros H; by vm_compute in H|by intros [? _]]. }
  destruct half_val as [Hh Hhv]. destruct (mul_unit _ _ Hh Hg) as [Hg0 Hg1]. destruct (mul_unit _ _ Hh Hn) as [Hn0 Hn1].
  split; [apply sum_unit; [done|done|lra]|]. split.
  - intros Hone. split; [done|]. split.
    + destruct Hgc as [|Hgp]; [done|]. exfalso. destruct (half_partial _ Hgp) as [_ Hgb].
      by apply (sum_partial _ _ Hg0 Hn0); [lra|].
    + destruct Hnc as [|Hnp]; [done|]. exfalso. destruct (half_partial _ Hnp) as [_ Hnb].
      by apply (sum_partial _ _ Hg0 Hn0); [lra|].
  - intros (_ & Hg2 & Hn2). destruct (half_full _ (proj1 Hg) Hg2) as [_ Hga]. destruct (half_full _ (proj1 Hn) Hn2) as [_ Hnb].
    destruct one_val as [Ho Hov]. rewrite <-Hov. apply rounded_exact; [|done].
    eapply rounded_proper; [|by apply f64_add_rounded]. rewrite Hov. lra.
Qed.

Lemma actionability_unit (s : Score) : unit_f64 (sc_check_specificity s) -> unit_f64 (actionability s).
Proof.
  intros Hc. unfold actionability. destruct (sc_has_check s); cbn [negb]; [|split; [done|by vm_compute]].
  destruct half_val as [Hh Hhv]. destruct (mul_unit _ _ Hh Hc) as [Hc0 Hc1]. apply sum_unit; [done|done|lra].
Qed.

(** The weights: their sum, rounded as it is computed, is at most one. *)
Lemma overall_unit (s : Score) : unit_f64 (faithfulness s) -> unit_f64 (actionability s) -> unit_f64 (overall s).
Proof.
  intros Hf Ha. unfold overall. destruct (sc_non_empty s); cbn [negb]; [|split; [done|by vm_compute]].
  set (w6 := f64_ratio 6 10). set (w3 := f64_ratio 3 10). set (w1 := f64_ratio 1 10).
  assert (nonneg w6 /\ nonneg w3 /\ nonneg w1) as (H6 & H3 & H1) by (split_and!; by vm_compute).
  destruct (mul_unit _ _ H6 Hf) as [Hf0 Hf1]. destruct (mul_unit _ _ H3 Ha) as [Ha0 Ha1].
  assert (unit_f64 (f64_of_bool (sc_length_ok s))) as Hl by (destruct (sc_length_ok s); split; by vm_compute).
  destruct (mul_unit _ _ H1 Hl) as [Hl0 Hl1]. pose proof (f64_add_rounded _ _ Hf0 Ha0) as Hs.
  set (b := f64_add w6 w3).
  assert (nonneg b /\ Z.even (mant b) = true /\ val w6 + val w3 == halfway (mant b) (expo b)
    /\ val b + val w1 <= 1) as (Hb & Hev & Hmid & Hsum) by (split_and!; by vm_compute).
  destruct (rounded_half _ _ b Hs Hb) as [Hs0 Hs1].
  { destruct (Qlt_le_dec (val (f64_mul w6 (faithfulness s)) + val (f64_mul w3 (actionability s)))
      (halfway (mant b) (expo b))) as [|Hge]; [by left|right]. split; [|done]. lra. }
  apply sum_unit; [done|done|lra].
Qed.
End Totals.

(** ** What is counted *)

Section Counting.
Context `{SerdeValue}.
Variable to_lowercase : string -> string.

Lemma filter_length_all {A} (p : A -> bool) (l : list A) :
  length (List.filter p l) <= length l
  /\ (length (List.filter p l) = length l <-> Forall (fun x => p x = true) l)
  /\ (length (List.filter p l) = 0 <-> Forall (fun x => p x = false) l).
Proof.
  induction l as [|x l (Hle & Hall & Hno)]; cbn; [by split_and!|]. rewrite !Forall_cons, <-Hall, <-Hno.
  destruct (p x); cbn; split_and!; try lia; split; try (intros [? ?]); try (intros ?); try split; try done; lia.
Qed.

Lemma retain_new_spec (P : string -> Prop) (l : list string) (seen : gset string) :
  length (retain_new to_lowercase seen l) <= length l
  /\ ((forall k, k ∈ seen -> P k) ->
      Forall (fun t => P (to_lowercase t)) (retain_new to_lowercase seen l) <-> Forall (fun t => P (to_lowercase t)) l).
Proof.
  revert seen. induction l as [|t l IH]; intros seen; cbn; [done|].
  case_bool_decide as Hin.
  - destruct (IH seen) as [Hle Hiff]. split; [lia|]. intros Hs. rewrite (Hiff Hs), Forall_cons. split; [|by intros [_ ?]].
    intros Hl. split; [by apply Hs|done].
  - destruct (IH ({[to_lowercase t]} ∪ seen)) as [Hle Hiff]. cbn. split; [lia|]. intros Hs. rewrite !Forall_cons.
    split; intros [Ht Hl]; split; try done; apply Hiff; try done;
      (intros k [->%elem_of_singleton|Hk]%elem_of_union; [done|by apply Hs]).
Qed.

Lemma salient_few (e : Event) : length (salient_tokens e) <= 4.
Proof.
  unfold salient_tokens. etrans; [apply filter_length_all|].
  destruct (ev_payload e) as [p|p|p|p|p|p|p|p]; cbn; try lia.
  - destruct (jd_unit p); cbn; lia.
  - destruct (au_user p), (au_remote_addr p); cbn; lia.
  - destruct (up_to p); cbn; lia.
Qed.
End Counting.

Section RubricFacts.
Context `{SerdeValue}.
Variable to_lowercase : string -> string.
#[local] Abbreviation few l := (Z.of_nat (length l) < 2 ^ 49)%Z.

(** What an explanation with its check says, and what it says alone. *)
Definition says (explanation : string) (check : option string) : string :=
  to_lowercase explanation +:+ " " +:+ to_lowercase (default EmptyString check).
Definition named (text t : string) : Prop := contains (to_lowercase t) text = true.

Lemma hits_all (text : string) (l : list string) :
  hits to_lowercase text l <= length l
  /\ (hits to_lowercase text l = length l <-> Forall (named text) l)
  /\ (hits to_lowercase text l = 0 <-> Forall (fun t => ~ named text t) l).
Proof.
  unfold hits, named. destruct (filter_length_all (fun n => contains (to_lowercase n) text) l) as (H1 & H2 & H3).
  split_and!; [done|done|]. rewrite H3, !Forall_forall.
  split; intros Hl t Ht; specialize (Hl t Ht); by destruct (contains _ _).
Qed.

(** The grounding: full exactly when every fact is named. *)
Lemma grounded_spec (e : Event) (r : Reference) (explanation : string) (check : option string) :
  few (rf_must_mention r) ->
  let g := sc_grounded (score to_lowercase e r explanation check) in
  unit_f64 g /\ ((val g == 1)%Q \/ below_one g)
  /\ ((val g == 1)%Q <-> Forall (named (says explanation check)) (salient_tokens e ++ rf_must_mention r)).
Proof.
  intros Hfew. cbv zeta. cbn [score sc_grounded]. unfold anchors.
  destruct (retain_new_spec to_lowercase (fun k => contains k (says explanation check) = true)
    (salient_tokens e ++ rf_must_mention r) ∅) as [Hlen Hiff].
  specialize (Hiff ltac:(intros k Hk; by apply elem_of_empty in Hk)). fold (named (says explanation check)) in Hiff.
  rewrite length_app in Hlen. pose proof (salient_few e).
  destruct (retain_new to_lowercase ∅ _) as [|a l] eqn:Ha.
  { destruct one_val as [Ho Hov]. split_and!; [split; [done|lra]|by left|]. rewrite <-Hiff. by split. }
  rewrite <-Hiff. fold (says explanation check).
  destruct (hits_all (says explanation check) (a :: l)) as (Hle & Hall & _). rewrite <-Hall.
  set (h := hits _ _ _) in *. assert (Z.of_nat (length (a :: l)) <= 2 ^ 50)%Z as Hsm by lia.
  pose proof (fraction_unit h (length (a :: l)) ltac:(cbn; lia) Hle Hsm) as Hu. split; [done|].
  destruct (decide (h = length (a :: l))) as [He|Hne].
  - pose proof (fraction_full h (length (a :: l)) ltac:(cbn; lia) Hle Hsm He). split; [by left|by split].
  - pose proof (fraction_partial h (length (a :: l)) ltac:(cbn; lia) Hle Hsm ltac:(lia)) as Hp.
    split; [by right|]. split; [|done]. intros H1. destruct Hp as [_ Hp]. unfold tiny in Hp. exfalso. lra.
Qed.

Lemma almost_one : exists b, nonneg b /\ (val b == 1 - tiny)%Q.
Proof. exists (f64_ratio 1125899906842623 1125899906842624). split; by vm_compute. Qed.

(** The absence of traps: full exactly when none is tripped. *)
Lemma no_hallucination_spec (e : Event) (r : Reference) (explanation : string) (check : option string) :
  few (rf_forbidden r) ->
  let g := sc_no_hallucination (score to_lowercase e r explanation check) in
  unit_f64 g /\ ((val g == 1)%Q \/ below_one g)
  /\ ((val g == 1)%Q <-> Forall (fun t => ~ named (to_lowercase explanation) t) (rf_forbidden r)).
Proof.
  intros Hfew. cbv zeta. cbn [score sc_no_hallucination]. destruct one_val as [Ho Hov].
  destruct (rf_forbidden r) as [|a l] eqn:Ha; [split_and!; [split; [done|lra]|by left|by split]|].
  destruct (hits_all (to_lowercase explanation) (a :: l)) as (Hle & _ & Hno). rewrite <-Hno.
  set (h := hits _ _ _) in *. assert (Z.of_nat (length (a :: l)) <= 2 ^ 50)%Z as Hsm by lia.
  destruct (fraction_unit h (length (a :: l)) ltac:(cbn; lia) Hle Hsm) as [Hf Hf1].
  destruct (fraction_rounded h (length (a :: l)) ltac:(cbn; lia) Hle Hsm) as [Hfr _].
  pose proof (f64_sub_rounded _ _ Ho Hf ltac:(lra)) as Hs. set (x := f64_sub _ _) in *. pose proof (val_nonneg _ Hf).
  destruct (rounded_below _ _ _ Hs Ho) as (Hx & Hx1 & _); [lra|]. split; [split; [done|lra]|].
  destruct (decide (h = 0)) as [Hzero|Hne].
  - assert (val (fraction h (length (a :: l))) == 0)%Q as Hz.
    { destruct (rounded_exact (fraction h (length (a :: l))) f64_zero) as [_ Hv]; [|done|exact Hv].
      eapply rounded_proper; [|exact Hfr]. rewrite Hzero. reflexivity. }
    assert (val x == 1)%Q as Hone.
    { rewrite <-Hov. apply rounded_exact; [|done]. eapply rounded_proper; [|exact Hs]. rewrite Hz. lra. }
    split; [by left|by split].
  - pose proof (fraction_some h (length (a :: l)) ltac:(cbn; lia) Hle Hsm ltac:(lia)) as Hp.
    destruct almost_one as (b & Hb & Hbv). destruct (rounded_below _ _ b Hs Hb) as (_ & Hxb & _); [lra|].
    split; [right; split; [done|lra]|]. split; [|done]. intros H1. unfold tiny in *. exfalso. lra.
Qed.

Lemma specificity_unit (e : Event) (r : Reference) (explanation : string) (check : option string) :
  few (rf_check_keywords r) -> unit_f64 (sc_check_specificity (score to_lowercase e r explanation check)).
Proof.
  intros Hfew. cbn [score sc_check_specificity].
  set (b := match check with Some c => _ | None => _ end). destruct (rf_check_keywords r) as [|a l] eqn:Ha.
  { destruct b; split; by vm_compute. }
  destruct b; [|split; by vm_compute]. apply fraction_unit; [cbn; lia| |lia]. apply hits_all.
Qed.

(** A reference of reasonable size, and a score whose totals are on the scale. *)
Definition measured (r : Reference) : Prop := few (rf_must_mention r) /\ few (rf_forbidden r) /\ few (rf_check_keywords r).
Definition on_scale (s : Score) : Prop := unit_f64 (faithfulness s) /\ unit_f64 (actionability s) /\ unit_f64 (overall s).
Lemma score_on_scale (e : Event) (r : Reference) (explanation : string) (check : option string) :
  measured r -> on_scale (score to_lowercase e r explanation check).
Proof.
  intros (Hm & Hf & Hk). destruct (grounded_spec e r explanation check Hm) as (Hg & Hgc & _).
  destruct (no_hallucination_spec e r explanation check Hf) as (Hn & Hnc & _).
  pose proof (specificity_unit e r explanation check Hk) as Hs. set (s := score _ _ _ _ _) in *.
  destruct (faithfulness_spec s Hg Hn Hgc Hnc) as [Hfu _]. pose proof (actionability_unit s Hs).
  split_and!; [done..|by apply overall_unit].
Qed.

(** The rubric scores within its scale, in the arithmetic of the machine. For any
    explanation and check against any event and reference, every component and
    every total lies between 0 and 1; and faithfulness is 1 exactly when the
    explanation is not empty, it or its check names every salient fact of the event
    and every anchor of the reference, and it names none of the forbidden facts. *)
Theorem score_bounded (e : Event) (r : Reference) (explanation : string) (check : option string) :
  measured r ->
  let s := score to_lowercase e r explanation check in
  unit_f64 (sc_grounded s) /\ unit_f64 (sc_no_hallucination s) /\ unit_f64 (sc_check_specificity s)
  /\ unit_f64 (faithfulness s) /\ unit_f64 (actionability s) /\ unit_f64 (overall s)
  /\ ((val (faithfulness s) == 1)%Q
      <-> trim explanation <> EmptyString
          /\ Forall (named (says explanation check)) (salient_tokens e ++ rf_must_mention r)
          /\ Forall (fun t => ~ named (to_lowercase explanation) t) (rf_forbidden r)).
Proof.
  intros Hr. destruct (score_on_scale e r explanation check Hr) as (Hfa & Hac & Hov). destruct Hr as (Hm & Hf & Hk).
  cbv zeta. destruct (grounded_spec e r explanation check Hm) as (Hg & Hgc & Hgi).
  destruct (no_hallucination_spec e r explanation check Hf) as (Hn & Hnc & Hni).
  pose proof (specificity_unit e r explanation check Hk) as Hs. set (s := score _ _ _ _ _) in *.
  destruct (faithfulness_spec s Hg Hn Hgc Hnc) as [_ Hfi]. split_and!; [done..|]. rewrite Hfi, Hgi, Hni.
  assert (sc_non_empty s = true <-> trim explanation <> EmptyString) as ->; [|done].
  unfold s. cbn. by destruct (trim explanation).
Qed.
End RubricFacts.

(** ** Examples *)

#[local] Existing Instance string_value.
Definition nginx_event : Event := {|
  ev_id := 1; ev_occurred_at := 0; ev_observed_at := 0; ev_agent_id := mkAgentId 2; ev_host := "web-01";
  ev_severity := Error; ev_title := "unit failed: nginx.service"; ev_category_hints := [];
  ev_payload := FailedUnit {| fu_unit := "nginx.service"; fu_result := "exit-code"; fu_recent_log := []; fu_extra := [] |} |}.
Definition nginx_reference : Reference := {|
  rf_category := CatFailedUnit; rf_reference_explanation := "nginx failed to bind port 80";
  rf_must_mention := ["80"; "bind"]; rf_forbidden := ["out of memory"; "disk full"];
  rf_expected_check := Some "ss -ltnp sport = :80"; rf_check_keywords := ["ss"; "80"] |}%string.
Definition good_answer : string :=
  "nginx.service on web-01 failed with an exit-code result because it could not bind to port 80.".
Definition nginx_score (explanation : string) (check : option string) : Score :=
  score to_ascii_lowercase nginx_event nginx_reference explanation check.

Lemma score_bounded_witness :
  (val (faithfulness (nginx_score good_answer (Some "ss -ltnp sport = :80"%string))) == 1)%Q
  /\ unit_f64 (overall (nginx_score good_answer (Some "ss -ltnp sport = :80"%string))).
Proof.
  destruct (score_bounded to_ascii_lowercase nginx_event nginx_reference good_answer (Some "ss -ltnp sport = :80"%string))
    as (_ & _ & _ & _ & _ & Hu & Hiff); [by repeat split|]. split; [|exact Hu]. apply Hiff.
  split; [vm_compute; discriminate|]. split.
  - repeat constructor.
  - repeat constructor; (intros H; vm_compute in H; discriminate).
Defined.

(** The weights are rounded: an answer with every mark scores
    0.99999999999999988898. *)
Theorem best_overall_below_one :
  f64_fixed 20 (overall (nginx_score good_answer (Some "ss -ltnp sport = :80"%string))) = "0.99999999999999988898"%string.
Proof. vm_compute. reflexivity. Qed.

(** Keywords and traps are sought anywhere in the text, not as words: a check without
    the tool has full specificity, and an explanation that speaks of a room trips the
    trap for an out-of-memory kill. *)
Theorem keywords_inside_words :
  f64_fixed 1 (sc_check_specificity (nginx_score good_answer (Some "please assess port 8080"%string))) = "1.0"%string
  /\ named to_ascii_lowercase "the machine room is hot" "oom".
Proof. vm_compute. split; reflexivity. Qed.
