(* ===== verification/EvalReport.v ===== *)
(** * The report of the evaluation ([ravn-eval/src/report.rs])

  The comparison tables and the site page, as text.  The theorem is on the order of
  the rows: best first, names breaking ties, no row lost.

  Sorting is [slice::sort_by], which is stable; for a comparison that is not a total
  preorder (a mean that is not a number) its result is unspecified. *)

From S2P Require Export EvalRubric.
From Stdlib Require Import QArith Lqa.
From S2P Require Import FloatFacts.
Local Close Scope Q_scope.
(** ** Stable sorting *)

Section SortBy.
Context {A : Type}.
Variable lt : A -> A -> bool.

Fixpoint insert_by (x : A) (l : list A) : list A :=
  match l with
  | [] => [x]
  | y :: l' => if lt x y then x :: l else y :: insert_by x l'
  end.
Definition sort_by (l : list A) : list A := fold_left (fun acc x => insert_by x acc) l [].
End SortBy.

(** ** Rows *)

Record Row := mkRow {
  rw_model : string;
  rw_recorded : bool;
  rw_captured_on : string;
  rw_faithfulness : F64;
  rw_actionability : F64;
  rw_overall : F64;
  rw_latency_ms : F64;
  rw_prompt_tps : option F64;
  rw_gen_tps : option F64;
  rw_mem_mb : option F64;
  rw_fixtures : nat;
  rw_per_category : list (Category * F64);
}.

Definition fmt_opt (v : option F64) (prec : nat) : string :=
  match v with Some x => f64_fixed prec x | None => "n/a" end.

(** [cmp == Less] of the comparison in [sorted]: overall descending, then the name. *)
Definition row_lt (a b : Row) : bool :=
  match f64_cmp (rw_overall b) (rw_overall a) with
  | Some Lt => true
  | Some Gt => false
  | _ => str_ltb (rw_model a) (rw_model b)
  end.
Definition sorted_rows (rows : list Row) : list Row := sort_by row_lt rows.

(** ** Rendering *)

Definition row_line (r : Row) : string :=
  "| " +:+ rw_model r +:+ " | " +:+ f64_fixed 2 (rw_overall r) +:+ " | " +:+ f64_fixed 2 (rw_faithfulness r)
  +:+ " | " +:+ f64_fixed 2 (rw_actionability r) +:+ " | " +:+ f64_fixed 0 (rw_latency_ms r)
  +:+ " | " +:+ fmt_opt (rw_prompt_tps r) 0 +:+ " | " +:+ fmt_opt (rw_gen_tps r) 1
  +:+ " | " +:+ fmt_opt (rw_mem_mb r) 0 +:+ " | " +:+ (if rw_recorded r then "recorded" else "live") +:+ " |" +:+ newline.
Definition concat_str (l : list string) : string := join EmptyString l.
Definition render_table (rows : list Row) : string :=
  "| Model | Overall | Faithful | Actionable | Latency ms | Prompt tok/s | Gen tok/s | Memory MiB | Source |" +:+ newline
  +:+ "|---|--:|--:|--:|--:|--:|--:|--:|:--|" +:+ newline
  +:+ concat_str (map row_line (sorted_rows rows)).

Definition category_cell (r : Row) (c : Category) : string :=
  " " +:+ fmt_opt (snd <$> List.find (fun p => bool_decide (p.1 = c)) (rw_per_category r)) 2 +:+ " |".
Definition render_category_table (rows : list Row) : string :=
  let categories := match rows with r :: _ => map fst (rw_per_category r) | [] => [] end in
  "| Model |" +:+ concat_str (map (fun c => " " +:+ category_label c +:+ " |") categories) +:+ newline
  +:+ "|---|" +:+ concat_str (map (fun _ => "--:|"%string) categories) +:+ newline
  +:+ concat_str (map (fun r => "| " +:+ rw_model r +:+ " |" +:+ concat_str (map (category_cell r) categories) +:+ newline)
                    (sorted_rows rows)).

Section Page.
Context `{SerdeValue}.

Record Fixture := mkFixture { fx_name : string; fx_event : Event; fx_reference : Reference }.

Definition paragraph (s : string) : string := s +:+ newline +:+ newline.
Definition provenance_line (r : Row) : string := "- **" +:+ rw_model r +:+ "** — " +:+ rw_captured_on r +:+ newline.
Definition reference_section (f : Fixture) : string :=
  paragraph ("### " +:+ fx_name f +:+ " — " +:+ category_label (rf_category (fx_reference f)))
  +:+ paragraph (rf_reference_explanation (fx_reference f))
  +:+ match rf_expected_check (fx_reference f) with
      | Some check => paragraph ("Ideal check: `" +:+ check +:+ "`")
      | None => EmptyString
      end.
Definition render_site_page (rows : list Row) (corpus : list Fixture) : string :=
  let any_live := existsb (fun r => negb (rw_recorded r)) rows in
  let provenance := List.filter (fun r => rw_recorded r && negb (is_empty (rw_captured_on r))) rows in
  paragraph "# Can a sub-2B CPU model handle the explanation last-mile?"
  +:+ paragraph "Ravn's detection is deterministic — taps fire the alarm. The model only writes the plain-language explanation and suggests one check. This page scores small, CPU-friendly models on exactly that job, over a fixed corpus of real-shaped events."
  +:+ paragraph ("**Corpus:** " +:+ show_N (N.of_nat (length corpus))
                 +:+ " events across failed units, OOM kills, auth anomalies, and config drift. **Scoring:** deterministic, model-free (no LLM-as-judge).")
  +:+ paragraph "## Headline results" +:+ render_table rows +:+ newline
  +:+ paragraph "## By category (overall quality)" +:+ render_category_table rows +:+ newline
  +:+ paragraph "## Methodology"
  +:+ "- **Faithfulness** = grounded in the event's salient facts AND free of invented facts. Each fixture ships hallucination traps (causes *not* in the event); naming one costs points. This is the metric that catches fluent-but-wrong tiny models." +:+ newline
  +:+ "- **Actionability** = a concrete `suggested_check` was offered AND it targets the right tool/subject (a generic "
  +:+ dquote +:+ "please investigate" +:+ dquote +:+ " scores low)." +:+ newline
  +:+ "- **Overall** = 0.6·faithfulness + 0.3·actionability + 0.1·length-sanity." +:+ newline
  +:+ paragraph "- **Latency / memory** are measured against a live `llama-server` on CPU."
  +:+ match provenance with
      | [] => EmptyString
      | _ => paragraph "### Recorded-run provenance" +:+ concat_str (map provenance_line provenance) +:+ newline
      end
  +:+ (if any_live then EmptyString
       else paragraph "> **Note:** every row on this page is a *recorded* run — captured model output replayed through the live scoring harness. Re-run `ravn-eval --endpoint <url> --models ...` against a `llama-server` to produce live numbers. The scores, table, and methodology are identical; only the model responses are pre-captured.")
  +:+ paragraph "## Reference answers"
  +:+ paragraph "The faithful, human-authored explanation and ideal check each fixture is scored against:"
  +:+ concat_str (map reference_section corpus).
End Page.

From stdpp Require Import sorting.

(** ** Facts: sorting *)

Section SortFacts.
Context {A : Type}.
Variable lt : A -> A -> bool.

Lemma insert_by_Permutation (x : A) (l : list A) : insert_by lt x l ≡ₚ x :: l.
Proof. induction l as [|y l IH]; cbn; [done|]. destruct (lt x y); [done|]. rewrite IH. apply Permutation_swap. Qed.

Lemma sort_by_acc (l acc : list A) : fold_left (fun acc x => insert_by lt x acc) l acc ≡ₚ l ++ acc.
Proof.
  revert acc; induction l as [|x l IH]; intros acc; cbn; [done|]. rewrite IH, insert_by_Permutation.
  symmetry. apply Permutation_middle.
Qed.
Lemma sort_by_Permutation (l : list A) : sort_by lt l ≡ₚ l.
Proof. unfold sort_by. by rewrite sort_by_acc, app_nil_r. Qed.

(** On elements with [P], where the comparison decides a transitive relation. *)
Variable P : A -> Prop.
Variable R : A -> A -> Prop.
Hypothesis R_trans : forall x y z, P x -> P y -> P z -> R x y -> R y z -> R x z.
Hypothesis lt_R : forall x y, P x -> P y -> if lt x y then R x y else R y x.

Lemma insert_by_sorted (x : A) (l : list A) :
  P x -> Forall P l -> StronglySorted R l -> StronglySorted R (insert_by lt x l).
Proof.
  intros Hx Hl Hs. induction Hs as [|y l Hs IH Hy]; cbn; [by repeat constructor|].
  apply Forall_cons in Hl as [Hpy Hl]. pose proof (lt_R x y Hx Hpy) as Hxy. destruct (lt x y).
  - constructor; [by constructor|]. constructor; [done|]. rewrite Forall_forall in *. eauto.
  - constructor; [by apply IH|]. rewrite insert_by_Permutation. by constructor.
Qed.

Lemma sort_by_sorted (l : list A) : Forall P l -> StronglySorted R (sort_by lt l).
Proof.
  intros Hl. unfold sort_by. assert (Forall P (@nil A) /\ StronglySorted R []) as [Hp Hs] by (split; constructor).
  revert Hp Hs. generalize (@nil A) as acc. induction Hl as [|x l Hx Hl IH]; intros acc Hp Hs; cbn; [done|].
  apply IH; [rewrite insert_by_Permutation; by constructor|by apply insert_by_sorted].
Qed.

(** A permuted list sorts to the same one, when the relation leaves no ties in it. *)
Lemma sort_by_unique (l l' : list A) :
  (forall x y, x ∈ l -> y ∈ l -> R x y -> R y x -> x = y) -> Forall P l -> l ≡ₚ l' -> sort_by lt l = sort_by lt l'.
Proof.
  intros Hanti Hl Hll. assert (Forall P l') as Hl' by by rewrite <-Hll.
  apply (StronglySorted_unique_strong R); [|by apply sort_by_sorted|by apply sort_by_sorted|by rewrite !sort_by_Permutation].
  intros x y Hx Hy. apply Hanti; [by rewrite <-(sort_by_Permutation l)|by rewrite Hll, <-(sort_by_Permutation l')].
Qed.
End SortFacts.

(** ** Facts: the ranking *)

(** [a <= b] of strings, by bytes. *)
Definition str_le (a b : string) : Prop := str_ltb b a = false.
Lemma str_le_trans (a b c : string) : str_le a b -> str_le b c -> str_le a c.
Proof.
  unfold str_le. intros Hab Hbc. destruct (str_ltb c a) eqn:Hca; [|done]. exfalso.
  destruct (str_ltb a b) eqn:Hlt; [by rewrite (str_ltb_trans c a b) in Hbc|].
  rewrite (str_ltb_total a b) in Hca by done. congruence.
Qed.
Lemma str_le_antisym (a b : string) : str_le a b -> str_le b a -> a = b.
Proof. intros Hab Hba. by apply str_ltb_total. Qed.
Lemma str_ltb_le (a b : string) : str_ltb a b = true -> str_le a b.
Proof. unfold str_le. intros Hab. destruct (str_ltb b a) eqn:Hba; [|done]. by rewrite <-(str_ltb_irrefl b), (str_ltb_trans b a b). Qed.

(** Better overall, or as good and not later by name. *)
Definition ranked (a b : Row) : Prop :=
  (val (rw_overall b) < val (rw_overall a))%Q
  \/ ((val (rw_overall a) == val (rw_overall b))%Q /\ str_le (rw_model a) (rw_model b)).

Lemma ranked_trans (a b c : Row) : ranked a b -> ranked b c -> ranked a c.
Proof.
  intros [Hab|[Hab Hn]] [Hbc|[Hbc Hm]]; try (left; lra). right. split; [lra|]. by apply (str_le_trans _ (rw_model b)).
Qed.
Lemma row_lt_ranked (a b : Row) :
  nonneg (rw_overall a) -> nonneg (rw_overall b) -> if row_lt a b then ranked a b else ranked b a.
Proof.
  intros Ha Hb. unfold row_lt. rewrite f64_cmp_val by done.
  destruct (val (rw_overall b) ?= val (rw_overall a))%Q eqn:Hc.
  - apply Qeq_alt in Hc. destruct (str_ltb _ _) eqn:Hn; right; (split; [lra|]); [by apply str_ltb_le|done].
  - apply Qlt_alt in Hc. by left.
  - apply Qgt_alt in Hc. by left.
Qed.

Lemma sorted_rows_ranked (rows : list Row) :
  Forall (fun r => nonneg (rw_overall r)) rows -> StronglySorted ranked (sorted_rows rows).
Proof.
  apply (sort_by_sorted row_lt _ ranked); [intros x y z _ _ _; apply ranked_trans|apply row_lt_ranked].
Qed.
