(* ===== verification/EvalRun.v ===== *)
(** * The evaluation harness ([ravn-eval/src/fixtures.rs], [backend.rs], [runner.rs],
    [main.rs])

  Loading the corpus, the live and the recorded backend, the scoring loop with its
  means, and the program.  The theorems: the corpus does not depend on the order in
  which the directory lists it; a replay of recorded runs gives means within the
  scale for every model, in the order of the report.

  EvalFiles, JSON decoding and the exchange with the server are parameters; what the
  program prints is its list of lines. *)

From S2P Require Export EvalReport Inference.
From Stdlib Require Import QArith Lqa.
From S2P Require Import FloatFacts.
Local Close Scope Q_scope.

Section Eval.
Context `{SerdeValue}.
Variable to_lowercase : string -> string.
Variable json_from_str : string -> option Json.
(** Decoding of an event, a reference and a manifest; [Err] is the error's text. *)
Variable event_from_json : string -> result string Event.
Variable reference_from_json : string -> result string Reference.

(** A directory's names, or the errors of listing; and the files. *)
Record EvalFiles := mkEvalFiles {
  fs_read_dir : string -> result string (list (result string string));
  fs_read : string -> result string string;
  fs_exists : string -> bool;
  fs_write : string -> string -> result string unit;
}.
Variable fs : EvalFiles.
Definition read_with_context (msg path : string) : result Chain string :=
  with_context msg (map_err (fun e => [e]) (fs_read fs path)).

(** ** The corpus *)

(** One entry of the directory: nothing for a file that is no event. *)
Definition load_entry (dir file_name : string) : result Chain (option Fixture) :=
  match strip_suffix ".event.json" file_name with
  | None => Ok None
  | Some name =>
      event_json ← read_with_context ("reading " +:+ file_name) (path_join dir file_name);
      event ← with_context ("parsing " +:+ file_name +:+ " as Event") (map_err (fun e => [e]) (event_from_json event_json));
      let ref_path := path_join dir (name +:+ ".reference.json") in
      ref_json ← read_with_context ("reading reference for " +:+ name +:+ " at " +:+ ref_path) ref_path;
      reference ← with_context ("parsing " +:+ name +:+ ".reference.json") (map_err (fun e => [e]) (reference_from_json ref_json));
      Ok (Some {| fx_name := name; fx_event := event; fx_reference := reference |})
  end.
Definition fixture_lt (a b : Fixture) : bool := str_ltb (fx_name a) (fx_name b).
Definition load_corpus (dir : string) : result Chain (list Fixture) :=
  entries ← with_context ("reading corpus dir " +:+ dir) (map_err (fun e => [e]) (fs_read_dir fs dir));
  out ← collect_result (fun entry => name ← map_err (fun e => [e]) entry; load_entry dir name) entries;
  Ok (sort_by fixture_lt (omap id out)).

(** ** Backends *)

Record Completion := mkCompletion {
  cm_content : string;
  cm_latency_ms : F64;
  cm_gen_tps : option F64;
  cm_prompt_tps : option F64;
}.
Record Timings := mkTimings { ti_prompt_per_second : option F64; ti_predicted_per_second : option F64 }.
(** No answer, or a status with the decoded choices and timings; and how long it took. *)
Inductive LiveReply := LiveNoAnswer (e : Chain) | LiveAnswered (status : N) (body : result Chain (list string * option Timings)).
Record LlamaServerBackend := mkLlamaServer { ls_name : string; ls_model : string; ls_endpoint : string }.
Definition llama_new (http_client : result Chain unit) (name model endpoint : string) : result Chain LlamaServerBackend :=
  _ ← http_client; Ok {| ls_name := name; ls_model := model; ls_endpoint := trim_end_matches (is_byte 47) endpoint |}.

(** The resident memory in the server's metrics, in MiB. *)
Fixpoint memory_line (ls : list string) : option F64 :=
  match ls with
  | [] => None
  | line :: ls =>
      match strip_prefix "process_resident_memory_bytes " line ≫= (fun rest => parse_f64 (trim rest)) with
      | Some bytes => Some (f64_div bytes (f64_mul (f64_of_Z 1024) (f64_of_Z 1024)))
      | None => memory_line ls
      end
  end.
Definition llama_memory_mb (get : string -> option string) (b : LlamaServerBackend) : option F64 :=
  body ← get (ls_endpoint b +:+ "/metrics"); memory_line (lines body).

Definition live_request (b : LlamaServerBackend) (prompt : string) : ChatRequest :=
  chat_request (mkInferenceClient (ls_endpoint b) (ls_model b) None) SYSTEM_PROMPT prompt 320.
Variable status_display : N -> string.
(** [complete]: [None] is the panic of the prompt. *)
Definition llama_complete (send : ChatRequest -> LiveReply * Z) (b : LlamaServerBackend) (e : Event)
    : option (result Chain Completion) :=
  prompt ← build_user_prompt e;
  let (reply, elapsed) := send (live_request b prompt) in
  Some (match reply with
        | LiveNoAnswer err => with_context "inference request failed" (Err err)
        | LiveAnswered status body =>
            if reply_success status then
              resp ← with_context "decoding inference response" body;
              let timings := default (mkTimings None None) resp.2 in
              Ok {| cm_content := default EmptyString (head resp.1);
                    cm_latency_ms := f64_mul (as_secs_f64 elapsed) (f64_of_Z 1000);
                    cm_gen_tps := ti_predicted_per_second timings; cm_prompt_tps := ti_prompt_per_second timings |}
            else with_context "inference returned an error status" (Err [status_display status])
        end).

Record RecordingManifest := mkManifest {
  mf_model : string;
  mf_captured_on : string;
  mf_latency_ms : F64;
  mf_gen_tps : option F64;
  mf_prompt_tps : option F64;
  mf_mem_mb : option F64;
}.
Variable manifest_from_json : string -> result string RecordingManifest.
Record RecordedBackend := mkRecorded { rb_dir : string; rb_manifest : RecordingManifest }.
Definition recorded_load (dir : string) : result Chain RecordedBackend :=
  let manifest_path := path_join dir "manifest.json" in
  json ← read_with_context ("reading " +:+ manifest_path) manifest_path;
  manifest ← with_context ("parsing " +:+ manifest_path) (map_err (fun e => [e]) (manifest_from_json json));
  Ok {| rb_dir := dir; rb_manifest := manifest |}.
(** [complete_named]. *)
Definition read_recording (b : RecordedBackend) (key : string) : result Chain Completion :=
  let path := path_join (rb_dir b) (key +:+ ".txt") in
  content ← read_with_context ("reading recording " +:+ path) path;
  Ok {| cm_content := content; cm_latency_ms := mf_latency_ms (rb_manifest b); cm_gen_tps := mf_gen_tps (rb_manifest b);
        cm_prompt_tps := mf_prompt_tps (rb_manifest b) |}.

(** ** The scoring loop *)

Record EventResult := mkEventResult {
  er_name : string;
  er_category : Category;
  er_latency_ms : F64;
  er_result_prompt_tps : option F64;
  er_result_gen_tps : option F64;
  er_score : Score;
}.
Definition score_completion (f : Fixture) (c : Completion) : EventResult :=
  let (text, check) := parse_explanation json_from_str (cm_content c) in
  {| er_name := fx_name f; er_category := rf_category (fx_reference f); er_latency_ms := cm_latency_ms c;
     er_result_prompt_tps := cm_prompt_tps c; er_result_gen_tps := cm_gen_tps c;
     er_score := score to_lowercase (fx_event f) (fx_reference f) text check |}.

Definition mean_reported (values : list (option F64)) : option F64 :=
  match omap id values with
  | [] => None
  | reported => Some (f64_div (f64_sum reported) (f64_of_nat (length reported)))
  end.
(** The sum and the count of each category, by label. *)
Definition add_bucket (buckets : btree (Category * F64 * nat)) (r : EventResult) : btree (Category * F64 * nat) :=
  let label := category_label (er_category r) in
  let '(c, sum, count) := default (er_category r, f64_zero, 0) (bt_get label buckets) in
  bt_insert label (c, f64_add sum (overall (er_score r)), S count) buckets.
Definition aggregate (model : string) (recorded : bool) (captured_on : string) (mem_mb : option F64)
    (results : list EventResult) : Row :=
  let n := f64_of_nat (Nat.max (length results) 1) in
  let mean f := f64_div (f64_sum (map f results)) n in
  let buckets := fold_left add_bucket results [] in
  {| rw_model := model; rw_recorded := recorded; rw_captured_on := captured_on;
     rw_faithfulness := mean (fun r => faithfulness (er_score r));
     rw_actionability := mean (fun r => actionability (er_score r));
     rw_overall := mean (fun r => overall (er_score r)); rw_latency_ms := mean er_latency_ms;
     rw_prompt_tps := mean_reported (map er_result_prompt_tps results);
     rw_gen_tps := mean_reported (map er_result_gen_tps results);
     rw_mem_mb := mem_mb; rw_fixtures := length results;
     rw_per_category := map (fun b => (b.1.1, f64_div b.1.2 (f64_of_nat b.2))) (bt_values buckets) |}.

(** ** Benchmarks *)

(** The text of one print. *)
Inductive Line := Stdout (s : string) | Stderr (s : string).
(** [{:<28}], by characters. *)
Fixpoint spaces (n : nat) : string := match n with O => EmptyString | S n => String " " (spaces n) end.
Definition pad_right (n : nat) (s : string) : string := s +:+ spaces (n - char_count s).
Definition result_line (r : EventResult) : string :=
  "  " +:+ pad_right 28 (er_name r) +:+ " overall=" +:+ f64_fixed 2 (overall (er_score r))
  +:+ "  faithful=" +:+ f64_fixed 2 (faithfulness (er_score r))
  +:+ "  action=" +:+ f64_fixed 2 (actionability (er_score r)).
Definition live_line (r : EventResult) : string := result_line r +:+ "  " +:+ f64_fixed 0 (er_latency_ms r) +:+ "ms".

(** The loop over the corpus: what is printed, and the results, the first error, or
    the panic. *)
Fixpoint score_corpus (complete : nat -> Fixture -> option (result Chain Completion)) (line : EventResult -> string)
    (k : nat) (corpus : list Fixture) : list Line * option (result Chain (list EventResult)) :=
  match corpus with
  | [] => ([], Some (Ok []))
  | f :: corpus =>
      match complete k f with
      | None => ([], None)
      | Some (Err e) => ([], Some (Err e))
      | Some (Ok c) =>
          let r := score_completion f c in
          let (printed, rest) := score_corpus complete line (S k) corpus in
          (Stdout (line r) :: printed, o ← rest; Some (rs ← o; Ok (r :: rs)))
      end
  end.

(** The server: its answer to the [k]-th request, and its metrics page. *)
Record Server := mkServer { sv_send : nat -> ChatRequest -> LiveReply * Z; sv_metrics : string -> option string }.
Definition bench_live (sv : Server) (b : LlamaServerBackend) (corpus : list Fixture)
    : list Line * option (result Chain Row) :=
  let (printed, results) := score_corpus (fun k f => llama_complete (sv_send sv k) b (fx_event f)) live_line 0 corpus in
  (printed, o ← results; Some (rs ← o; Ok (aggregate (ls_name b) false EmptyString (llama_memory_mb (sv_metrics sv) b) rs))).
Definition bench_recorded (b : RecordedBackend) (corpus : list Fixture) : list Line * option (result Chain Row) :=
  let m := rb_manifest b in
  let (printed, results) := score_corpus (fun _ f => Some (read_recording b (fx_name f))) result_line 0 corpus in
  (printed, o ← results; Some (rs ← o; Ok (aggregate (mf_model m) true (mf_captured_on m) (mf_mem_mb m) rs))).

Fixpoint bench_dirs (corpus : list Fixture) (dirs : list string) : list Line * option (result Chain (list Row)) :=
  match dirs with
  | [] => ([], Some (Ok []))
  | dir :: dirs =>
      match recorded_load dir with
      | Err e => ([], Some (Err e))
      | Ok b =>
          match bench_recorded b corpus with
          | (printed, Some (Ok row)) =>
              let (more, rest) := bench_dirs corpus dirs in (printed ++ more, o ← rest; Some (rows ← o; Ok (row :: rows)))
          | (printed, Some (Err e)) => (printed, Some (Err e))
          | (printed, None) => (printed, None)
          end
      end
  end.
(** The recorded runs under the root: the directories with a manifest, by name. *)
Definition recording_dirs (root : string) (entries : list (result string string)) : list string :=
  sort_by str_ltb (List.filter (fun p => fs_exists fs (path_join p "manifest.json"))
    (omap (fun e => match e with Ok name => Some (path_join root name) | Err _ => None end) entries)).
Definition run_all_recorded (root : string) (corpus : list Fixture) : list Line * option (result Chain (list Row)) :=
  match fs_read_dir fs root with
  | Err e => ([], Some (Err [e]))
  | Ok entries => bench_dirs corpus (recording_dirs root entries)
  end.

(** ** The program *)

(** [CARGO_MANIFEST_DIR] at compile time. *)
Variable manifest_dir : string.
Definition default_corpus_dir : string := path_join manifest_dir "fixtures/corpus".
Definition recordings_dir : string := path_join manifest_dir "fixtures/recordings".

Record Args := mkArgs {
  ar_endpoint : option string;
  ar_models : list string;
  ar_corpus : string;
  ar_out : option string;
  ar_validate_only : bool;
}.
(** [None] is the exit after the usage. *)
Fixpoint parse_args_from (a : Args) (argv : list string) : list Line * option Args :=
  match argv with
  | [] => ([], Some a)
  | arg :: rest =>
      let value := head rest in
      if String.eqb arg "--endpoint" then
        let a := {| ar_endpoint := value; ar_models := ar_models a; ar_corpus := ar_corpus a; ar_out := ar_out a;
                    ar_validate_only := ar_validate_only a |} in
        match rest with [] => ([], Some a) | _ :: rest => parse_args_from a rest end
      else if one_of arg ["--models"; "--model"]%string then
        match rest with
        | [] => ([], Some a)
        | v :: rest =>
            let models := List.filter (fun s => negb (is_empty s)) (map trim (split_on (is_byte 44) v)) in
            parse_args_from {| ar_endpoint := ar_endpoint a; ar_models := ar_models a ++ models; ar_corpus := ar_corpus a;
                               ar_out := ar_out a; ar_validate_only := ar_validate_only a |} rest
        end
      else if String.eqb arg "--corpus" then
        match rest with
        | [] => ([], Some a)
        | v :: rest => parse_args_from {| ar_endpoint := ar_endpoint a; ar_models := ar_models a; ar_corpus := v;
                                          ar_out := ar_out a; ar_validate_only := ar_validate_only a |} rest
        end
      else if String.eqb arg "--out" then
        let a := {| ar_endpoint := ar_endpoint a; ar_models := ar_models a; ar_corpus := ar_corpus a; ar_out := value;
                    ar_validate_only := ar_validate_only a |} in
        match rest with [] => ([], Some a) | _ :: rest => parse_args_from a rest end
      else if String.eqb arg "--validate" then
        parse_args_from {| ar_endpoint := ar_endpoint a; ar_models := ar_models a; ar_corpus := ar_corpus a; ar_out := ar_out a;
                           ar_validate_only := true |} rest
      else if one_of arg ["-h"; "--help"]%string then ([], None)
      else let (printed, res) := parse_args_from a rest in (Stderr ("ignoring unknown argument: " +:+ arg) :: printed, res)
  end.
Definition parse_args (argv : list string) : list Line * option Args :=
  parse_args_from {| ar_endpoint := None; ar_models := []; ar_corpus := default_corpus_dir; ar_out := None;
                     ar_validate_only := false |} argv.

Definition print_usage : string :=
  "ravn-eval — explanation-quality benchmarks for small local models (#157)" +:+ newline +:+ newline
  +:+ "USAGE:" +:+ newline
  +:+ "  ravn-eval [--endpoint URL --models a,b,c] [--corpus DIR] [--out FILE] [--validate]" +:+ newline +:+ newline
  +:+ "Default (no flags): replays the committed recorded runs through the live" +:+ newline
  +:+ "scoring harness and prints a comparison table — fully reproducible, no" +:+ newline
  +:+ "model required. Use --out to also write a markdown site page." +:+ newline +:+ newline
  +:+ "With --endpoint: benchmarks each --models entry against a running" +:+ newline
  +:+ "llama-server, measuring real latency and RAM." +:+ newline +:+ newline
  +:+ "With --validate: loads and validates the corpus, then exits.".

(** The live mode: a model that fails is reported and left out.  The [j]-th model meets
    the [j]-th server. *)
Fixpoint live_rows (http_client : result Chain unit) (servers : nat -> Server) (endpoint : string) (corpus : list Fixture)
    (j : nat) (models : list string) : list Line * option (result Chain (list Row)) :=
  match models with
  | [] => ([], Some (Ok []))
  | model :: models =>
      let label := if is_empty model then "<server default>"%string else model in
      let start := Stdout (newline +:+ "benchmarking " +:+ label +:+ " @ " +:+ endpoint +:+ " (live)") in
      match llama_new http_client label model endpoint with
      | Err e => ([start], Some (Err e))
      | Ok backend =>
          match bench_live (servers j) backend corpus with
          | (printed, None) => (start :: printed, None)
          | (printed, Some outcome) =>
              let failed := match outcome with
                            | Ok _ => []
                            | Err e => [Stderr ("  model '" +:+ label +:+ "' failed: " +:+ display_alt e)] end in
              let row := match outcome with Ok row => [row] | Err _ => [] end in
              let (more, rest) := live_rows http_client servers endpoint corpus (S j) models in
              (start :: printed ++ failed ++ more, o ← rest; Some (rows ← o; Ok (row ++ rows)))
          end
      end
  end.

(** A run: what it printed, the file it wrote, and how it ended ([None] by a panic). *)
Record MainRun := mkMainRun {
  mr_printed : list Line;
  mr_written : option (string * string);
  mr_result : option (result Chain unit);
}.
Definition corpus_line (f : Fixture) : Line :=
  Stdout ("  " +:+ pad_right 28 (fx_name f) +:+ " [" +:+ category_label (rf_category (fx_reference f)) +:+ "]").
Definition eval_rows (http_client : result Chain unit) (servers : nat -> Server) (a : Args) (corpus : list Fixture)
    : list Line * option (result Chain (list Row)) :=
  match ar_endpoint a with
  | Some endpoint =>
      let models := match ar_models a with [] => [EmptyString] | l => l end in
      live_rows http_client servers (trim_end_matches (is_byte 47) endpoint) corpus 0 models
  | None =>
      let (printed, rows) := run_all_recorded recordings_dir corpus in
      (Stdout (newline +:+ "scoring committed recorded runs from " +:+ recordings_dir +:+ " (recorded)") :: printed,
       with_context ("replaying recorded runs from " +:+ recordings_dir) <$> rows)
  end.
Definition tables (rows : list Row) : list Line :=
  [Stdout (newline +:+ "## Model comparison" +:+ newline); Stdout (render_table rows);
   Stdout (newline +:+ "## By category" +:+ newline); Stdout (render_category_table rows)].
Definition eval_main (http_client : result Chain unit) (servers : nat -> Server) (argv : list string) : MainRun :=
  match parse_args argv with
  | (ignored, None) => mkMainRun (ignored ++ [Stderr print_usage]) None (Some (Ok tt))
  | (ignored, Some a) =>
      match with_context ("loading corpus from " +:+ ar_corpus a) (load_corpus (ar_corpus a)) with
      | Err e => mkMainRun ignored None (Some (Err e))
      | Ok corpus =>
          let count := show_N (N.of_nat (length corpus)) in
          let printed := ignored ++ [Stdout ("loaded " +:+ count +:+ " fixtures from " +:+ ar_corpus a)] in
          if ar_validate_only a then
            mkMainRun (printed ++ map corpus_line corpus
                       ++ [Stdout (newline +:+ "corpus OK; " +:+ count +:+ " fixtures validated.")]) None (Some (Ok tt))
          else
            match eval_rows http_client servers a corpus with
            | (more, None) => mkMainRun (printed ++ more) None None
            | (more, Some (Err e)) => mkMainRun (printed ++ more) None (Some (Err e))
            | (more, Some (Ok [])) =>
                mkMainRun (printed ++ more) None (Some (Err ["no models produced results"%string]))
            | (more, Some (Ok rows)) =>
                let printed := printed ++ more ++ tables rows in
                match ar_out a with
                | None => mkMainRun printed None (Some (Ok tt))
                | Some out =>
                    let page := render_site_page rows corpus in
                    match with_context ("writing site page " +:+ out) (map_err (fun e => [e]) (fs_write fs out page)) with
                    | Err e => mkMainRun printed None (Some (Err e))
                    | Ok _ => mkMainRun (printed ++ [Stdout (newline +:+ "wrote site page to " +:+ out)])
                                (Some (out, page)) (Some (Ok tt))
                    end
                end
            end
      end
  end.
End Eval.

From Stdlib Require Import Sorted.

(** ** Facts: the corpus *)

Section CorpusFacts.
Context `{SerdeValue}.
Variable event_from_json : string -> result string Event.
Variable reference_from_json : string -> result string Reference.

(** A text read with context. *)
Lemma read_with_context_Ok (fs : EvalFiles) (msg path text : string) :
  read_with_context fs msg path = Ok text <-> fs_read fs path = Ok text.
Proof. unfold read_with_context, with_context. by destruct (fs_read fs path) as [t|e]; split; intros [= <-]. Qed.
Lemma context_Ok {A} (msg : string) (r : result string A) (a : A) :
  with_context msg (map_err (fun e => [e]) r) = Ok a <-> r = Ok a.
Proof. unfold with_context. by destruct r; split; intros [= <-]. Qed.

(** What the pair of files with a base name holds. *)
Definition fixture_at (fs : EvalFiles) (dir : string) (f : Fixture) : Prop :=
  (exists text, fs_read fs (path_join dir (fx_name f +:+ ".event.json")) = Ok text /\ event_from_json text = Ok (fx_event f))
  /\ exists text, fs_read fs (path_join dir (fx_name f +:+ ".reference.json")) = Ok text
       /\ reference_from_json text = Ok (fx_reference f).

Lemma load_entry_Some (fs : EvalFiles) (dir entry : string) (f : Fixture) :
  load_entry event_from_json reference_from_json fs dir entry = Ok (Some f)
  <-> entry = fx_name f +:+ ".event.json" /\ fixture_at fs dir f.
Proof.
  unfold load_entry. split.
  - destruct (strip_suffix _ _) as [name|] eqn:Hn; [|done]. apply strip_suffix_Some in Hn.
    intros (t & Ht & (e & He & (t' & Ht' & (r & Hr & [= <-])%bind_Ok_inv)%bind_Ok_inv)%bind_Ok_inv)%bind_Ok_inv.
    apply read_with_context_Ok in Ht, Ht'. apply context_Ok in He, Hr. cbn.
    split; [done|]. rewrite Hn in Ht. split; eauto.
  - intros (-> & (t & Ht & He) & (t' & Ht' & Hr)). rewrite (proj2 (strip_suffix_Some _ _ (fx_name f)) eq_refl).
    rewrite (proj2 (read_with_context_Ok fs _ _ _) Ht). cbn [mbind result_bind]. rewrite (proj2 (context_Ok _ _ _) He). cbn [mbind result_bind].
    rewrite (proj2 (read_with_context_Ok fs _ _ _) Ht'). cbn [mbind result_bind]. rewrite (proj2 (context_Ok _ _ _) Hr). by destruct f.
Qed.

(** The entry's fixture, if it loads. *)
Definition entry_fixture (fs : EvalFiles) (dir entry : string) : option Fixture :=
  match load_entry event_from_json reference_from_json fs dir entry with Ok o => o | Err _ => None end.
Definition loads (fs : EvalFiles) (dir entry : string) : Prop :=
  exists o, load_entry event_from_json reference_from_json fs dir entry = Ok o.

Lemma load_corpus_spec (fs : EvalFiles) (dir : string) (l : list string) (corpus : list Fixture) :
  fs_read_dir fs dir = Ok (map Ok l) ->
  load_corpus event_from_json reference_from_json fs dir = Ok corpus
  <-> Forall (loads fs dir) l /\ corpus = sort_by fixture_lt (omap (entry_fixture fs dir) l).
Proof.
  intros Hdir. unfold load_corpus. rewrite Hdir. cbn.
  set (step := fun entry : result string string => _).
  assert (collect_result step (map Ok l) = collect_result (load_entry event_from_json reference_from_json fs dir) l) as ->.
  { clear. induction l as [|n l IH]; cbn; [done|]. by rewrite IH. }
  assert (forall out, collect_result (load_entry event_from_json reference_from_json fs dir) l = Ok out ->
    Forall (loads fs dir) l /\ omap id out = omap (entry_fixture fs dir) l) as Hout.
  { clear. intros out Ho%collect_result_Ok. induction Ho as [|n o l out Hno Ho IH]; [by split|]. destruct IH as [IH1 IH2].
    split; [constructor; [by exists o|done]|]. cbn. unfold entry_fixture at 1. rewrite Hno. destruct o; cbn; congruence. }
  split.
  - intros (out & Ho & [= <-])%bind_Ok_inv. destruct (Hout out Ho) as [Hl ->]. done.
  - intros [Hl ->]. rewrite Forall_forall in Hl. destruct (collect_result_all_Ok _ _ Hl) as [out Ho].
    rewrite Ho. cbn. by destruct (Hout out Ho) as [_ ->].
Qed.

Definition name_le (a b : Fixture) : Prop := str_le (fx_name a) (fx_name b).
Lemma name_le_trans (a b c : Fixture) : True -> True -> True -> name_le a b -> name_le b c -> name_le a c.
Proof. intros _ _ _. apply str_le_trans. Qed.
Lemma fixture_lt_le (a b : Fixture) : True -> True -> if fixture_lt a b then name_le a b else name_le b a.
Proof. intros _ _. unfold fixture_lt. destruct (str_ltb _ _) eqn:Hlt; [by apply str_ltb_le|done]. Qed.

Lemma entry_fixture_Some (fs : EvalFiles) (dir : string) (l : list string) (f : Fixture) :
  f ∈ omap (entry_fixture fs dir) l <-> (fx_name f +:+ ".event.json") ∈ l /\ fixture_at fs dir f.
Proof.
  rewrite list_elem_of_omap. unfold entry_fixture. split.
  - intros (n & Hn & Hf). destruct (load_entry _ _ _ _ n) as [o|] eqn:Hl; [|done]. subst o.
    apply load_entry_Some in Hl as [-> Hat]. done.
  - intros [Hn Hat]. exists (fx_name f +:+ ".event.json"). split; [done|].
    by rewrite (proj2 (load_entry_Some fs dir _ f) (conj eq_refl Hat)).
Qed.

(** Loading the corpus does not depend on the order in which the directory is
    listed: a permuted listing of the same files loads to the same fixtures in the
    same order, which is by name; and the fixtures are exactly the pairs of an event
    file and a reference file that decode. *)
Theorem load_corpus_deterministic (fs fs' : EvalFiles) (dir : string) (l l' : list string) (corpus : list Fixture) :
  (forall path, fs_read fs' path = fs_read fs path) ->
  fs_read_dir fs dir = Ok (map Ok l) -> fs_read_dir fs' dir = Ok (map Ok l') -> l ≡ₚ l' ->
  load_corpus event_from_json reference_from_json fs dir = Ok corpus ->
  load_corpus event_from_json reference_from_json fs' dir = Ok corpus
  /\ StronglySorted name_le corpus
  /\ (forall f, f ∈ corpus <-> (fx_name f +:+ ".event.json") ∈ l /\ fixture_at fs dir f).
Proof.
  intros Hfs Hd Hd' Hl Hc. apply (load_corpus_spec fs dir l) in Hc as [Hok ->]; [|done].
  assert (forall n, load_entry event_from_json reference_from_json fs' dir n
                    = load_entry event_from_json reference_from_json fs dir n) as Hext.
  { intros n. unfold load_entry, read_with_context. destruct (strip_suffix _ n); [|done]. by rewrite !Hfs. }
  assert (Forall (fun _ => True) (omap (entry_fixture fs dir) l)) as Hall by by apply Forall_true.
  split_and!.
  - apply (load_corpus_spec fs' dir l'); [done|]. split.
    + rewrite <-Hl. eapply Forall_impl; [exact Hok|]. intros n [o Ho]. exists o. by rewrite Hext.
    + assert (omap (entry_fixture fs' dir) l' = omap (entry_fixture fs dir) l') as ->.
      { clear -Hext. induction l' as [|n l' IH]; [done|]. cbn. rewrite IH. unfold entry_fixture. by rewrite Hext. }
      apply (sort_by_unique fixture_lt (fun _ => True) name_le name_le_trans fixture_lt_le); [|done|by rewrite Hl].
      intros f g Hf Hg Hfg Hgf. pose proof (str_le_antisym _ _ Hfg Hgf) as Hn.
      apply entry_fixture_Some in Hf as [_ ((t & Ht & He) & (u & Hu & Hr))], Hg as [_ ((t' & Ht' & He') & (u' & Hu' & Hr'))].
      rewrite <-Hn in *. destruct f, g; cbn in *. congruence.
  - by apply (sort_by_sorted fixture_lt (fun _ => True) name_le name_le_trans fixture_lt_le).
  - intros f. rewrite sort_by_Permutation. apply entry_fixture_Some.
Qed.
End CorpusFacts.

(** ** Facts: means *)

Section MeanFacts.
Local Open Scope Q_scope.
#[local] Abbreviation Qn n := (inject_Z (Z.of_nat n)).

Lemma Qn_succ (n : nat) : Qn (S n) == Qn n + 1.
Proof. by rewrite Nat2Z.inj_succ, <-Z.add_1_r, inject_Z_plus. Qed.

(** One more number on the scale raises the bound of a sum by one, exactly. *)
Lemma add_unit (s x : F64) (k : nat) :
  (Z.of_nat (S k) <= 2 ^ 53)%Z -> nonneg s -> val s <= Qn k -> unit_f64 x ->
  nonneg (f64_add s x) /\ val (f64_add s x) <= Qn (S k).
Proof.
  intros Hk Hs Hsk [Hx Hx1]. destruct (of_nat_exact (S k) Hk) as [Hb Hbv].
  destruct (rounded_below _ _ _ (f64_add_rounded s x Hs Hx) Hb) as (H1 & H2 & _); rewrite Hbv in *; rewrite Qn_succ in *.
  - lra.
  - split; [done|lra].
Qed.

Lemma sum_units (l : list F64) (s : F64) (k : nat) :
  (Z.of_nat (k + length l) <= 2 ^ 53)%Z -> Forall unit_f64 l -> nonneg s -> val s <= Qn k ->
  nonneg (fold_left f64_add l s) /\ val (fold_left f64_add l s) <= Qn (k + length l).
Proof.
  intros Hk Hl. revert s k Hk. induction Hl as [|x l Hx Hl IH]; intros s k Hk Hs Hsk; cbn in *.
  - by rewrite Nat.add_0_r.
  - destruct (add_unit s x k) as [H1 H2]; [lia|done..|]. rewrite Nat.add_succ_r. apply (IH _ (S k)); [lia|done..].
Qed.

Lemma div_unit (x : F64) (n : nat) :
  (0 < n)%nat -> (Z.of_nat n <= 2 ^ 53)%Z -> nonneg x -> val x <= Qn n -> unit_f64 (f64_div x (f64_of_nat n)).
Proof.
  intros Hn Hsm Hx Hxn. destruct (of_nat_exact n Hsm) as [Hb Hbv]. destruct one_val as [Ho Hov].
  pose proof (of_nat_le 1 n Hn) as H1. change (Qn 1) with 1 in H1.
  assert (0 < val (f64_of_nat n)) as Hpos by (rewrite Hbv; lra).
  destruct (rounded_below _ _ _ (f64_div_rounded x _ Hx Hb Hpos) Ho) as (Hq & Hq1 & _).
  - rewrite Hov. apply Qle_shift_div_r; [done|]. rewrite Hbv. lra.
  - split; [done|lra].
Qed.

Lemma mean_unit (l : list F64) (n : nat) :
  (0 < n)%nat -> (length l <= n)%nat -> (Z.of_nat n <= 2 ^ 53)%Z -> Forall unit_f64 l ->
  unit_f64 (f64_div (f64_sum l) (f64_of_nat n)).
Proof.
  intros Hn Hl Hsm Hu. destruct (sum_units l (S754_zero true) 0) as [Hs Hsl]; [cbn; lia|done|done|by vm_compute|].
  apply div_unit; [done|done|done|]. pose proof (of_nat_le _ _ Hl). cbn [Nat.add] in Hsl. unfold f64_sum. lra.
Qed.
End MeanFacts.

(** The sum and the count of a category, after [k] results. *)
Definition bucket_ok (k : nat) (e : string * (Category * F64 * nat)) : Prop :=
  nonneg e.2.1.2 /\ (val e.2.1.2 <= inject_Z (Z.of_nat e.2.2))%Q /\ 0 < e.2.2 <= k.

Lemma bt_insert_Forall {V} (P : string * V -> Prop) (k : string) (v : V) (m : btree V) :
  P (k, v) -> Forall P m -> Forall P (bt_insert k v m).
Proof.
  intros Hv Hm. induction Hm as [|[k' v'] m Hx Hm IH]; cbn; [by repeat constructor|].
  destruct (String.eqb_spec k k') as [->|]; [by constructor|]. destruct (str_ltb k k'); by repeat constructor.
Qed.

Lemma add_bucket_ok (k : nat) (buckets : btree (Category * F64 * nat)) (r : EventResult) :
  (Z.of_nat (S k) <= 2 ^ 53)%Z -> unit_f64 (overall (er_score r)) -> Forall (bucket_ok k) buckets ->
  Forall (bucket_ok (S k)) (add_bucket buckets r).
Proof.
  intros Hk Hu Hb. unfold add_bucket.
  destruct (default _ (bt_get _ buckets)) as [[c sum] count] eqn:Hd. apply bt_insert_Forall.
  - assert (nonneg sum /\ (val sum <= inject_Z (Z.of_nat count))%Q /\ count <= k) as (Hs & Hsc & Hc).
    { destruct (bt_get _ buckets) as [b|] eqn:Hg; cbn in Hd; [subst b|injection Hd as <- <- <-; split_and!; [done|by vm_compute|lia]].
      apply bt_get_elem in Hg. rewrite Forall_forall in Hb. destruct (Hb _ Hg) as (? & ? & ?). cbn in *. split_and!; [done..|lia]. }
    destruct (add_unit sum _ count ltac:(lia) Hs Hsc Hu). split_and!; [done..|cbn; lia|cbn; lia].
  - eapply Forall_impl; [exact Hb|]. intros e (? & ? & ?). split_and!; [done..|lia|lia].
Qed.

Lemma buckets_ok (results : list EventResult) (k : nat) (buckets : btree (Category * F64 * nat)) :
  (Z.of_nat (k + length results) <= 2 ^ 53)%Z -> Forall (fun r => unit_f64 (overall (er_score r))) results ->
  Forall (bucket_ok k) buckets -> Forall (bucket_ok (k + length results)) (fold_left add_bucket results buckets).
Proof.
  intros Hk Hr. revert k buckets Hk. induction Hr as [|r results Hu Hr IH]; intros k buckets Hk Hb; cbn in *.
  - by rewrite Nat.add_0_r.
  - rewrite Nat.add_succ_r. apply (IH (S k)); [lia|]. apply add_bucket_ok; [lia|done..].
Qed.

(** A row whose means are on the scale. *)
Definition row_on_scale (r : Row) : Prop :=
  unit_f64 (rw_faithfulness r) /\ unit_f64 (rw_actionability r) /\ unit_f64 (rw_overall r)
  /\ Forall (fun p => unit_f64 p.2) (rw_per_category r).

Lemma aggregate_on_scale (model : string) (recorded : bool) (captured_on : string) (mem : option F64)
    (results : list EventResult) :
  (Z.of_nat (length results) <= 2 ^ 53)%Z -> Forall (fun r => on_scale (er_score r)) results ->
  row_on_scale (aggregate model recorded captured_on mem results).
Proof.
  intros Hn Hr. assert (forall f : EventResult -> F64, (forall r, on_scale (er_score r) -> unit_f64 (f r)) ->
    unit_f64 (f64_div (f64_sum (map f results)) (f64_of_nat (Nat.max (length results) 1)))) as Hmean.
  { intros f Hf. apply mean_unit; [lia|rewrite length_map; lia|lia|]. apply Forall_map.
    eapply Forall_impl; [exact Hr|]. exact Hf. }
  split_and!; [apply Hmean; by intros r (? & ? & ?)..|]. cbn [aggregate rw_per_category].
  assert (Forall (bucket_ok (length results)) (fold_left add_bucket results [])) as Hb.
  { apply (buckets_ok results 0 []); [done| |constructor]. eapply Forall_impl; [exact Hr|]. by intros r (? & ? & ?). }
  unfold bt_values. rewrite Forall_map, Forall_fmap. eapply Forall_impl; [exact Hb|].
  intros e (Hs & Hc & Hk). apply div_unit; [lia|lia|done|done].
Qed.

(** ** Facts: the replay *)

Section ReplayFacts.
Context `{SerdeValue}.
Variable to_lowercase : string -> string.
Variable json_from_str : string -> option Json.
Variable manifest_from_json : string -> result string RecordingManifest.
Variable fs : EvalFiles.

Definition measured_corpus (corpus : list Fixture) : Prop :=
  (Z.of_nat (length corpus) <= 2 ^ 53)%Z /\ Forall (fun f => measured (fx_reference f)) corpus.

Lemma score_completion_on_scale (f : Fixture) (c : Completion) :
  measured (fx_reference f) -> on_scale (er_score (score_completion to_lowercase json_from_str f c)).
Proof. intros Hf. unfold score_completion. destruct (parse_explanation _ _) as [text check]. by apply score_on_scale. Qed.

(** The results of a whole corpus, one for each fixture and in its order. *)
Lemma score_corpus_spec complete line (k : nat) (corpus : list Fixture) printed results :
  score_corpus to_lowercase json_from_str complete line k corpus = (printed, Some (Ok results)) ->
  Forall (fun f => measured (fx_reference f)) corpus ->
  map er_name results = map fx_name corpus /\ Forall (fun r => on_scale (er_score r)) results
  /\ printed = map (fun r => Stdout (line r)) results.
Proof.
  revert k printed results. induction corpus as [|f corpus IH]; intros k printed results; cbn [score_corpus].
  { intros [= <- <-] _. by repeat constructor. }
  destruct (complete k f) as [[c|e]|]; [|done..]. destruct (score_corpus _ _ _ _ (S k) corpus) as [more [[rs|e]|]] eqn:Hrest;
    cbn; intros [= <- <-] [Hf Hc]%Forall_cons. destruct (IH _ _ _ Hrest Hc) as (Hn & Hs & ->).
  split_and!; [cbn; f_equal; [|done]|constructor; [by apply score_completion_on_scale|done]|done].
  unfold score_completion. by destruct (parse_explanation _ _).
Qed.

Lemma score_corpus_returns (complete : nat -> Fixture -> result Chain Completion) line (k : nat) (corpus : list Fixture) :
  snd (score_corpus to_lowercase json_from_str (fun k f => Some (complete k f)) line k corpus) <> None.
Proof.
  revert k. induction corpus as [|f corpus IH]; intros k; cbn; [done|]. destruct (complete k f); [|done].
  specialize (IH (S k)). by destruct (score_corpus _ _ _ _ _ _) as [? [[]|]].
Qed.

(** A row of a replay: the manifest's model, over the whole corpus, on the scale. *)
Definition replayed (corpus : list Fixture) (dir : string) (row : Row) : Prop :=
  (exists b, recorded_load fs manifest_from_json dir = Ok b /\ rw_model row = mf_model (rb_manifest b))
  /\ rw_recorded row = true /\ rw_fixtures row = length corpus /\ row_on_scale row.

Lemma bench_recorded_spec (b : RecordedBackend) (corpus : list Fixture) printed row :
  measured_corpus corpus ->
  bench_recorded to_lowercase json_from_str fs b corpus = (printed, Some (Ok row)) ->
  rw_model row = mf_model (rb_manifest b) /\ rw_recorded row = true /\ rw_fixtures row = length corpus /\ row_on_scale row.
Proof.
  intros [Hlen Hm]. unfold bench_recorded. destruct (score_corpus _ _ _ _ 0 corpus) as [lines [[rs|e]|]] eqn:Hs; cbn;
    intros [= _ <-]. destruct (score_corpus_spec _ _ _ _ _ _ Hs Hm) as (Hn & Hr & _).
  assert (length rs = length corpus) as Hl by (by rewrite <-(length_map er_name), Hn, length_map).
  split_and!; [done..|]. apply aggregate_on_scale; [lia|done].
Qed.

Lemma bench_dirs_spec (corpus : list Fixture) (dirs : list string) printed rows :
  measured_corpus corpus ->
  bench_dirs to_lowercase json_from_str fs manifest_from_json corpus dirs = (printed, Some (Ok rows)) ->
  Forall2 (replayed corpus) dirs rows.
Proof.
  intros Hc. revert printed rows. induction dirs as [|dir dirs IH]; intros printed rows; cbn; [by intros [= _ <-]|].
  destruct (recorded_load _ _ dir) as [b|e] eqn:Hb; [|done].
  destruct (bench_recorded _ _ _ b corpus) as [lines [[row|e]|]] eqn:Hrow; [|done..].
  destruct (bench_dirs _ _ _ _ corpus dirs) as [more [[rest|e]|]] eqn:Hrest; cbn; intros [= _ <-].
  destruct (bench_recorded_spec _ _ _ _ Hc Hrow) as (Hmod & Hrec & Hfix & Hs).
  constructor; [|by eapply IH]. split_and!; eauto.
Qed.

Lemma bench_dirs_returns (corpus : list Fixture) (dirs : list string) :
  snd (bench_dirs to_lowercase json_from_str fs manifest_from_json corpus dirs) <> None.
Proof.
  induction dirs as [|dir dirs IH]; cbn; [done|]. destruct (recorded_load _ _ dir) as [b|e]; [|done].
  pose proof (score_corpus_returns (fun _ f => read_recording fs b (fx_name f)) result_line 0 corpus) as Hb.
  unfold bench_recorded. destruct (score_corpus _ _ _ _ 0 corpus) as [lines [[rs|e]|]]; [|done..]. cbn in *.
  by destruct (bench_dirs _ _ _ _ corpus dirs) as [more [[rest|e]|]].
Qed.

(** The reproducible benchmark.  Replaying the recorded runs returns, with rows or
    an error; its rows are one for each directory with a manifest, by name, each with
    the manifest's model, over the whole corpus, and with every mean, those of the
    categories included, between 0 and 1 as computed in machine arithmetic; and the
    report lists exactly these rows, best first and by name among equals. *)
Theorem replay_is_ranked (root : string) (entries : list (result string string)) (corpus : list Fixture) :
  measured_corpus corpus -> fs_read_dir fs root = Ok entries ->
  exists outcome, snd (run_all_recorded to_lowercase json_from_str fs manifest_from_json root corpus) = Some outcome
  /\ forall rows, outcome = Ok rows ->
     Forall2 (replayed corpus) (recording_dirs fs root entries) rows
     /\ StronglySorted str_le (recording_dirs fs root entries)
     /\ sorted_rows rows ≡ₚ rows /\ StronglySorted ranked (sorted_rows rows).
Proof.
  intros Hc Hdir. unfold run_all_recorded. rewrite Hdir.
  pose proof (bench_dirs_returns corpus (recording_dirs fs root entries)) as Hret.
  destruct (bench_dirs _ _ _ _ corpus _) as [printed [outcome|]] eqn:Hb; [|done]. exists outcome. split; [done|].
  intros rows ->. pose proof (bench_dirs_spec corpus _ _ _ Hc Hb) as Hrows. split_and!; [done| |apply sort_by_Permutation|].
  - apply (sort_by_sorted str_ltb (fun _ => True) str_le); [intros x y z _ _ _; apply str_le_trans| |by apply Forall_true].
    intros x y _ _. destruct (str_ltb x y) eqn:Hlt; [by apply str_ltb_le|done].
  - apply sorted_rows_ranked. rewrite Forall_forall. intros row Hrow. apply list_elem_of_lookup in Hrow as [i Hi].
    destruct (Forall2_lookup_r _ _ _ _ _ Hrows Hi) as (dir & _ & (_ & _ & _ & _ & _ & (Hn & _) & _)). done.
Qed.
End ReplayFacts.

(** ** Examples *)

#[local] Existing Instance string_value.
Definition demo_event (text : string) : result string Event := if String.eqb text "E" then Ok nginx_event else Err "not an event"%string.
Definition demo_reference (text : string) : result string Reference :=
  if String.eqb text "R" then Ok nginx_reference else Err "not a reference"%string.
Definition demo_manifest (text : string) : result string RecordingManifest :=
  Ok {| mf_model := text; mf_captured_on := "a laptop"; mf_latency_ms := f64_of_Z 900; mf_gen_tps := Some (f64_of_Z 18);
        mf_prompt_tps := None; mf_mem_mb := None |}.
Definition demo_contents : list (string * string) :=
  [("corpus/a.event.json", "E"); ("corpus/a.reference.json", "R"); ("corpus/b.event.json", "E"); ("corpus/b.reference.json", "R");
   ("runs/small/manifest.json", "small-1b"); ("runs/small/a.txt", "The room is hot."); ("runs/small/b.txt", "");
   ("runs/big/manifest.json", "big-7b"); ("runs/big/a.txt", good_answer); ("runs/big/b.txt", good_answer)]%string.
Definition demo_files (listing : list string) : EvalFiles := {|
  fs_read_dir := fun dir => Ok (map Ok (if String.eqb dir "corpus" then listing else ["small"; "notes"; "big"]%string));
  fs_read := fun path => ok_or ("No such file or directory (os error 2)"%string) (bt_get path demo_contents);
  fs_exists := fun path => bool_decide (is_Some (bt_get path demo_contents));
  fs_write := fun _ _ => Ok tt |}.
Definition demo_fixture (name : string) : Fixture := {| fx_name := name; fx_event := nginx_event; fx_reference := nginx_reference |}.
Definition demo_corpus : list Fixture := [demo_fixture "a"; demo_fixture "b"].

Lemma load_corpus_deterministic_witness :
  load_corpus demo_event demo_reference (demo_files ["README"; "a.event.json"; "b.event.json"]%string) "corpus" = Ok demo_corpus
  /\ StronglySorted name_le demo_corpus.
Proof.
  destruct (load_corpus_deterministic demo_event demo_reference (demo_files ["b.event.json"; "a.event.json"; "README"]%string)
    (demo_files ["README"; "a.event.json"; "b.event.json"]%string) "corpus" ["b.event.json"; "a.event.json"; "README"]%string
    ["README"; "a.event.json"; "b.event.json"]%string demo_corpus) as (Hc & Hs & _).
  - reflexivity.
  - reflexivity.
  - reflexivity.
  - apply (Permutation_rev ["b.event.json"; "a.event.json"; "README"]%string).
  - vm_compute. reflexivity.
  - split; [exact Hc|exact Hs].
Defined.

Definition demo_rows : list Line * option (result Chain (list Row)) :=
  run_all_recorded to_ascii_lowercase (fun _ => None) (demo_files []) demo_manifest "runs" demo_corpus.
Definition rows_of (run : list Line * option (result Chain (list Row))) : list Row :=
  match snd run with Some (Ok rows) => rows | _ => [] end.
Lemma replay_is_ranked_witness :
  map rw_model (sorted_rows (rows_of demo_rows)) = ["big-7b"; "small-1b"]%string
  /\ Forall2 (replayed demo_manifest (demo_files []) demo_corpus) ["runs/big"; "runs/small"]%string (rows_of demo_rows).
Proof.
  destruct (replay_is_ranked to_ascii_lowercase (fun _ => None) demo_manifest (demo_files []) "runs"
    (map Ok ["small"; "notes"; "big"]%string) demo_corpus) as (outcome & Hrun & Hrows).
  - repeat split; [cbn; lia|]. repeat constructor.
  - reflexivity.
  - fold demo_rows in Hrun. assert (outcome = Ok (rows_of demo_rows)) as Ho.
    { unfold rows_of. rewrite Hrun. assert (is_ok outcome = true) as Hok; [|by destruct outcome].
      assert (option_map is_ok (snd demo_rows) = Some true) as Hd by (vm_compute; reflexivity).
      rewrite Hrun in Hd. by injection Hd. }
    destruct (Hrows _ Ho) as (Hf & _ & _ & _). split; [vm_compute; reflexivity|].
    assert (recording_dirs (demo_files []) "runs" (map Ok ["small"; "notes"; "big"]%string) = ["runs/big"; "runs/small"]%string)
      as <- by (vm_compute; reflexivity). exact Hf.
Defined.

(** A whole run: the corpus validated, and the report of the replay. *)
Definition demo_main : list string -> MainRun :=
  eval_main to_ascii_lowercase (fun _ => None) demo_event demo_reference (demo_files ["b.event.json"; "a.event.json"]%string)
    show_N demo_manifest "ravn-eval" (Ok tt) (fun _ => {| sv_send := fun _ _ => (LiveNoAnswer ["refused"%string], 0%Z); sv_metrics := fun _ => None |}).
Example validate_ex :
  mr_printed (demo_main ["--corpus"; "corpus"; "--fast"; "--validate"]%string)
  = [Stderr "ignoring unknown argument: --fast"; Stdout "loaded 2 fixtures from corpus";
     Stdout "  a                            [failed unit]"; Stdout "  b                            [failed unit]";
     Stdout (newline +:+ "corpus OK; 2 fixtures validated.")]%string.
Proof. vm_compute. reflexivity. Qed.
Example live_failure_ex :
  mr_result (demo_main ["--corpus"; "corpus"; "--endpoint"; "http://localhost:8080/"; "--models"; "m1, m2,"]%string)
  = Some (Err ["no models produced results"%string])
  /\ mr_printed (demo_main ["--corpus"; "corpus"; "--endpoint"; "http://localhost:8080/"; "--models"; "m1,"]%string)
  = [Stdout "loaded 2 fixtures from corpus"; Stdout (newline +:+ "benchmarking m1 @ http://localhost:8080 (live)");
     Stderr "  model 'm1' failed: inference request failed: refused"]%string.
Proof. vm_compute. split; reflexivity. Qed.
Example table_ex :
  row_line <$> sorted_rows (rows_of demo_rows)
  = ["| big-7b | 0.70 | 1.00 | 0.00 | 900 | n/a | 18.0 | n/a | recorded |" +:+ newline;
     "| small-1b | 0.15 | 0.25 | 0.00 | 900 | n/a | 18.0 | n/a | recorded |" +:+ newline]%string.
Proof. vm_compute. reflexivity. Qed.
