(* ===== verification/McpClient.v ===== *)
(** * The MCP bridge: configuration and HTTP client ([ravn-mcp/src/config.rs],
    [client.rs])

  Flags and environment, the paths of the control plane's endpoints with the
  percent encoder, and the reading of a response.  The HTTP exchange, the lines of
  standard input and output and a panic are the events of an interaction tree. *)

From ITree Require Import ITree ITreeFacts.
From S2P Require Export Startup JsonValue Envelope Trees.

(** ** Configuration *)

Record McpConfig := mkMcpConfig {
  mc_base_url : string;
  mc_token : option string;
  mc_allow_mutations : bool;
  mc_log : string;
}.
Definition DEFAULT_BASE_URL : string := "http://127.0.0.1:8080".

Definition usage_lines : list string := [
  "ravn-mcp — the Ravn MCP server (read-only by default)";
  "";
  "USAGE:";
  "    ravn-mcp [--url URL] [--token TOKEN] [--allow-mutations]";
  "";
  "OPTIONS:";
  "    --url URL           Control-plane base URL (env RAVN_MCP_URL, default http://127.0.0.1:8080)";
  "    --token TOKEN       Bearer token for the control plane (env RAVN_MCP_TOKEN)";
  "    --allow-mutations   Expose approve/reject remediation tools (env RAVN_MCP_ALLOW_MUTATIONS).";
  "                       Requires an admin-scoped --token. NEVER auto-executes.";
  "    -h, --help          Print this help";
  "";
  "The server speaks MCP over stdio. Point an MCP client (e.g. Claude Code) at it."]%string.
Definition usage (error : string) : string :=
  error +:+ newline +:+ newline +:+ join newline usage_lines.
Definition help_text : string := trim_start (usage "").

(** [str::trim_start_matches] with a string pattern removes every repetition. *)
Fixpoint trim_start_matches_loop (fuel : nat) (p s : string) : string :=
  match fuel with
  | O => s
  | S n => match strip_prefix p s with Some s' => trim_start_matches_loop n p s' | None => s end
  end.
Definition trim_start_matches_str (p s : string) : string :=
  trim_start_matches_loop (String.length s) p s.

(** The flags in force while the arguments are read. *)
Record Flags := mkFlags { fl_url : option string; fl_token : option string; fl_mutations : bool }.

(** The argument loop: [Ok None] is [--help]. *)
Fixpoint parse_flags (args : list string) (f : Flags) : result string (option Flags) :=
  match args with
  | [] => Ok (Some f)
  | arg :: rest =>
      if one_of arg ["--help"; "-h"] then Ok None
      else if String.eqb arg "--allow-mutations" then
        parse_flags rest {| fl_url := fl_url f; fl_token := fl_token f; fl_mutations := true |}
      else if String.eqb arg "--url" then
        match rest with
        | v :: rest' => parse_flags rest' {| fl_url := Some v; fl_token := fl_token f; fl_mutations := fl_mutations f |}
        | [] => Err (usage "--url needs a value")
        end
      else if String.eqb arg "--token" then
        match rest with
        | v :: rest' => parse_flags rest' {| fl_url := fl_url f; fl_token := Some v; fl_mutations := fl_mutations f |}
        | [] => Err (usage "--token needs a value")
        end
      else if starts_with "--url=" arg then
        parse_flags rest {| fl_url := Some (trim_start_matches_str "--url=" arg);
                            fl_token := fl_token f; fl_mutations := fl_mutations f |}
      else if starts_with "--token=" arg then
        parse_flags rest {| fl_url := fl_url f; fl_token := Some (trim_start_matches_str "--token=" arg);
                            fl_mutations := fl_mutations f |}
      else Err (usage ("unknown argument: " +:+ arg))
  end.

(** [Config::parse]: [var] is [std::env::var(..).ok()]. *)
Definition mcp_config_parse (var : string -> option string) (args : list string)
    : result string (option McpConfig) :=
  let env k := env_var var k in
  let allow := match env "RAVN_MCP_ALLOW_MUTATIONS" with
               | Some v => truthy v | None => false end in
  let log := match env "RAVN_MCP_LOG" with
             | Some v => v | None => default "warn"%string (env "RUST_LOG") end in
  option_map (fun f => {| mc_base_url := default DEFAULT_BASE_URL (fl_url f); mc_token := fl_token f;
                          mc_allow_mutations := fl_mutations f; mc_log := log |})
    <$> parse_flags args {| fl_url := env "RAVN_MCP_URL"; fl_token := env "RAVN_MCP_TOKEN";
                            fl_mutations := allow |}.

(** ** Percent encoding *)

Definition is_unreserved (c : ascii) : bool :=
  is_ascii_alphanumeric c || is_byte 45 c || is_byte 95 c || is_byte 46 c || is_byte 126 c.
(** [{b:02X}]. *)
Definition hex_upper (n : N) : ascii := ascii_of_N (if (n <? 10)%N then 48 + n else 55 + n).
Fixpoint urlencode (s : string) : string :=
  match s with
  | EmptyString => EmptyString
  | String c s' =>
      if is_unreserved c then String c (urlencode s')
      else String (ascii_of_N 37)
             (String (hex_upper (code c / 16)) (String (hex_upper (code c mod 16)) (urlencode s')))
  end.

(** ** The exchange with the environment *)

Inductive HttpMethod := GET | POST.
Record HttpCall := mkCall {
  hc_method : HttpMethod;
  hc_url : string;
  hc_json : bool;
  hc_bearer : option string;
}.
(** The status, and the body or the error of reading it. *)
Record HttpAnswer := mkAnswer { ha_status : N; ha_body : result Chain string }.

Variant mcpE : Type -> Type :=
  | Send (c : HttpCall) : mcpE (result Chain HttpAnswer)
  | ReadLine : mcpE (result Chain (option string))
  | WriteLine (line : string) : mcpE (result Chain unit)
  | Panic (msg : string) : mcpE Empty_set.
Definition panics {R} (msg : string) : itree mcpE R :=
  ITree.bind (ITree.trigger (Panic msg)) (fun v : Empty_set => match v with end).

(** [serde_json] on a value, and the text of a status code. *)
Class WireFormat : Type := {
  value_from_str : string -> result string Json;
  to_string_pretty : Json -> string;
  to_line : Json -> string;
  status_display : N -> string;
}.

Section Client.
Context `{WireFormat}.

Record ControlPlaneClient := mkClient { cl_base_url : string; cl_token : option string }.
Definition client_new (base_url : string) (token : option string) : ControlPlaneClient :=
  {| cl_base_url := trim_end_matches (is_byte 47) base_url; cl_token := token |}.

Definition status_is_success (s : N) : bool := (200 <=? s)%N && (s <? 300)%N.
Definition status_hint (s : N) : string :=
  match s with
  | 401%N => " (missing or invalid token — set RAVN_MCP_TOKEN to a control-plane bearer token)"
  | 403%N => " (token lacks the required role — mutations need an admin-scoped token)"
  | _ => ""
  end.

(** [None]: slicing the body of an error inside a character panics. *)
Definition json_or_error (a : HttpAnswer) (url : string) : option (result Chain Json) :=
  if status_is_success (ha_status a) then
    Some (body ← with_context ("reading body of " +:+ url) (ha_body a);
          if is_empty (trim body) then Ok JNull
          else with_context ("parsing JSON body of " +:+ url)
                 (map_err (fun e => [e]) (value_from_str body)))
  else
    let body := match ha_body a with Ok b => b | Err _ => EmptyString end in
    (fun t => Err ["control plane returned " +:+ status_display (ha_status a) +:+ " for " +:+ url
                   +:+ status_hint (ha_status a) +:+ ": " +:+ t])
      <$> truncate_bytes body 500.

Definition method_name (m : HttpMethod) : string := match m with GET => "GET" | POST => "POST" end.
(** [get] and [post]. *)
Definition request (cl : ControlPlaneClient) (m : HttpMethod) (path : string) : itree mcpE (result Chain Json) :=
  let url := cl_base_url cl +:+ path in
  resp ← ITree.trigger (Send {| hc_method := m; hc_url := url;
                                 hc_json := match m with POST => true | GET => false end;
                                 hc_bearer := cl_token cl |});
  match with_context (method_name m +:+ " " +:+ url) resp with
  | Err e => Ret (Err e)
  | Ok a => match json_or_error a url with
            | Some r => Ret r
            | None => panics "byte index 500 is not a char boundary"
            end
  end.

Definition client_agents (cl : ControlPlaneClient) := request cl GET "/api/agents".
Definition events_path (limit : N) : string := "/api/events?limit=" +:+ show_N limit.
Definition list_events (cl : ControlPlaneClient) (limit : N) := request cl GET (events_path limit).
Definition topology_path (group_by : option string) : string :=
  match group_by with Some key => "/api/topology?group_by=" +:+ urlencode key | None => "/api/topology" end.
Definition client_topology (cl : ControlPlaneClient) (group_by : option string) :=
  request cl GET (topology_path group_by).
Definition list_remediations (cl : ControlPlaneClient) := request cl GET "/api/remediations".
Definition approve_path (id : string) : string := "/api/remediations/" +:+ urlencode id +:+ "/approve".
Definition client_approve (cl : ControlPlaneClient) (id : string) := request cl POST (approve_path id).
Definition reject_path (id : string) : string := "/api/remediations/" +:+ urlencode id +:+ "/reject".
Definition client_reject (cl : ControlPlaneClient) (id : string) := request cl POST (reject_path id).
End Client.

(** ** Percent encoding is injective and stays within a segment *)

(** The reference decoder of percent-encoded text. *)
Definition hex_value (c : ascii) : option N :=
  if is_ascii_digit c then Some (code c - 48)%N
  else if in_range 65 70 c then Some (code c - 55)%N else None.
Fixpoint percent_decode (s : string) : option string :=
  match s with
  | EmptyString => Some EmptyString
  | String c s' =>
      if is_byte 37 c then
        match s' with
        | String h (String l s'') =>
            h' ← hex_value h; l' ← hex_value l; r ← percent_decode s'';
            Some (String (ascii_of_N (16 * h' + l')) r)
        | _ => None
        end
      else String c <$> percent_decode s'
  end.

Lemma hex_value_upper (n : N) : (n < 16)%N -> hex_value (hex_upper n) = Some n.
Proof.
  intros Hn. pose proof (N_below 16 (fun n => bool_decide (hex_value (hex_upper n) = Some n)) eq_refl n Hn) as Hb.
  by apply bool_decide_eq_true in Hb.
Qed.

Lemma nibbles (c : ascii) : (code c / 16 < 16)%N /\ (code c mod 16 < 16)%N.
Proof.
  assert (code c < 256)%N by apply N_ascii_bounded.
  split; [apply N.Div0.div_lt_upper_bound; lia|by apply N.mod_lt].
Qed.

Lemma percent_decode_urlencode (s : string) : percent_decode (urlencode s) = Some s.
Proof.
  induction s as [|c s IH]; cbn; [done|]. destruct (is_unreserved c) eqn:Hc; cbn.
  - assert (is_byte 37 c = false) as ->.
    { unfold is_unreserved, is_ascii_alphanumeric, is_ascii_lowercase, is_ascii_uppercase, is_ascii_digit,
        in_range, is_byte in *. apply N.eqb_neq. intros Heq. rewrite Heq in Hc. done. }
    by rewrite IH.
  - destruct (nibbles c) as [Hh Hl]. rewrite !hex_value_upper, IH by done. cbn.
    rewrite <-N.div_mod by done. unfold code. by rewrite ascii_N_embedding.
Qed.

(** The bytes an encoded segment is made of: none separates segments, starts a
    query or a fragment, or is white space. *)
Definition segment_byte (c : ascii) : bool := is_unreserved c || is_byte 37 c.

Lemma hex_upper_segment (n : N) : (n < 16)%N -> segment_byte (hex_upper n) = true.
Proof. apply (N_below 16 (fun n => segment_byte (hex_upper n))). reflexivity. Qed.

Lemma urlencode_segment (s : string) : str_forallb segment_byte (urlencode s) = true.
Proof.
  induction s as [|c s IH]; cbn; [done|]. destruct (is_unreserved c) eqn:Hc; cbn.
  - unfold segment_byte at 1. by rewrite Hc.
  - destruct (nibbles c) as [Hh Hl]. by rewrite !hex_upper_segment, IH.
Qed.

(** A tool argument cannot reach another endpoint: the identifier in the path
    of an approval or a rejection is percent-encoded without loss (the reference
    decoder gives it back, so two ids never share a path), and the encoded segment
    holds no separator, query or fragment byte. *)
Theorem urlencode_roundtrip (id : string) :
  exists seg, approve_path id = "/api/remediations/" +:+ seg +:+ "/approve"
    /\ reject_path id = "/api/remediations/" +:+ seg +:+ "/reject"
    /\ percent_decode seg = Some id /\ str_forallb segment_byte seg = true.
Proof.
  exists (urlencode id). split_and!; [done..| |]; [apply percent_decode_urlencode|apply urlencode_segment].
Qed.

(** The dot is unreserved, so a dot segment is kept and a URL parser removes it. *)
Theorem dot_segments_kept : approve_path ".." = "/api/remediations/../approve"%string.
Proof. reflexivity. Qed.

(** ** Mutations are opt-in *)

Lemma parse_flags_mutations (args : list string) (f f' : Flags) :
  parse_flags args f = Ok (Some f') -> fl_mutations f' = true ->
  fl_mutations f = true \/ "--allow-mutations"%string ∈ args.
Proof.
  revert f. induction args as [[|arg rest] IH] using list_length_ind; intros f; cbn.
  { intros [= <-]. auto. }
  assert (forall r g, length r < length (arg :: rest) -> (forall x, x ∈ r -> x ∈ rest) ->
    fl_mutations g = fl_mutations f -> parse_flags r g = Ok (Some f') -> fl_mutations f' = true ->
    fl_mutations f = true \/ "--allow-mutations"%string ∈ arg :: rest) as Hrec.
  { intros r g Hl Hin <- Hp Hf. destruct (IH r Hl g Hp Hf); [by left|]. right. right. auto. }
  destruct (_ || _); [done|].
  destruct (String.eqb arg "--allow-mutations") eqn:Ha.
  { apply String.eqb_eq in Ha as ->. intros _ _. right. left. }
  destruct (String.eqb arg "--url"); [destruct rest as [|v r]; [done|]; apply Hrec; cbn; [lia|set_solver|done]|].
  destruct (String.eqb arg "--token"); [destruct rest as [|v r]; [done|]; apply Hrec; cbn; [lia|set_solver|done]|].
  destruct (starts_with "--url=" arg); [by apply Hrec; cbn; [lia|..]|].
  destruct (starts_with "--token=" arg); [by apply Hrec; cbn; [lia|..]|done].
Qed.

Lemma mcp_config_opt_in (var : string -> option string) (args : list string) (c : McpConfig) :
  mcp_config_parse var args = Ok (Some c) -> mc_allow_mutations c = true ->
  "--allow-mutations"%string ∈ args
  \/ exists v, var "RAVN_MCP_ALLOW_MUTATIONS"%string = Some v /\ truthy v = true.
Proof.
  unfold mcp_config_parse, env_var. destruct (parse_flags _ _) as [[f|]|] eqn:Hp; cbn; [|done..].
  intros [= <-] Hm. cbn in Hm. destruct (parse_flags_mutations _ _ _ Hp Hm) as [Hf|]; [|by left].
  cbn in Hf. right. destruct (var "RAVN_MCP_ALLOW_MUTATIONS"%string) as [v|]; [|done].
  destruct (is_empty v); [done|eauto].
Qed.
