(* ===== verification/Mcp.v ===== *)
(** * The MCP server ([ravn-mcp/src/protocol.rs], [tools.rs], [server.rs])

  The JSON-RPC messages, the catalog of tools with the gated ones, the dispatch of a
  call, the request handler and the loop over standard input, as an interaction
  tree; that a read-only server never performs a mutating request whatever its
  input, and that every request gets exactly one response, to its id.

  Decoding a request and its parameters into structs is serde's and is the class
  [RpcSerde]. *)

From ITree Require Import ITree ITreeFacts Events.State Events.StateFacts.
From S2P Require Export McpClient.

(** ** Protocol ([protocol.rs]) *)

Definition PROTOCOL_VERSION : string := "2025-06-18".

(** [id] is [None] when it is absent, and when it is [null]: a notification. *)
Record JsonRpcRequest := mkRpcRequest {
  rq_id : option Json;
  rq_method : string;
  rq_params : Json;
}.
Record JsonRpcError := mkRpcError { je_code : Z; je_message : string; je_data : option Json }.
Record JsonRpcResponse := mkRpcResponse {
  rs_id : Json;
  rs_result : option Json;
  rs_error : option JsonRpcError;
}.
Definition response_ok (id v : Json) : JsonRpcResponse :=
  {| rs_id := id; rs_result := Some v; rs_error := None |}.
Definition response_err (id : Json) (e : JsonRpcError) : JsonRpcResponse :=
  {| rs_id := id; rs_result := None; rs_error := Some e |}.
Definition parse_error (detail : string) : JsonRpcError :=
  {| je_code := -32700; je_message := detail; je_data := None |}.
Definition method_not_found (method : string) : JsonRpcError :=
  {| je_code := -32601; je_message := "method not found: " +:+ method; je_data := None |}.
Definition invalid_params (detail : string) : JsonRpcError :=
  {| je_code := -32602; je_message := detail; je_data := None |}.

(** The serialized forms; absent options are skipped. *)
Definition opt_field {A} (k : string) (f : A -> Json) (o : option A) : list (string * Json) :=
  match o with Some a => [(k, f a)] | None => [] end.
Definition error_json (e : JsonRpcError) : Json :=
  JObject ([("code", JNumber (show_Z (je_code e))); ("message", JString (je_message e))]%string
           ++ opt_field "data" (fun v => v) (je_data e)).
Definition response_json (r : JsonRpcResponse) : Json :=
  JObject ([("jsonrpc", JString "2.0"); ("id", rs_id r)]%string
           ++ opt_field "result" (fun v => v) (rs_result r) ++ opt_field "error" error_json (rs_error r)).

Record ToolAnnotations := mkAnnotations {
  ta_title : string;
  ta_read_only_hint : bool;
  ta_destructive_hint : bool;
  ta_idempotent_hint : bool;
  ta_open_world_hint : bool;
}.
Record ToolDefinition := mkTool {
  td_name : string;
  td_description : string;
  td_input_schema : Json;
  td_annotations : ToolAnnotations;
}.
Definition tool_json (t : ToolDefinition) : Json :=
  let a := td_annotations t in
  JObject [("name", JString (td_name t)); ("description", JString (td_description t));
           ("inputSchema", td_input_schema t);
           ("annotations", JObject [("title", JString (ta_title a)); ("readOnlyHint", JBool (ta_read_only_hint a));
              ("destructiveHint", JBool (ta_destructive_hint a)); ("idempotentHint", JBool (ta_idempotent_hint a));
              ("openWorldHint", JBool (ta_open_world_hint a))])]%string.

(** A single text block. *)
Record CallToolResult := mkToolResult { ct_content : list string; ct_is_error : bool }.
Definition tool_error (message : string) : CallToolResult := {| ct_content := [message]; ct_is_error := true |}.
Definition tool_result_json (r : CallToolResult) : Json :=
  JObject [("content", JArray (map (fun t => JObject [("type", JString "text"); ("text", JString t)]%string) (ct_content r)));
           ("isError", JBool (ct_is_error r))]%string.
Record CallToolParams := mkToolParams { cp_name : string; cp_arguments : Json }.

(** ** The tools ([tools.rs]) *)

Definition MAX_EVENT_LIMIT : N := 500.
Definition DEFAULT_EVENT_LIMIT : N := 50.
Definition LIST_AGENTS : string := "list_agents".
Definition LIST_RECENT_EVENTS : string := "list_recent_events".
Definition GET_EVENT : string := "get_event".
Definition GET_TOPOLOGY : string := "get_topology".
Definition LIST_REMEDIATION_PROPOSALS : string := "list_remediation_proposals".
Definition APPROVE_REMEDIATION : string := "approve_remediation".
Definition REJECT_REMEDIATION : string := "reject_remediation".

Definition read_only (title : string) : ToolAnnotations :=
  {| ta_title := title; ta_read_only_hint := true; ta_destructive_hint := false;
     ta_idempotent_hint := true; ta_open_world_hint := true |}.
Definition mutating (title : string) : ToolAnnotations :=
  {| ta_title := title; ta_read_only_hint := false; ta_destructive_hint := false;
     ta_idempotent_hint := false; ta_open_world_hint := true |}.

(** An object schema with its properties and the required ones, if it says. *)
Definition object_schema (props : list (string * Json)) (required : list string) : Json :=
  JObject ([("type", JString "object"); ("properties", JObject props)]%string
           ++ (match required with [] => [] | _ => [("required", JArray (map JString required))]%string end)
           ++ [("additionalProperties", JBool false)]%string).
Definition typed (ty descr : string) : Json :=
  JObject [("type", JString ty); ("description", JString descr)]%string.
Definition no_args_schema : Json := object_schema [] [].

Definition read_only_tools : list ToolDefinition := [
  {| td_name := LIST_AGENTS;
     td_description := "List all registered Ravn agents with their derived liveness status (online/stale/offline), host, labels, and last-seen time. Read-only.";
     td_input_schema := no_args_schema; td_annotations := read_only "List agents" |};
  {| td_name := LIST_RECENT_EVENTS;
     td_description := "List recent detection events across the fleet, newest first. These are deterministic detections (not LLM output). Optional `limit` (1–" +:+ show_N MAX_EVENT_LIMIT +:+ ", default " +:+ show_N DEFAULT_EVENT_LIMIT +:+ "). Read-only.";
     td_input_schema := object_schema
       [("limit", JObject [("type", JString "integer"); ("minimum", json_N 1); ("maximum", json_N MAX_EVENT_LIMIT);
                           ("description", JString "Maximum number of events to return.")])] [];
     td_annotations := read_only "List recent events" |};
  {| td_name := GET_EVENT;
     td_description := "Fetch a single detection event by its `id` (UUID). Returns the full stored event including payload and any LLM explanation. Read-only.";
     td_input_schema := object_schema [("id", typed "string" "The event UUID.")] ["id"];
     td_annotations := read_only "Get event" |};
  {| td_name := GET_TOPOLOGY;
     td_description := "Return the fleet shaped for the topology diagram: agents grouped by an optional label key (`group_by`, e.g. `env`), each node carrying its status and worst recent severity. Read-only.";
     td_input_schema := object_schema
       [("group_by", typed "string" "Label key to group agents by (e.g. `env`). Omit for a single group.")] [];
     td_annotations := read_only "Get topology" |};
  {| td_name := LIST_REMEDIATION_PROPOSALS;
     td_description := "List remediation records, optionally filtered to only those awaiting a decision (`pending_only`, default true). Each proposal is a pre-authored, deterministic remediation matched to a detection — never LLM-authored. Read-only: this does NOT approve or reject anything.";
     td_input_schema := object_schema
       [("pending_only", typed "boolean" "When true (default), return only proposals still awaiting a decision.")] [];
     td_annotations := read_only "List remediation proposals" |}]%string.

Definition mutating_tools : list ToolDefinition :=
  let id_schema := object_schema [("id", typed "string" "The remediation proposal UUID.")]%string ["id"%string] in [
  {| td_name := APPROVE_REMEDIATION;
     td_description := "Approve a PENDING remediation proposal by `id`: the control plane signs and enqueues the command for the target agent to pull. The action is attributed to the supplied admin token. This never executes anything directly and never auto-approves — it mirrors clicking Approve in the portal. Gated: requires the server to run with --allow-mutations and an admin-scoped token.";
     td_input_schema := id_schema; td_annotations := mutating "Approve remediation" |};
  {| td_name := REJECT_REMEDIATION;
     td_description := "Reject a pending remediation proposal by `id`. Records the rejection in the audit trail; no command is issued. Gated: requires --allow-mutations and an admin-scoped token.";
     td_input_schema := id_schema; td_annotations := mutating "Reject remediation" |}]%string.

Definition tool_catalog (allow_mutations : bool) : list ToolDefinition :=
  read_only_tools ++ (if allow_mutations then mutating_tools else []).

(** [serde_json] decoding into the structs: requests, call parameters (with the
    text of the error) and audit records. *)
Class RpcSerde : Type := {
  request_from_str : string -> result string JsonRpcRequest;
  call_params_from_value : Json -> result string CallToolParams;
  records_from_value : Json -> option (list RemediationRecord);
  record_to_value : RemediationRecord -> Json;
}.

Section Server.
Context `{WireFormat} `{RpcSerde}.

Definition tool_ok (v : Json) : CallToolResult :=
  {| ct_content := [to_string_pretty v]; ct_is_error := false |}.
Definition relay (r : result Chain Json) : CallToolResult :=
  match r with Ok v => tool_ok v | Err e => tool_error (display_alt e) end.

Definition tool_list_recent_events (cl : ControlPlaneClient) (args : Json) : itree mcpE CallToolResult :=
  let go limit := r ← list_events cl limit; mret (relay r) in
  match json_get "limit" args with
  | None | Some JNull => go DEFAULT_EVENT_LIMIT
  | Some v =>
      match as_u64 v with
      | Some n => go (N.min (N.max (n mod 2 ^ 32) 1) MAX_EVENT_LIMIT)
      | None => mret (tool_error "`limit` must be an integer")
      end
  end.

Definition id_required : CallToolResult := tool_error "`id` (string UUID) is required".
Definition id_arg (args : Json) : option string :=
  match json_get "id" args with Some v => as_str v | None => None end.

Definition tool_get_event (cl : ControlPlaneClient) (args : Json) : itree mcpE CallToolResult :=
  match id_arg args with
  | None => mret id_required
  | Some id =>
      r ← list_events cl MAX_EVENT_LIMIT;
      mret match r with
           | Err e => tool_error (display_alt e)
           | Ok events =>
               match find_first (fun e => bool_decide (id_arg e = Some id)) (default [] (as_array events)) with
               | Some event => tool_ok event
               | None => tool_error ("no event with id " +:+ id +:+ " in the most recent "
                                     +:+ show_N MAX_EVENT_LIMIT +:+ " events")
               end
           end
  end.

Definition tool_get_topology (cl : ControlPlaneClient) (args : Json) : itree mcpE CallToolResult :=
  let group_by := match json_get "group_by" args with Some v => as_str v | None => None end in
  r ← client_topology cl group_by; mret (relay r).

Definition rr_is_pending (r : RemediationRecord) : bool := bool_decide (rr_decision r = Pending).
Definition tool_list_proposals (cl : ControlPlaneClient) (args : Json) : itree mcpE CallToolResult :=
  let pending_only := match json_get "pending_only" args with
                      | Some v => default true (as_bool v) | None => true end in
  r ← list_remediations cl;
  mret match r with
       | Err e => tool_error (display_alt e)
       | Ok raw =>
           if negb pending_only then tool_ok raw
           else match records_from_value raw with
                | Some records => tool_ok (JArray (map record_to_value (List.filter rr_is_pending records)))
                | None => tool_ok raw
                end
       end.

(** [mutate] is only called with the two names ([dispatch]). *)
Definition mutate (cl : ControlPlaneClient) (name : string) (args : Json) : itree mcpE CallToolResult :=
  match id_arg args with
  | None => mret id_required
  | Some id =>
      r ← (if String.eqb name APPROVE_REMEDIATION then client_approve cl id
           else if String.eqb name REJECT_REMEDIATION then client_reject cl id
           else panics ("internal error: entered unreachable code: mutate called with non-mutating tool " +:+ name));
      mret (relay r)
  end.

Definition dispatch (cl : ControlPlaneClient) (allow_mutations : bool) (name : string) (args : Json)
    : itree mcpE CallToolResult :=
  if String.eqb name LIST_AGENTS then (r ← client_agents cl; mret (relay r))
  else if String.eqb name LIST_RECENT_EVENTS then tool_list_recent_events cl args
  else if String.eqb name GET_EVENT then tool_get_event cl args
  else if String.eqb name GET_TOPOLOGY then tool_get_topology cl args
  else if String.eqb name LIST_REMEDIATION_PROPOSALS then tool_list_proposals cl args
  else if one_of name [APPROVE_REMEDIATION; REJECT_REMEDIATION] then
    if negb allow_mutations then
      mret (tool_error ("tool `" +:+ name +:+ "` is disabled: this MCP server runs read-only. Restart it with --allow-mutations and an admin token to enable mutations."))
    else mutate cl name args
  else mret (tool_error ("unknown tool: " +:+ name)).

(** ** The handler ([server.rs]) *)

Definition SERVER_NAME : string := "ravn-mcp".
Definition SERVER_VERSION : string := "0.0.0".
Record Handler := mkHandler { hd_client : ControlPlaneClient; hd_allow_mutations : bool }.

Definition initialize (h : Handler) : Json :=
  let mode : string :=
    if hd_allow_mutations h then "Mutations are ENABLED (approve/reject remediation are available and require an admin token)."
    else "Read-only mode: mutating tools are not exposed." in
  JObject [("protocolVersion", JString PROTOCOL_VERSION);
           ("capabilities", JObject [("tools", JObject [("listChanged", JBool false)])]);
           ("serverInfo", JObject [("name", JString SERVER_NAME); ("version", JString SERVER_VERSION)]);
           ("instructions", JString ("Ravn control-plane bridge. Use the read tools to inspect agents, events, topology, and remediation proposals. " +:+ mode))]%string.
Definition tools_list (h : Handler) : Json :=
  JObject [("tools", JArray (map tool_json (tool_catalog (hd_allow_mutations h))))]%string.

Definition tools_call (h : Handler) (params : Json) : itree mcpE (result JsonRpcError Json) :=
  match call_params_from_value params with
  | Err e => mret (Err (invalid_params ("invalid tools/call params: " +:+ e)))
  | Ok p =>
      r ← dispatch (hd_client h) (hd_allow_mutations h) (cp_name p) (cp_arguments p);
      mret (Ok (tool_result_json r))
  end.

Definition handle (h : Handler) (req : JsonRpcRequest) : itree mcpE (option JsonRpcResponse) :=
  match rq_id req with
  | None => mret None
  | Some id =>
      let method := rq_method req in
      if String.eqb method "initialize" then mret (Some (response_ok id (initialize h)))
      else if String.eqb method "ping" then mret (Some (response_ok id (JObject [])))
      else if String.eqb method "tools/list" then mret (Some (response_ok id (tools_list h)))
      else if String.eqb method "tools/call" then
        r ← tools_call h (rq_params req);
        mret (Some (match r with Ok v => response_ok id v | Err e => response_err id e end))
      else mret (Some (response_err id (method_not_found method)))
  end.

(** One turn of [serve_stdio]; [inr] ends the loop. *)
Definition serve_turn (h : Handler) : itree mcpE (unit + result Chain unit) :=
  line ← ITree.trigger ReadLine;
  match line with
  | Err e => mret (inr (Err e))
  | Ok None => mret (inr (Ok tt))
  | Ok (Some line) =>
      if is_empty (trim line) then mret (inl tt)
      else
        response ← match request_from_str line with
                   | Ok req => handle h req
                   | Err e => mret (Some (response_err JNull (parse_error ("invalid JSON-RPC message: " +:+ e))))
                   end;
        match response with
        | None => mret (inl tt)
        | Some r =>
            w ← ITree.trigger (WriteLine (to_line (response_json r)));
            mret (match w with Ok _ => inl tt | Err e => inr (Err e) end)
        end
  end.
Definition serve_stdio (h : Handler) : itree mcpE (result Chain unit) :=
  ITree.iter (fun _ => serve_turn h) tt.

(** [main]: true is the success exit code; [client_built] is the outcome of building
    the HTTP client. Logging and the usage text go to the standard error. *)
Definition mcp_main (var : string -> option string) (args : list string) (client_built : result string unit)
    : itree mcpE bool :=
  match mcp_config_parse var args with
  | Err _ => mret false
  | Ok None =>
      w ← ITree.trigger (WriteLine help_text);
      match w with Ok _ => mret true | Err _ => panics "failed printing to stdout" end
  | Ok (Some config) =>
      match client_built with
      | Err _ => mret false
      | Ok _ =>
          r ← serve_stdio {| hd_client := client_new (mc_base_url config) (mc_token config);
                             hd_allow_mutations := mc_allow_mutations config |};
          mret (match r with Ok _ => true | Err _ => false end)
      end
  end.
End Server.

(** ** What the server may do *)

(** The requests a server may send: with its token; a read, or, when mutations are
    enabled, an approval or a rejection of some proposal. *)
Definition permitted (h : Handler) (X : Type) (e : mcpE X) : Prop :=
  match e with
  | Send c =>
      hc_bearer c = cl_token (hd_client h)
      /\ (hc_method c = GET
          \/ hd_allow_mutations h = true /\ exists id, hc_url c = cl_base_url (hd_client h) +:+ approve_path id
                                             \/ hc_url c = cl_base_url (hd_client h) +:+ reject_path id)
  | _ => True
  end.

Section Permitted.
Context `{WireFormat} `{RpcSerde}.

Lemma panics_permitted h R msg : always (permitted h) (panics msg : itree mcpE R).
Proof. apply always_bind; [by apply always_trigger|intros []]. Qed.
Hint Resolve panics_permitted : trees.

Lemma request_permitted h m path :
  permitted h _ (Send {| hc_method := m; hc_url := cl_base_url (hd_client h) +:+ path;
                         hc_json := match m with POST => true | GET => false end;
                         hc_bearer := cl_token (hd_client h) |}) ->
  always (permitted h) (request (hd_client h) m path).
Proof.
  intros Hp. unfold request. apply always_mbind; [by apply always_trigger|].
  intros r. repeat case_match; auto with trees.
Qed.

Lemma get_permitted h path : always (permitted h) (request (hd_client h) GET path).
Proof. apply request_permitted. split; [done|by left]. Qed.
Hint Resolve get_permitted : trees.

Lemma mutate_permitted h name args :
  hd_allow_mutations h = true -> always (permitted h) (mutate (hd_client h) name args).
Proof.
  intros Hm. unfold mutate. destruct (id_arg args) as [id|]; [|auto with trees].
  apply always_mbind; [|auto with trees].
  repeat case_match; try apply panics_permitted; apply request_permitted; (split; [done|]); eauto.
Qed.

Lemma dispatch_permitted h name args :
  always (permitted h) (dispatch (hd_client h) (hd_allow_mutations h) name args).
Proof.
  unfold dispatch, tool_list_recent_events, tool_get_event, tool_get_topology, tool_list_proposals,
    client_agents, list_events, client_topology, list_remediations.
  repeat case_match; auto with trees. apply mutate_permitted. by destruct (hd_allow_mutations h).
Qed.
Hint Resolve dispatch_permitted : trees.

Lemma handle_permitted h req : always (permitted h) (handle h req).
Proof. unfold handle, tools_call. repeat case_match; auto with trees. Qed.

Lemma serve_stdio_permitted h : always (permitted h) (serve_stdio h).
Proof.
  apply always_iter. intros []. unfold serve_turn. apply always_mbind; [by apply always_trigger|].
  intros [[line|]|e]; [|auto with trees..]. destruct (is_empty _); [auto with trees|].
  apply always_mbind; [case_match; auto using handle_permitted with trees|].
  intros [r|]; [|auto with trees]. apply always_mbind; [by apply always_trigger|auto with trees].
Qed.

(** The operator asked for mutations. *)
Definition opted_in (var : string -> option string) (args : list string) : Prop :=
  "--allow-mutations"%string ∈ args
  \/ exists v, var "RAVN_MCP_ALLOW_MUTATIONS"%string = Some v /\ truthy v = true.
Definition main_permitted (var : string -> option string) (args : list string) (X : Type) (e : mcpE X) : Prop :=
  match e with
  | Send c =>
      exists config, mcp_config_parse var args = Ok (Some config) /\ hc_bearer c = mc_token config
      /\ (hc_method c = GET
          \/ opted_in var args /\ exists id, let url := cl_base_url (client_new (mc_base_url config) (mc_token config)) in
               hc_url c = url +:+ approve_path id \/ hc_url c = url +:+ reject_path id)
  | _ => True
  end.

(** C40. The MCP server stays within its mode: on every input and every behaviour of
    the control plane, however long it runs, each HTTP request the program sends
    carries the configured token and is a read, except, when its command line or its
    environment opts in to mutations, an approval or a rejection of a proposal. A
    server whose handler is read-only sends no mutating request at all. *)
Theorem mcp_read_only (h : Handler) (var : string -> option string) (args : list string) built :
  always (main_permitted var args) (mcp_main var args built)
  /\ (hd_allow_mutations h = false ->
      always (fun X (e : mcpE X) => match e with Send c => hc_method c = GET | _ => True end) (serve_stdio h)).
Proof.
  split.
  - unfold mcp_main. destruct (mcp_config_parse var args) as [[config|]|] eqn:Hc; [|auto with trees..].
    + destruct built; [|auto with trees]. apply always_mbind; [|auto with trees].
      eapply always_impl; [|apply serve_stdio_permitted]. intros X e. destruct e as [c| | |]; [|done..].
      intros [Hb Hm]. exists config. split_and!; [done..|]. destruct Hm as [?|[Ha Hid]]; [by left|right].
      split; [by eapply mcp_config_opt_in|exact Hid].
    + apply always_mbind; [by apply always_trigger|]. intros []; [auto with trees|].
      apply always_bind; [by apply always_trigger|intros []].
  - intros Hm. eapply always_impl; [|apply serve_stdio_permitted]. intros X e. destruct e as [c| | |]; [|done..].
    intros [_ [?|[? _]]]; [done|congruence].
Qed.
End Permitted.

(** ** Runs against an environment *)

(** The lines still to be read, the lines written, and the control plane's state. *)
Record Env (W : Type) := mkEnv { en_lines : list string; en_out : list string; en_world : W }.
Arguments mkEnv {W}. Arguments en_lines {W}. Arguments en_out {W}. Arguments en_world {W}.

Section Runs.
Context `{WireFormat} `{RpcSerde} {W : Type}.
Variable http : HttpCall -> W -> result Chain HttpAnswer * W.

Definition interp_env (X : Type) (e : mcpE X) : Env W -> itree mcpE (Env W * X) :=
  match e in mcpE Y return Env W -> itree mcpE (Env W * Y) with
  | Send c => fun s => let (a, w) := http c (en_world s) in
                       Ret (mkEnv (en_lines s) (en_out s) w, a)
  | ReadLine => fun s =>
      match en_lines s with
      | [] => Ret (s, Ok None)
      | l :: ls => Ret (mkEnv ls (en_out s) (en_world s), Ok (Some l))
      end
  | WriteLine t => fun s => Ret (mkEnv (en_lines s) (en_out s ++ [t]) (en_world s), Ok tt)
  | Panic msg => fun s => ITree.bind (ITree.trigger (Panic msg)) (fun v => Ret (s, v))
  end.
Definition run_env {R} (t : itree mcpE R) (s : Env W) : itree mcpE (Env W * R) :=
  interp_state interp_env t s.

(** The bodies of the control plane's errors can be cut at 500 bytes. *)
Definition tame : Prop :=
  forall c w a, (http c w).1 = Ok a -> is_Some (json_or_error a (hc_url c)).

(** [t] ends without input or output, on a result that satisfies [Q]. *)
Definition runs {R} (t : itree mcpE R) (Q : R -> Prop) : Prop :=
  forall s, exists w r, eutt eq (run_env t s) (Ret (mkEnv (en_lines s) (en_out s) w, r)) /\ Q r.

Lemma runs_mret {R} (x : R) (Q : R -> Prop) : Q x -> runs (mret x) Q.
Proof.
  intros Hq s. exists (en_world s), x. split; [|done]. unfold run_env, mret, itree_ret.
  rewrite interp_state_ret. by destruct s.
Qed.

Lemma runs_mbind {A B} (t : itree mcpE A) (k : A -> itree mcpE B) (P : A -> Prop) (Q : B -> Prop) :
  runs t P -> (forall a, P a -> runs (k a) Q) -> runs (t ≫= k) Q.
Proof.
  intros Ht Hk s. destruct (Ht s) as (w & a & Ha & HP).
  destruct (Hk a HP (mkEnv (en_lines s) (en_out s) w)) as (w' & b & Hb & HQ).
  exists w', b. split; [|done]. unfold run_env, mbind, itree_bind in *.
  rewrite interp_state_bind, Ha, bind_ret_l. exact Hb.
Qed.

Lemma runs_request cl m path : tame -> runs (request cl m path) (fun _ => True).
Proof.
  intros Ht s. unfold request, run_env, mbind, itree_bind.
  set (c := {| hc_method := m |}). destruct (http c (en_world s)) as [a w] eqn:Ha.
  specialize (Ht c (en_world s)). rewrite Ha in Ht. cbn [fst] in Ht.
  assert (eutt eq (interp_state interp_env (ITree.trigger (Send c)) s)
            (Ret (mkEnv (en_lines s) (en_out s) w, a))) as Hs.
  { rewrite interp_state_trigger. cbn. by rewrite Ha. }
  setoid_rewrite interp_state_bind. setoid_rewrite Hs. setoid_rewrite bind_ret_l. cbn.
  destruct a as [a|e]; cbn.
  - destruct (Ht a eq_refl) as [r Hr]. unfold c in Hr. cbn in Hr. rewrite Hr.
    exists w, r. by rewrite interp_state_ret.
  - exists w, (Err ((method_name m +:+ " " +:+ (cl_base_url cl +:+ path)) :: e)).
    by rewrite interp_state_ret.
Qed.

(** A response to [id]: exactly one of result and error. *)
Definition answers (id : Json) (r : JsonRpcResponse) : Prop :=
  rs_id r = id /\ ((is_Some (rs_result r) /\ rs_error r = None) \/ (rs_result r = None /\ is_Some (rs_error r))).

Lemma answers_ok id v : answers id (response_ok id v).
Proof. split; [done|left]. eauto. Qed.
Lemma answers_err id e : answers id (response_err id e).
Proof. split; [done|right]. eauto. Qed.
Hint Resolve answers_ok answers_err : core.

Lemma runs_dispatch cl allow name args : tame -> runs (dispatch cl allow name args) (fun _ => True).
Proof.
  intros Ht. assert (forall m path (k : result Chain Json -> itree mcpE CallToolResult),
    (forall r, runs (k r) (fun _ => True)) -> runs (request cl m path ≫= k) (fun _ => True)) as Hreq.
  { intros m path k Hk. eapply runs_mbind; [by apply runs_request|auto]. }
  unfold dispatch, tool_list_recent_events, tool_get_event, tool_get_topology, tool_list_proposals,
    client_agents, list_events, client_topology, list_remediations, mutate, client_approve, client_reject.
  repeat case_match; try apply runs_mret; auto; try (apply Hreq; intros r; by apply runs_mret).
  exfalso. unfold one_of in *. cbn [existsb] in *.
  by destruct (String.eqb name APPROVE_REMEDIATION), (String.eqb name REJECT_REMEDIATION).
Qed.

Lemma runs_handle h req : tame ->
  runs (handle h req) (fun o => match rq_id req with
                                | None => o = None
                                | Some id => exists r, o = Some r /\ answers id r
                                end).
Proof.
  intros Ht. unfold handle. destruct (rq_id req) as [id|]; [|by apply runs_mret].
  assert (forall params, runs (tools_call h params) (fun _ => True)) as Hcall.
  { intros params. unfold tools_call. destruct (call_params_from_value params); [|by apply runs_mret].
    eapply runs_mbind; [by apply runs_dispatch|]. intros r _. by apply runs_mret. }
  assert (forall o, (exists r, o = Some r /\ answers id r) ->
    runs (mret o) (fun o => exists r, o = Some r /\ answers id r)) as Hret by (intros; by apply runs_mret).
  repeat (destruct (String.eqb _ _); [try (apply Hret; by eauto)|]); [|apply Hret; by eauto].
  eapply runs_mbind; [apply Hcall|]. intros [v|e] _; apply Hret; eauto.
Qed.

(** The id a line asks to be answered: none for a blank line or a notification, the
    null id for a line that is not a request. *)
Definition expects (line : string) : option Json :=
  if is_empty (trim line) then None
  else match request_from_str line with Ok req => rq_id req | Err _ => Some JNull end.

Lemma runs_turn h line ls out w : tame ->
  exists w' rs, eutt eq (run_env (serve_turn h) (mkEnv (line :: ls) out w))
      (Ret (mkEnv ls (out ++ map (fun r => to_line (response_json r)) rs) w', inl tt))
    /\ Forall2 answers (option_list (expects line)) rs.
Proof.
  intros Ht. unfold serve_turn, expects, run_env, mbind, itree_bind.
  setoid_rewrite interp_state_bind. setoid_rewrite interp_state_trigger. cbn [interp_env en_lines].
  setoid_rewrite bind_ret_l. cbn [fst snd en_out en_world].
  destruct (is_empty (trim line)).
  { exists w, []. rewrite app_nil_r. unfold mret, itree_ret. rewrite interp_state_ret. done. }
  set (t := match request_from_str line with Ok req => _ | Err e => _ end).
  assert (runs t (fun o => match match request_from_str line with Ok req => rq_id req | Err _ => Some JNull end with
                           | None => o = None
                           | Some id => exists r, o = Some r /\ answers id r
                           end)) as Hr.
  { subst t. destruct (request_from_str line); [by apply runs_handle|apply runs_mret; eauto]. }
  destruct (Hr (mkEnv ls out w)) as (w' & o & Ho & Hp). unfold run_env in Ho. cbn [en_lines en_out] in Ho.
  setoid_rewrite interp_state_bind. setoid_rewrite Ho. setoid_rewrite bind_ret_l. cbn [fst snd].
  exists w'. destruct (match request_from_str line with Ok req => rq_id req | Err _ => Some JNull end) as [id|].
  - destruct Hp as (r & -> & Ha). exists [r].
    rewrite interp_state_bind, interp_state_trigger. cbn [interp_env en_lines en_out en_world].
    rewrite bind_ret_l. cbn [fst snd]. unfold mret, itree_ret. rewrite interp_state_ret.
    split; [done|]. constructor; [exact Ha|constructor].
  - subst o. exists []. rewrite app_nil_r. unfold mret, itree_ret. rewrite interp_state_ret. done.
Qed.

(** One response per request: whatever lines the client writes, the server
    reads them all and ends without error, having written for each line, in order,
    nothing for a blank line or a notification, and exactly one response, carrying
    its id and either a result or an error, for every other (a line that is not a
    request is answered under the null id), as long as the bodies of the control
    plane's errors can be cut at 500 bytes. *)
Theorem mcp_one_response (h : Handler) (ls : list string) (w : W) :
  tame ->
  exists w' rs, eutt eq (run_env (serve_stdio h) (mkEnv ls [] w))
      (Ret (mkEnv [] (map (fun r => to_line (response_json r)) rs) w', Ok tt))
    /\ Forall2 answers (omap expects ls) rs.
Proof.
  intros Ht. cut (forall out, exists w' rs, eutt eq (run_env (serve_stdio h) (mkEnv ls out w))
      (Ret (mkEnv [] (out ++ map (fun r => to_line (response_json r)) rs) w', Ok tt))
    /\ Forall2 answers (omap expects ls) rs); [intros Hg; apply Hg|].
  revert w. induction ls as [|line ls IH]; intros w out.
  - exists w, []. rewrite app_nil_r. split; [|constructor]. unfold serve_stdio, run_env.
    rewrite unfold_iter. unfold serve_turn at 1, mbind, itree_bind.
    rewrite interp_state_bind, interp_state_bind, interp_state_trigger. cbn [interp_env en_lines].
    rewrite bind_ret_l. cbn [fst snd]. unfold mret, itree_ret. rewrite interp_state_ret, bind_ret_l. cbn [fst snd].
    by rewrite interp_state_ret.
  - destruct (runs_turn h line ls out w Ht) as (w1 & rs1 & H1 & Ha1).
    destruct (IH w1 (out ++ map (fun r => to_line (response_json r)) rs1)) as (w2 & rs2 & H2 & Ha2).
    exists w2, (rs1 ++ rs2). split.
    + unfold serve_stdio, run_env in *. rewrite unfold_iter, interp_state_bind, H1, bind_ret_l. cbn [fst snd].
      rewrite interp_state_tau, tau_eutt, H2. by rewrite map_app, app_assoc.
    + replace (omap expects (line :: ls)) with (option_list (expects line) ++ omap expects ls)
        by (cbn; by destruct (expects line)).
      by apply Forall2_app.
Qed.
End Runs.

(** ** Corners *)

(** The limit is cut to 32 bits before it is clamped: a request for 2^32 events is
    one for a single event. *)
Theorem huge_limit_wraps `{WireFormat} `{RpcSerde} (cl : ControlPlaneClient) :
  tool_list_recent_events cl (JObject [("limit"%string, JNumber "4294967296")])
  = (r ← list_events cl 1; mret (relay r)).
Proof. reflexivity. Qed.

(** An error body of the control plane longer than 500 bytes with a multi-byte
    character across that bound is sliced inside the character: a panic. *)
Theorem error_body_panics `{WireFormat} (a : HttpAnswer) (url body : string) (c : ascii) :
  status_is_success (ha_status a) = false -> ha_body a = Ok body -> (500 < str_len body)%N ->
  String.get 500 body = Some c -> is_cont c = true -> json_or_error a url = None.
Proof.
  intros Hs Hb Hl Hg Hc. unfold json_or_error, truncate_bytes, slice_to. rewrite Hs, Hb.
  rewrite (proj2 (N.leb_gt _ _) Hl). change (N.to_nat 500) with 500. by rewrite Hg, Hc.
Qed.

(** ** A concrete server for the witness *)

#[local] Instance toy_wire : WireFormat := {|
  value_from_str s := if String.eqb s "{" then Err "EOF"%string else Ok (JString s);
  to_string_pretty v := match v with JString s => s | _ => "value"%string end;
  to_line v := match json_get "id" v with Some (JNumber n) => "answer "%string +:+ n | _ => "error"%string end;
  status_display n := show_N n;
|}.
#[local] Instance toy_rpc : RpcSerde := {|
  request_from_str s :=
    if String.eqb s "note" then Ok {| rq_id := None; rq_method := "notifications/initialized"; rq_params := JNull |}
    else if String.eqb s "agents" then Ok {| rq_id := Some (json_N 1); rq_method := "tools/call"; rq_params := JNull |}
    else if String.eqb s "ping" then Ok {| rq_id := Some (json_N 2); rq_method := "ping"; rq_params := JNull |}
    else Err "expected value"%string;
  call_params_from_value _ := Ok {| cp_name := LIST_AGENTS; cp_arguments := JNull |};
  records_from_value _ := None;
  record_to_value _ := JNull;
|}.
Definition toy_http (c : HttpCall) (n : nat) : result Chain HttpAnswer * nat :=
  (Ok {| ha_status := 401; ha_body := Ok "no"%string |}, S n).

Lemma mcp_one_response_witness :
  let h := {| hd_client := client_new "http://cp/" None; hd_allow_mutations := false |} in
  let ls := ["note"; "agents"; " "; "junk"; "ping"]%string in
  omap expects ls = [json_N 1; JNull; json_N 2]
  /\ exists w' rs, eutt eq (run_env toy_http (serve_stdio h) (mkEnv ls [] 0))
       (Ret (mkEnv [] (map (fun r => to_line (response_json r)) rs) w', Ok tt))
     /\ Forall2 answers (omap expects ls) rs.
Proof.
  cbv zeta. split; [reflexivity|]. apply (mcp_one_response toy_http).
  intros c w a [= <-]. vm_compute. eauto.
Defined.
